(* ===== verification/_CoqProject ===== *)
-Q . S2P
Prelude.v
Loop.v
Numerics.v
Ieee.v
IeeeRound.v
IeeeValue.v
IeeeCompare.v
IeeeRange.v
Image.v
ImageView.v
PipeBase.v
Camera.v
Linearize.v
LinearizeModel.v
Fixtures.v
LinearizeSpec.v
LinearizeSteps.v
LinearizeTest.v
LinearizeNumerics.v
LinearizeAccuracy.v
LinearizeExact.v
IsrConfig.v
IsrTask.v
IsrFixtures.v
IsrTaskSpec.v
IsrTaskWorlds.v
IsrTaskContract.v
