(* ===== verification/Prelude.v ===== *)
(** * ip_isr: a verification library for the instrument-signature-removal tasks

    The repository holds two pipeline tasks written in Python on top of the
    LSST framework (afw images and camera geometry, pex config, pipe base):

    - [ProportionalLinearizeTask] (src/python/lsst/ip/isr/proportionalLinearize.py)
      corrects detector non-linearity amplifier by amplifier: it reads three
      coefficients per amplifier, refuses a non-zero second coefficient, flags
      the pixels above a threshold as SUSPECT and multiplies every pixel of the
      amplifier's sub-image in place by [1 + squareCoeff * pixel];
    - [IsrTaskConfig] and [IsrTask] (src/python/lsst/ip/isr/isrTask.py) run the
      instrument-signature-removal sequence over one sensor by calling the
      [isr] numeric library, the data reference and the [assembleCcd]
      sub-task, none of which is under src/;
    - src/tests/testProportionalLinearityTask.py builds a detector of 2 by 2
      amplifiers and states what the linearity task must produce.

    The two tasks do not call each other. They share the base class
    [pipeBase.Task] (its constructor, sub-tasks, log and metadata) and the
    way they work: in place, on buffers their caller shares, raising
    without undoing what was written.

    ** Files, in dependency order

    - [Prelude] (this file): Python exceptions as values ([exn]), the
      state-and-exception monad [Exec] in which every method is written, its
      notation scope [exec_scope], the loops [for_each] and [for_fold],
      [finally_] for code that runs on every outcome, program equivalence
      [exec_eq] with its [Proper] instances, invariants ([preserves]),
      relations between start and final state ([relates]), relations
      between two runs ([respects]), steps that always raise
      ([never_returns]), the hint database [exec] and the tactics, and the
      facts on lists and [N] the components share.
    - [Loop]: the [for] statement as a transition system, one iteration per
      step ([loop_step], computed by [loop_next]): determinism, progress,
      termination, and that the steps end in the result of [for_fold].
    - [Numerics]: the arithmetic the linearity task uses, as the classes
      [Numerics] and [Detection] over a coefficient type (Python float) and a
      pixel type (the float32 of [MaskedImageF]); the instance at exact
      rationals and the instance at IEEE 754 binary64 and binary32, computed
      by the Standard Library's [SpecFloat]. An operation of NumPy on a
      float32 array and a Python float is one of float32 when the float
      fits float32 ([fits], at IEEE numbers [fits_float32]) and one of
      float64 otherwise; [array_gt] is NumPy's comparison by that rule.
    - [Ieee]: the conversions between the two float formats: a binary32
      number widens to a binary64 number exactly ([widen_valid],
      [widen_narrow]).
    - [IeeeRound]: the rounding of [SpecFloat] on integers: shifting a
      mantissa right keeps quotient, round bit and sticky bit
      ([shr_inv]), and [binary_round_aux] and [binary_round] return the
      mantissa nearest to the exact one at the exponent of the format
      ([rounds_to], [binary_round_spec]), in normal form.
    - [IeeeValue]: the rational number a floating-point number stands for
      ([SF2Q]) and the standard model of floating-point arithmetic for the
      operations the task applies: conversion, product and sum return the
      exact result with a relative error of at most the unit roundoff, or
      an absolute error of at most half the smallest positive number
      ([binary_round_error], [SFmul_error], [SFadd_error]).
    - [IeeeCompare]: [SFcompare] orders well-formed numbers by their
      values ([SFcompare_spec]), so the comparisons and the detection at
      IEEE numbers are those of the exact instance on the values
      ([SFltb_exact], [detects_exact]).
    - [IeeeRange]: an operation whose exact result is below half the range
      of the format does not return an infinity ([SFmul_in_range],
      [SFadd_in_range]).
    - [Image]: [Box2I], two-dimensional arrays, [MaskedImage] with its image,
      mask and variance planes and its mask-plane dictionary, the PARENT
      sub-image view, the in-place updates through a view, [FootprintSet].
    - [ImageView]: the pixel array of a view ([view_array]) and the write
      through it ([set_view_array], [update_view_array]) on windows of a
      two-dimensional array ([crop], [paste]): the laws of reading and
      writing, and that [update_view_array] is the update of [Image].
    - [PipeBase]: what a task inherits from [pipeBase.Task]: its name, its
      sub-tasks, the log and the metadata ([Task]); the constructor
      [Task_init], [makeSubtask] over the configurable fields of a
      configuration class ([ConfigurableField], [Config]) and the read of
      a sub-task attribute ([getattr_subtask]); the class [HasTask] by
      which a task's state gives access to them; the decorator
      [timeMethod] over a class [Timer] that says what a timing record is;
      [same_identity], tasks of one name and the same sub-tasks.
    - [Camera]: amplifiers, detectors and exposures as the linearity task
      reads them.
    - [Linearize]: Module [ProportionalLinearizeTask]: the class attributes
      [ConfigClass] and [_DefaultName] and the inherited constructor
      ([__init__], [init]), [doCorrect], the loop body [run_amp] and [run]
      in the monad; the same loop as a pure function
      on the masked image ([amp_step], [amps_fold], [amp_apply],
      [amps_apply]) and the lemmas that [run] is that function; [timed_run],
      the method as the decorator leaves it.
    - [LinearizeModel]: the class [RoundingModel], the standard model of
      a rounded arithmetic (a value for every number, a unit roundoff and
      an underflow unit bounding the error of conversion, product and
      sum), and the accuracy of [linearize] for any arithmetic that
      provides it ([linearize_model_error]); exact rationals provide it
      with both units zero.
    - [Fixtures]: Module [Demo], a 4 by 2 image and detectors of up to four
      amplifiers at exact rationals, one per branch of the task.
    - [LinearizeSpec]: the specification of one pixel ([new_image],
      [new_mask]), the checks of the loop body as a predicate ([amp_ok]) and
      the theorems on [run] and [doCorrect], each with its witness on [Demo].
    - [LinearizeSteps]: the loop over the amplifiers as the transition
      system of [Loop] ([amp_loop], [loop_start]): the invariant of the
      configurations between two amplifiers, the array of an amplifier's
      view after its iteration, and that every amplifier is reached.
    - [LinearizeTest]: the fixture and the two cases of the test file
      ([makeSimpleDetector], [setUp], [basic_exposure], [none_exposure], the
      expected arrays [desImArr] and [desMaskArr] as NumPy computes them)
      and the theorems that both cases pass for every amplifier size and
      every image content on which NumPy's comparison with the threshold
      and the one of [Threshold] agree.
    - [LinearizeNumerics]: the theorems read at the two instances: the
      documented polynomial at exact rationals and what NaN coefficients
      do at IEEE numbers.
    - [LinearizeAccuracy]: the machine reading against the exact one: the
      operations of binary32 on a coefficient converted to binary32, and
      those of binary64 with one conversion of the result for a
      coefficient beyond float32 ([wide_correction], [wide_error]),
      provide [RoundingModel] ([ieee_rounding_model]), so the float32
      pixel a run leaves is within [linearize_bound] of the documented
      polynomial, inputs up to [range_limit] do not overflow, and the
      SUSPECT flag is decided as on the exact values.
    - [LinearizeExact]: [exact_state], the reading of a state at IEEE
      numbers as a state at exact rationals, and the theorem that the run
      at IEEE numbers follows the run at exact numbers: same outcome, log,
      mask and variance planes, and image pixels within [pixel_bound].
    - [IsrConfig]: Module [IsrTaskConfig]: the configuration record
      (lines 32 to 107), its defaults, the validation of choice fields and
      the configurable field [assembleCcd] that names the class of the
      sub-task.
    - [IsrTask]: the camera geometry [IsrTask] reads, buffers named by their
      provenance ([Buffer]), the calls to code outside src/ ([Event]), the
      class [Collaborators] that says what that code answers, Python name
      lookup ([load]), and Module [IsrTask] with the class attributes,
      [__init__] and the task it leaves ([init]), [run] and every method
      (lines 110 to 314), and [timed_run], [run] as its decorator leaves
      it.
    - [IsrFixtures]: Module [IsrDemo], a CCD of two amplifiers, four
      behaviours of the collaborators and a timer.
    - [IsrTaskSpec]: the relations [emits] (the calls a step adds) and
      [same_task] (the name and the sub-tasks are kept), the
      methods as a transition system ([Method], [invoke], [reachable]), the
      sequence the documentation of [run] describes ([run_intended]) and
      the theorems on [IsrTask], each with its witness on [IsrDemo].
    - [IsrTaskWorlds]: collaborators that raise: [quiet W], the
      collaborators [W] when no call raises; [first_failure] and [replay],
      which cut a list of calls at the first that raises; [truncates], the
      relation between a method run against [W] and against [quiet W].
    - [IsrTaskContract]: the contract of the task, [method_spec]: for each
      method and its arguments the outcome and the calls it makes when the
      collaborators return; the theorem that the methods implement it
      against any collaborators, up to the first call that raises; the
      predicate [event_ok] on calls and the relation [same_calls] on states
      with the theorems that every method maintains them.

    ** How state and effects are modelled

    A method that mutates its arguments and may raise is a function
    [St -> outcome A * St]: the state that comes back with [Raised e] is the
    state at the raise, because a Python exception does not undo the writes
    made before it. The linearity task's state ([ProportionalLinearizeTask.State])
    is the exposure (masked image and detector) and what the task inherits
    from [pipeBase.Task]: name, sub-tasks, log and metadata; an
    amplifier's sub-image is a view, that is a box into the one shared pixel
    buffer, so writes through two views of overlapping boxes hit the same
    pixels. The state of [IsrTask] ([IsrTask.State]) is the list of calls
    made to collaborators so far, what it inherits from [pipeBase.Task],
    and the attribute [transposeForInterpolation]. Building a task is the
    computation [__init__], run on the object that has no attribute yet
    ([blank]); [init] is the state it leaves, from which [reachable]
    starts. [__init__] of [IsrTask] runs the constructor of the base
    class, [makeSubtask], which looks the name up among the configurable
    fields of [ConfigClass], and sets the attribute; the linearity task
    defines no constructor and inherits the one of the base class. A
    sub-task is the record of its name, its full name and its class;
    [run] reads it as the attribute [assembleCcd] before the call that
    assembles. In both tasks [run] is decorated with
    [pipeBase.timeMethod]: the decorated method is [timed_run], which
    records through the [Timer] before [run] and, whatever the outcome,
    after it; the theorems on [run] are about the undecorated method and
    [timed_run_same_correction] and [invoke_refines_spec] carry them to the
    decorated one; a [Timer] is taken not to raise, to log below the level
    INFO and to leave the name and the sub-tasks alone, which is what the
    framework's [logInfo] is documented to do and is not checked against
    its code. A call is recorded with the arguments the
    task computed for it and then returns or raises as [Collaborators] says;
    a buffer is named by the way it was obtained, a sub-exposure is a
    [View] that holds pixels of its parent ([storage]), and [written]
    names the buffer a call modifies in place; the accessors
    [getDetector] and [getExptime] of an exposure are functions of the
    class, so reading them records no event and cannot raise;
    the theorems quantify over every instance of that class; those that
    state a full list of calls either assume that no call raises
    ([all_return]) or cut the list at the first call that does ([replay]).

    Coefficients and pixels are abstract in [Linearize] and interpreted
    twice: exact rationals give the reference reading, an idealisation in
    which every coefficient fits the pixel type, and binary64
    coefficients with binary32 pixels give the machine reading. There the
    type of the product is chosen by the value of the coefficient, as NumPy
    does for a Python float and a float32 array: a coefficient that is not
    finite or lies strictly between [-3.4e38] and [3.4e38] is rounded to
    the pixel type and the operations are those of binary32; for any other
    the pixel is widened, the operations are those of binary64 and the
    assignment in place rounds the result ([linearize]). The two readings are
    related by [SF2Q], the rational number a finite floating-point number
    stands for, and by [exact_state], which applies it to every number of
    a state: the machine run is proved to follow the reference run. Mask pixels are [N] with
    the 16-bit bound stated as a theorem.

    ** What is proved

    - [ProportionalLinearizeTask]: the value and the mask of every pixel
      after a run that returns ([run_pixel]); [run] as the composition of the
      amplifiers' effects and its log ([run_returns]); the exception and the
      partly corrected state when a check fails ([run_raises_at],
      [run_short_coeffs]); when [run] returns
      ([run_returns_iff]); every branch of [doCorrect]; what holds on every
      outcome: layout, variance plane, mask bits other than
      SUSPECT and the 16-bit range ([run_mask_bits]), the pixels outside
      every amplifier, the name, sub-tasks and metadata of the task (the
      lemma [run_keeps_task]); the construction (the lemmas
      [linearize_task_constructed], [linearize_task_no_subtask]); the
      runs that change nothing ([run_not_wanted], [run_all_skipped]); what
      overlapping amplifiers do ([run_overlap_twice]); the two cases of the
      test file for every size and content ([testBasicCorrection_passes],
      [testNoCorrection_passes]), and a threshold with which the first
      fails (the lemma [testBasicCorrection_fails]); at exact rationals the polynomial
      [v + squareCoeff * v^2] ([run_pixel_polynomial]); at IEEE numbers a NaN
      square coefficient turns the amplifier's pixels into NaN and a NaN
      threshold makes the task log a correction it did not make
      ([ieee_nan_square_poisons], [ieee_nan_threshold_logs]); at IEEE numbers that are well
      formed and finite, the pixel a run leaves is the documented polynomial
      on the exact values up to three roundings, pixels and coefficients up
      to [2 ^ 40] in magnitude never overflow ([ieee_run_pixel_accuracy]),
      a pixel is flagged exactly when its exact value is above a positive
      threshold (the lemma [ieee_run_mask_exact]), and the whole run
      follows the run on the exact values of the state, in its outcome,
      its log and its three planes ([ieee_run_refines_exact]); on every
      outcome the image plane keeps holding well-formed binary32 numbers
      (the lemma [ieee_run_pixels_valid]); the loop one amplifier at a
      time:
      what holds between two amplifiers ([amp_loop_invariant]), what one
      iteration leaves in the array of the amplifier's view
      ([run_amp_view_array]), and that every amplifier is reached unless an
      earlier one fails a check ([every_amp_is_reached]); the decorated
      method corrects as [run] does and keeps the name and the sub-tasks
      ([timed_run_same_correction]).
    - [pipeBase.Task]: the constructor returns under the name given or the
      default name and raises without either ([Task_init_returns],
      [Task_init_nameless]); [makeSubtask] binds what the attribute then
      gives back and raises [KeyError] for a name that is no field
      ([makeSubtask_getattr], [makeSubtask_unknown]); logging, the
      metadata and the timer keep name and sub-tasks.
    - Views: reading and writing the array of a view are inverse to each
      other (the lemmas [set_view_array_same], [view_array_set]) and views
      of boxes that do not overlap do not alias
      ([disjoint_views_independent]).
    - [IsrTask]: what [__init__] leaves, for every name argument
      ([isr_task_constructed]); in every state reached from it the task
      is named isr and [self.assembleCcd] is the sub-task it made
      ([subtask_always_bound]); [run] never returns
      ([isr_run_never_returns]), calls nothing after the amplifier stage
      and writes through views into the float copy of the raw exposure
      only ([isr_run_stops_before_bias]); the
      exact calls and the exception when the collaborators behave
      ([isr_run_raises_NameError]); every method implements the contract
      [method_spec], outcome, calls and arguments, and when a collaborator
      raises the method stops at that call with its exception
      ([invoke_refines_spec]);
      every call of a reachable task carries the configured arguments
      ([calls_follow_config]); the log and the metadata are never read
      ([log_and_metadata_never_read]); the guard of the amplifier-only methods;
      [maskAndInterpNan] is its fail-fast part; from [__init__] no sequence of
      method calls reaches the transposed interpolation; three configuration
      fields are never read; assignments keep a configuration valid (the
      lemma [choice_assignment_validates]); the calls of [run] are a prefix of those of [run_intended], which completes
      with the calls of the documented sequence
      ([isr_run_prefix_of_intended], [intended_run_completes]).
      [run_intended] translates no line of the sources: it is [run] with
      [biasCorrection] and [updateVariance] reading their own parameters,
      written here to say what the code falls short of.

    ** What is not modelled

    The pixel arithmetic of [isr], the assembly of a CCD, the interpolation,
    the data reference and the display hook are outside src/; they appear
    as events and as the answers of [Collaborators]. Of the timing decorator
    only the two records and their place are modelled; what a record holds
    is left to the [Timer]. Footprints are the set of detected pixels, without
    spans or peaks. Log and exception messages are a format string with its
    arguments, not rendered text. Of the test file, the unittest framework
    and the tolerance of [assertMaskedImagesNearlyEqual] are not modelled:
    the planes are proved equal. The IEEE instance computes with the
    Standard Library's [SpecFloat] on numbers in normal form. The rounding
    theorems cover the operations the linearity task applies (the
    conversion of the coefficient, product, sum and comparison); division
    and the other operations of Python floats are not used by the code and
    are not treated. The values of floating-point numbers are rational
    numbers, so infinities and NaN have no value: the accuracy theorem
    speaks of results that are finite, gives the range of inputs for which
    they are, and [linearize_overflows] shows an input beyond it. Of the
    construction of a task, the constructor of [AssembleCcdTask], which
    [makeSubtask] runs, is outside src/ and is taken to return; parent
    tasks, the configuration object a sub-task receives and the logger's
    name are not modelled. The sources are Python 2 (line 291 of
    isrTask.py is indented with a tab under lines indented with spaces,
    which Python 3 refuses), and the exceptions of the language are those
    of Python 2. The behaviour of afw, of pipe base and of NumPy is taken
    from their documentation, not from their code: a sub-image that
    shares the pixels of its parent, [FootprintSet] and [Threshold], the
    index error of [detector[0]], the choice of the type of an operation
    by the value of a scalar. The lines of the two sources that no
    definition translates are the licence header of isrTask.py, the import
    statements, the docstrings, comments and blank lines; lines 81 to 83
    of proportionalLinearize.py and lines 293 to 303 of isrTask.py, which
    never run, are translated where they stand.

    ** Bounds and fuel

    Every loop of the sources runs over a finite list, so every definition
    is structural. [loop_run] of [Loop] takes a number of steps; one more
    than the length of the list is enough to end the loop
    ([loop_run_exit]), and the relation [loop_step] needs none. The float
    formats are binary64 ([prec64 = 53], [emax64 = 1024]) and binary32
    ([prec32 = 24], [emax32 = 128]); the rounding lemmas hold for every
    format with a positive precision below its largest exponent.
    [float32_limit] is the binary64 number nearest to [3.4e38], the
    constant of NumPy's test. The range
    [range_limit = 2 ^ 40] of the no-overflow statement is chosen so that
    the largest intermediate result, below [2 ^ 124], stays under half the
    range of binary32; it covers every pixel of a 16- or 32-bit detector
    readout. *)

From Stdlib Require Import ZArith NArith Lia.
From stdpp Require Import base tactics option list strings.

(** ** Python exceptions as values *)

(** An argument of a [%]-formatted message. A float argument is kept without
    its decimal rendering. *)
Inductive fmt_arg : Type :=
| ArgInt (z : Z)
| ArgStr (s : string)
| ArgFloat.

(** A message is its format string and the arguments it is applied to. *)
Record message : Type := Msg { fmt : string; args : list fmt_arg }.

(** The exception classes the sources raise or let through. *)
Inductive exn : Type :=
| RuntimeError (m : message)
| NameError (name : string)
| ValueError (m : message)
| IndexError
| TypeError
| LengthError
| InvalidParameterError (plane : string)
| FieldValidationError (field : string)
| AttributeError (attr : string)
| KeyError (key : string)
| ExternalError (callee : string).

(** What a call ends with: a value or a raised exception. *)
Inductive outcome (A : Type) : Type :=
| Normal (a : A)
| Raised (e : exn).

Arguments Normal {A} a.
Arguments Raised {A} e.

#[export] Instance fmt_arg_eq_dec : EqDecision fmt_arg.
Proof. solve_decision. Defined.

#[export] Instance message_eq_dec : EqDecision message.
Proof. solve_decision. Defined.

#[export] Instance exn_eq_dec : EqDecision exn.
Proof. solve_decision. Defined.

#[export] Instance outcome_eq_dec `{EqDecision A} : EqDecision (outcome A).
Proof. solve_decision. Defined.

Definition is_Normal {A} (o : outcome A) : bool :=
  match o with Normal _ => true | Raised _ => false end.

Definition is_Raised {A} (o : outcome A) : bool := negb (is_Normal o).

(** ** The state-and-exception monad *)

(** A computation over a mutable state [St]. The state returned beside
    [Raised e] is the state at the raise. *)
Definition Exec (St A : Type) : Type := St -> outcome A * St.

Definition ret {St A} (a : A) : Exec St A := fun s => (Normal a, s).

Definition raise {St A} (e : exn) : Exec St A := fun s => (Raised e, s).

Definition bind {St A B} (c : Exec St A) (k : A -> Exec St B) : Exec St B :=
  fun s =>
    match c s with
    | (Normal a, s') => k a s'
    | (Raised e, s') => (Raised e, s')
    end.

Definition get {St} : Exec St St := fun s => (Normal s, s).

Definition gets {St A} (f : St -> A) : Exec St A := fun s => (Normal (f s), s).

Definition put {St} (s : St) : Exec St unit := fun _ => (Normal tt, s).

Definition modify {St} (f : St -> St) : Exec St unit := fun s => (Normal tt, f s).

(** Lifts a pure fallible step: [Normal a] goes on, [Raised e] raises. *)
Definition lift_outcome {St A} (o : outcome A) : Exec St A := fun s => (o, s).

(** [when_ b c] is the statement [if b: c]. *)
Definition when_ {St} (b : bool) (c : Exec St unit) : Exec St unit :=
  if b then c else ret tt.

(** Runs a computation on one component of the state: [proj] reads the
    component and [inj] writes it back, on every outcome. *)
Definition zoom {St T A} (proj : St -> T) (inj : T -> St -> St) (c : Exec T A)
  : Exec St A :=
  fun s => let (o, t') := c (proj s) in (o, inj t' s).

(** [try: c finally: d]: [d] runs whatever [c] does; the outcome is that of
    [c], unless [d] raises, in which case it is the exception of [d]. *)
Definition finally_ {St A} (c : Exec St A) (d : Exec St unit) : Exec St A :=
  fun s =>
    let (o, s1) := c s in
    match d s1 with
    | (Normal _, s2) => (o, s2)
    | (Raised e, s2) => (Raised e, s2)
    end.

Declare Scope exec_scope.
Delimit Scope exec_scope with exec.

Notation "'let*' x ':=' c 'in' k" := (bind c (fun x => k))
  (at level 10, x name, c at level 100, k at level 200) : exec_scope.

Notation "'let*' ' p ':=' c 'in' k" :=
  (bind c (fun x => match x with p => k end))
  (at level 10, p pattern, c at level 100, k at level 200) : exec_scope.

Notation "c >> k" := (bind c (fun _ => k))
  (at level 100, k at level 200, right associativity) : exec_scope.

Open Scope exec_scope.

(** [for x in l: body x], with no loop-carried variable. *)
Fixpoint for_each {St A} (body : A -> Exec St unit) (l : list A) : Exec St unit :=
  match l with
  | [] => ret tt
  | x :: l' => body x >> for_each body l'
  end.

(** [for x in l: b = body x b]: a loop that carries the local variable [b]. *)
Fixpoint for_fold {St A B} (body : A -> B -> Exec St B) (l : list A) (b : B)
  : Exec St B :=
  match l with
  | [] => ret b
  | x :: l' => let* b' := body x b in for_fold body l' b'
  end.

(** The final state and the result of a run. *)
Definition exec_state {St A} (c : Exec St A) (s : St) : St := snd (c s).

Definition exec_result {St A} (c : Exec St A) (s : St) : outcome A := fst (c s).

(** Two programs are equivalent when they agree on every start state. *)
Definition exec_eq {St A} (c d : Exec St A) : Prop := forall s, c s = d s.

Infix "=e=" := exec_eq (at level 70, no associativity) : exec_scope.

(** [preserves I c]: [c] keeps [I] on every outcome, raised ones included. *)
Definition preserves {St A} (I : St -> Prop) (c : Exec St A) : Prop :=
  forall s, I s -> I (exec_state c s).

(** [relates R c]: the final state of [c] is related to its start state by
    [R], on every outcome. *)
Definition relates {St A} (R : St -> St -> Prop) (c : Exec St A) : Prop :=
  forall s, R s (exec_state c s).

(** [respects R c]: [c] does not tell apart two states that [R] relates: it
    gives the same outcome on both and leaves them related. *)
Definition respects {St A} (R : St -> St -> Prop) (c : Exec St A) : Prop :=
  forall s1 s2, R s1 s2 ->
    exec_result c s1 = exec_result c s2 /\ R (exec_state c s1) (exec_state c s2).

Create HintDb exec discriminated.

(** [never_returns c]: whatever the start state, [c] ends by raising. *)
Definition never_returns {St A} (c : Exec St A) : Prop :=
  forall s, is_Normal (exec_result c s) = false.

#[export] Hint Unfold exec_state exec_result : exec.

(** Unfolds the monad operations in the goal and in every hypothesis. *)
Ltac exec_unfold :=
  unfold exec_state, exec_result, zoom, when_, lift_outcome, modify, put, gets,
    get, raise, ret, bind in *.

(** Case analysis on the run [c s] that blocks the goal. *)
Ltac exec_case :=
  match goal with
  | |- context [match ?c ?s with (_, _) => _ end] =>
      let o := fresh "o" in let s' := fresh "s'" in
      let E := fresh "E" in destruct (c s) as [o s'] eqn:E; try destruct o
  | |- context [let (_, _) := ?c ?s in _] =>
      let o := fresh "o" in let s' := fresh "s'" in
      let E := fresh "E" in destruct (c s) as [o s'] eqn:E; try destruct o
  end.

(** ** Equivalence of programs *)

Section ExecEq.
Context {St A : Type}.

#[export] Instance exec_eq_equiv : Equivalence (@exec_eq St A).
Proof.
  split; [intros c s | intros c d H s | intros c d e H1 H2 s]; congruence.
Qed.

End ExecEq.

#[export] Instance bind_proper {St A B} :
  Proper (exec_eq ==> pointwise_relation A exec_eq ==> exec_eq) (@bind St A B).
Proof.
  intros c d Hcd k k' Hk s. unfold bind. rewrite Hcd.
  destruct (d s) as [[a|e] s']; [apply Hk | reflexivity].
Qed.

#[export] Instance exec_state_proper {St A} :
  Proper (exec_eq ==> eq ==> eq) (@exec_state St A).
Proof. intros c d H s ? <-. unfold exec_state. by rewrite H. Qed.

#[export] Instance exec_result_proper {St A} :
  Proper (exec_eq ==> eq ==> eq) (@exec_result St A).
Proof. intros c d H s ? <-. unfold exec_result. by rewrite H. Qed.

#[export] Instance preserves_proper {St A} (I : St -> Prop) :
  Proper (exec_eq ==> iff) (@preserves St A I).
Proof.
  intros c d H. unfold preserves.
  split; intros Hp s Hs; [rewrite <- H | rewrite H]; auto.
Qed.

(** ** Laws of the monad and of its loops *)

Section Laws.
Context {St : Type}.

Lemma bind_ret_l {A B} (a : A) (k : A -> Exec St B) : (let* x := ret a in k x) =e= k a.
Proof. by intros s. Qed.

Lemma bind_ret_r {A} (c : Exec St A) : (let* x := c in ret x) =e= c.
Proof. intros s. unfold bind, ret. by destruct (c s) as [[a|e] s']. Qed.

Lemma bind_assoc {A B C} (c : Exec St A) (k : A -> Exec St B) (h : B -> Exec St C) :
  (let* y := (let* x := c in k x) in h y) =e= (let* x := c in let* y := k x in h y).
Proof. intros s. unfold bind. by destruct (c s) as [[a|e] s']. Qed.

Lemma bind_raise {A B} (e : exn) (k : A -> Exec St B) : (let* x := raise e in k x) =e= raise e.
Proof. by intros s. Qed.

Lemma bind_normal {A B} (c : Exec St A) (k : A -> Exec St B) s a s' :
  c s = (Normal a, s') -> bind c k s = k a s'.
Proof. intros H. unfold bind. by rewrite H. Qed.

Lemma bind_raised {A B} (c : Exec St A) (k : A -> Exec St B) s e s' :
  c s = (Raised e, s') -> bind c k s = (Raised e, s').
Proof. intros H. unfold bind. by rewrite H. Qed.

Lemma bind_inv_normal {A B} (c : Exec St A) (k : A -> Exec St B) s b s2 :
  bind c k s = (Normal b, s2) ->
  exists a s1, c s = (Normal a, s1) /\ k a s1 = (Normal b, s2).
Proof.
  unfold bind. destruct (c s) as [[a|e] s1]; [eauto | discriminate].
Qed.

Lemma for_each_app {A} (body : A -> Exec St unit) (l1 l2 : list A) :
  for_each body (l1 ++ l2) =e= (for_each body l1 >> for_each body l2).
Proof.
  induction l1 as [|x l1 IH]; intros s; simpl.
  - reflexivity.
  - unfold bind. destruct (body x s) as [[[]|e] s']; [apply IH | done].
Qed.

Lemma for_fold_app {A B} (body : A -> B -> Exec St B) (l1 l2 : list A) (b : B) :
  for_fold body (l1 ++ l2) b =e= (let* b' := for_fold body l1 b in for_fold body l2 b').
Proof.
  revert b. induction l1 as [|x l1 IH]; intros b s; simpl.
  - reflexivity.
  - unfold bind. destruct (body x b s) as [[b'|e] s']; [apply IH | done].
Qed.

(** A loop whose every iteration returns normally is a left fold over the
    state and the carried variable. *)
Lemma for_fold_normal {A B} (body : A -> B -> Exec St B)
    (f : A -> B -> B) (g : A -> St -> St) (l : list A) :
  (forall x b s, x ∈ l -> body x b s = (Normal (f x b), g x s)) ->
  forall b s, for_fold body l b s =
    (Normal (foldl (fun b x => f x b) b l), foldl (fun s x => g x s) s l).
Proof.
  induction l as [|x l IH]; intros H b s; simpl; [done|].
  rewrite (bind_normal _ _ _ _ _ (H x b s ltac:(left))).
  apply IH. intros; apply H; by right.
Qed.

(** A loop stops at the first iteration that raises, in the state that
    iteration leaves. *)
Lemma for_fold_raised {A B} (body : A -> B -> Exec St B) l1 x l2 b s b1 s1 e s2 :
  for_fold body l1 b s = (Normal b1, s1) ->
  body x b1 s1 = (Raised e, s2) ->
  for_fold body (l1 ++ x :: l2) b s = (Raised e, s2).
Proof.
  intros H1 H2. rewrite for_fold_app. rewrite (bind_normal _ _ _ _ _ H1).
  simpl. by rewrite (bind_raised _ _ _ _ _ H2).
Qed.

End Laws.

(** ** Invariants that hold on every outcome *)

Section Preserves.
Context {St : Type} (I : St -> Prop).

Lemma preserves_ret {A} (a : A) : preserves I (ret a : Exec St A).
Proof. by intros s. Qed.

Lemma preserves_raise {A} (e : exn) : preserves I (raise e : Exec St A).
Proof. by intros s. Qed.

Lemma preserves_lift {A} (o : outcome A) : preserves I (lift_outcome o : Exec St A).
Proof. by intros s. Qed.

Lemma preserves_gets {A} (f : St -> A) : preserves I (gets f).
Proof. by intros s. Qed.

Lemma preserves_modify (f : St -> St) :
  (forall s, I s -> I (f s)) -> preserves I (modify f).
Proof. intros H s. apply H. Qed.

Lemma preserves_bind {A B} (c : Exec St A) (k : A -> Exec St B) :
  preserves I c -> (forall a, preserves I (k a)) -> preserves I (bind c k).
Proof.
  intros Hc Hk s Hs. specialize (Hc s Hs). unfold exec_state, bind in *.
  destruct (c s) as [[a|e] s']; [by apply Hk | done].
Qed.

Lemma preserves_when (b : bool) (c : Exec St unit) :
  preserves I c -> preserves I (when_ b c).
Proof. destruct b; [done | intros _; apply preserves_ret]. Qed.

Lemma preserves_if {A} (b : bool) (c d : Exec St A) :
  preserves I c -> preserves I d -> preserves I (if b then c else d).
Proof. by destruct b. Qed.

Lemma preserves_zoom {T A} (J : T -> Prop) (proj : St -> T) (inj : T -> St -> St)
    (c : Exec T A) :
  preserves J c -> (forall s, I s -> J (proj s)) ->
  (forall s t, I s -> J t -> I (inj t s)) -> preserves I (zoom proj inj c).
Proof.
  intros Hc Hp Hi s Hs. specialize (Hc (proj s) (Hp s Hs)).
  unfold exec_state, zoom in *. destruct (c (proj s)) as [o t']. by apply Hi.
Qed.

Lemma preserves_for_each {A} (body : A -> Exec St unit) (l : list A) :
  (forall x, x ∈ l -> preserves I (body x)) -> preserves I (for_each body l).
Proof.
  induction l as [|x l IH]; intros H; simpl; [apply preserves_ret|].
  apply preserves_bind; [apply H; left | intros _; apply IH].
  intros; apply H; by right.
Qed.

Lemma preserves_for_fold {A B} (body : A -> B -> Exec St B) (l : list A) (b : B) :
  (forall x b, x ∈ l -> preserves I (body x b)) -> preserves I (for_fold body l b).
Proof.
  revert b. induction l as [|x l IH]; intros b H; simpl; [apply preserves_ret|].
  apply preserves_bind; [apply H; left | intros b'; apply IH].
  intros; apply H; by right.
Qed.

End Preserves.

#[export] Hint Resolve preserves_ret preserves_raise preserves_lift preserves_gets
  preserves_bind preserves_when preserves_if : exec.

(** ** Relations between the start state and the final state *)

Section Relates.
Context {St : Type} (R : St -> St -> Prop) `{!PreOrder R}.

Lemma relates_ret {A} (a : A) : relates R (ret a : Exec St A).
Proof. by intros s. Qed.

Lemma relates_raise {A} (e : exn) : relates R (raise e : Exec St A).
Proof. by intros s. Qed.

Lemma relates_lift {A} (o : outcome A) : relates R (lift_outcome o : Exec St A).
Proof. by intros s. Qed.

Lemma relates_gets {A} (f : St -> A) : relates R (gets f).
Proof. by intros s. Qed.

Lemma relates_bind {A B} (c : Exec St A) (k : A -> Exec St B) :
  relates R c -> (forall a, relates R (k a)) -> relates R (bind c k).
Proof.
  intros Hc Hk s. specialize (Hc s). unfold exec_state, bind in *.
  destruct (c s) as [[a|e] s']; [|done]. etrans; [done | apply Hk].
Qed.

Lemma relates_if {A} (b : bool) (c d : Exec St A) :
  relates R c -> relates R d -> relates R (if b then c else d).
Proof. by destruct b. Qed.

Lemma relates_for_each {A} (body : A -> Exec St unit) (l : list A) :
  (forall x, x ∈ l -> relates R (body x)) -> relates R (for_each body l).
Proof.
  induction l as [|x l IH]; intros H; simpl; [apply relates_ret|].
  apply relates_bind; [apply H; left | intros _; apply IH].
  intros; apply H; by right.
Qed.

(** What follows a step that returns a known value is run on that value. *)
Lemma relates_bind_const {A B C} (c : Exec St A) (b : B) (k : B -> Exec St C) :
  relates R c -> relates R (k b) -> relates R (bind (bind c (fun _ => ret b)) k).
Proof.
  intros Hc Hk s. specialize (Hc s). unfold exec_state, bind, ret in *.
  destruct (c s) as [[a|e] s']; [|done]. etrans; [done | apply Hk].
Qed.

(** A step that reads the state may use what it read. *)
Lemma relates_gets_bind {A B} (f : St -> A) (k : A -> Exec St B) :
  (forall s, R s (exec_state (k (f s)) s)) -> relates R (bind (gets f) k).
Proof. intros Hk s. apply Hk. Qed.

Lemma relates_when (b : bool) (c : Exec St unit) :
  relates R c -> relates R (when_ b c).
Proof. destruct b; [done | intros _; apply relates_ret]. Qed.

(** What follows a step that always raises does not matter. *)
Lemma relates_bind_never {A B} (c : Exec St A) (k : A -> Exec St B) :
  relates R c -> never_returns c -> relates R (bind c k).
Proof.
  intros Hc Hn s. specialize (Hc s). specialize (Hn s).
  unfold exec_state, exec_result, bind in *. by destruct (c s) as [[a|e] s'].
Qed.

End Relates.

#[export] Hint Resolve relates_ret relates_raise relates_lift relates_gets
  relates_if : exec.

(** ** Steps that always raise *)

Section Never.
Context {St : Type}.

Lemma never_raise {A} (e : exn) : never_returns (raise e : Exec St A).
Proof. by intros s. Qed.

Lemma never_bind_l {A B} (c : Exec St A) (k : A -> Exec St B) :
  never_returns c -> never_returns (bind c k).
Proof.
  intros Hc s. specialize (Hc s). unfold exec_result, bind in *.
  by destruct (c s) as [[a|e] s'].
Qed.

Lemma never_bind_r {A B} (c : Exec St A) (k : A -> Exec St B) :
  (forall a, never_returns (k a)) -> never_returns (bind c k).
Proof.
  intros Hk s. unfold exec_result, bind.
  destruct (c s) as [[a|e] s'] eqn:E; [apply Hk | done].
Qed.

Lemma never_returns_raised {A} (c : Exec St A) s :
  never_returns c -> exists e, exec_result c s = Raised e.
Proof.
  intros Hc. specialize (Hc s). destruct (exec_result c s) as [a|e]; [done|by exists e].
Qed.

End Never.


(** ** Steps that do not tell related states apart *)

Section Respects.
Context {St : Type} (R : St -> St -> Prop).

Lemma respects_ret {A} (a : A) : respects R (ret a : Exec St A).
Proof. by intros s1 s2. Qed.

Lemma respects_raise {A} (e : exn) : respects R (raise e : Exec St A).
Proof. by intros s1 s2. Qed.

Lemma respects_lift {A} (o : outcome A) : respects R (lift_outcome o : Exec St A).
Proof. by intros s1 s2. Qed.

(** Reading something that related states agree on. *)
Lemma respects_gets {A} (f : St -> A) :
  (forall s1 s2, R s1 s2 -> f s1 = f s2) -> respects R (gets f).
Proof. intros Hf s1 s2 HR. split; [|done]. unfold exec_result, gets. simpl. f_equal; auto. Qed.

Lemma respects_bind {A B} (c : Exec St A) (k : A -> Exec St B) :
  respects R c -> (forall a, respects R (k a)) -> respects R (bind c k).
Proof.
  intros Hc Hk s1 s2 HR. destruct (Hc s1 s2 HR) as [Ho Hs].
  unfold exec_result, exec_state, bind in *.
  destruct (c s1) as [[a1|e1] s1'], (c s2) as [[a2|e2] s2']; simpl in *; simplify_eq;
    [by apply Hk | done].
Qed.

Lemma respects_if {A} (b : bool) (c d : Exec St A) :
  respects R c -> respects R d -> respects R (if b then c else d).
Proof. by destruct b. Qed.

Lemma respects_when (b : bool) (c : Exec St unit) :
  respects R c -> respects R (when_ b c).
Proof. destruct b; [done | intros _; apply respects_ret]. Qed.

Lemma respects_for_each {A} (body : A -> Exec St unit) (l : list A) :
  (forall x, respects R (body x)) -> respects R (for_each body l).
Proof.
  intros Hb. induction l as [|x l IH]; simpl; [apply respects_ret|].
  apply respects_bind; [apply Hb | by intros _].
Qed.

Lemma respects_finally {A} (c : Exec St A) (d : Exec St unit) :
  respects R c -> respects R d -> respects R (finally_ c d).
Proof.
  intros Hc Hd s1 s2 HR. destruct (Hc s1 s2 HR) as [Ho Hs].
  destruct (Hd _ _ Hs) as [Ho' Hs'].
  unfold exec_result, exec_state, finally_ in *.
  destruct (c s1) as [o1 s1'], (c s2) as [o2 s2']; simpl in *. subst o2.
  destruct (d s1') as [[[]|e1] t1], (d s2') as [[[]|e2] t2]; simpl in *; by simplify_eq.
Qed.

End Respects.

#[export] Hint Resolve respects_ret respects_raise respects_lift : exec.

(** ** [try ... finally] *)

Section Finally.
Context {St : Type}.

(** The final block always runs, after the body. *)
Lemma finally_state {A} (c : Exec St A) (d : Exec St unit) s :
  exec_state (finally_ c d) s = exec_state d (exec_state c s).
Proof.
  unfold exec_state, finally_. destruct (c s) as [o s1]. simpl.
  by destruct (d s1) as [[[]|e] s2].
Qed.

(** A final block that returns does not change the outcome of the body. *)
Lemma finally_result {A} (c : Exec St A) (d : Exec St unit) s :
  is_Normal (exec_result d (exec_state c s)) = true ->
  exec_result (finally_ c d) s = exec_result c s.
Proof.
  unfold exec_result, exec_state, finally_. destruct (c s) as [o s1]. simpl.
  by destruct (d s1) as [[[]|e] s2].
Qed.

Lemma relates_finally (R : St -> St -> Prop) `{!PreOrder R} {A}
    (c : Exec St A) (d : Exec St unit) :
  relates R c -> relates R d -> relates R (finally_ c d).
Proof. intros Hc Hd s. rewrite finally_state. etrans; [apply Hc | apply Hd]. Qed.

Lemma never_finally {A} (c : Exec St A) (d : Exec St unit) :
  never_returns c -> never_returns (finally_ c d).
Proof.
  intros Hc s. specialize (Hc s). unfold exec_result, finally_ in *.
  destruct (c s) as [[a|e] s1]; [done|]. by destruct (d s1) as [[[]|e'] s2].
Qed.

End Finally.

(** ** Generic facts on options and lists shared by the components *)

Lemma foldl_ext_in {A B} (f g : B -> A -> B) (l : list A) (b : B) :
  (forall b x, x ∈ l -> f b x = g b x) -> foldl f b l = foldl g b l.
Proof.
  revert b. induction l as [|x l IH]; intros b H; simpl; [done|].
  rewrite H by left. apply IH. intros; apply H; by right.
Qed.

Lemma foldl_invariant {A B} (P : B -> Prop) (f : B -> A -> B) (l : list A) (b : B) :
  P b -> (forall b x, x ∈ l -> P b -> P (f b x)) -> P (foldl f b l).
Proof.
  revert b. induction l as [|x l IH]; intros b Hb H; simpl; [done|].
  apply IH; [apply H; [left | done] | intros; apply H; [by right | done]].
Qed.

(** A fold whose steps leave an observation [obs] alone leaves it alone. *)
Lemma foldl_unchanged {A B C} (obs : B -> C) (f : B -> A -> B) (l : list A) (b : B) :
  (forall b x, x ∈ l -> obs (f b x) = obs b) -> obs (foldl f b l) = obs b.
Proof.
  intros H. apply (foldl_invariant (fun b' => obs b' = obs b)); [done|].
  intros b' x Hx Hb. by rewrite H.
Qed.

(** In a fold, the one step that changes an observation determines it, when
    every other step leaves it alone; [I] is an invariant of the steps. *)
Lemma foldl_unique_step {A B C} (I : B -> Prop) (obs : B -> C) (f : B -> A -> B)
    (h : C -> C) (l1 l2 : list A) (x : A) (b : B) :
  I b -> (forall b y, I b -> I (f b y)) ->
  (forall b y, y ∈ l1 ++ l2 -> I b -> obs (f b y) = obs b) ->
  (forall b, I b -> obs (f b x) = h (obs b)) ->
  obs (foldl f b (l1 ++ x :: l2)) = h (obs b).
Proof.
  intros Hb Hstep Hother Hx.
  assert (forall l b, I b -> I (foldl f b l)) as Hfold
    by (intros l; induction l; simpl; auto).
  assert (forall l b, (forall y, y ∈ l -> y ∈ l1 ++ l2) -> I b ->
            obs (foldl f b l) = obs b) as Hsame.
  { intros l. induction l as [|y l IH]; intros b' Hin Hb'; simpl; [done|].
    rewrite IH; [apply Hother; [apply Hin; left | done] | | by apply Hstep].
    intros; apply Hin; by right. }
  rewrite foldl_app. simpl.
  rewrite Hsame; [| intros; apply elem_of_app; auto | apply Hstep, Hfold, Hb].
  rewrite Hx by apply Hfold, Hb. f_equal.
  apply Hsame; [intros; apply elem_of_app; auto | done].
Qed.

Lemma forallb_elem_of {A} (f : A -> bool) (l : list A) :
  forallb f l = true -> forall x, x ∈ l -> f x = true.
Proof. rewrite forallb_forall. intros H x Hx. by apply H, list_elem_of_In. Qed.

Lemma forallb_pointwise {A} (f g : A -> bool) (l : list A) :
  (forall x, f x = g x) -> forallb f l = forallb g l.
Proof. intros Hfg. induction l as [|x l IH]; simpl; [done|]. by rewrite Hfg, IH. Qed.

(** A test that fails somewhere in a list fails at a first element. *)
Lemma forallb_false_split {A} (f : A -> bool) (l : list A) :
  forallb f l = false ->
  exists l1 x l2, l = l1 ++ x :: l2 /\ forallb f l1 = true /\ f x = false.
Proof.
  induction l as [|y l IH]; simpl; [done|].
  destruct (f y) eqn:Hy; simpl.
  - intros (l1 & x & l2 & -> & H1 & Hx)%IH. exists (y :: l1), x, l2.
    simpl. by rewrite Hy, H1.
  - intros _. by exists [], y, l.
Qed.

Lemma elem_of_middle {A} (l : list A) (k : nat) (x : A) :
  l !! k = Some x -> exists l1 l2, l = l1 ++ x :: l2 /\ length l1 = k.
Proof.
  intros Hk. exists (take k l), (drop (S k) l). split.
  - by rewrite take_drop_middle.
  - apply length_take_le. apply lookup_lt_Some in Hk. lia.
Qed.

Lemma N_log2_lt_pow2 (a n : N) : (n <> 0 -> a < 2 ^ n -> N.log2 a < n)%N.
Proof.
  intros Hn Ha. destruct (N.eq_dec a 0%N) as [->|Hz]; [simpl; lia|].
  apply N.log2_lt_pow2; [lia | done].
Qed.

(** The bitwise or of two numbers below [2^n] is below [2^n]. *)
Lemma N_lor_lt_pow2 (a b n : N) : (a < 2 ^ n -> b < 2 ^ n -> N.lor a b < 2 ^ n)%N.
Proof.
  intros Ha Hb. destruct (N.eq_dec n 0%N) as [->|Hn].
  - assert (a = 0 /\ b = 0)%N as [-> ->] by (simpl in *; lia). done.
  - destruct (N.eq_dec (N.lor a b) 0%N) as [->|Hz].
    + apply N.neq_0_lt_0, N.pow_nonzero. lia.
    + apply N.log2_lt_pow2; [lia|]. rewrite N.log2_lor.
      apply N.max_lub_lt; by apply N_log2_lt_pow2.
Qed.
