(* ===== verification/Loop.v ===== *)
(** * Loop: the [for] statement, one iteration at a time

    [for_fold] and [for_each] of the Prelude give the result of a whole loop.
    This file gives the same loop as a transition system, so that the states
    between two iterations can be named: a configuration is a loop in
    progress ([Iter], with the elements still to visit, the loop-carried
    variable and the state) or a loop that has ended ([Exit], by exhaustion
    of the list or by an exception of the body). [loop_step] is the
    relation, [loop_next] the function that computes it.

    The lemmas: the relation is deterministic and every sequence of steps is
    finite ([loop_step_deterministic], [loop_sn]); a loop in progress always
    steps and an ended loop never does ([loop_progress], [loop_exit_nf]);
    the configuration the steps end in is the result of [for_fold]
    ([loop_terminates], [loop_exit_unique]); and every element is reached
    unless an earlier iteration raised ([loop_reaches], [loop_reach_or_raise]). *)

From Stdlib Require Import Lia.
From stdpp Require Import base tactics option list relations.
From S2P Require Import Prelude.

Section Loop.
Context {St A B : Type} (body : A -> B -> Exec St B).

Inductive config : Type :=
| Iter (rest : list A) (b : B) (s : St)
| Exit (o : outcome B) (s : St).

(** One step: an iteration that returns, an iteration that raises, or the
    end of the list. *)
Inductive loop_step : relation config :=
| step_iter x l b s b' s' :
    body x b s = (Normal b', s') -> loop_step (Iter (x :: l) b s) (Iter l b' s')
| step_raise x l b s e s' :
    body x b s = (Raised e, s') -> loop_step (Iter (x :: l) b s) (Exit (Raised e) s')
| step_exhausted b s :
    loop_step (Iter [] b s) (Exit (Normal b) s).

(** The step as a function. *)
Definition loop_next (c : config) : option config :=
  match c with
  | Iter [] b s => Some (Exit (Normal b) s)
  | Iter (x :: l) b s =>
      match body x b s with
      | (Normal b', s') => Some (Iter l b' s')
      | (Raised e, s') => Some (Exit (Raised e) s')
      end
  | Exit _ _ => None
  end.

(** At most [n] steps from [c]. *)
Fixpoint loop_run (n : nat) (c : config) : config :=
  match n with
  | 0 => c
  | S n' => match loop_next c with Some c' => loop_run n' c' | None => c end
  end.

(** The number of steps a configuration can still take. *)
Definition steps_left (c : config) : nat :=
  match c with Iter l _ _ => S (length l) | Exit _ _ => 0 end.

(** The configuration a whole loop ends in. *)
Definition exit_of (r : outcome B * St) : config := Exit r.1 r.2.

(** ** The relation and the function *)

Lemma loop_step_next c c' : loop_step c c' <-> loop_next c = Some c'.
Proof.
  split.
  - destruct 1 as [x l b s b' s' Hb|x l b s e s' Hb|b s]; simpl; by rewrite ?Hb.
  - destruct c as [[|x l] b s|o s]; simpl; [by intros [= <-]; constructor| |done].
    destruct (body x b s) as [[b'|e] s'] eqn:Hb; intros [= <-]; by constructor.
Qed.

Lemma loop_step_deterministic : deterministic loop_step.
Proof. intros c c1 c2 H1%loop_step_next H2%loop_step_next. congruence. Qed.

(** A loop in progress steps. *)
Lemma loop_progress l b s : red loop_step (Iter l b s).
Proof.
  destruct (loop_next (Iter l b s)) as [c'|] eqn:Hn; [exists c'; by apply loop_step_next|].
  destruct l as [|x l]; simpl in Hn; [done|]. by destruct (body x b s) as [[]].
Qed.

(** A loop that has ended does not. *)
Lemma loop_exit_nf o s : nf loop_step (Exit o s).
Proof. intros [c' Hc]. inversion Hc. Qed.

Lemma loop_step_decreases c c' : loop_step c c' -> steps_left c' < steps_left c.
Proof. destruct 1; simpl; lia. Qed.

(** Every sequence of steps is finite. *)
Lemma loop_sn c : sn loop_step c.
Proof.
  remember (steps_left c) as n eqn:Hn. revert c Hn.
  induction n as [n IH] using lt_wf_ind. intros c ->.
  constructor. intros c' Hc. eapply IH; [|done]. by apply loop_step_decreases.
Qed.

(** ** The steps compute [for_fold] *)

(** The iterations over a prefix that returns take one step each. *)
Lemma loop_prefix l1 l2 b s b' s' :
  for_fold body l1 b s = (Normal b', s') ->
  nsteps loop_step (length l1) (Iter (l1 ++ l2) b s) (Iter l2 b' s').
Proof.
  revert b s. induction l1 as [|x l1 IH]; intros b s; simpl.
  - intros [= <- <-]. constructor.
  - unfold bind. destruct (body x b s) as [[b1|e] s1] eqn:Hb; [|done].
    intros Hf. eapply nsteps_l; [by apply step_iter | by apply IH].
Qed.

(** The element at position [k] is reached in [k] steps when the
    iterations before it return. *)
Lemma loop_reaches l k b s b' s' :
  for_fold body (take k l) b s = (Normal b', s') ->
  nsteps loop_step (length (take k l)) (Iter l b s) (Iter (drop k l) b' s').
Proof. intros Hf. rewrite <- (take_drop k l) at 2. by apply loop_prefix. Qed.

(** The loop ends in the result of [for_fold], in at most one step per
    element and one more. *)
Lemma loop_terminates l b s :
  exists n, n <= S (length l) /\
            nsteps loop_step n (Iter l b s) (exit_of (for_fold body l b s)).
Proof.
  revert b s. induction l as [|x l IH]; intros b s; simpl.
  - exists 1. split; [lia|]. apply nsteps_once. constructor.
  - unfold bind. destruct (body x b s) as [[b1|e] s1] eqn:Hb.
    + destruct (IH b1 s1) as (n & Hn & Hs). exists (S n). split; [lia|].
      eapply nsteps_l; [by apply step_iter | done].
    + exists 1. split; [lia|]. apply nsteps_once. by apply step_raise.
Qed.

Lemma loop_rtc_exit l b s : rtc loop_step (Iter l b s) (exit_of (for_fold body l b s)).
Proof. destruct (loop_terminates l b s) as (n & _ & Hn). by eapply rtc_nsteps_2. Qed.

(** Whatever way the steps are taken, a loop that has ended holds the
    result of [for_fold]. *)
Lemma loop_exit_unique l b s o s' :
  rtc loop_step (Iter l b s) (Exit o s') -> for_fold body l b s = (o, s').
Proof.
  intros Hr. pose proof (loop_rtc_exit l b s) as Hf.
  pose proof (confluent_rtc_nf _ _ _ (deterministic_confluent loop_step_deterministic)
                Hr (loop_exit_nf _ _) Hf (loop_exit_nf _ _)) as Heq.
  destruct (for_fold body l b s). by injection Heq as -> ->.
Qed.

(** ** Every element is reached, unless an earlier iteration raised *)

Lemma loop_reach_or_raise l k b s :
  k <= length l ->
  (exists b' s', for_fold body (take k l) b s = (Normal b', s') /\
                 nsteps loop_step k (Iter l b s) (Iter (drop k l) b' s')) \/
  (exists j e s', j < k /\ for_fold body (take (S j) l) b s = (Raised e, s') /\
                  nsteps loop_step (S j) (Iter l b s) (Exit (Raised e) s')).
Proof.
  revert l b s. induction k as [|k IH]; intros l b s Hk.
  - left. exists b, s. rewrite take_0, drop_0. split; [done | constructor].
  - destruct l as [|x l]; simpl in Hk; [lia|]. simpl. unfold bind.
    destruct (body x b s) as [[b1|e] s1] eqn:Hb.
    + destruct (IH l b1 s1 ltac:(lia)) as [(b' & s' & Hf & Hs)|(j & e & s' & Hj & Hf & Hs)].
      * left. exists b', s'. split; [done|]. eapply nsteps_l; [by apply step_iter | done].
      * right. exists (S j), e, s'. split; [lia|].
        split; [done|]. eapply nsteps_l; [by apply step_iter | done].
    + right. exists 0, e, s1. split; [lia|].
      split; [done|]. apply nsteps_once. by apply step_raise.
Qed.

(** [loop_run] takes the steps of the relation. *)
Lemma loop_run_rtc n c : rtc loop_step c (loop_run n c).
Proof.
  revert c. induction n as [|n IH]; intros c; simpl; [done|].
  destruct (loop_next c) as [c'|] eqn:Hn; [|done].
  eapply rtc_l; [by apply loop_step_next | apply IH].
Qed.

(** With as many steps as the configuration has left, [loop_run] reaches
    the end of the loop. *)
Lemma loop_run_exit n l b s :
  S (length l) <= n -> loop_run n (Iter l b s) = exit_of (for_fold body l b s).
Proof.
  revert l b s. induction n as [|n IH]; intros l b s Hn; [lia|].
  destruct l as [|x l]; simpl.
  - by destruct n.
  - unfold bind. destruct (body x b s) as [[b1|e] s1]; [apply IH; simpl in Hn; lia|].
    by destruct n.
Qed.

End Loop.

Arguments config : clear implicits.

(** [for_each] is the loop that carries nothing. *)
Lemma for_each_for_fold {St A} (body : A -> Exec St unit) (l : list A) :
  for_each body l =e= for_fold (fun x _ => body x) l tt.
Proof.
  induction l as [|x l IH]; intros s; simpl; [done|].
  unfold bind. destruct (body x s) as [[[]|e] s']; [apply IH | done].
Qed.
