(* ===== verification/Numerics.v ===== *)
(** * Numerics: the arithmetic of the linearity correction

    [ProportionalLinearizeTask.run] compares coefficients, which are Python
    floats (binary64), and computes on the pixels of a [MaskedImageF], which
    are float32. The class [Numerics C P] names exactly the operations the
    source applies: the comparisons [!=], [==], [<=] and [>] against zero on
    coefficients, and the arithmetic of NumPy on a float32 array and a
    Python float. NumPy chooses the type of such an operation by the value
    of the scalar: when the scalar fits the type of the array ([fits]) it
    is converted to that type ([to_pixel]) and the operation is one of the
    array's type ([p_add], [p_mul]); when it does not, the array is widened
    ([to_coeff]), the operation is one of the scalar's type ([c_add],
    [c_mul]) and an assignment in place converts the result back.
    [array_gt] is the comparison of an array with a scalar by the same
    rule. [Detection C P] is the test by which [FootprintSet] with a
    [Threshold] decides that a pixel is above the threshold.

    Two instances are given: exact rationals (the reference reading, in which
    the correction is [v + s*v^2] up to [Qeq] and every scalar fits) and
    IEEE 754 numbers, binary64 coefficients and binary32 pixels, computed
    by the Standard Library's [SpecFloat]. *)

From Stdlib Require Import ZArith QArith Lqa SpecFloat.
From stdpp Require Import base tactics.
From S2P Require Import Prelude.

(** The operations on coefficients [C] and pixels [P]. *)
Class Numerics (C P : Type) : Type := {
  c_zero : C;
  c_eqb : C -> C -> bool;
  c_leb : C -> C -> bool;
  c_ltb : C -> C -> bool;
  fits : C -> bool;
  to_pixel : C -> P;
  to_coeff : P -> C;
  p_one : P;
  p_add : P -> P -> P;
  p_mul : P -> P -> P;
  c_one : C;
  c_add : C -> C -> C;
  c_mul : C -> C -> C;
  array_gt : P -> C -> bool
}.

(** [detects t v]: a pixel of value [v] belongs to a footprint found with
    [Threshold(t)]. *)
Class Detection (C P : Type) : Type := {
  detects : C -> P -> bool
}.

(** The comparisons form a total order: what holds of exact numbers and
    fails at NaN. *)
Class TotalOrder (C P : Type) `{Numerics C P} : Prop := {
  c_eqb_refl : forall a : C, c_eqb a a = true;
  c_leb_ltb : forall a b : C, c_leb a b = negb (c_ltb b a)
}.

(** ** Exact rationals *)

Definition Qltb (a b : Q) : bool := negb (Qle_bool b a).

#[export] Instance Q_numerics : Numerics Q Q := {|
  c_zero := 0%Q;
  c_eqb := Qeq_bool;
  c_leb := Qle_bool;
  c_ltb := Qltb;
  fits := fun _ => true;
  to_pixel := fun c => c;
  to_coeff := fun v => v;
  p_one := 1%Q;
  p_add := Qplus;
  p_mul := Qmult;
  c_one := 1%Q;
  c_add := Qplus;
  c_mul := Qmult;
  array_gt := fun v t => Qltb t v
|}.

(** Strictly above the threshold, as the task's documentation and its test
    read the detection. *)
#[export] Instance Q_detection : Detection Q Q := {|
  detects := fun t v => Qltb t v
|}.

(** ** IEEE 754 binary64 coefficients and binary32 pixels *)

Definition binary64 : Type := spec_float.
Definition binary32 : Type := spec_float.

Definition prec32 : Z := 24.
Definition emax32 : Z := 128.
Definition prec64 : Z := 53.
Definition emax64 : Z := 1024.

(** Rounds a binary64 number to the nearest binary32 number, ties to even:
    the cast NumPy applies to a Python scalar that fits a float32 array it
    meets, and to a binary64 result assigned to a float32 array. *)
Definition b64_to_b32 (x : binary64) : binary32 :=
  match x with
  | S754_finite s m e => binary_round prec32 emax32 s m e
  | _ => x
  end.

(** The binary64 number equal to a binary32 number: the widening is exact,
    and it puts the number in the form in which binary64 numbers are
    compared. *)
Definition b32_to_b64 (x : binary32) : binary64 :=
  match x with
  | S754_finite s m e => binary_round prec64 emax64 s m e
  | _ => x
  end.

(** The binary64 number nearest to the integer [z]. *)
Definition b64_of_Z (z : Z) : binary64 :=
  match z with
  | Z0 => S754_zero false
  | Zpos p => binary_round prec64 emax64 false p 0
  | Zneg p => binary_round prec64 emax64 true p 0
  end.

(** The binary32 number nearest to the integer [z]. *)
Definition b32_of_Z (z : Z) : binary32 :=
  match z with
  | Z0 => S754_zero false
  | Zpos p => binary_round prec32 emax32 false p 0
  | Zneg p => binary_round prec32 emax32 true p 0
  end.

Definition is_nan (x : spec_float) : bool :=
  match x with S754_nan => true | _ => false end.

(** Zeros and finite numbers: neither an infinity nor NaN. *)
Definition is_finite (x : spec_float) : bool :=
  match x with
  | S754_zero _ | S754_finite _ _ _ => true
  | _ => false
  end.

(** The bound below which NumPy takes a Python float to fit float32: the
    binary64 number nearest to [3.4e38], a little under the largest
    float32 number. *)
Definition float32_limit : binary64 := S754_finite false 8999725064576941 75.

(** A Python float too large for float32: a finite binary64 number that is
    not strictly between [-3.4e38] and [3.4e38]. *)
Definition beyond_float32 (x : binary64) : bool :=
  is_finite x && valid_binary prec64 emax64 x &&
  negb (SFltb (SFopp float32_limit) x && SFltb x float32_limit).

(** Whether a Python float meeting a float32 array is converted to
    float32, the test of [numpy.min_scalar_type]: the float is not finite,
    or [-3.4e38 < x < 3.4e38]. *)
Definition fits_float32 (x : binary64) : bool := negb (beyond_float32 x).

#[export] Instance ieee_numerics : Numerics binary64 binary32 := {|
  c_zero := S754_zero false;
  c_eqb := SFeqb;
  c_leb := SFleb;
  c_ltb := SFltb;
  fits := fits_float32;
  to_pixel := b64_to_b32;
  to_coeff := b32_to_b64;
  p_one := SFone prec32 emax32;
  p_add := SFadd prec32 emax32;
  p_mul := SFmul prec32 emax32;
  c_one := SFone prec64 emax64;
  c_add := SFadd prec64 emax64;
  c_mul := SFmul prec64 emax64;
  array_gt := fun v t =>
    if fits_float32 t then SFltb (b64_to_b32 t) v else SFltb t (b32_to_b64 v)
|}.

(** Strictly above the threshold, the comparison made at binary64 after the
    exact widening of the pixel; a NaN pixel is never detected. *)
#[export] Instance ieee_detection : Detection binary64 binary32 := {|
  detects := fun t v => SFltb t (b32_to_b64 v)
|}.

(** ** Facts *)

Lemma Qltb_lt (a b : Q) : Qltb a b = true <-> (a < b)%Q.
Proof.
  unfold Qltb. rewrite Bool.negb_true_iff, <- Bool.not_true_iff_false, Qle_bool_iff.
  split; [apply Qnot_le_lt | apply Qlt_not_le].
Qed.

Lemma Q_total_order : TotalOrder Q Q.
Proof.
  split; simpl.
  - intros a. apply Qeq_bool_iff. reflexivity.
  - intros a b. unfold Qltb. by rewrite Bool.negb_involutive.
Qed.

#[export] Existing Instance Q_total_order.

(** In exact arithmetic the product the code computes is the polynomial of
    the task's documentation. *)
Lemma Q_correction_polynomial (s v : Q) :
  (p_mul v (p_add p_one (p_mul (to_pixel s) v)) == v + s * v ^ 2)%Q.
Proof. simpl. ring. Qed.

Lemma float32_limit_nearest : float32_limit = b64_of_Z (34 * 10 ^ 37).
Proof. by vm_compute. Qed.

(** The numbers of the test, NaN and the infinities fit float32; a number
    of forty decimal digits does not. *)
Lemma fits_float32_examples :
  fits_float32 (b64_of_Z 50000) = true /\
  fits_float32 (b64_of_Z (-50000)) = true /\
  fits_float32 (b64_of_Z (10 ^ 39)) = false /\
  fits_float32 (b64_of_Z (- 10 ^ 39)) = false /\
  fits_float32 S754_nan = true /\
  fits_float32 (S754_infinity false) = true.
Proof. by vm_compute. Qed.

(** The detection compares a binary32 pixel with a binary64 threshold by
    their values: the pixel is widened first. *)
Lemma ieee_detects_by_value :
  detects (b64_of_Z 50000) (b32_of_Z 17000) = false /\
  detects (b64_of_Z 50000) (b32_of_Z 50000) = false /\
  detects (b64_of_Z 50000) (b32_of_Z 50001) = true /\
  detects (b64_of_Z (-3)) (b32_of_Z (-2)) = true.
Proof. by vm_compute. Qed.

(** A NaN pixel is never detected, and a NaN threshold detects nothing. *)
Lemma ieee_nan_not_detected (t : binary64) (v : binary32) :
  detects t (S754_nan : binary32) = false /\ detects (S754_nan : binary64) v = false.
Proof. split; [by destruct t as [[]|[]| |[] ? ?] | done]. Qed.

(** NaN compares false with everything, itself included. *)
Lemma ieee_nan_compares_false (x : binary64) :
  c_eqb S754_nan x = false /\ c_leb S754_nan x = false /\ c_ltb x S754_nan = false.
Proof. by destruct x as [[]|[]| |[] ? ?]. Qed.

(** The IEEE comparisons are not a total order. *)
Lemma ieee_not_total_order : ~ TotalOrder binary64 binary32.
Proof. intros [H _]. specialize (H S754_nan). discriminate. Qed.

(** A NaN factor makes a product NaN, in every format. *)
Lemma SFmul_nan_r (prec emax : Z) (x : spec_float) : SFmul prec emax x S754_nan = S754_nan.
Proof. by destruct x as [[]|[]| |[] ? ?]. Qed.

(** A NaN operand makes a binary32 product NaN. *)
Lemma ieee_mul_nan_l (x : binary32) : p_mul S754_nan x = S754_nan.
Proof. by destruct x. Qed.

Lemma ieee_mul_nan_r (x : binary32) : p_mul x S754_nan = S754_nan.
Proof. by destruct x as [[]|[]| |[] ? ?]. Qed.

Lemma ieee_add_nan_r (x : binary32) : p_add x S754_nan = S754_nan.
Proof. by destruct x as [[]|[]| |[] ? ?]. Qed.
