(* ===== verification/Ieee.v ===== *)
(** * Ieee: the two float formats of the linearity correction

    Coefficients are Python floats (binary64) and pixels are float32
    (binary32); the code mixes them twice: NumPy narrows the coefficient to
    the pixel type in [squareCoeff*ampArr], and the threshold comparison
    widens the pixel. This file proves, on the Standard Library's
    [SpecFloat], that widening is exact: every well-formed binary32 number
    widens to a well-formed binary64 number that narrows back to it
    ([widen_valid], [widen_narrow]). The lemmas on [binary_round] are stated
    for any precision and exponent range. *)

From Stdlib Require Import ZArith Lia SpecFloat.
From stdpp Require Import base tactics.
From S2P Require Import Prelude Numerics.

Local Open Scope Z_scope.

(** ** Shifting a mantissa *)

Lemma iter_pos_iter {A} (f : A -> A) (n : positive) (x : A) :
  iter_pos f n x = Pos.iter f x n.
Proof.
  revert x. induction n as [n IH|n IH|]; intros x; simpl; [|by rewrite !IH|done].
  by rewrite !IH, !Pos.iter_swap.
Qed.

Lemma digits2_shift (m d : positive) :
  digits2_pos (Pos.iter xO m d) = (digits2_pos m + d)%positive.
Proof.
  induction d as [|d IH] using Pos.peano_ind; simpl.
  - by rewrite Pos.add_1_r.
  - by rewrite Pos.iter_succ, Pos.add_succ_r; simpl; rewrite IH.
Qed.

(** Shifting right by as many bits as were shifted in loses nothing. *)
Lemma shr_shift (m d : positive) :
  iter_pos shr_1 d (Build_shr_record (Zpos (Pos.iter xO m d)) false false)
  = Build_shr_record (Zpos m) false false.
Proof.
  rewrite iter_pos_iter. induction d as [|d IH] using Pos.peano_ind; [done|].
  by rewrite Pos.iter_succ, <- Pos.iter_swap, Pos.iter_succ.
Qed.

(** ** Rounding a number that needs no rounding *)

Section Round.
Variables prec emax : Z.

(** A mantissa in canonical position is kept. *)
Lemma binary_round_aux_canonical (s : bool) (m : positive) (e : Z) :
  fexp prec emax (Zpos (digits2_pos m) + e) = e ->
  e <= emax - prec ->
  binary_round_aux prec emax s (Zpos m) e loc_Exact = S754_finite s m e.
Proof.
  intros Hc He. unfold binary_round_aux, shr_fexp. simpl.
  rewrite Hc, Z.sub_diag. simpl. rewrite Hc, Z.sub_diag. simpl.
  by apply Z.leb_le in He as ->.
Qed.

(** A mantissa with room to spare is shifted left into canonical
    position. *)
Lemma binary_round_shl (s : bool) (m d : positive) (e : Z) :
  fexp prec emax (Zpos (digits2_pos m) + e) = e - Zpos d ->
  e - Zpos d <= emax - prec ->
  binary_round prec emax s m e = S754_finite s (Pos.iter xO m d) (e - Zpos d).
Proof.
  intros Hc He. unfold binary_round, shl_align. rewrite Hc.
  replace (e - Zpos d - e) with (Zneg d) by lia.
  apply binary_round_aux_canonical; [|done].
  rewrite digits2_shift, Pos2Z.inj_add, <- Hc. f_equal. lia.
Qed.

(** A mantissa that ends in the zero bits shifted in is shifted right to
    canonical position, exactly. *)
Lemma binary_round_shr (s : bool) (m d : positive) (e : Z) :
  fexp prec emax (Zpos (digits2_pos m) + e) = e ->
  e <= emax - prec ->
  binary_round prec emax s (Pos.iter xO m d) (e - Zpos d) = S754_finite s m e.
Proof.
  intros Hc He.
  assert (Zpos (digits2_pos (Pos.iter xO m d)) + (e - Zpos d) = Zpos (digits2_pos m) + e)
    as Hd by (rewrite digits2_shift; lia).
  unfold binary_round, shl_align. rewrite Hd, Hc.
  replace (e - (e - Zpos d)) with (Zpos d) by lia.
  unfold binary_round_aux, shr_fexp. simpl Zdigits2. rewrite Hd, Hc.
  replace (e - (e - Zpos d)) with (Zpos d) by lia.
  simpl. rewrite shr_shift. simpl.
  replace (e - Zpos d + Zpos d) with e by lia. rewrite Hc, Z.sub_diag. simpl.
  by apply Z.leb_le in He as ->.
Qed.

End Round.

(** ** binary32 inside binary64 *)

(** A well-formed binary32 mantissa has at most 24 bits and an exponent of
    at least -149. *)
Lemma bounded32_inv (m : positive) (e : Z) :
  bounded prec32 emax32 m e = true ->
  fexp prec32 emax32 (Zpos (digits2_pos m) + e) = e /\ -149 <= e <= 104 /\
  Zpos (digits2_pos m) <= 24.
Proof.
  unfold bounded, canonical_mantissa. intros [Hc%Z.eqb_eq He%Z.leb_le]%andb_prop.
  split; [done|]. revert Hc He. unfold fexp, emin, prec32, emax32. lia.
Qed.

(** The widening of a finite binary32 number: the mantissa shifted to 53
    bits. *)
Lemma widen_finite (s : bool) (m : positive) (e : Z) :
  bounded prec32 emax32 m e = true ->
  exists d, Zpos d = 53 - Zpos (digits2_pos m) /\
    b32_to_b64 (S754_finite s m e) = S754_finite s (Pos.iter xO m d) (e - Zpos d).
Proof.
  intros (Hc & He & Hd)%bounded32_inv.
  assert (0 < 53 - Zpos (digits2_pos m)) as Hpos by lia.
  destruct (53 - Zpos (digits2_pos m)) as [|d|d] eqn:Ed; try lia.
  exists d. split; [done|]. simpl. apply binary_round_shl.
  - unfold fexp, emin, prec64, emax64. lia.
  - unfold prec64, emax64. lia.
Qed.

(** Widening gives a well-formed binary64 number. *)
Lemma widen_valid (x : binary32) :
  valid_binary prec32 emax32 x = true -> valid_binary prec64 emax64 (b32_to_b64 x) = true.
Proof.
  destruct x as [| | |s m e]; try done. simpl valid_binary at 1. intros Hb.
  destruct (widen_finite s m e Hb) as (d & Hd & ->).
  apply bounded32_inv in Hb as (_ & He & Hm).
  unfold valid_binary, bounded, canonical_mantissa. rewrite digits2_shift.
  apply andb_true_intro. split; [apply Z.eqb_eq | apply Z.leb_le];
    unfold fexp, emin, prec64, emax64; lia.
Qed.

(** Widening loses nothing: narrowing gives the number back. *)
Lemma widen_narrow (x : binary32) :
  valid_binary prec32 emax32 x = true -> b64_to_b32 (b32_to_b64 x) = x.
Proof.
  destruct x as [| | |s m e]; try done. simpl valid_binary. intros Hb.
  destruct (widen_finite s m e Hb) as (d & Hd & ->).
  apply bounded32_inv in Hb as (Hc & He & Hm).
  simpl. apply binary_round_shr; [done | unfold prec32, emax32; lia].
Qed.
