(* ===== verification/IeeeRound.v ===== *)
(** * IeeeRound: rounding to nearest, ties to even

    The product [ampArr *= 1.0 + squareCoeff*ampArr] of
    proportionalLinearize.py:95 is three roundings to binary32, and the
    coefficient is rounded once more when NumPy brings it to the pixel type.
    The Standard Library's [SpecFloat] computes a rounding by shifting the
    mantissa right one bit at a time while it records the bit shifted out
    last and whether any bit before it was set ([shr_1]), and then rounds
    the shifted mantissa up or down ([round_nearest_even]).

    This file proves what that computation delivers, for any precision and
    exponent range: the mantissa it returns, scaled back, is within half a
    unit of the last place kept of the mantissa it was given
    ([binary_round_aux_spec], [binary_round_spec]), and the number it returns
    is in canonical form. All statements are on integers; IeeeValue.v reads
    them on rational numbers. *)

From Stdlib Require Import ZArith Lia SpecFloat.
From stdpp Require Import base tactics.
From S2P Require Import Prelude Numerics Ieee.

Local Open Scope Z_scope.

(** The number [binary_round_aux] returns for a mantissa and an exponent:
    zero, a finite number, or infinity when the exponent is out of range. *)
Definition SF_of (prec emax : Z) (s : bool) (m e : Z) : spec_float :=
  match m with
  | Z0 => S754_zero s
  | Zpos p => if e <=? emax - prec then S754_finite s p e else S754_infinity s
  | Zneg _ => S754_nan
  end.

(** What the bits [r] (shifted out last) and [s] (any bit shifted out
    before) say of the remainder [rho] of a division by [2 ^ n]. *)
Definition loc_spec (r s : bool) (rho n : Z) : Prop :=
  match r, s with
  | false, false => rho = 0
  | false, true => 0 < 2 * rho < 2 ^ n
  | true, false => 2 * rho = 2 ^ n
  | true, true => 2 ^ n < 2 * rho
  end.

(** [t] is [m] shifted right by [n] bits. *)
Definition shr_inv (m n : Z) (t : shr_record) : Prop :=
  0 <= shr_m t /\
  exists rho, m = shr_m t * 2 ^ n + rho /\ 0 <= rho < 2 ^ n /\
              loc_spec (shr_r t) (shr_s t) rho n.

(** [rounds_to prec emax m e m2 e2]: the mantissa [m2] at the exponent [e2]
    is the mantissa [m] at the exponent [e] rounded to the format: [e2] is
    the exponent the format gives a number of the size of [m], or the next
    one when rounding carried into a new bit; with both mantissas scaled
    to the smaller of the two exponents, [m2] is within half a unit of the
    last place of [m]; and [m2] at [e2] is in canonical form. *)
Definition rounds_to (prec emax m e m2 e2 : Z) : Prop :=
  let c := fexp prec emax (Zdigits2 m + e) in
  let b := Z.min e c in
  0 <= m2 /\
  (e2 = c \/ e2 = c + 1 /\ c = Zdigits2 m + e - prec) /\
  2 * Z.abs (m2 * 2 ^ (e2 - b) - m * 2 ^ (e - b)) <= 2 ^ (c - b) /\
  (m2 <> 0 -> fexp prec emax (Zdigits2 m2 + e2) = e2).

(** ** Powers of two *)

Lemma pow2_pos (n : Z) : 0 <= n -> 0 < 2 ^ n.
Proof. intros. by apply Z.pow_pos_nonneg. Qed.

Lemma pow2_succ (n : Z) : 0 <= n -> 2 ^ (n + 1) = 2 * 2 ^ n.
Proof. intros. by rewrite Z.pow_add_r, Z.mul_comm. Qed.

Lemma pow2_split (a b : Z) : 0 <= b <= a -> 2 ^ a = 2 ^ (a - b) * 2 ^ b.
Proof. intros. rewrite <- Z.pow_add_r by lia. f_equal. lia. Qed.

Lemma pow2_le (a b : Z) : 0 <= a <= b -> 2 ^ a <= 2 ^ b.
Proof. intros. apply Z.pow_le_mono_r; lia. Qed.

Lemma pow2_lt (a b : Z) : 0 <= a < b -> 2 ^ a < 2 ^ b.
Proof. intros. apply Z.pow_lt_mono_r; lia. Qed.

Lemma iter_xO_pow2 (m n : positive) : Zpos (Pos.iter xO m n) = Zpos m * 2 ^ Zpos n.
Proof.
  induction n as [|n IH] using Pos.peano_ind; [simpl; lia|].
  rewrite Pos.iter_succ, Pos2Z.inj_succ, Pos2Z.inj_xO, IH.
  rewrite <- Z.add_1_r, pow2_succ by lia. lia.
Qed.

(** ** The number of bits of a mantissa *)

Lemma digits2_size (p : positive) : digits2_pos p = Pos.size p.
Proof. induction p; simpl; congruence. Qed.

Lemma Zdigits2_log2 (z : Z) : 0 < z -> Zdigits2 z = Z.log2 z + 1.
Proof.
  destruct z as [|p|p]; try lia. intros _. simpl. rewrite digits2_size.
  destruct p; simpl; lia.
Qed.

Lemma Zdigits2_pos (z : Z) : 0 < z -> 0 < Zdigits2 z.
Proof. intros Hz. rewrite Zdigits2_log2 by done. pose proof (Z.log2_nonneg z). lia. Qed.

Lemma Zdigits2_bounds (z : Z) :
  0 < z -> 2 ^ (Zdigits2 z - 1) <= z < 2 ^ Zdigits2 z.
Proof.
  intros Hz. rewrite Zdigits2_log2 by done. replace (Z.log2 z + 1 - 1) with (Z.log2 z) by lia.
  by apply Z.log2_spec.
Qed.

Lemma Zdigits2_unique (z k : Z) : 0 < k -> 2 ^ (k - 1) <= z < 2 ^ k -> Zdigits2 z = k.
Proof.
  intros Hk Hz. assert (0 < z) by (pose proof (pow2_pos (k - 1)); lia).
  rewrite Zdigits2_log2 by done. rewrite (Z.log2_unique z (k - 1)); [lia | lia |].
  by replace (Z.succ (k - 1)) with k by lia.
Qed.

Lemma Zdigits2_le (z k : Z) : 0 <= k -> 0 <= z < 2 ^ k -> Zdigits2 z <= k.
Proof.
  intros Hk Hz. destruct (decide (z = 0)) as [->|Hne]; [done|].
  destruct (Zdigits2_bounds z) as [Hlo _]; [lia|].
  destruct (decide (Zdigits2 z <= k)) as [|Hgt]; [done|].
  pose proof (pow2_le k (Zdigits2 z - 1)). lia.
Qed.

(** A product has at least the bits of its factors, less one. *)
Lemma Zdigits2_mul_ge (a b : Z) :
  0 < a -> 0 < b -> Zdigits2 a + Zdigits2 b - 1 <= Zdigits2 (a * b).
Proof.
  intros Ha Hb. pose proof (Zdigits2_bounds a Ha) as [Hla _].
  pose proof (Zdigits2_bounds b Hb) as [Hlb _].
  pose proof (Zdigits2_bounds (a * b) ltac:(nia)) as [_ Hu].
  pose proof (Zdigits2_pos a Ha). pose proof (Zdigits2_pos b Hb).
  assert (2 ^ (Zdigits2 a - 1 + (Zdigits2 b - 1)) < 2 ^ Zdigits2 (a * b)) as Hlt.
  { rewrite Z.pow_add_r by lia.
    pose proof (pow2_pos (Zdigits2 a - 1) ltac:(lia)).
    pose proof (pow2_pos (Zdigits2 b - 1) ltac:(lia)). nia. }
  apply Z.pow_lt_mono_r_iff in Hlt; [lia | lia |].
  pose proof (Zdigits2_pos (a * b) ltac:(nia)). lia.
Qed.

(** ** Shifting right *)

Lemma shr_inv_0 (m : Z) : 0 <= m -> shr_inv m 0 (Build_shr_record m false false).
Proof. intros Hm. split; [done|]. exists 0. simpl. lia. Qed.

Lemma shr_1_inv (m n : Z) (t : shr_record) :
  0 <= n -> shr_inv m n t -> shr_inv m (n + 1) (shr_1 t).
Proof.
  intros Hn (Hq & rho & Hm & Hrho & Hloc). pose proof (pow2_pos n Hn) as Hp.
  destruct t as [q r s]. simpl in Hq, Hm, Hloc. unfold shr_inv, loc_spec in *.
  rewrite pow2_succ by done.
  destruct q as [|[p|p|]|p]; try lia; simpl shr_1; simpl shr_m; simpl shr_r; simpl shr_s.
  - split; [lia|]. exists rho. destruct r, s; simpl; lia.
  - split; [lia|]. exists (2 ^ n + rho). destruct r, s; simpl; lia.
  - split; [lia|]. exists rho. destruct r, s; simpl; lia.
  - split; [lia|]. exists (2 ^ n + rho). destruct r, s; simpl; lia.
Qed.

(** After [n] shifts the record holds the quotient by [2 ^ n], and its two
    bits locate the remainder. *)
Lemma shr_iter (m : Z) (n : positive) :
  0 <= m -> shr_inv m (Zpos n) (iter_pos shr_1 n (Build_shr_record m false false)).
Proof.
  intros Hm. rewrite iter_pos_iter. induction n as [|n IH] using Pos.peano_ind.
  - apply (shr_1_inv m 0); [done | by apply shr_inv_0].
  - rewrite Pos.iter_succ, Pos2Z.inj_succ. by apply shr_1_inv.
Qed.

(** Rounding the shifted mantissa: the result is the quotient or the next
    integer, and scaled back it is within half of [2 ^ n] of the mantissa. *)
Lemma round_nearest_even_spec (m n : Z) (t : shr_record) :
  0 <= n -> shr_inv m n t ->
  let m1 := round_nearest_even (shr_m t) (loc_of_shr_record t) in
  shr_m t <= m1 <= shr_m t + 1 /\ 2 * Z.abs (m1 * 2 ^ n - m) <= 2 ^ n.
Proof.
  intros Hn (Hq & rho & Hm & Hrho & Hloc). pose proof (pow2_pos n Hn) as Hp.
  destruct t as [q [] []]; simpl in *; try destruct (Z.even q); lia.
Qed.

(** ** Quotients by a power of two *)

Lemma quotient_lower (q rho P A m : Z) :
  0 < P -> 0 <= rho < P -> m = q * P + rho -> A * P <= m -> A <= q.
Proof. nia. Qed.

Lemma quotient_upper (q rho P B m : Z) :
  0 < P -> 0 <= rho < P -> m = q * P + rho -> m < B * P -> q < B.
Proof. nia. Qed.

(** ** Rounding a mantissa to the format *)

Section Round.
Variables prec emax : Z.
Hypothesis Hprec : 0 < prec.

#[local] Abbreviation fexp := (fexp prec emax).
#[local] Abbreviation emin := (emin prec emax).

Lemma fexp_ge_emin (x : Z) : emin <= fexp x.
Proof. unfold SpecFloat.fexp. lia. Qed.

Lemma fexp_ge_sub (x : Z) : x - prec <= fexp x.
Proof. unfold SpecFloat.fexp. lia. Qed.

(** [binary_round_aux] is two shifts and one rounding. *)
Lemma binary_round_aux_unfold (s : bool) (m e : Z) :
  binary_round_aux prec emax s m e loc_Exact =
    let '(t1, e1) := shr_fexp prec emax m e loc_Exact in
    let '(t2, e2) :=
      shr_fexp prec emax (round_nearest_even (shr_m t1) (loc_of_shr_record t1)) e1 loc_Exact in
    SF_of prec emax s (shr_m t2) e2.
Proof. done. Qed.

(** A mantissa already at the exponent of the format is not shifted. *)
Lemma shr_fexp_canonical (m e : Z) :
  fexp (Zdigits2 m + e) = e ->
  shr_fexp prec emax m e loc_Exact = (Build_shr_record m false false, e).
Proof. intros Hc. unfold shr_fexp. by rewrite Hc, Z.sub_diag. Qed.

(** The mantissa [2 ^ prec], which rounding up gives when it carries, is
    shifted by one bit, exactly. *)
Lemma shr_fexp_carry (e : Z) :
  emin <= e ->
  exists t, shr_fexp prec emax (2 ^ prec) e loc_Exact = (t, e + 1) /\ shr_m t = 2 ^ (prec - 1).
Proof.
  intros He. pose proof (pow2_pos prec ltac:(lia)) as Hp.
  assert (Zdigits2 (2 ^ prec) = prec + 1) as Hd.
  { apply Zdigits2_unique; [lia|]. replace (prec + 1 - 1) with prec by lia.
    rewrite pow2_succ by lia. lia. }
  unfold shr_fexp. rewrite Hd.
  replace (fexp (prec + 1 + e) - e) with 1 by (unfold SpecFloat.fexp; lia).
  eexists. split; [done|].
  destruct (shr_iter (2 ^ prec) 1 ltac:(lia)) as (Hq & rho & Hm & Hrho & _).
  pose proof (pow2_succ (prec - 1) ltac:(lia)) as H2.
  replace (prec - 1 + 1) with prec in H2 by lia. change (2 ^ 1) with 2 in *.
  unfold shr_record_of_loc. lia.
Qed.

(** The first shift and the rounding, when there are bits to shift out:
    the rounded mantissa is within half a unit of the last place; a normal
    number keeps [prec] bits or carries into [2 ^ prec]; a subnormal number
    stays below the normal numbers. *)
Lemma round_shifted (m e : Z) (n : positive) :
  0 < m -> fexp (Zdigits2 m + e) - e = Zpos n ->
  let c := fexp (Zdigits2 m + e) in
  let t := iter_pos shr_1 n (Build_shr_record m false false) in
  let m1 := round_nearest_even (shr_m t) (loc_of_shr_record t) in
  0 <= m1 /\ 2 * Z.abs (m1 * 2 ^ (c - e) - m) <= 2 ^ (c - e) /\
  (c = Zdigits2 m + e - prec -> 2 ^ (prec - 1) <= m1 <= 2 ^ prec) /\
  (Zdigits2 m + e - prec < c -> m1 <= 2 ^ (prec - 1)).
Proof.
  intros Hm Hn c t m1. fold c in Hn. rewrite Hn.
  pose proof (shr_iter m n ltac:(lia)) as Hinv. fold t in Hinv.
  destruct (round_nearest_even_spec m (Zpos n) t ltac:(lia) Hinv) as [Hm1 Herr].
  fold m1 in Hm1, Herr. destruct Hinv as (Hq & rho & Hdiv & Hrho & _).
  pose proof (Zdigits2_bounds m Hm) as Hd. pose proof (Zdigits2_pos m Hm) as Hdpos.
  pose proof (pow2_pos (Zpos n) ltac:(lia)) as Hp.
  split; [lia|]. split; [done|]. split.
  - intros Hc. rewrite (pow2_split (Zdigits2 m) (Zpos n)) in Hd by lia.
    rewrite (pow2_split (Zdigits2 m - 1) (Zpos n)) in Hd by lia.
    replace (Zdigits2 m - Zpos n) with prec in Hd by lia.
    replace (Zdigits2 m - 1 - Zpos n) with (prec - 1) in Hd by lia.
    pose proof (quotient_lower _ _ _ (2 ^ (prec - 1)) _ Hp Hrho Hdiv ltac:(lia)).
    pose proof (quotient_upper _ _ _ (2 ^ prec) _ Hp Hrho Hdiv ltac:(lia)). lia.
  - intros Hc. pose proof (pow2_le (Zdigits2 m) (prec - 1 + Zpos n) ltac:(lia)) as Hle.
    rewrite Z.pow_add_r in Hle by lia.
    pose proof (quotient_upper _ _ _ (2 ^ (prec - 1)) _ Hp Hrho Hdiv ltac:(lia)). lia.
Qed.

(** [binary_round_aux] rounds to nearest, when the mantissa it is given has
    at least the bits the format keeps. *)
Lemma binary_round_aux_spec (s : bool) (m : positive) (e : Z) :
  e <= fexp (Zpos (digits2_pos m) + e) ->
  exists m2 e2,
    binary_round_aux prec emax s (Zpos m) e loc_Exact = SF_of prec emax s m2 e2 /\
    rounds_to prec emax (Zpos m) e m2 e2.
Proof.
  intros Hc. rewrite binary_round_aux_unfold. unfold rounds_to.
  change (Zpos (digits2_pos m)) with (Zdigits2 (Zpos m)) in Hc.
  set (c := fexp (Zdigits2 (Zpos m) + e)) in *.
  pose proof (fexp_ge_emin (Zdigits2 (Zpos m) + e)) as Hemin. fold c in Hemin.
  pose proof (fexp_ge_sub (Zdigits2 (Zpos m) + e)) as Hsubl. fold c in Hsubl.
  rewrite (Z.min_l e c), (Z.sub_diag e), Z.mul_1_r by lia.
  destruct (c - e) as [|n|n] eqn:Hn; [| |lia].
  - assert (c = e) as Hce by lia. rewrite (shr_fexp_canonical (Zpos m) e) by (fold c; lia).
    simpl round_nearest_even. rewrite (shr_fexp_canonical (Zpos m) e) by (fold c; lia).
    exists (Zpos m), e. split; [done|]. rewrite Z.sub_diag. simpl.
    split; [lia|]. split; [by left|]. by split; [lia|].
  - destruct (round_shifted (Zpos m) e n ltac:(lia) Hn) as (H0 & Herr & Hnorm & Hsub).
    fold c in Herr, Hnorm, Hsub. unfold shr_fexp at 1. fold c. rewrite Hn. simpl shr.
    replace (e + Zpos n) with c by lia. simpl shr_record_of_loc.
    set (m1 := round_nearest_even _ _) in *.
    pose proof (pow2_pos (c - e) ltac:(lia)) as Hp.
    pose proof (pow2_pos (prec - 1) ltac:(lia)) as Hp1.
    pose proof (pow2_succ (prec - 1) ltac:(lia)) as Hp2.
    replace (prec - 1 + 1) with prec in Hp2 by lia.
    destruct (decide (m1 = 2 ^ prec)) as [Hcarry|Hno].
    + assert (c = Zdigits2 (Zpos m) + e - prec) as Hnormal by lia.
      rewrite Hcarry. destruct (shr_fexp_carry c Hemin) as (t & -> & ->).
      exists (2 ^ (prec - 1)), (c + 1). split; [done|].
      replace (c + 1 - e) with (c - e + 1) by lia. rewrite pow2_succ by lia.
      rewrite (Zdigits2_unique (2 ^ (prec - 1)) prec) by lia.
      rewrite Hcarry, Hp2 in Herr. rewrite <- Hn.
      repeat split; [lia | by right | lia | unfold SpecFloat.fexp; lia].
    + assert (fexp (Zdigits2 m1 + c) = c) as Hcan.
      { destruct (decide (c = Zdigits2 (Zpos m) + e - prec)) as [Hnormal|Hsubn].
        - rewrite (Zdigits2_unique m1 prec) by lia. unfold SpecFloat.fexp. lia.
        - pose proof (Zdigits2_le m1 prec ltac:(lia) ltac:(lia)).
          assert (0 <= Zdigits2 m1) by (destruct m1; simpl; lia).
          unfold SpecFloat.fexp in *. lia. }
      rewrite (shr_fexp_canonical m1 c Hcan). exists m1, c. rewrite <- Hn.
      split; [done|]. split; [done|]. split; [by left|]. by split.
Qed.

(** [binary_round] rounds any mantissa at any exponent to nearest: it
    first gives a short mantissa the bits it lacks. *)
Lemma binary_round_spec (s : bool) (m : positive) (e : Z) :
  exists m2 e2,
    binary_round prec emax s m e = SF_of prec emax s m2 e2 /\
    rounds_to prec emax (Zpos m) e m2 e2.
Proof.
  unfold binary_round, shl_align.
  change (Zpos (digits2_pos m)) with (Zdigits2 (Zpos m)).
  destruct (fexp (Zdigits2 (Zpos m) + e) - e) as [|n|n] eqn:Hn;
    [apply binary_round_aux_spec; simpl Zdigits2 in Hn; lia.. |].
  set (c := fexp (Zdigits2 (Zpos m) + e)) in *.
  assert (Zdigits2 (Zpos (Pos.iter xO m n)) + c = Zdigits2 (Zpos m) + e) as Hd.
  { simpl. rewrite digits2_shift. lia. }
  destruct (binary_round_aux_spec s (Pos.iter xO m n) c) as (m2 & e2 & -> & Hr).
  { change (Zpos (digits2_pos (Pos.iter xO m n))) with (Zdigits2 (Zpos (Pos.iter xO m n))).
    rewrite Hd. fold c. lia. }
  exists m2, e2. split; [done|]. unfold rounds_to in *. rewrite Hd in Hr. fold c in Hr |- *.
  rewrite Z.min_id in Hr. rewrite (Z.min_r e c) by lia.
  replace (e - c) with (Zpos n) by lia. rewrite <- iter_xO_pow2.
  rewrite Z.sub_diag in Hr |- *. by rewrite Z.mul_1_r in Hr.
Qed.

(** A well-formed mantissa has at most [prec] bits, and exactly [prec]
    unless its exponent is the smallest. *)
Lemma bounded_inv (m : positive) (e : Z) :
  bounded prec emax m e = true ->
  emin <= e <= emax - prec /\ Zdigits2 (Zpos m) <= prec /\
  (Zdigits2 (Zpos m) = prec \/ e = emin).
Proof.
  unfold bounded, canonical_mantissa. intros [Hc%Z.eqb_eq He%Z.leb_le]%andb_prop.
  simpl Zdigits2. unfold SpecFloat.fexp in Hc. lia.
Qed.

(** The product of two well-formed mantissas has the bits the format keeps:
    [binary_round_aux] rounds it to nearest. *)
Lemma mul_has_bits (mx my : positive) (ex ey : Z) :
  prec < emax ->
  bounded prec emax mx ex = true -> bounded prec emax my ey = true ->
  ex + ey <= fexp (Zpos (digits2_pos (mx * my)) + (ex + ey)).
Proof.
  intros Hmax (Hex & Hdx & Hx)%bounded_inv (Hey & Hdy & Hy)%bounded_inv.
  pose proof (Zdigits2_mul_ge (Zpos mx) (Zpos my) ltac:(lia) ltac:(lia)) as Hd.
  pose proof (Zdigits2_pos (Zpos mx) ltac:(lia)). pose proof (Zdigits2_pos (Zpos my) ltac:(lia)).
  simpl in *. unfold SpecFloat.fexp, SpecFloat.emin in *. lia.
Qed.

End Round.

(** The number returned for a rounded mantissa is well formed. *)
Lemma SF_of_valid (prec emax : Z) (s : bool) (m e m2 e2 : Z) :
  rounds_to prec emax m e m2 e2 -> valid_binary prec emax (SF_of prec emax s m2 e2) = true.
Proof.
  intros (H0 & _ & _ & Hcan). destruct m2 as [|p|p]; [done| |lia]. simpl.
  destruct (e2 <=? emax - prec) eqn:He; [|done]. simpl.
  unfold bounded, canonical_mantissa. rewrite He, andb_true_r. apply Z.eqb_eq.
  by apply Hcan.
Qed.
