(* ===== verification/IeeeValue.v ===== *)
(** * IeeeValue: the numbers the floating-point operations compute

    [SF2Q] reads a finite floating-point number as the rational number it
    stands for. On these values the operations of the linearity correction
    follow the standard model of floating-point arithmetic: the value
    computed is the exact value [x] with an error of at most [u * |x|], where
    [u] is the unit roundoff [2 ^ -prec], or of at most [eta], half the
    smallest positive number of the format, when the result is too small for
    a full mantissa ([binary_round_error], [SFmul_error], [SFadd_error]). Sums of
    well-formed numbers never meet the second case. The operations keep
    numbers well formed. *)

From Stdlib Require Import ZArith QArith Qpower Qabs Lia Lqa Psatz SpecFloat.
From stdpp Require Import base tactics.
From S2P Require Import Prelude Numerics Ieee IeeeRound.

Local Open Scope Q_scope.

(** [2 ^ e] for an exponent of either sign. *)
Definition pow2 (e : Z) : Q := 2 ^ e.

(** The number with sign [s], mantissa [m] and exponent [e]. *)
Definition F2Q (s : bool) (m e : Z) : Q := inject_Z (cond_Zopp s m) * pow2 e.

(** The value of a finite number; zero for the others. *)
Definition SF2Q (x : spec_float) : Q :=
  match x with
  | S754_finite s m e => F2Q s (Zpos m) e
  | _ => 0
  end.

(** The unit roundoff of a format, [u]. *)
Definition unit_roundoff (prec : Z) : Q := pow2 (- prec).

(** Half the smallest positive number of a format, [eta]. *)
Definition underflow_unit (prec emax : Z) : Q := pow2 (emin prec emax - 1).

(** [x'] is [x] rounded: the standard model. *)
Definition rounded_from (prec emax : Z) (x' x : Q) : Prop :=
  Qabs (x' - x) <= unit_roundoff prec * Qabs x + underflow_unit prec emax.

(** ** Powers of two *)

Lemma pow2_Qpos (e : Z) : 0 < pow2 e.
Proof. by apply Qpower_0_lt. Qed.

Lemma pow2_Qadd (a b : Z) : pow2 (a + b) == pow2 a * pow2 b.
Proof. by apply Qpower_plus. Qed.

Lemma pow2_Qle (a b : Z) : (a <= b)%Z -> pow2 a <= pow2 b.
Proof. intros. by apply Qpower_le_compat_l. Qed.

Lemma pow2_inject (k : Z) : (0 <= k)%Z -> inject_Z (2 ^ k) == pow2 k.
Proof. intros. by rewrite Zpower_Qpower. Qed.

Lemma pow2_Qsucc (a : Z) : pow2 (a + 1) == 2 * pow2 a.
Proof. rewrite pow2_Qadd. unfold pow2 at 2. simpl. ring. Qed.

Lemma pow2_Qsplit (a b : Z) : pow2 a == pow2 (a - b) * pow2 b.
Proof. rewrite <- pow2_Qadd. by replace (a - b + b)%Z with a by lia. Qed.

(** ** Finite results have finite operands *)

Lemma SFmul_finite (prec emax : Z) (x y : spec_float) :
  is_finite (SFmul prec emax x y) = true -> is_finite x = true /\ is_finite y = true.
Proof. by destruct x as [?|?| |? ? ?], y as [?|?| |? ? ?]. Qed.

Lemma SFadd_finite (prec emax : Z) (x y : spec_float) :
  is_finite (SFadd prec emax x y) = true -> is_finite x = true /\ is_finite y = true.
Proof. by destruct x as [?|[]| |? ? ?], y as [?|[]| |? ? ?]. Qed.

(** ** Values of mantissas *)

Lemma inject_Z_nonneg (m : Z) : (0 <= m)%Z -> 0 <= inject_Z m.
Proof. intros. change 0 with (inject_Z 0). by rewrite <- Zle_Qle. Qed.

Lemma F2Q_abs (s : bool) (m m' e e' : Z) :
  Qabs (F2Q s m' e' - F2Q s m e) == Qabs (inject_Z m' * pow2 e' - inject_Z m * pow2 e).
Proof.
  unfold F2Q, cond_Zopp. destruct s; [|done]. rewrite !inject_Z_opp.
  setoid_replace (- inject_Z m' * pow2 e' - - inject_Z m * pow2 e)
    with (- (inject_Z m' * pow2 e' - inject_Z m * pow2 e)) using relation Qeq by ring.
  apply Qabs_opp.
Qed.

Lemma F2Q_Qabs (s : bool) (m e : Z) : (0 <= m)%Z -> Qabs (F2Q s m e) == inject_Z m * pow2 e.
Proof.
  intros Hm. unfold F2Q. rewrite Qabs_Qmult, (Qabs_pos (pow2 e)) by apply Qlt_le_weak, pow2_Qpos.
  apply Qmult_comp; [|done]. unfold cond_Zopp.
  destruct s; [rewrite inject_Z_opp, Qabs_opp|]; by apply Qabs_pos, inject_Z_nonneg.
Qed.

Section Value.
Variables prec emax : Z.
Hypothesis Hprec : (0 < prec)%Z.

#[local] Abbreviation fexp := (fexp prec emax).
#[local] Abbreviation emin := (emin prec emax).
#[local] Abbreviation u := (unit_roundoff prec).
#[local] Abbreviation eta := (underflow_unit prec emax).

(** The rounded mantissa is within half a unit of the last place. *)
Lemma rounds_to_half_ulp (m e m2 e2 : Z) :
  (0 < m)%Z -> rounds_to prec emax m e m2 e2 ->
  2 * Qabs (inject_Z m2 * pow2 e2 - inject_Z m * pow2 e) <= pow2 (fexp (Zdigits2 m + e)).
Proof.
  intros Hm (H0 & He2 & Herr & _). set (c := fexp (Zdigits2 m + e)) in *.
  set (b := Z.min e c) in *.
  assert (0 <= e2 - b /\ 0 <= e - b /\ 0 <= c - b)%Z as (H1 & H2 & H3) by lia.
  rewrite Zle_Qle, inject_Z_mult in Herr.
  change (inject_Z (Z.abs ?z)) with (Qabs (inject_Z z)) in Herr.
  unfold Z.sub in Herr at 1. rewrite inject_Z_plus, inject_Z_opp, !inject_Z_mult in Herr.
  rewrite !pow2_inject in Herr by done.
  rewrite (pow2_Qsplit e2 b), (pow2_Qsplit e b), (pow2_Qsplit c b).
  setoid_replace (inject_Z m2 * (pow2 (e2 - b) * pow2 b) - inject_Z m * (pow2 (e - b) * pow2 b))
    with ((inject_Z m2 * pow2 (e2 - b) + - (inject_Z m * pow2 (e - b))) * pow2 b)
    using relation Qeq by ring.
  rewrite Qabs_Qmult, (Qabs_pos (pow2 b)) by apply Qlt_le_weak, pow2_Qpos.
  rewrite Qmult_assoc. apply Qmult_le_compat_r; [done | apply Qlt_le_weak, pow2_Qpos].
Qed.

(** A mantissa that has no bit below the last place kept is kept. *)
Lemma rounds_to_exact (m e m2 e2 : Z) :
  rounds_to prec emax m e m2 e2 -> (fexp (Zdigits2 m + e) <= e)%Z ->
  inject_Z m2 * pow2 e2 == inject_Z m * pow2 e.
Proof.
  intros (H0 & He2 & Herr & _) Hc. set (c := fexp (Zdigits2 m + e)) in *.
  rewrite (Z.min_r e c), Z.sub_diag in Herr by done.
  assert (m2 * 2 ^ (e2 - c) = m * 2 ^ (e - c))%Z as Heq by (simpl in Herr; lia).
  rewrite (pow2_Qsplit e2 c), (pow2_Qsplit e c), !Qmult_assoc.
  rewrite <- (pow2_inject (e2 - c)), <- (pow2_inject (e - c)) by lia.
  by rewrite <- !inject_Z_mult, Heq.
Qed.

(** The standard model: the error of a rounding is at most [u] times the
    number rounded, unless the result is too small for a full mantissa; the
    error is then at most [eta]. *)
Lemma rounds_to_error (m e m2 e2 : Z) :
  (0 < m)%Z -> rounds_to prec emax m e m2 e2 ->
  let x := inject_Z m * pow2 e in
  let x' := inject_Z m2 * pow2 e2 in
  Qabs (x' - x) <= u * x \/ Qabs (x' - x) <= eta /\ (e < emin)%Z.
Proof.
  intros Hm Hr x x'. pose proof (rounds_to_half_ulp m e m2 e2 Hm Hr) as Hhalf.
  fold x x' in Hhalf. set (c := fexp (Zdigits2 m + e)) in *.
  destruct (decide (c <= e)%Z) as [Hce|Hce].
  { left. unfold x, x'. rewrite (rounds_to_exact _ _ _ _ Hr Hce).
    setoid_replace (inject_Z m * pow2 e - inject_Z m * pow2 e) with 0 using relation Qeq by ring.
    apply Qmult_le_0_compat; [apply Qlt_le_weak, pow2_Qpos|].
    apply Qmult_le_0_compat; [apply inject_Z_nonneg; lia | apply Qlt_le_weak, pow2_Qpos]. }
  destruct (decide (c = Zdigits2 m + e - prec)%Z) as [Hn|Hn].
  - left. pose proof (Zdigits2_bounds m Hm) as [Hlo _]. pose proof (Zdigits2_pos m Hm).
    rewrite Zle_Qle, pow2_inject in Hlo by lia.
    assert (pow2 c == 2 * (u * (pow2 (Zdigits2 m - 1) * pow2 e))) as Hc.
    { unfold unit_roundoff. rewrite <- !pow2_Qadd, <- pow2_Qsucc. f_equiv. lia. }
    rewrite Hc in Hhalf. pose proof (pow2_Qpos e) as He. pose proof (pow2_Qpos (- prec)) as Hu.
    fold u in Hu. clear Hc. generalize dependent (Qabs (x' - x)). unfold x.
    generalize dependent (pow2 (Zdigits2 m - 1)). generalize dependent (pow2 e).
    generalize dependent u. generalize dependent (inject_Z m). intros M U HU E x HE P HP A HA.
    assert (P * E <= M * E) by nra. nra.
  - right. assert (c = emin) as Hc by (unfold c, SpecFloat.fexp in *; lia).
    split; [|lia]. assert (pow2 c == 2 * eta) as Heta.
    { unfold underflow_unit. rewrite <- pow2_Qsucc. f_equiv. lia. }
    rewrite Heta in Hhalf. generalize dependent eta. intros. lra.
Qed.

(** The value of the number returned for a rounded mantissa. *)
Lemma SF2Q_SF_of (s : bool) (m e : Z) :
  (0 <= m)%Z -> is_finite (SF_of prec emax s m e) = true ->
  SF2Q (SF_of prec emax s m e) == F2Q s m e.
Proof.
  intros Hm. destruct m as [|p|p]; simpl; [intros _| |lia].
  - unfold F2Q. destruct s; symmetry; apply Qmult_0_l.
  - by destruct (e <=? emax - prec)%Z.
Qed.

Lemma u_nonneg : 0 <= u.
Proof. apply Qlt_le_weak, pow2_Qpos. Qed.

Lemma eta_nonneg : 0 <= eta.
Proof. apply Qlt_le_weak, pow2_Qpos. Qed.

(** An exact result is a rounded one. *)
Lemma rounded_from_exact (x' x : Q) : x' == x -> rounded_from prec emax x' x.
Proof.
  intros Hx. unfold rounded_from.
  setoid_replace (x' - x) with 0 using relation Qeq by (rewrite Hx; ring).
  pose proof u_nonneg. pose proof eta_nonneg. pose proof (Qabs_nonneg x).
  change (Qabs 0) with 0. nra.
Qed.

(** The error of the number returned for a rounded mantissa. *)
Lemma SF_of_error (s : bool) (m e m2 e2 : Z) :
  (0 < m)%Z -> rounds_to prec emax m e m2 e2 ->
  is_finite (SF_of prec emax s m2 e2) = true ->
  let x := F2Q s m e in
  let x' := SF2Q (SF_of prec emax s m2 e2) in
  Qabs (x' - x) <= u * Qabs x \/ Qabs (x' - x) <= eta /\ (e < emin)%Z.
Proof.
  intros Hm Hr Hfin x x'. unfold x, x'.
  rewrite (SF2Q_SF_of s m2 e2 (proj1 Hr) Hfin), F2Q_abs, F2Q_Qabs by lia.
  by apply rounds_to_error.
Qed.

(** [binary_round] follows the standard model and returns a well-formed
    number. *)
Lemma binary_round_error (s : bool) (m : positive) (e : Z) :
  let x := F2Q s (Zpos m) e in
  let r := binary_round prec emax s m e in
  valid_binary prec emax r = true /\
  (is_finite r = true ->
   Qabs (SF2Q r - x) <= u * Qabs x \/ Qabs (SF2Q r - x) <= eta /\ (e < emin)%Z).
Proof.
  intros x r. destruct (binary_round_spec prec emax Hprec s m e) as (m2 & e2 & Heq & Hr).
  unfold r. rewrite Heq. split; [by eapply SF_of_valid|]. intros Hfin.
  by apply SF_of_error.
Qed.

(** The standard model, for [binary_round]. *)
Lemma binary_round_rounded (s : bool) (m : positive) (e : Z) :
  is_finite (binary_round prec emax s m e) = true ->
  rounded_from prec emax (SF2Q (binary_round prec emax s m e)) (F2Q s (Zpos m) e).
Proof.
  intros Hfin. unfold rounded_from. pose proof u_nonneg. pose proof eta_nonneg.
  pose proof (Qabs_nonneg (F2Q s (Zpos m) e)).
  destruct (proj2 (binary_round_error s m e) Hfin) as [Hrel|[Habs _]]; nra.
Qed.

(** ** Product *)

Lemma F2Q_mul (sx sy : bool) (mx my ex ey : Z) :
  F2Q (xorb sx sy) (mx * my) (ex + ey) == F2Q sx mx ex * F2Q sy my ey.
Proof.
  unfold F2Q, cond_Zopp. rewrite pow2_Qadd.
  destruct sx, sy; simpl xorb; cbv iota; rewrite ?inject_Z_opp, inject_Z_mult; ring.
Qed.

(** The product of two well-formed numbers, when it is not an infinity or
    NaN, is the exact product rounded, and it is well formed. *)
Lemma SFmul_error (x y : spec_float) :
  (prec < emax)%Z ->
  valid_binary prec emax x = true -> valid_binary prec emax y = true ->
  is_finite (SFmul prec emax x y) = true ->
  rounded_from prec emax (SF2Q (SFmul prec emax x y)) (SF2Q x * SF2Q y) /\
  valid_binary prec emax (SFmul prec emax x y) = true.
Proof.
  intros Hmax Hx Hy.
  destruct x as [sx|sx| |sx mx ex], y as [sy|sy| |sy my ey]; try done; simpl SFmul;
    try by (intros _; split; [apply rounded_from_exact; simpl; ring | done]).
  destruct (binary_round_aux_spec prec emax Hprec (xorb sx sy) (mx * my) (ex + ey))
    as (m2 & e2 & -> & Hr); [by apply mul_has_bits|].
  intros Hfin. split; [|by eapply SF_of_valid]. unfold rounded_from.
  simpl SF2Q. rewrite <- F2Q_mul. change (Zpos mx * Zpos my)%Z with (Zpos (mx * my)).
  pose proof u_nonneg. pose proof eta_nonneg.
  pose proof (Qabs_nonneg (F2Q (xorb sx sy) (Zpos (mx * my)) (ex + ey))).
  destruct (SF_of_error (xorb sx sy) (Zpos (mx * my)) (ex + ey) m2 e2 ltac:(lia) Hr Hfin)
    as [Hrel|[Habs _]]; nra.
Qed.

(** ** Sum *)

(** Aligning a mantissa to a smaller exponent keeps its value. *)
Lemma shl_align_value (m : positive) (e e' : Z) :
  (e' <= e)%Z ->
  inject_Z (Zpos (fst (shl_align m e e'))) * pow2 e' == inject_Z (Zpos m) * pow2 e.
Proof.
  intros He. unfold shl_align. destruct (e' - e)%Z as [|d|d] eqn:Hd; simpl fst; try lia.
  - by replace e' with e by lia.
  - rewrite iter_xO_pow2, inject_Z_mult, pow2_inject, <- Qmult_assoc, <- pow2_Qadd by lia.
    by replace (Zpos d + e')%Z with e by lia.
Qed.

Lemma F2Q_cond_Zopp (s : bool) (m e : Z) :
  inject_Z (cond_Zopp s m) * pow2 e == (if s then - 1 else 1) * (inject_Z m * pow2 e).
Proof. unfold cond_Zopp. destruct s; rewrite ?inject_Z_opp; ring. Qed.

(** The sum of the aligned mantissas is the sum of the values. *)
Lemma aligned_sum_value (sx sy : bool) (mx my : positive) (ex ey : Z) :
  let ez := Z.min ex ey in
  inject_Z (cond_Zopp sx (Zpos (fst (shl_align mx ex ez))) +
            cond_Zopp sy (Zpos (fst (shl_align my ey ez)))) * pow2 ez ==
  F2Q sx (Zpos mx) ex + F2Q sy (Zpos my) ey.
Proof.
  intros ez. unfold F2Q. rewrite inject_Z_plus, Qmult_plus_distr_l, !F2Q_cond_Zopp.
  by rewrite !shl_align_value by lia.
Qed.

(** [binary_normalize] rounds the integer [z] at the exponent [e]; at an
    exponent the format has, only the relative error remains. *)
Lemma binary_normalize_error (z e : Z) :
  (emin <= e)%Z ->
  let x := inject_Z z * pow2 e in
  let r := binary_normalize prec emax z e false in
  valid_binary prec emax r = true /\
  (is_finite r = true -> Qabs (SF2Q r - x) <= u * Qabs x).
Proof.
  intros He x r. unfold r, x. destruct z as [|p|p]; simpl binary_normalize.
  - split; [done|]. intros _. simpl SF2Q. rewrite Qmult_0_l. change (Qabs (0 - 0)) with 0.
    pose proof u_nonneg. change (Qabs 0) with 0. lra.
  - destruct (binary_round_error false p e) as [Hv Herr]. split; [done|].
    intros Hfin. by destruct (Herr Hfin) as [Hrel|[_ ?]]; [|lia].
  - destruct (binary_round_error true p e) as [Hv Herr]. split; [done|].
    intros Hfin. by destruct (Herr Hfin) as [Hrel|[_ ?]]; [|lia].
Qed.

(** The sum of two well-formed numbers, when it is not an infinity or NaN,
    is the exact sum with a relative error of at most [u], and it is well
    formed: sums do not underflow. *)
Lemma SFadd_error (x y : spec_float) :
  valid_binary prec emax x = true -> valid_binary prec emax y = true ->
  is_finite (SFadd prec emax x y) = true ->
  Qabs (SF2Q (SFadd prec emax x y) - (SF2Q x + SF2Q y)) <= u * Qabs (SF2Q x + SF2Q y) /\
  valid_binary prec emax (SFadd prec emax x y) = true.
Proof.
  intros Hx Hy. pose proof u_nonneg as Hu.
  assert (forall q q', q' == q -> Qabs (q - q') <= u * Qabs q') as Hsame.
  { intros q q' ->. setoid_replace (q - q) with 0 using relation Qeq by ring.
    pose proof (Qabs_nonneg q). change (Qabs 0) with 0. nra. }
  destruct x as [sx|sx| |sx mx ex], y as [sy|sy| |sy my ey]; try done; simpl SFadd;
    try by destruct sx, sy.
  - intros _. split; [|by destruct sx, sy]. apply Hsame.
    destruct sx, sy; cbn [SF2Q]; ring.
  - intros _. split; [|done]. apply Hsame. cbn [SF2Q]. ring.
  - intros _. split; [|done]. apply Hsame. cbn [SF2Q]. ring.
  - simpl in Hx, Hy. apply bounded_inv in Hx as (Hex & _), Hy as (Hey & _); try done.
    destruct (binary_normalize_error
                (cond_Zopp sx (Zpos (fst (shl_align mx ex (Z.min ex ey)))) +
                 cond_Zopp sy (Zpos (fst (shl_align my ey (Z.min ex ey)))))
                (Z.min ex ey) ltac:(lia)) as [Hv Herr].
    intros Hfin. split; [|done]. specialize (Herr Hfin).
    by rewrite aligned_sum_value in Herr.
Qed.

(** Results that are not finite are well formed as they are. *)
Lemma not_finite_valid (x : spec_float) :
  is_finite x = false -> valid_binary prec emax x = true.
Proof. by destruct x. Qed.

(** Product and sum keep numbers well formed, whatever they return. *)
Lemma SFmul_valid (x y : spec_float) :
  (prec < emax)%Z ->
  valid_binary prec emax x = true -> valid_binary prec emax y = true ->
  valid_binary prec emax (SFmul prec emax x y) = true.
Proof.
  intros Hmax Hx Hy. destruct (is_finite (SFmul prec emax x y)) eqn:Hf.
  - by apply SFmul_error.
  - by apply not_finite_valid.
Qed.

Lemma SFadd_valid (x y : spec_float) :
  valid_binary prec emax x = true -> valid_binary prec emax y = true ->
  valid_binary prec emax (SFadd prec emax x y) = true.
Proof.
  intros Hx Hy. destruct (is_finite (SFadd prec emax x y)) eqn:Hf.
  - by apply SFadd_error.
  - by apply not_finite_valid.
Qed.

End Value.
