(* ===== verification/IeeeCompare.v ===== *)
(** * IeeeCompare: the comparisons of floating-point numbers are exact

    [SFcompare] orders two finite numbers by sign, exponent and mantissa.
    On well-formed numbers this is the order of their values
    ([SFcompare_spec]), so [SFltb], [SFleb] and [SFeqb] decide [<], [<=] and
    [==] on the values, and the widening of a binary32 pixel to binary64
    keeps its value ([widen_value]): the test by which a pixel is found
    above a threshold is the test on the exact numbers. *)

From Stdlib Require Import ZArith QArith Qpower Qabs Lia Lqa Psatz SpecFloat.
From stdpp Require Import base tactics.
From S2P Require Import Prelude Numerics Ieee IeeeRound IeeeValue.

Local Open Scope Q_scope.

(** The magnitude of a finite number. *)
Definition mag (m : positive) (e : Z) : Q := inject_Z (Zpos m) * pow2 e.

(** ** Magnitudes *)

Lemma mag_pos (m : positive) (e : Z) : 0 < mag m e.
Proof.
  unfold mag. apply Qmult_lt_0_compat; [|apply pow2_Qpos].
  change 0 with (inject_Z 0). by rewrite <- Zlt_Qlt.
Qed.

Lemma F2Q_mag (s : bool) (m : positive) (e : Z) :
  F2Q s (Zpos m) e == if s then - mag m e else mag m e.
Proof. unfold F2Q, mag. rewrite F2Q_cond_Zopp. destruct s; ring. Qed.

(** At one exponent the magnitudes are ordered as the mantissas. *)
Lemma mag_same_exp (m1 m2 : positive) (e : Z) :
  CompareSpec (mag m1 e == mag m2 e) (mag m1 e < mag m2 e) (mag m2 e < mag m1 e)
    (Pos.compare_cont Eq m1 m2).
Proof.
  change (Pos.compare_cont Eq m1 m2) with (m1 ?= m2)%positive. unfold mag.
  pose proof (pow2_Qpos e) as He.
  destruct (Pos.compare_spec m1 m2) as [->|Hlt|Hlt]; constructor; [done|..];
    apply Qmult_lt_r; try done; rewrite <- Zlt_Qlt; lia.
Qed.

Section Compare.
Variables prec emax : Z.
Hypothesis Hprec : (0 < prec)%Z.

(** Of two well-formed numbers the one with the smaller exponent is the
    smaller: the other has a full mantissa. *)
Lemma mag_lt_exp (m1 m2 : positive) (e1 e2 : Z) :
  bounded prec emax m1 e1 = true -> bounded prec emax m2 e2 = true ->
  (e1 < e2)%Z -> mag m1 e1 < mag m2 e2.
Proof.
  intros (He1 & Hd1 & _)%bounded_inv (He2 & Hd2 & Hf2)%bounded_inv Hlt; try done.
  destruct Hf2 as [Hf2|?]; [|lia].
  destruct (Zdigits2_bounds (Zpos m1) eq_refl) as [_ Hhi].
  destruct (Zdigits2_bounds (Zpos m2) eq_refl) as [Hlo _]. rewrite Hf2 in Hlo.
  pose proof (Zdigits2_pos (Zpos m1) eq_refl) as Hd.
  pose proof (pow2_le (Zdigits2 (Zpos m1)) prec ltac:(lia)) as Hp.
  pose proof (pow2_succ (prec - 1) ltac:(lia)) as Hs.
  replace (prec - 1 + 1)%Z with prec in Hs by lia.
  pose proof (pow2_le 1 (e2 - e1) ltac:(lia)) as Hk. change (2 ^ 1)%Z with 2%Z in Hk.
  unfold mag.
  rewrite (pow2_Qsplit e2 e1), <- (pow2_inject (e2 - e1)), Qmult_assoc, <- inject_Z_mult by lia.
  apply Qmult_lt_r; [apply pow2_Qpos|]. rewrite <- Zlt_Qlt. nia.
Qed.

(** The order of the magnitudes of two well-formed numbers. *)
Lemma mag_compare (m1 m2 : positive) (e1 e2 : Z) :
  bounded prec emax m1 e1 = true -> bounded prec emax m2 e2 = true ->
  CompareSpec (mag m1 e1 == mag m2 e2) (mag m1 e1 < mag m2 e2) (mag m2 e2 < mag m1 e1)
    match (e1 ?= e2)%Z with
    | Eq => Pos.compare_cont Eq m1 m2
    | Lt => Lt
    | Gt => Gt
    end.
Proof.
  intros H1 H2. destruct (Z.compare_spec e1 e2) as [->|Hlt|Hlt].
  - apply mag_same_exp.
  - constructor. by apply mag_lt_exp.
  - constructor. by apply mag_lt_exp.
Qed.

(** [SFcompare] orders well-formed finite numbers by their values. *)
Lemma SFcompare_spec (x y : spec_float) :
  valid_binary prec emax x = true -> valid_binary prec emax y = true ->
  is_finite x = true -> is_finite y = true ->
  exists c, SFcompare x y = Some c /\
    CompareSpec (SF2Q x == SF2Q y) (SF2Q x < SF2Q y) (SF2Q y < SF2Q x) c.
Proof.
  intros Hx Hy.
  destruct x as [sx|sx| |sx mx ex], y as [sy|sy| |sy my ey]; try discriminate; intros _ _;
    cbn [SFcompare SF2Q]; eexists; (split; [reflexivity|]).
  - by constructor.
  - pose proof (F2Q_mag sy my ey) as Ey. pose proof (mag_pos my ey).
    destruct sy; constructor; lra.
  - pose proof (F2Q_mag sx mx ex) as Ex. pose proof (mag_pos mx ex).
    destruct sx; constructor; lra.
  - pose proof (F2Q_mag sx mx ex) as Ex. pose proof (F2Q_mag sy my ey) as Ey.
    pose proof (mag_pos mx ex). pose proof (mag_pos my ey).
    pose proof (mag_compare mx my ex ey Hx Hy) as Hc.
    destruct sx, sy; [|constructor; lra..|].
    + replace (match (ex ?= ey)%Z with Eq => CompOpp _ | Lt => Gt | Gt => Lt end)
        with (CompOpp match (ex ?= ey)%Z with
                      | Eq => Pos.compare_cont Eq mx my | Lt => Lt | Gt => Gt end)
        by (by destruct (ex ?= ey)%Z).
      destruct Hc; constructor; lra.
    + destruct Hc; constructor; lra.
Qed.

(** On well-formed finite numbers the three comparisons are those of the
    values. *)
Lemma SFltb_exact (x y : spec_float) :
  valid_binary prec emax x = true -> valid_binary prec emax y = true ->
  is_finite x = true -> is_finite y = true ->
  SFltb x y = Qltb (SF2Q x) (SF2Q y).
Proof.
  intros Hx Hy Fx Fy. destruct (SFcompare_spec x y Hx Hy Fx Fy) as (c & Hc & Hs).
  unfold SFltb. rewrite Hc. apply Bool.eq_iff_eq_true. rewrite Qltb_lt.
  destruct Hs; split; (done || lra).
Qed.

Lemma SFleb_exact (x y : spec_float) :
  valid_binary prec emax x = true -> valid_binary prec emax y = true ->
  is_finite x = true -> is_finite y = true ->
  SFleb x y = Qle_bool (SF2Q x) (SF2Q y).
Proof.
  intros Hx Hy Fx Fy. destruct (SFcompare_spec x y Hx Hy Fx Fy) as (c & Hc & Hs).
  unfold SFleb. rewrite Hc. apply Bool.eq_iff_eq_true. rewrite Qle_bool_iff.
  destruct Hs; split; (done || lra).
Qed.

Lemma SFeqb_exact (x y : spec_float) :
  valid_binary prec emax x = true -> valid_binary prec emax y = true ->
  is_finite x = true -> is_finite y = true ->
  SFeqb x y = Qeq_bool (SF2Q x) (SF2Q y).
Proof.
  intros Hx Hy Fx Fy. destruct (SFcompare_spec x y Hx Hy Fx Fy) as (c & Hc & Hs).
  unfold SFeqb. rewrite Hc. apply Bool.eq_iff_eq_true. rewrite Qeq_bool_iff.
  destruct Hs; split; (done || lra).
Qed.

End Compare.

(** ** The pixel against the threshold *)

(** A mantissa shifted left at an exponent lowered as much is the same
    number. *)
Lemma F2Q_shift (s : bool) (m d : positive) (e : Z) :
  F2Q s (Zpos (Pos.iter xO m d)) (e - Zpos d) == F2Q s (Zpos m) e.
Proof.
  unfold F2Q. rewrite !F2Q_cond_Zopp, iter_xO_pow2, inject_Z_mult, pow2_inject by done.
  rewrite <- (Qmult_assoc (inject_Z (Zpos m))), <- pow2_Qadd.
  by replace (Zpos d + (e - Zpos d))%Z with e by lia.
Qed.

(** Widening a binary32 number to binary64 keeps its value. *)
Lemma widen_value (x : binary32) :
  valid_binary prec32 emax32 x = true -> SF2Q (b32_to_b64 x) == SF2Q x.
Proof.
  destruct x as [| | |s m e]; try done. simpl valid_binary. intros Hb.
  destruct (widen_finite s m e Hb) as (d & _ & ->). apply F2Q_shift.
Qed.

Lemma widen_is_finite (x : binary32) :
  valid_binary prec32 emax32 x = true -> is_finite (b32_to_b64 x) = is_finite x.
Proof.
  destruct x as [| | |s m e]; try done. simpl valid_binary. intros Hb.
  by destruct (widen_finite s m e Hb) as (d & _ & ->).
Qed.

(** The detection at IEEE numbers is the detection on the values. *)
Lemma detects_exact (t : binary64) (v : binary32) :
  valid_binary prec64 emax64 t = true -> valid_binary prec32 emax32 v = true ->
  is_finite t = true -> is_finite v = true ->
  detects t v = detects (SF2Q t) (SF2Q v).
Proof.
  intros Ht Hv Ft Fv. simpl detects.
  rewrite (SFltb_exact prec64 emax64 eq_refl) by (by rewrite ?widen_is_finite; try apply widen_valid).
  apply Bool.eq_iff_eq_true. rewrite !Qltb_lt. by rewrite (widen_value v Hv).
Qed.
