(* ===== verification/IeeeRange.v ===== *)
(** * IeeeRange: results that do not overflow

    A floating-point operation returns an infinity when the exact result is
    too large for the format. The lemmas of this file give the converse for
    the operations of the linearity correction: when the exact result is
    below [2 ^ (emax - 1)] in magnitude, half the range of the format, the
    rounded result is a zero or a finite number ([binary_round_in_range],
    [SFmul_in_range], [SFadd_in_range]). *)

From Stdlib Require Import ZArith QArith Qpower Qabs Lia Lqa Psatz SpecFloat.
From stdpp Require Import base tactics.
From S2P Require Import Prelude Numerics Ieee IeeeRound IeeeValue.

Local Open Scope Q_scope.

(** A positive number below [2 ^ k] has its leading bit below position
    [k]. *)
Lemma value_digits (m e k : Z) :
  (0 < m)%Z -> inject_Z m * pow2 e < pow2 k -> (Zdigits2 m + e <= k)%Z.
Proof.
  intros Hm Hlt. destruct (Z_le_gt_dec (Zdigits2 m + e) k) as [|Hgt]; [done|]. exfalso.
  destruct (Zdigits2_bounds m Hm) as [Hlo _]. pose proof (Zdigits2_pos m Hm) as Hd.
  apply Qlt_not_le in Hlt. apply Hlt.
  eapply Qle_trans; [apply (pow2_Qle k (Zdigits2 m - 1 + e)); lia|].
  rewrite pow2_Qadd, <- pow2_inject by lia.
  apply Qmult_le_compat_r; [by rewrite <- Zle_Qle | apply Qlt_le_weak, pow2_Qpos].
Qed.

Section Range.
Variables prec emax : Z.
Hypothesis Hprec : (0 < prec)%Z.
Hypothesis Hmax : (prec < emax)%Z.

(** Half the range of the format. *)
#[local] Abbreviation top := (pow2 (emax - 1)).

(** A mantissa rounded from a number below [top] fits the format. *)
Lemma SF_of_in_range (s : bool) (m e m2 e2 : Z) :
  (0 < m)%Z -> rounds_to prec emax m e m2 e2 ->
  inject_Z m * pow2 e < top ->
  is_finite (SF_of prec emax s m2 e2) = true.
Proof.
  intros Hm (H0 & He2 & _) Hd%value_digits; [|done].
  destruct m2 as [|p|p]; [done| |lia]. simpl.
  unfold fexp, emin in He2. by rewrite (proj2 (Z.leb_le e2 (emax - prec))) by lia.
Qed.

Lemma binary_round_in_range (s : bool) (m : positive) (e : Z) :
  Qabs (F2Q s (Zpos m) e) < top ->
  is_finite (binary_round prec emax s m e) = true.
Proof.
  rewrite F2Q_Qabs by done. intros Hlt.
  destruct (binary_round_spec prec emax Hprec s m e) as (m2 & e2 & -> & Hr).
  exact (SF_of_in_range s (Zpos m) e m2 e2 eq_refl Hr Hlt).
Qed.

(** The product of two numbers whose exact product is below [top] is not
    an infinity. *)
Lemma SFmul_in_range (x y : spec_float) :
  valid_binary prec emax x = true -> valid_binary prec emax y = true ->
  is_finite x = true -> is_finite y = true ->
  Qabs (SF2Q x * SF2Q y) < top ->
  is_finite (SFmul prec emax x y) = true.
Proof.
  intros Hx Hy.
  destruct x as [sx|sx| |sx mx ex], y as [sy|sy| |sy my ey]; try done; simpl SFmul.
  intros _ _. simpl SF2Q. rewrite <- F2Q_mul, F2Q_Qabs by done. intros Hlt.
  destruct (binary_round_aux_spec prec emax Hprec (xorb sx sy) (mx * my) (ex + ey))
    as (m2 & e2 & -> & Hr); [by apply mul_has_bits|].
  exact (SF_of_in_range _ (Zpos (mx * my)) (ex + ey) m2 e2 eq_refl Hr Hlt).
Qed.

(** [binary_normalize] of an integer at an exponent, when the number is
    below [top]. *)
Lemma binary_normalize_in_range (z e : Z) :
  Qabs (inject_Z z * pow2 e) < top ->
  is_finite (binary_normalize prec emax z e false) = true.
Proof.
  destruct z as [|p|p]; simpl binary_normalize; [done| |]; intros Hlt;
    apply binary_round_in_range; exact Hlt.
Qed.

(** The sum of two numbers whose exact sum is below [top] is not an
    infinity. *)
Lemma SFadd_in_range (x y : spec_float) :
  is_finite x = true -> is_finite y = true ->
  Qabs (SF2Q x + SF2Q y) < top ->
  is_finite (SFadd prec emax x y) = true.
Proof.
  destruct x as [sx|sx| |sx mx ex], y as [sy|sy| |sy my ey]; try done; simpl SFadd;
    try by destruct sx, sy.
  intros _ _ Hlt. apply binary_normalize_in_range. by rewrite aligned_sum_value.
Qed.

End Range.
