(* ===== verification/Image.v ===== *)
(** * Image: boxes, pixel arrays, masked images and sub-image views

    The tasks receive framework objects and mutate them in place. This file
    models the part of afw the sources touch: [Box2I], the three planes of a
    [MaskedImageF] (image, mask, variance) with the mask-plane dictionary, the
    sub-image constructor with origin PARENT used at
    proportionalLinearize.py:88, and the writes made through such a view.

    A plane is a list of rows; the pixel at column [i] of row [j] is
    [array2_get a i j]. A view is a box in the parent's coordinates: writing
    through it rewrites the parent's planes at the positions the box covers,
    so two views of overlapping boxes write the same pixels. *)

From Stdlib Require Import ZArith NArith Lia.
From stdpp Require Import base tactics option list strings gmap.
From S2P Require Import Prelude Numerics.

Local Open Scope Z_scope.

(** ** Box2I *)

(** An integer box: its minimum corner and its dimensions. A box with a
    dimension that is not positive is empty. *)
Record Box2I : Type := mkBox2I {
  getMinX : Z;
  getMinY : Z;
  getWidth : Z;
  getHeight : Z
}.

#[export] Instance Box2I_eq_dec : EqDecision Box2I.
Proof. solve_decision. Defined.

Definition getMaxX (b : Box2I) : Z := getMinX b + getWidth b - 1.

Definition getMaxY (b : Box2I) : Z := getMinY b + getHeight b - 1.

Definition isEmpty (b : Box2I) : bool := (getWidth b <=? 0) || (getHeight b <=? 0).

(** The point [(x, y)] lies in the box. *)
Definition containsPoint (b : Box2I) (x y : Z) : bool :=
  (getMinX b <=? x) && (x <=? getMaxX b) && (getMinY b <=? y) && (y <=? getMaxY b).

(** [contains outer inner]: every point of [inner] lies in [outer]; an empty
    box is contained in every box. *)
Definition contains (outer inner : Box2I) : bool :=
  isEmpty inner ||
  ((getMinX outer <=? getMinX inner) && (getMaxX inner <=? getMaxX outer) &&
   (getMinY outer <=? getMinY inner) && (getMaxY inner <=? getMaxY outer)).

(** The two boxes share a point. *)
Definition overlaps (a b : Box2I) : bool :=
  negb (isEmpty a) && negb (isEmpty b) &&
  (getMinX a <=? getMaxX b) && (getMinX b <=? getMaxX a) &&
  (getMinY a <=? getMaxY b) && (getMinY b <=? getMaxY a).

(** ** Two-dimensional arrays *)

Abbreviation array2 A := (list (list A)).

(** The element at column [i] of row [j]. *)
Definition array2_get {A} (a : array2 A) (i j : nat) : option A :=
  a !! j ≫= (.!! i).

(** Elementwise map that sees the position of each element. *)
Definition array2_imap {A B} (f : nat -> nat -> A -> B) (a : array2 A) : array2 B :=
  imap (fun j row => imap (fun i v => f i j v) row) a.

(** The length of every row. *)
Definition shape {A} (a : array2 A) : list nat := length <$> a.

(** An array of [h] rows of [w] copies of [v]. *)
Definition array2_const {A} (w h : nat) (v : A) : array2 A :=
  replicate h (replicate w v).

Definition array2_width {A} (a : array2 A) : nat :=
  match a with [] => 0%nat | row :: _ => length row end.

Definition array2_height {A} (a : array2 A) : nat := length a.

(** ** Masked images *)

(** The three planes, the origin of the pixel array in the parent's
    coordinates, and the dictionary from mask-plane names to bit numbers. *)
Record MaskedImage (P : Type) : Type := mkMaskedImage {
  getXY0 : Z * Z;
  getImage : array2 P;
  getMask : array2 N;
  getVariance : array2 P;
  getMaskPlaneDict : gmap string nat
}.

Arguments mkMaskedImage {P} _ _ _ _ _.
Arguments getXY0 {P} _.
Arguments getImage {P} _.
Arguments getMask {P} _.
Arguments getVariance {P} _.
Arguments getMaskPlaneDict {P} _.

(** The mask planes every mask starts with. *)
Definition defaultMaskPlaneDict : gmap string nat :=
  list_to_map [("BAD", 0); ("SAT", 1); ("INTRP", 2); ("CR", 3); ("EDGE", 4);
               ("DETECTED", 5); ("DETECTED_NEGATIVE", 6); ("SUSPECT", 7);
               ("NO_DATA", 8)]%nat.

(** Mask pixels are 16 bits wide. *)
Definition mask_bits : N := 16.

Section MaskedImage.
Context {P : Type}.
Implicit Types (mi : MaskedImage P) (b view : Box2I) (i j : nat).

(** The box the image covers in the parent's coordinates. *)
Definition getBBox mi : Box2I :=
  mkBox2I (getXY0 mi).1 (getXY0 mi).2
    (Z.of_nat (array2_width (getImage mi))) (Z.of_nat (array2_height (getImage mi))).

(** [getArrays()]: the three planes. *)
Definition getArrays mi : array2 P * array2 N * array2 P :=
  (getImage mi, getMask mi, getVariance mi).

(** The three planes have the same shape and the rows have one length. *)
Definition wf_MaskedImage mi : Prop :=
  shape (getMask mi) = shape (getImage mi) /\
  shape (getVariance mi) = shape (getImage mi) /\
  Forall (fun row => length row = array2_width (getImage mi)) (getImage mi).

#[export] Instance wf_MaskedImage_dec `{EqDecision P} mi : Decision (wf_MaskedImage mi).
Proof. unfold wf_MaskedImage. apply _. Defined.

(** The array position [(i, j)] of [mi] lies in the box [view], which is
    given in the parent's coordinates. *)
Definition in_view mi view i j : bool :=
  containsPoint view ((getXY0 mi).1 + Z.of_nat i) ((getXY0 mi).2 + Z.of_nat j).

(** The sub-image constructor with origin PARENT: the view onto [bbox], or
    [LengthError] when the box does not fit in the image. *)
Definition subMaskedImage mi (bbox : Box2I) : outcome Box2I :=
  if contains (getBBox mi) bbox then Normal bbox else Raised LengthError.

(** The bit mask of one named plane. *)
Definition getPlaneBitMask mi (name : string) : outcome N :=
  match getMaskPlaneDict mi !! name with
  | Some bit => Normal (N.shiftl 1 (N.of_nat bit))
  | None => Raised (InvalidParameterError name)
  end.

(** Rewrites the image plane inside the view with [f]. *)
Definition map_image_view view (f : P -> P) mi : MaskedImage P :=
  mkMaskedImage (getXY0 mi)
    (array2_imap (fun i j v => if in_view mi view i j then f v else v) (getImage mi))
    (getMask mi) (getVariance mi) (getMaskPlaneDict mi).

(** Ors [bits] into the mask plane at the positions of the view whose image
    value satisfies [sel]. *)
Definition or_mask_view view (sel : P -> bool) (bits : N) mi : MaskedImage P :=
  mkMaskedImage (getXY0 mi) (getImage mi)
    (array2_imap
       (fun i j m =>
          match array2_get (getImage mi) i j with
          | Some v => if in_view mi view i j && sel v then N.lor m bits else m
          | None => m
          end)
       (getMask mi))
    (getVariance mi) (getMaskPlaneDict mi).

(** [FootprintSet(view, Threshold(t), planeName)]: finds the pixels of the
    view that the threshold detects and sets the plane's bit on them. Every
    detected pixel is in a footprint, since a footprint may be one pixel. *)
Definition FootprintSet `{Detection C P} view (t : C) (planeName : string)
  : Exec (MaskedImage P) unit :=
  let* mi := get in
  let* bits := lift_outcome (getPlaneBitMask mi planeName) in
  modify (or_mask_view view (detects t) bits).

End MaskedImage.

(** A blank masked image over a box, with the default mask planes:
    [ExposureF(bbox)] allocates its planes this way. *)
Definition blankMaskedImage {P} (zero : P) (bbox : Box2I) : MaskedImage P :=
  let w := Z.to_nat (getWidth bbox) in
  let h := Z.to_nat (getHeight bbox) in
  mkMaskedImage (getMinX bbox, getMinY bbox)
    (array2_const w h zero) (array2_const w h 0%N) (array2_const w h zero)
    defaultMaskPlaneDict.

(** ** Lemmas on boxes *)

(** Turns the boolean box tests of the goal and the hypotheses into linear
    arithmetic. *)
Ltac box_unfold :=
  unfold overlaps, contains, containsPoint, isEmpty, getMaxX, getMaxY in *;
  repeat match goal with
    | H : _ && _ = true |- _ => apply andb_prop in H; destruct H
    | H : _ || _ = false |- _ => apply orb_false_elim in H; destruct H
    | H : negb _ = true |- _ => apply negb_true_iff in H
    | H : (_ <=? _) = true |- _ => apply Z.leb_le in H
    | H : (_ <=? _) = false |- _ => apply Z.leb_gt in H
    end.

Lemma containsPoint_spec (b : Box2I) (x y : Z) :
  containsPoint b x y = true <->
  getMinX b <= x <= getMaxX b /\ getMinY b <= y <= getMaxY b.
Proof.
  unfold containsPoint. rewrite !andb_true_iff, !Z.leb_le. lia.
Qed.

Lemma containsPoint_not_empty b x y : containsPoint b x y = true -> isEmpty b = false.
Proof.
  rewrite containsPoint_spec. unfold isEmpty, getMaxX, getMaxY.
  intros ?. apply orb_false_intro; apply Z.leb_gt; lia.
Qed.

Lemma contains_point outer inner x y :
  contains outer inner = true -> containsPoint inner x y = true ->
  containsPoint outer x y = true.
Proof.
  intros Hc Hp. pose proof (containsPoint_not_empty _ _ _ Hp) as He.
  unfold contains in Hc. rewrite He in Hc. simpl in Hc.
  apply containsPoint_spec in Hp. apply containsPoint_spec.
  box_unfold. lia.
Qed.

(** Boxes that do not overlap share no point. *)
Lemma overlaps_false_point a b x y :
  overlaps a b = false -> containsPoint a x y = true -> containsPoint b x y = false.
Proof.
  intros Ho Ha. destruct (containsPoint b x y) eqn:Hb; [|done].
  pose proof (containsPoint_not_empty _ _ _ Ha) as Ea.
  pose proof (containsPoint_not_empty _ _ _ Hb) as Eb.
  apply containsPoint_spec in Ha, Hb. unfold overlaps in Ho.
  rewrite Ea, Eb in Ho. simpl in Ho.
  rewrite !andb_false_iff, !Z.leb_gt in Ho. lia.
Qed.

Lemma overlaps_comm a b : overlaps a b = overlaps b a.
Proof.
  unfold overlaps.
  destruct (isEmpty a), (isEmpty b); simpl; try done.
  destruct (getMinX a <=? getMaxX b), (getMinX b <=? getMaxX a),
    (getMinY a <=? getMaxY b), (getMinY b <=? getMaxY a); done.
Qed.

Lemma contains_refl b : contains b b = true.
Proof.
  unfold contains. apply orb_true_iff. right.
  rewrite !andb_true_iff, !Z.leb_le. lia.
Qed.

(** ** Lemmas on arrays *)

Section Array2.
Context {A B : Type}.
Implicit Types (a : array2 A) (i j : nat).

Lemma array2_get_imap (f : nat -> nat -> A -> B) a i j :
  array2_get (array2_imap f a) i j = f i j <$> array2_get a i j.
Proof.
  unfold array2_get, array2_imap. rewrite list_lookup_imap.
  destruct (a !! j) as [row|]; simpl; [|done]. by rewrite list_lookup_imap.
Qed.

Lemma shape_imap (f : nat -> nat -> A -> B) a : shape (array2_imap f a) = shape a.
Proof.
  unfold shape, array2_imap. apply list_eq. intros j.
  rewrite !list_lookup_fmap, list_lookup_imap.
  destruct (a !! j); simpl; [|done]. by rewrite length_imap.
Qed.

Lemma array2_height_imap (f : nat -> nat -> A -> B) a :
  array2_height (array2_imap f a) = array2_height a.
Proof. unfold array2_height, array2_imap. by rewrite length_imap. Qed.

Lemma array2_width_imap (f : nat -> nat -> A -> B) a :
  array2_width (array2_imap f a) = array2_width a.
Proof. destruct a; simpl; [done|]. by rewrite length_imap. Qed.

Lemma array2_get_shape a (c : array2 B) i j :
  shape a = shape c -> is_Some (array2_get a i j) -> is_Some (array2_get c i j).
Proof.
  unfold array2_get, shape. intros Hs [v Hv].
  assert (length <$> a !! j = length <$> c !! j) as Hj
    by (by rewrite <- !list_lookup_fmap, Hs).
  destruct (a !! j) as [ra|]; simpl in *; [|done].
  destruct (c !! j) as [rc|]; simpl in *; [|done].
  apply lookup_lt_is_Some. injection Hj as <-. by eapply lookup_lt_Some.
Qed.

Lemma array2_get_const (w h : nat) (v : A) i j :
  array2_get (array2_const w h v) i j =
  if decide (i < w /\ j < h)%nat then Some v else None.
Proof.
  unfold array2_get, array2_const. case_decide as Hd.
  - destruct Hd. rewrite lookup_replicate_2 by done. simpl.
    by rewrite lookup_replicate_2.
  - destruct (decide (j < h)%nat).
    + rewrite lookup_replicate_2 by done. simpl.
      apply lookup_replicate_None. lia.
    + assert (replicate h (replicate w v) !! j = None) as ->
        by (apply lookup_replicate_None; lia).
      done.
Qed.

(** A test that holds of every row's every element holds at each position. *)
Lemma array2_forallb (f : A -> bool) a :
  forallb (forallb f) a = true -> forall i j v, array2_get a i j = Some v -> f v = true.
Proof.
  intros Hall i j v. unfold array2_get.
  destruct (a !! j) as [row|] eqn:Hj; simpl; [|done]. intros Hi.
  apply (forallb_elem_of f row); [|by eapply list_elem_of_lookup_2].
  apply (forallb_elem_of (forallb f) a); [done | by eapply list_elem_of_lookup_2].
Qed.

(** An elementwise map that changes nothing is the identity. *)
Lemma array2_imap_id (f : nat -> nat -> A -> A) a :
  (forall i j v, array2_get a i j = Some v -> f i j v = v) -> array2_imap f a = a.
Proof.
  intros H. unfold array2_imap. apply list_eq. intros j.
  rewrite list_lookup_imap. destruct (a !! j) as [row|] eqn:Hj; simpl; [|done].
  f_equal. apply list_eq. intros i. rewrite list_lookup_imap.
  destruct (row !! i) as [v|] eqn:Hi; simpl; [|done].
  f_equal. apply H. unfold array2_get. by rewrite Hj.
Qed.

Lemma array2_get_None_shape a (c : array2 B) i j :
  shape a = shape c -> array2_get a i j = None -> array2_get c i j = None.
Proof.
  unfold array2_get, shape. intros Hs Ha.
  assert (length <$> a !! j = length <$> c !! j) as Hj
    by (by rewrite <- !list_lookup_fmap, Hs).
  destruct (a !! j) as [ra|], (c !! j) as [rc|]; simpl in *; try done.
  injection Hj as Hlen. apply lookup_ge_None. rewrite <- Hlen. by apply lookup_ge_None.
Qed.

(** The elementwise map that does not look at the position. *)
Lemma array2_get_map (f : A -> B) a i j :
  array2_get (map (map f) a) i j = f <$> array2_get a i j.
Proof.
  unfold array2_get. change (map (map f) a) with (map f <$> a).
  rewrite list_lookup_fmap. destruct (a !! j) as [row|]; simpl; [|done].
  apply (list_lookup_fmap f).
Qed.

Lemma shape_map (f : A -> B) a : shape (map (map f) a) = shape a.
Proof.
  unfold shape. change (map (map f) a) with (map f <$> a).
  rewrite <- list_fmap_compose. apply list_fmap_ext. intros _ row _. simpl.
  apply length_map.
Qed.

(** Arrays with the same elements at every position are equal. *)
Lemma array2_eq a (c : array2 A) :
  shape a = shape c -> (forall i j, array2_get a i j = array2_get c i j) -> a = c.
Proof.
  intros Hs H. apply list_eq. intros j.
  assert (length <$> a !! j = length <$> c !! j) as Hj
    by (unfold shape in Hs; by rewrite <- !list_lookup_fmap, Hs).
  destruct (a !! j) as [ra|] eqn:Ea, (c !! j) as [rc|] eqn:Ec; simpl in *; try done.
  f_equal. apply list_eq. intros i. specialize (H i j).
  unfold array2_get in H. by rewrite Ea, Ec in H.
Qed.

End Array2.

(** ** Lemmas on masked images *)

Section MaskedImageLemmas.
Context {P : Type}.
Implicit Types (mi : MaskedImage P) (view : Box2I) (i j : nat).

Lemma in_view_map_image view' view f mi i j :
  in_view (map_image_view view' f mi) view i j = in_view mi view i j.
Proof. done. Qed.

Lemma in_view_or_mask view' view sel bits mi i j :
  in_view (or_mask_view view' sel bits mi) view i j = in_view mi view i j.
Proof. done. Qed.

Lemma getBBox_map_image view f mi : getBBox (map_image_view view f mi) = getBBox mi.
Proof.
  unfold getBBox. simpl. by rewrite array2_width_imap, array2_height_imap.
Qed.

Lemma getBBox_or_mask view sel bits mi : getBBox (or_mask_view view sel bits mi) = getBBox mi.
Proof. done. Qed.

Lemma getImage_or_mask view sel bits mi : getImage (or_mask_view view sel bits mi) = getImage mi.
Proof. done. Qed.

Lemma getMask_map_image view f mi : getMask (map_image_view view f mi) = getMask mi.
Proof. done. Qed.

Lemma get_image_map_view view f mi i j :
  array2_get (getImage (map_image_view view f mi)) i j =
  (fun v => if in_view mi view i j then f v else v) <$> array2_get (getImage mi) i j.
Proof. apply array2_get_imap. Qed.

Lemma get_mask_or_view view sel bits mi i j :
  array2_get (getMask (or_mask_view view sel bits mi)) i j =
  (fun m => match array2_get (getImage mi) i j with
            | Some v => if in_view mi view i j && sel v then N.lor m bits else m
            | None => m
            end) <$> array2_get (getMask mi) i j.
Proof. apply array2_get_imap. Qed.

Lemma wf_map_image view f mi : wf_MaskedImage mi -> wf_MaskedImage (map_image_view view f mi).
Proof.
  intros (Hm & Hv & Hr). unfold wf_MaskedImage. simpl.
  rewrite shape_imap, array2_width_imap. repeat split; try done.
  apply Forall_forall. intros row Hrow. unfold array2_imap in Hrow.
  apply list_elem_of_lookup in Hrow as [j Hj]. rewrite list_lookup_imap in Hj.
  destruct (getImage mi !! j) as [r|] eqn:Er; simpl in Hj; [|done].
  injection Hj as <-. rewrite length_imap.
  eapply Forall_forall in Hr; [done|]. by eapply list_elem_of_lookup_2.
Qed.

Lemma wf_or_mask view sel bits mi : wf_MaskedImage mi -> wf_MaskedImage (or_mask_view view sel bits mi).
Proof.
  intros (Hm & Hv & Hr). unfold wf_MaskedImage. simpl.
  by rewrite shape_imap.
Qed.

(** A view that covers no position of the array changes nothing. *)
Lemma map_image_view_outside view f mi :
  (forall i j, in_view mi view i j = false) -> map_image_view view f mi = mi.
Proof.
  intros H. destruct mi as [xy im mk va pd]. unfold map_image_view. simpl.
  f_equal. apply array2_imap_id. intros i j v _.
  specialize (H i j). unfold in_view in *. simpl in *. by rewrite H.
Qed.

Lemma wf_blank `{EqDecision P} (zero : P) (bbox : Box2I) : wf_MaskedImage (blankMaskedImage zero bbox).
Proof.
  unfold wf_MaskedImage, blankMaskedImage, shape, array2_const. simpl.
  rewrite !fmap_replicate, !length_replicate. repeat split.
  apply Forall_forall. intros row Hrow. apply elem_of_replicate in Hrow as [-> Hn].
  rewrite length_replicate.
  destruct (Z.to_nat (getHeight bbox)); [done|]. simpl. by rewrite length_replicate.
Qed.

End MaskedImageLemmas.

Create Rewrite HintDb array2.

#[export] Hint Resolve wf_map_image wf_or_mask : exec.
#[export] Hint Rewrite @array2_get_imap @shape_imap @array2_width_imap
  @array2_height_imap : array2.
