(* ===== verification/ImageView.v ===== *)
(** * ImageView: the pixel array of a view, read and written in place

    proportionalLinearize.py:94 takes the array of the amplifier's sub-image
    ([ampImage.getImage().getArray()]) and line 95 multiplies it in place.
    The array of a view is a window onto the parent's pixels: [crop] reads
    the window, [paste] writes an array of new values over it, and the
    in-place product reads the window, computes the new values from the old
    ones and writes them back.

    Image.v models the same write in one step ([map_image_view], by the
    position of each pixel). This file gives the two halves and proves that
    they compose to it ([update_view_array_map]), that reading and
    writing a window are inverse to each other ([set_view_array_same],
    [view_array_set]), and that a write through a view is not seen through
    a view of a box that does not overlap it
    ([disjoint_views_independent]). *)

From Stdlib Require Import ZArith NArith Lia.
From stdpp Require Import base tactics option list strings gmap.
From S2P Require Import Prelude Numerics Image.

(** ** Windows of a two-dimensional array *)

Section View.
Context {A : Type}.
Implicit Types (a sub : array2 A) (w h i j : nat) (mi : MaskedImage A) (view : Box2I).

(** The window of [w] columns and [h] rows whose first element is at column
    [x0] of row [y0], cut at the edges of the array. *)
Definition crop (x0 y0 : nat) w h a : array2 A :=
  (fun row => take w (drop x0 row)) <$> take h (drop y0 a).

(** [a] with the elements of [sub] written over the window that starts at
    column [x0] of row [y0]; the elements that [sub] does not cover are
    kept. *)
Definition paste (x0 y0 : nat) sub a : array2 A :=
  array2_imap
    (fun i j v =>
       if (x0 <=? i)%nat && (y0 <=? j)%nat
       then default v (array2_get sub (i - x0) (j - y0))
       else v) a.

(** The position [(i, j)] lies in the window. *)
Definition in_window (x0 y0 : nat) w h i j : bool :=
  (x0 <=? i)%nat && (i <? x0 + w)%nat && (y0 <=? j)%nat && (j <? y0 + h)%nat.

(** ** The array of a view of a masked image *)

(** The column and the row of the parent's array at which the view starts. *)
Definition view_x0 mi view : nat := Z.to_nat (getMinX view - (getXY0 mi).1).

Definition view_y0 mi view : nat := Z.to_nat (getMinY view - (getXY0 mi).2).

(** [getImage().getArray()] of the view: the window of the parent's image
    plane that the view's box covers. *)
Definition view_array mi view : array2 A :=
  crop (view_x0 mi view) (view_y0 mi view)
    (Z.to_nat (getWidth view)) (Z.to_nat (getHeight view)) (getImage mi).

(** The masked image after the array of the view was assigned the elements
    of [sub]: the array shares its memory with the parent's image plane. *)
Definition set_view_array mi view (sub : array2 A) : MaskedImage A :=
  mkMaskedImage (getXY0 mi)
    (paste (view_x0 mi view) (view_y0 mi view) sub (getImage mi))
    (getMask mi) (getVariance mi) (getMaskPlaneDict mi).

(** [arr *= g(arr)] on the array of the view, where [f v] is [v * g(v)]:
    the right-hand side is computed from the values read, then written in
    place. *)
Definition update_view_array view (f : A -> A) mi : MaskedImage A :=
  set_view_array mi view (map (map f) (view_array mi view)).

(** ** Reading *)

Lemma array2_get_crop x0 y0 w h a i j :
  array2_get (crop x0 y0 w h a) i j =
  if (i <? w)%nat && (j <? h)%nat then array2_get a (x0 + i) (y0 + j) else None.
Proof.
  unfold array2_get, crop. rewrite list_lookup_fmap.
  destruct (Nat.ltb_spec j h) as [Hj|Hj].
  - rewrite lookup_take_lt, lookup_drop by done.
    destruct (a !! (y0 + j)) as [row|]; simpl; [|by destruct (i <? w)%nat].
    destruct (Nat.ltb_spec i w) as [Hi|Hi]; simpl.
    + by rewrite lookup_take_lt, lookup_drop.
    + by rewrite lookup_take_ge.
  - rewrite lookup_take_ge by done. by destruct (i <? w)%nat.
Qed.

(** The shape of a window depends on the shape of the array only. *)
Lemma shape_crop x0 y0 w h a :
  shape (crop x0 y0 w h a) = (fun n => min w (n - x0)) <$> take h (drop y0 (shape a)).
Proof.
  unfold shape, crop. rewrite <- list_fmap_compose, <- fmap_drop, <- fmap_take,
    <- list_fmap_compose.
  apply list_fmap_ext. intros _ row _. simpl. by rewrite length_take, length_drop.
Qed.

Lemma shape_crop_same x0 y0 w h a (c : array2 A) :
  shape a = shape c -> shape (crop x0 y0 w h a) = shape (crop x0 y0 w h c).
Proof. intros Hs. by rewrite !shape_crop, Hs. Qed.

(** ** Writing *)

Lemma array2_get_paste x0 y0 sub a i j :
  array2_get (paste x0 y0 sub a) i j =
  (fun v => if (x0 <=? i)%nat && (y0 <=? j)%nat
            then default v (array2_get sub (i - x0) (j - y0)) else v)
    <$> array2_get a i j.
Proof. apply array2_get_imap. Qed.

Lemma shape_paste x0 y0 sub a : shape (paste x0 y0 sub a) = shape a.
Proof. apply shape_imap. Qed.

Lemma array2_imap_ext (f g : nat -> nat -> A -> A) a :
  (forall i j v, array2_get a i j = Some v -> f i j v = g i j v) ->
  array2_imap f a = array2_imap g a.
Proof.
  intros Hfg. apply array2_eq; [by rewrite !shape_imap|]. intros i j.
  rewrite !array2_get_imap. destruct (array2_get a i j) as [v|] eqn:Hv; simpl; [|done].
  f_equal. by apply Hfg.
Qed.

(** ** Reading and writing *)

(** Writing back what was read changes nothing. *)
Lemma paste_crop x0 y0 w h a : paste x0 y0 (crop x0 y0 w h a) a = a.
Proof.
  apply array2_imap_id. intros i j v Hv. rewrite array2_get_crop.
  destruct (Nat.leb_spec x0 i), (Nat.leb_spec y0 j); simpl; try done.
  replace (x0 + (i - x0))%nat with i by lia. replace (y0 + (j - y0))%nat with j by lia.
  rewrite Hv. by destruct (_ && _).
Qed.

(** Reading what was written gives it back. *)
Lemma crop_paste x0 y0 w h sub a :
  shape sub = shape (crop x0 y0 w h a) ->
  crop x0 y0 w h (paste x0 y0 sub a) = sub.
Proof.
  intros Hs. apply array2_eq.
  { rewrite Hs. apply shape_crop_same, shape_paste. }
  intros i j. rewrite array2_get_crop, array2_get_paste.
  pose proof (array2_get_crop x0 y0 w h a i j) as Hc.
  destruct (Nat.leb_spec x0 (x0 + i)), (Nat.leb_spec y0 (y0 + j)); try lia. simpl.
  replace (x0 + i - x0)%nat with i by lia. replace (y0 + j - y0)%nat with j by lia.
  destruct ((i <? w)%nat && (j <? h)%nat).
  - destruct (array2_get a (x0 + i) (y0 + j)) as [v|]; simpl.
    + destruct (array2_get_shape _ sub i j (eq_sym Hs)) as [u ->]; by eauto.
    + symmetry. by apply (array2_get_None_shape _ _ _ _ (eq_sym Hs)).
  - symmetry. by apply (array2_get_None_shape _ _ _ _ (eq_sym Hs)).
Qed.

(** The second of two writes of arrays of one shape wins. *)
Lemma paste_paste x0 y0 sub sub' a :
  shape sub = shape sub' ->
  paste x0 y0 sub' (paste x0 y0 sub a) = paste x0 y0 sub' a.
Proof.
  intros Hs. apply array2_eq; [by rewrite !shape_paste|]. intros i j.
  rewrite !array2_get_paste. destruct (array2_get a i j) as [v|]; simpl; [|done].
  destruct (_ && _); [|done]. f_equal.
  destruct (array2_get sub' (i - x0) (j - y0)) as [u|] eqn:Hu; simpl; [done|].
  by rewrite (array2_get_None_shape _ _ _ _ (eq_sym Hs) Hu).
Qed.

(** Reading a window, changing every element and writing the window back
    changes the elements of the window, by position. *)
Lemma paste_map_crop (f : A -> A) x0 y0 w h a :
  paste x0 y0 (map (map f) (crop x0 y0 w h a)) a =
  array2_imap (fun i j v => if in_window x0 y0 w h i j then f v else v) a.
Proof.
  apply array2_imap_ext. intros i j v Hv. unfold in_window.
  rewrite array2_get_map, array2_get_crop.
  destruct (Nat.leb_spec x0 i), (Nat.leb_spec y0 j); simpl; rewrite ?andb_false_r; try done.
  replace (x0 + (i - x0))%nat with i by lia. replace (y0 + (j - y0))%nat with j by lia.
  rewrite Hv.
  destruct (Nat.ltb_spec (i - x0) w), (Nat.ltb_spec i (x0 + w)); try lia;
    destruct (Nat.ltb_spec (j - y0) h), (Nat.ltb_spec j (y0 + h)); try lia; done.
Qed.

(** A write over one window is not seen in a window that shares no position
    with it. *)
Lemma crop_paste_disjoint x0 y0 w h x1 y1 w1 h1 sub a :
  shape sub = shape (crop x1 y1 w1 h1 a) ->
  (forall i j, in_window x0 y0 w h i j && in_window x1 y1 w1 h1 i j = false) ->
  crop x0 y0 w h (paste x1 y1 sub a) = crop x0 y0 w h a.
Proof.
  intros Hs Hdis. apply array2_eq; [apply shape_crop_same, shape_paste|]. intros i j.
  rewrite !array2_get_crop, array2_get_paste.
  destruct ((i <? w)%nat && (j <? h)%nat) eqn:Hin; [|done].
  destruct (array2_get a (x0 + i) (y0 + j)) as [v|]; simpl; [|done]. f_equal.
  destruct ((x1 <=? x0 + i)%nat && (y1 <=? y0 + j)%nat) eqn:Hw1; [|done].
  rewrite (array2_get_None_shape _ sub _ _ (eq_sym Hs)); [done|].
  rewrite array2_get_crop. specialize (Hdis (x0 + i)%nat (y0 + j)%nat). unfold in_window in Hdis.
  destruct (Nat.ltb_spec (x0 + i - x1) w1), (Nat.ltb_spec (y0 + j - y1) h1); try done.
  exfalso. apply andb_prop in Hin as [Hi%Nat.ltb_lt Hj%Nat.ltb_lt].
  apply andb_prop in Hw1 as [Hx%Nat.leb_le Hy%Nat.leb_le].
  apply andb_false_iff in Hdis as [Hd|Hd];
    repeat (apply andb_false_iff in Hd as [Hd|Hd]);
    (apply Nat.leb_gt in Hd || apply Nat.ltb_ge in Hd); lia.
Qed.

(** ** Views of a masked image *)

(** For a view that the sub-image constructor accepts, the positions of the
    view are those of its window. *)
Lemma in_view_window mi view i j :
  contains (getBBox mi) view = true ->
  in_view mi view i j =
  in_window (view_x0 mi view) (view_y0 mi view)
    (Z.to_nat (getWidth view)) (Z.to_nat (getHeight view)) i j.
Proof.
  intros Hc. unfold in_view, in_window, view_x0, view_y0, getBBox in *.
  apply Bool.eq_iff_eq_true. box_unfold. simpl in Hc.
  rewrite !andb_true_iff, !Z.leb_le, !Nat.leb_le, !Nat.ltb_lt.
  apply orb_prop in Hc as [He|Hc].
  - apply orb_prop in He as [He%Z.leb_le|He%Z.leb_le]; lia.
  - box_unfold. lia.
Qed.

Lemma set_view_array_same mi view : set_view_array mi view (view_array mi view) = mi.
Proof. destruct mi. unfold set_view_array, view_array. simpl. by rewrite paste_crop. Qed.

Lemma view_array_set mi view sub :
  shape sub = shape (view_array mi view) ->
  view_array (set_view_array mi view sub) view = sub.
Proof. apply crop_paste. Qed.

Lemma update_view_array_map mi view (f : A -> A) :
  contains (getBBox mi) view = true ->
  update_view_array view f mi = map_image_view view f mi.
Proof.
  intros Hc. unfold update_view_array, set_view_array, map_image_view, view_array.
  f_equal. rewrite paste_map_crop. apply array2_imap_ext. intros i j v _.
  by rewrite (in_view_window _ _ _ _ Hc).
Qed.

(** Views of boxes that do not overlap do not alias: after the array of
    one view of a masked image was assigned values of its shape, the array
    of the other view holds what it held. *)
Theorem disjoint_views_independent mi (v1 v2 : Box2I) (sub : array2 A) :
  contains (getBBox mi) v1 = true ->
  contains (getBBox mi) v2 = true ->
  overlaps v1 v2 = false ->
  shape sub = shape (view_array mi v1) ->
  view_array (set_view_array mi v1 sub) v2 = view_array mi v2.
Proof.
  intros H1 H2 Ho Hs.
  pose proof (in_view_window mi v1) as E1. pose proof (in_view_window mi v2) as E2.
  unfold view_array, set_view_array, view_x0, view_y0 in *. simpl.
  apply (crop_paste_disjoint _ _ _ _ _ _ (Z.to_nat (getWidth v1)) (Z.to_nat (getHeight v1)));
    [done|]. intros i j. rewrite <- E1, <- E2 by done.
  unfold in_view. destruct (containsPoint v2 _ _) eqn:Hp; [|done]. simpl.
  rewrite overlaps_comm in Ho. by eapply overlaps_false_point.
Qed.

End View.

(** ** The theorems on an image of four columns and two rows *)

Lemma disjoint_views_independent_witness :
  let mi := mkMaskedImage (0, 0)%Z [[1; 2; 3; 4]; [5; 6; 7; 8]]%N
              [[0; 0; 0; 0]; [0; 0; 0; 0]]%N [[1; 2; 3; 4]; [5; 6; 7; 8]]%N ∅ in
  view_array (set_view_array mi (mkBox2I 0 0 2 2) [[10; 20]; [50; 60]]%N) (mkBox2I 2 0 2 2)
  = [[3; 4]; [7; 8]]%N.
Proof.
  intros mi.
  by rewrite (disjoint_views_independent mi (mkBox2I 0 0 2 2) (mkBox2I 2 0 2 2)
                [[10; 20]; [50; 60]]%N).
Defined.
