(* ===== verification/PipeBase.v ===== *)
(** * PipeBase: what a task inherits from [pipeBase.Task]

    Both tasks derive from [pipeBase.Task] and use two of its members: the
    log ([self.log.logdebug], [self.log.log(self.log.INFO, ...)]) and the
    metadata ([self.metadata.set]). [Task] holds both, with the name of the
    task and its sub-tasks; a task whose state has more than that declares
    where its [Task] lives with the class [HasTask] and reaches it with
    [on_task].

    A task is built by [Task_init], the constructor of the base class: it
    names the task after its argument or after the class attribute
    [_DefaultName] and raises [RuntimeError] when there is neither.
    [makeSubtask] builds the sub-task that a [ConfigurableField] of the
    configuration class names and binds it to an attribute, which
    [getattr_subtask] reads; a name that is no field raises [KeyError] and
    an attribute that is not bound [AttributeError]. [same_identity]
    relates two tasks of one name and the same sub-tasks, and
    [keeps_identity] holds of the steps that write to the log and the
    metadata only.

    Both [run] methods are decorated with [pipeBase.timeMethod], which
    records timing information in the task before the method and, in a
    [finally] block, after it. What is recorded comes from the clock; the
    class [Timer] says what the tasks may rely on: the records are not of
    level INFO, and the name and the sub-tasks are left alone. *)

From Stdlib Require Import ZArith.
From stdpp Require Import base tactics option list strings gmap.
From S2P Require Import Prelude.

Inductive LogLevel : Type := DEBUG | INFO.

#[export] Instance LogLevel_eq_dec : EqDecision LogLevel.
Proof. solve_decision. Defined.

(** One record of the log: its level and its message. *)
Record LogRecord : Type := mkLogRecord { logLevel : LogLevel; logMessage : message }.

#[export] Instance LogRecord_eq_dec : EqDecision LogRecord.
Proof. solve_decision. Defined.

(** [pexConfig.ConfigurableField]: a field of a configuration class that
    names the class of a sub-task. *)
Record ConfigurableField : Type := mkConfigurableField {
  target : string;
  doc : string
}.

(** [pexConfig.Config], the configuration class without fields: it has no
    configurable field. *)
Definition Config : gmap string ConfigurableField := ∅.

(** A sub-task as its parent holds it: the attribute it is bound to, its
    full name and the class that built it. *)
Record Subtask : Type := mkSubtask {
  subtaskName : string;
  subtaskFullName : string;
  subtaskTarget : string
}.

#[export] Instance Subtask_eq_dec : EqDecision Subtask.
Proof. solve_decision. Defined.

(** The log, oldest record first, the metadata, the full name of the task
    and the sub-tasks [makeSubtask] has bound, by attribute name. *)
Record Task : Type := mkTask {
  getLog : list LogRecord;
  getMetadata : gmap string Z;
  getFullName : string;
  getSubtasks : gmap string Subtask
}.

Definition set_log (l : list LogRecord) (t : Task) : Task :=
  mkTask l (getMetadata t) (getFullName t) (getSubtasks t).

Definition set_metadata (m : gmap string Z) (t : Task) : Task :=
  mkTask (getLog t) m (getFullName t) (getSubtasks t).

Definition set_subtasks (st : gmap string Subtask) (t : Task) : Task :=
  mkTask (getLog t) (getMetadata t) (getFullName t) st.

(** The task named [name] as [Task.__init__] leaves it: an empty log, empty
    metadata, no sub-task. *)
Definition newTask (name : string) : Task := mkTask [] ∅ name ∅.

Definition msg_name_required : message :=
  Msg "name is required for a task unless it has attribute _DefaultName" [].

(** [pipeBase.Task.__init__(self, config=None, name=None)] of a task without
    a parent, in a class whose attribute [_DefaultName] is [DefaultName]:
    the name given, or the default name of the class; [RuntimeError] when
    there is neither. *)
Definition Task_init (name DefaultName : option string) : Exec Task unit :=
  match name, DefaultName with
  | Some n, _ | None, Some n => put (newTask n)
  | None, None => raise (RuntimeError msg_name_required)
  end.

(** [self.makeSubtask(name)]: builds the sub-task that the field [name] of
    the configuration names and binds it to the attribute [name];
    [KeyError] when the configuration class has no such field. *)
Definition makeSubtask (fields : gmap string ConfigurableField) (name : string)
  : Exec Task unit :=
  match fields !! name with
  | None => raise (KeyError name)
  | Some field =>
      modify (fun t =>
        set_subtasks
          (<[name := mkSubtask name (getFullName t +:+ "." +:+ name) (target field)]>
             (getSubtasks t)) t)
  end.

(** [self.<name>], for a sub-task: [AttributeError] when [makeSubtask] has
    not bound it. *)
Definition getattr_subtask (name : string) : Exec Task Subtask :=
  let* t := get in
  match getSubtasks t !! name with
  | Some st => ret st
  | None => raise (AttributeError name)
  end.

(** [self.log.log(level, m)] *)
Definition log (level : LogLevel) (m : message) : Exec Task unit :=
  modify (fun t => set_log (getLog t ++ [mkLogRecord level m]) t).

(** [self.log.logdebug(m)] *)
Definition logdebug (m : message) : Exec Task unit := log DEBUG m.

(** [self.metadata.set(key, value)] *)
Definition metadata_set (key : string) (value : Z) : Exec Task unit :=
  modify (fun t => set_metadata (<[key := value]> (getMetadata t)) t).

(** A state that holds a [Task]. *)
Class HasTask (St : Type) : Type := {
  the_task : St -> Task;
  set_task : Task -> St -> St
}.

(** Runs a step of [pipeBase.Task] inside a larger state. *)
Definition on_task `{HasTask St} {A} (c : Exec Task A) : Exec St A :=
  zoom the_task set_task c.

(** Two tasks with the same name and the same sub-tasks: they differ in the
    log and the metadata only. *)
Definition same_identity (t1 t2 : Task) : Prop :=
  getFullName t1 = getFullName t2 /\ getSubtasks t1 = getSubtasks t2.

(** A step that writes to the log and the metadata only. *)
Definition keeps_identity {A} (c : Exec Task A) : Prop :=
  forall t, same_identity t (exec_state c t).

(** The records of level [level] in a log. *)
Definition records_at (level : LogLevel) (l : list LogRecord) : list LogRecord :=
  filter (fun r => logLevel r = level) l.

(** [timer.logInfo(obj, prefix)]: what recording the time under [prefix]
    does to the log and the metadata. It does not raise, what it logs is
    below the level INFO, and it leaves the name and the sub-tasks of the
    task alone. *)
Class Timer : Type := {
  logInfo : string -> Task -> Task;
  logInfo_INFO prefix t :
    records_at INFO (getLog (logInfo prefix t)) = records_at INFO (getLog t);
  logInfo_identity prefix t :
    getFullName (logInfo prefix t) = getFullName t /\
    getSubtasks (logInfo prefix t) = getSubtasks t
}.

(** [@pipeBase.timeMethod]: the method [func], named [name], between the two
    records. *)
Definition timeMethod `{Timer} `{HasTask St} {A} (name : string) (func : Exec St A)
  : Exec St A :=
  on_task (modify (logInfo (name +:+ "Start"))) >>
  finally_ func (on_task (modify (logInfo (name +:+ "End")))).

(** A timer that reads a clock: one DEBUG record and the CPU time in the
    metadata. *)
Definition clock_logInfo (clock : string -> Z) (prefix : string) (t : Task) : Task :=
  set_log (getLog t ++ [mkLogRecord DEBUG (Msg "%sCpuTime=%s" [ArgStr prefix; ArgInt (clock prefix)])])
    (set_metadata (<[prefix +:+ "CpuTime" := clock prefix]> (getMetadata t)) t).

Lemma records_at_app level l1 l2 :
  records_at level (l1 ++ l2) = records_at level l1 ++ records_at level l2.
Proof. apply filter_app. Qed.

Lemma clock_logInfo_INFO clock prefix t :
  records_at INFO (getLog (clock_logInfo clock prefix t)) = records_at INFO (getLog t).
Proof. simpl. rewrite records_at_app. apply app_nil_r. Qed.

(** The timer is one of those the tasks may be run with. *)
Definition clock_timer (clock : string -> Z) : Timer :=
  {| logInfo := clock_logInfo clock;
     logInfo_INFO := clock_logInfo_INFO clock;
     logInfo_identity := fun _ _ => conj eq_refl eq_refl |}.

#[export] Instance same_identity_equiv : Equivalence same_identity.
Proof.
  split; [by intros t | by intros t1 t2 [] |].
  intros t1 t2 t3 [] []. split; congruence.
Qed.

Lemma log_keeps_identity level m : keeps_identity (log level m).
Proof. done. Qed.

Lemma metadata_set_keeps_identity key value : keeps_identity (metadata_set key value).
Proof. done. Qed.

Lemma logInfo_keeps_identity `{Timer} prefix : keeps_identity (modify (logInfo prefix)).
Proof. intros t. destruct (logInfo_identity prefix t). by split. Qed.

Lemma getattr_keeps_identity name : keeps_identity (getattr_subtask name).
Proof.
  intros t. unfold exec_state, getattr_subtask, bind, get. simpl. by destruct (_ !! _).
Qed.

#[export] Hint Resolve log_keeps_identity metadata_set_keeps_identity
  logInfo_keeps_identity getattr_keeps_identity : exec.

(** ** Building a task *)

(** [Task.__init__] returns the empty task under the name given, or else
    under the default name of the class. *)
Lemma Task_init_returns name DefaultName n t :
  from_option Some DefaultName name = Some n ->
  Task_init name DefaultName t = (Normal tt, newTask n).
Proof. destruct name, DefaultName; simpl; by intros [= ->]. Qed.

(** A class without [_DefaultName] cannot be built without a name. *)
Lemma Task_init_nameless t :
  Task_init None None t = (Raised (RuntimeError msg_name_required), t).
Proof. done. Qed.

Lemma makeSubtask_binds fields name field t :
  fields !! name = Some field ->
  makeSubtask fields name t =
  (Normal tt,
   set_subtasks
     (<[name := mkSubtask name (getFullName t +:+ "." +:+ name) (target field)]>
        (getSubtasks t)) t).
Proof. unfold makeSubtask. by intros ->. Qed.

(** [makeSubtask] of a name that is no field of the configuration class
    raises [KeyError] and binds nothing. *)
Lemma makeSubtask_unknown fields name t :
  fields !! name = None -> makeSubtask fields name t = (Raised (KeyError name), t).
Proof. unfold makeSubtask. by intros ->. Qed.

(** The class [Config] has no field: no sub-task can be made from it. *)
Lemma makeSubtask_Config name t : makeSubtask Config name t = (Raised (KeyError name), t).
Proof. apply makeSubtask_unknown, lookup_empty. Qed.

(** What [makeSubtask] binds, the attribute gives back; the other
    attributes are as they were. *)
Lemma makeSubtask_getattr fields name field t :
  fields !! name = Some field ->
  exec_result (makeSubtask fields name >> getattr_subtask name) t =
  Normal (mkSubtask name (getFullName t +:+ "." +:+ name) (target field)).
Proof.
  intros Hf. unfold exec_result, bind. rewrite (makeSubtask_binds _ _ _ _ Hf).
  unfold getattr_subtask, bind, get. simpl. by rewrite lookup_insert_eq.
Qed.

Lemma makeSubtask_getattr_ne fields name name' t :
  name <> name' ->
  exec_result (makeSubtask fields name >> getattr_subtask name') t =
  match fields !! name with
  | Some _ => exec_result (getattr_subtask name') t
  | None => Raised (KeyError name)
  end.
Proof.
  intros Hne. unfold exec_result, bind, makeSubtask.
  destruct (fields !! name); [|done].
  unfold getattr_subtask, bind, get, modify. simpl. rewrite lookup_insert_ne by done.
  by destruct (_ !! _).
Qed.

(** What [self.<name>] gives depends on the sub-tasks only. *)
Lemma getattr_subtask_identity name t1 t2 :
  same_identity t1 t2 ->
  exec_result (getattr_subtask name) t1 = exec_result (getattr_subtask name) t2.
Proof.
  intros [_ Hs]. unfold exec_result, getattr_subtask, bind, get. simpl. rewrite Hs.
  by destruct (_ !! _).
Qed.

Lemma getattr_subtask_state name t : exec_state (getattr_subtask name) t = t.
Proof. unfold exec_state, getattr_subtask, bind, get. simpl. by destruct (_ !! _). Qed.

Lemma log_appends level m t :
  log level m t = (Normal tt, set_log (getLog t ++ [mkLogRecord level m]) t).
Proof. done. Qed.

Lemma log_keeps_metadata level m t : getMetadata (exec_state (log level m) t) = getMetadata t.
Proof. done. Qed.

Lemma metadata_set_lookup key value t :
  getMetadata (exec_state (metadata_set key value) t) !! key = Some value.
Proof. apply lookup_insert_eq. Qed.

Lemma metadata_set_keeps_log key value t :
  getLog (exec_state (metadata_set key value) t) = getLog t.
Proof. done. Qed.
