(* ===== verification/Camera.v ===== *)
(** * Camera: amplifiers, detectors and exposures as the tasks read them

    The linearity task reads, of each amplifier, its name, its box in the
    detector's image, its linearity type (a string) and its linearity
    coefficients; of the detector, its identifier and its amplifiers in order
    ([detector[0]], [for amp in detector]); of the exposure, its detector and
    its masked image. The records carry these and nothing else. The accessor
    names are the framework's, inside a Module per class. *)

From Stdlib Require Import ZArith.
From stdpp Require Import base tactics option list strings.
From S2P Require Import Prelude Image.

Module Amp.

Record t (C : Type) : Type := mk {
  getName : string;
  getBBox : Box2I;
  getLinearityType : string;
  getLinearityCoeffs : list C
}.

Arguments mk {C} _ _ _ _.
Arguments getName {C} _.
Arguments getBBox {C} _.
Arguments getLinearityType {C} _.
Arguments getLinearityCoeffs {C} _.

(** [amp.setLinearityType(ty)] *)
Definition setLinearityType {C} (ty : string) (amp : t C) : t C :=
  mk (getName amp) (getBBox amp) ty (getLinearityCoeffs amp).

(** [amp.setLinearityCoeffs(coeffs)] *)
Definition setLinearityCoeffs {C} (coeffs : list C) (amp : t C) : t C :=
  mk (getName amp) (getBBox amp) (getLinearityType amp) coeffs.

(** [amp.setBBox(bbox)] *)
Definition setBBox {C} (bbox : Box2I) (amp : t C) : t C :=
  mk (getName amp) bbox (getLinearityType amp) (getLinearityCoeffs amp).

End Amp.

Module Detector.

Record t (C : Type) : Type := mk {
  getId : Z;
  getBBox : Box2I;
  amps : list (Amp.t C)
}.

Arguments mk {C} _ _ _.
Arguments getId {C} _.
Arguments getBBox {C} _.
Arguments amps {C} _.

(** [detector[i]]: the amplifier at position [i], [IndexError] past the end. *)
Definition getitem {C} (detector : t C) (i : nat) : outcome (Amp.t C) :=
  match amps detector !! i with
  | Some amp => Normal amp
  | None => Raised IndexError
  end.

End Detector.

Module Exposure.

Record t (C P : Type) : Type := mk {
  getMaskedImage : MaskedImage P;
  getDetector : option (Detector.t C)
}.

Arguments mk {C P} _ _.
Arguments getMaskedImage {C P} _.
Arguments getDetector {C P} _.

(** Replaces the masked image, as a write through [getMaskedImage()] does. *)
Definition withMaskedImage {C P} (mi : MaskedImage P) (e : t C P) : t C P :=
  mk mi (getDetector e).

(** [exposure.setDetector(detector)] *)
Definition setDetector {C P} (d : Detector.t C) (e : t C P) : t C P :=
  mk (getMaskedImage e) (Some d).

End Exposure.

(** The amplifier boxes of a detector lie pairwise apart. *)
Definition amps_disjoint {C} (l : list (Amp.t C)) : Prop :=
  forall i j a b, l !! i = Some a -> l !! j = Some b -> i <> j ->
    overlaps (Amp.getBBox a) (Amp.getBBox b) = false.

(** Boolean form of [amps_disjoint]. *)
Fixpoint amps_disjointb {C} (l : list (Amp.t C)) : bool :=
  match l with
  | [] => true
  | a :: l' =>
      forallb (fun b => negb (overlaps (Amp.getBBox a) (Amp.getBBox b))) l'
      && amps_disjointb l'
  end.

Lemma getitem_0 {C} (d : Detector.t C) :
  Detector.getitem d 0 =
  match Detector.amps d with [] => Raised IndexError | amp :: _ => Normal amp end.
Proof. unfold Detector.getitem. by destruct (Detector.amps d). Qed.

Lemma amps_disjointb_spec {C} (l : list (Amp.t C)) :
  amps_disjointb l = true -> amps_disjoint l.
Proof.
  induction l as [|a l IH]; intros H i j x y Hi Hj Hij; [done|].
  simpl in H. apply andb_prop in H as [Ha Hl].
  rewrite forallb_forall in Ha.
  assert (forall b, b ∈ l -> overlaps (Amp.getBBox a) (Amp.getBBox b) = false) as Ha'.
  { intros b Hb. apply negb_true_iff, Ha. by apply list_elem_of_In. }
  destruct i as [|i], j as [|j]; simpl in *; simplify_eq.
  - apply Ha'. by eapply list_elem_of_lookup_2.
  - rewrite overlaps_comm. apply Ha'. by eapply list_elem_of_lookup_2.
  - eapply IH; eauto.
Qed.
