(* ===== verification/Linearize.v ===== *)
(** * Linearize: [ProportionalLinearizeTask]

    The task of src/python/lsst/ip/isr/proportionalLinearize.py, method by
    method. The state is the exposure the caller passed, whose masked image
    is mutated in place, and what the task inherits from [pipeBase.Task];
    [__init__] is the inherited constructor under the class's default name
    and [init] the task it leaves. [doCorrect] is pure; [run_amp] is the
    body of the loop over the amplifiers, with the loop-carried flag
    [didCorrect]; [run] is the method. The sources are Python 2: lines 81
    to 83, a test of the coefficients for NaN, stand in the block of the
    [raise] of line 78 and are translated there ([not_finite]); they never
    run, and the test would be false if they did ([not_finite_false]).

    The lemmas of this file give the effect of each branch of [run_amp] and
    of [run] as an equation, exceptions included; [amp_step] and [amps_fold]
    restate the loop as a pure function of the masked image, and
    [run_amp_step] and [run_loop_fold] prove that the code computes it. *)

From Stdlib Require Import ZArith NArith Lia.
From stdpp Require Import base tactics option list strings gmap.
From S2P Require Import Prelude Numerics Image PipeBase Camera.

Module ProportionalLinearizeTask.

Section Task.
Context {C P : Type} `{Numerics C P} `{Detection C P}.

(** The exposure being corrected and what the task inherits from
    [pipeBase.Task]. *)
Record State : Type := mkState {
  exposure : Exposure.t C P;
  task : Task
}.

#[export] Instance State_HasTask : HasTask State := {|
  the_task := task;
  set_task := fun t s => mkState (exposure s) t
|}.

(** [ConfigClass = Config]: the task has no configuration parameters. *)
Definition ConfigClass : gmap string ConfigurableField := Config.

(** The name of a task built without one. *)
Definition _DefaultName : string := "correctNonLinearity".

(** [__init__(self, name=name)]: the class defines none, so building a
    task runs the one of [pipeBase.Task]. *)
Definition __init__ (name : option string) : Exec Task unit :=
  Task_init name (Some _DefaultName).

(** [ProportionalLinearizeTask()]: the task as [__init__] leaves it. *)
Definition init : Task := exec_state (__init__ None) (newTask "").

(** Runs a step on the exposure's masked image, which is shared with the
    caller. *)
Definition on_image {A} (c : Exec (MaskedImage P) A) : Exec State A :=
  zoom (fun s => Exposure.getMaskedImage (exposure s))
       (fun mi s => mkState (Exposure.withMaskedImage mi (exposure s)) (task s)) c.

(** The message of the [ValueError] that unpacking [n] values into more
    names raises, as Python 2 words it (the sources are Python 2). *)
Definition msg_unpack (n : nat) : message :=
  Msg "need more than %d value%s to unpack"
      [ArgInt (Z.of_nat n); ArgStr (if (n =? 1)%nat then "" else "s")].

(** [a, b, c = coeffs[0:3]]: the slice never fails, the unpacking needs
    exactly three values. *)
Definition unpack3 (coeffs : list C) : outcome (C * C * C) :=
  match take 3 coeffs with
  | [a; b; c] => Normal (a, b, c)
  | l => Raised (ValueError (msg_unpack (length l)))
  end.

(** The value [ampArr *= 1.0 + squareCoeff*ampArr] leaves in a pixel that
    held [v]. [ampArr] is a float32 array and [squareCoeff] a Python float:
    when the coefficient fits float32 NumPy converts it and computes in
    float32; when it does not, the product and the sum are computed in the
    type of the coefficient and the assignment in place converts the
    result. *)
Definition linearize (squareCoeff : C) (v : P) : P :=
  if fits squareCoeff then
    p_mul v (p_add p_one (p_mul (to_pixel squareCoeff) v))
  else
    to_pixel (c_mul (to_coeff v) (c_add c_one (c_mul squareCoeff (to_coeff v)))).

Definition msg_not_wanted (detector : Detector.t C) : message :=
  Msg "Non-linearity correction not wanted for detector %s"
      [ArgInt (Detector.getId detector)].

Definition msg_applied (detector : Detector.t C) : message :=
  Msg "Applied linearity corrections to detector %s"
      [ArgInt (Detector.getId detector)].

Definition msg_coeff1 (detector : Detector.t C) (amp : Amp.t C) : message :=
  Msg "coeff[1] must be 0 for PROPORTIONAL non-linearity correction; saw %g for detector %r amplifier %r"
      [ArgFloat; ArgInt (Detector.getId detector); ArgStr (Amp.getName amp)].

Definition msg_need3 (numCoeffs : nat) : message :=
  Msg "Need 3 linearity coefficients; only found %d" [ArgInt (Z.of_nat numCoeffs)].

Definition msg_unsupported (detector : Detector.t C) (amp : Amp.t C) : message :=
  Msg "Unsupported linearity type %r for detector %r amplifier %r; must be PROPORTIONAL or NONE"
      [ArgStr (Amp.getLinearityType amp); ArgInt (Detector.getId detector);
       ArgStr (Amp.getName amp)].

(** [doCorrect(detector)]: whether the correction is wanted, decided on the
    first amplifier alone. *)
Definition doCorrect (detector : Detector.t C) : outcome bool :=
  match Detector.getitem detector 0 with
  | Raised e => Raised e
  | Normal amp =>
      let linearityType := Amp.getLinearityType amp in
      if String.eqb linearityType "NONE" then Normal false
      else if String.eqb linearityType "PROPORTIONAL" then
        let numCoeffs := length (Amp.getLinearityCoeffs amp) in
        if (numCoeffs <? 3)%nat then Raised (RuntimeError (msg_need3 numCoeffs))
        else Normal true
      else Raised (RuntimeError (msg_unsupported detector amp))
  end.

(** [a == b] where [a] and [b] are the same object: the comparison of
    containers takes an element that is the same object on both sides as
    equal before it asks the element. *)
Definition same_object_eq (a : C) : bool := true || c_eqb a a.

(** [(squareCoeff, maxUncorr) != (squareCoeff, maxUncorr)], the test of
    line 81: a tuple against a tuple of the same two objects. *)
Definition not_finite (squareCoeff maxUncorr : C) : bool :=
  negb (same_object_eq squareCoeff && same_object_eq maxUncorr).

(** The body of [for amp in detector], from the unpacking of the
    coefficients to [didCorrect = True]. It returns the new value of
    [didCorrect]; [continue] returns the old one. The test of lines 81 to
    83 stands in the block of the [raise] of line 78, after it; its own
    [raise] formats three values with one [%s], which is a [TypeError]. *)
Definition run_amp (detector : Detector.t C) (amp : Amp.t C) (didCorrect : bool)
  : Exec State bool :=
  let* '(squareCoeff, coeff1, maxUncorr) :=
    lift_outcome (unpack3 (Amp.getLinearityCoeffs amp)) in
  when_ (negb (c_eqb coeff1 c_zero))
    (raise (A := unit) (RuntimeError (msg_coeff1 detector amp)) >>
     when_ (not_finite squareCoeff maxUncorr) (raise TypeError)) >>
  if c_leb maxUncorr c_zero && c_eqb squareCoeff c_zero then
    ret didCorrect
  else
    let* mi := gets (fun s => Exposure.getMaskedImage (exposure s)) in
    let* ampImage := lift_outcome (subMaskedImage mi (Amp.getBBox amp)) in
    when_ (c_ltb c_zero maxUncorr)
      (on_image (FootprintSet ampImage maxUncorr "SUSPECT")) >>
    when_ (negb (c_eqb squareCoeff c_zero))
      (on_image (modify (map_image_view ampImage (linearize squareCoeff)))) >>
    ret true.

(** [run(exposure)] *)
Definition run : Exec State unit :=
  let* e := gets exposure in
  match Exposure.getDetector e with
  | None => raise TypeError
  | Some detector =>
      let* wanted := lift_outcome (doCorrect detector) in
      if negb wanted then on_task (logdebug (msg_not_wanted detector))
      else
        let* didCorrect := for_fold (run_amp detector) (Detector.amps detector) false in
        when_ didCorrect (on_task (log INFO (msg_applied detector)))
  end.

(** [run] as the class exposes it, under [@pipeBase.timeMethod]. *)
Definition timed_run `{Timer} : Exec State unit := timeMethod "run" run.

(** Writes [mi] as the exposure's masked image. *)
Definition set_image (mi : MaskedImage P) (s : State) : State :=
  mkState (Exposure.withMaskedImage mi (exposure s)) (task s).

Definition image_of (s : State) : MaskedImage P := Exposure.getMaskedImage (exposure s).

(** ** The loop as a function of the masked image *)

(** What one amplifier that is not skipped does to the masked image: the
    SUSPECT bits first, on the uncorrected values, then the product. *)
Definition amp_effect (view : Box2I) (squareCoeff maxUncorr : C) (bits : N)
    (mi : MaskedImage P) : MaskedImage P :=
  let mi1 :=
    if c_ltb c_zero maxUncorr then or_mask_view view (detects maxUncorr) bits mi
    else mi in
  if negb (c_eqb squareCoeff c_zero)
  then map_image_view view (linearize squareCoeff) mi1
  else mi1.

(** One iteration as a pure step: the exception it raises, [None] when the
    amplifier is skipped, or the masked image it leaves. *)
Definition amp_step (detector : Detector.t C) (amp : Amp.t C) (mi : MaskedImage P)
  : outcome (option (MaskedImage P)) :=
  match unpack3 (Amp.getLinearityCoeffs amp) with
  | Raised e => Raised e
  | Normal (squareCoeff, coeff1, maxUncorr) =>
      if negb (c_eqb coeff1 c_zero) then Raised (RuntimeError (msg_coeff1 detector amp))
      else if c_leb maxUncorr c_zero && c_eqb squareCoeff c_zero then Normal None
      else
        match subMaskedImage mi (Amp.getBBox amp) with
        | Raised e => Raised e
        | Normal ampImage =>
            match (if c_ltb c_zero maxUncorr then getPlaneBitMask mi "SUSPECT"
                   else Normal 0%N) with
            | Raised e => Raised e
            | Normal bits =>
                Normal (Some (amp_effect ampImage squareCoeff maxUncorr bits mi))
            end
        end
  end.

(** The whole loop: the flag [didCorrect] or the first exception, and the
    masked image at that point. *)
Fixpoint amps_fold (detector : Detector.t C) (l : list (Amp.t C)) (didCorrect : bool)
    (mi : MaskedImage P) : outcome bool * MaskedImage P :=
  match l with
  | [] => (Normal didCorrect, mi)
  | amp :: l' =>
      match amp_step detector amp mi with
      | Raised e => (Raised e, mi)
      | Normal None => amps_fold detector l' didCorrect mi
      | Normal (Some mi') => amps_fold detector l' true mi'
      end
  end.

(** The bits of the SUSPECT plane, zero when the plane is not defined. *)
Definition suspect_bits (mi : MaskedImage P) : N :=
  match getPlaneBitMask mi "SUSPECT" with Normal bits => bits | Raised _ => 0%N end.

(** [skips s t]: the test of [continue]. *)
Definition skips (squareCoeff maxUncorr : C) : bool :=
  c_leb maxUncorr c_zero && c_eqb squareCoeff c_zero.

(** What an amplifier does to the masked image in a run that returns: the
    total function that [amp_step] computes whenever it does not raise. *)
Definition amp_apply (amp : Amp.t C) (mi : MaskedImage P) : MaskedImage P :=
  match take 3 (Amp.getLinearityCoeffs amp) with
  | [squareCoeff; _; maxUncorr] =>
      if skips squareCoeff maxUncorr then mi
      else amp_effect (Amp.getBBox amp) squareCoeff maxUncorr (suspect_bits mi) mi
  | _ => mi
  end.

(** The masked image after the amplifiers of [l], in order. *)
Definition amps_apply (l : list (Amp.t C)) (mi : MaskedImage P) : MaskedImage P :=
  foldl (fun mi amp => amp_apply amp mi) mi l.

(** ** Lemmas *)

Lemma set_image_same (s : State) : set_image (image_of s) s = s.
Proof. by destruct s as [[mi d] t]. Qed.

Lemma image_of_set_image mi (s : State) : image_of (set_image mi s) = mi.
Proof. done. Qed.

Lemma set_image_twice mi mi' (s : State) : set_image mi' (set_image mi s) = set_image mi' s.
Proof. done. Qed.

Lemma task_set_image mi (s : State) : task (set_image mi s) = task s.
Proof. done. Qed.

Lemma unpack3_cons (a b c : C) (l : list C) : unpack3 (a :: b :: c :: l) = Normal (a, b, c).
Proof. done. Qed.

Lemma unpack3_Normal (l : list C) a b c :
  unpack3 l = Normal (a, b, c) <-> take 3 l = [a; b; c].
Proof.
  unfold unpack3.
  destruct l as [|x [|y [|z l]]]; simpl; split; intros ?; simplify_eq; done.
Qed.

Lemma unpack3_short (l : list C) :
  (length l < 3)%nat ->
  unpack3 l = Raised (ValueError (msg_unpack (length l))).
Proof. destruct l as [|x [|y [|z l]]]; simpl; intros ?; try done; lia. Qed.

Lemma unpack3_long (l : list C) :
  (3 <= length l)%nat -> exists a b c, unpack3 l = Normal (a, b, c).
Proof. destruct l as [|x [|y [|z l]]]; simpl; intros ?; try lia; eauto. Qed.

(** The test of line 81 is false of every pair of coefficients, NaN
    included. *)
Lemma not_finite_false (squareCoeff maxUncorr : C) : not_finite squareCoeff maxUncorr = false.
Proof. done. Qed.

(** The loop body computes [amp_step]: it raises without writing, skips
    without writing, or leaves the masked image [amp_step] gives. *)
Lemma run_amp_step detector amp didCorrect (s : State) :
  run_amp detector amp didCorrect s =
  match amp_step detector amp (image_of s) with
  | Raised e => (Raised e, s)
  | Normal None => (Normal didCorrect, s)
  | Normal (Some mi') => (Normal true, set_image mi' s)
  end.
Proof.
  unfold run_amp, amp_step, amp_effect, FootprintSet, on_image, image_of.
  exec_unfold.
  destruct (unpack3 _) as [[[sq c1] mx]|e]; simpl; [|done].
  destruct (c_eqb c1 c_zero); simpl; [|done].
  destruct (c_leb mx c_zero && c_eqb sq c_zero); simpl; [done|].
  destruct (subMaskedImage _ _) as [view|e]; simpl; [|done].
  destruct (c_ltb c_zero mx); simpl.
  - destruct (getPlaneBitMask _ _) as [bits|e]; simpl; [|by destruct s as [[] ?]].
    by destruct (c_eqb sq c_zero).
  - destruct (c_eqb sq c_zero); simpl; [by destruct s as [[] ?]|done].
Qed.

(** The loop computes [amps_fold]. *)
Lemma run_loop_fold detector l didCorrect (s : State) :
  for_fold (run_amp detector) l didCorrect s =
  let (o, mi') := amps_fold detector l didCorrect (image_of s) in (o, set_image mi' s).
Proof.
  revert didCorrect s. induction l as [|amp l IH]; intros b s; simpl.
  - by rewrite set_image_same.
  - unfold bind. rewrite run_amp_step.
    destruct (amp_step detector amp (image_of s)) as [[mi'|]|e]; simpl.
    + rewrite IH. simpl. by destruct (amps_fold _ _ _ _).
    + apply IH.
    + by rewrite set_image_same.
Qed.

(** [run] in terms of [doCorrect] and [amps_fold]. *)
Lemma run_unfold (s : State) detector :
  Exposure.getDetector (exposure s) = Some detector ->
  run s =
  match doCorrect detector with
  | Raised e => (Raised e, s)
  | Normal false =>
      (Normal tt, mkState (exposure s)
                    (exec_state (logdebug (msg_not_wanted detector)) (task s)))
  | Normal true =>
      match amps_fold detector (Detector.amps detector) false (image_of s) with
      | (Raised e, mi') => (Raised e, set_image mi' s)
      | (Normal false, mi') => (Normal tt, set_image mi' s)
      | (Normal true, mi') =>
          (Normal tt, mkState (exposure (set_image mi' s))
                        (exec_state (log INFO (msg_applied detector)) (task s)))
      end
  end.
Proof.
  intros Hd. unfold run. unfold bind at 1, gets at 1. rewrite Hd.
  unfold bind at 1, lift_outcome at 1.
  destruct (doCorrect detector) as [[]|e]; simpl; [|done|done].
  unfold bind. rewrite run_loop_fold.
  destruct (amps_fold _ _ _ _) as [[[]|e] mi']; done.
Qed.

Lemma run_no_detector (s : State) :
  Exposure.getDetector (exposure s) = None -> run s = (Raised TypeError, s).
Proof. intros Hd. unfold run, bind, gets. by rewrite Hd. Qed.

(** ** What a step that does not raise computes *)

Lemma amp_effect_bits_unused view sq mx bits bits' mi :
  c_ltb c_zero mx = false ->
  amp_effect view sq mx bits mi = amp_effect view sq mx bits' mi.
Proof. intros Hf. unfold amp_effect. by rewrite Hf. Qed.

(** A step that writes applies [amp_effect] through a view that fits in the
    image, with the bits of the SUSPECT plane when it flags. *)
Lemma amp_step_Some detector amp mi mi' :
  amp_step detector amp mi = Normal (Some mi') ->
  exists sq c1 mx bits,
    take 3 (Amp.getLinearityCoeffs amp) = [sq; c1; mx] /\
    c_eqb c1 c_zero = true /\ skips sq mx = false /\
    contains (getBBox mi) (Amp.getBBox amp) = true /\
    (c_ltb c_zero mx = true -> getPlaneBitMask mi "SUSPECT" = Normal bits) /\
    mi' = amp_effect (Amp.getBBox amp) sq mx bits mi.
Proof.
  unfold amp_step, subMaskedImage, skips.
  destruct (unpack3 _) as [[[sq c1] mx]|e] eqn:Hu; [|done].
  apply unpack3_Normal in Hu.
  destruct (c_eqb c1 c_zero) eqn:Hc1; simpl; [|done].
  destruct (c_leb mx c_zero && c_eqb sq c_zero) eqn:Hs; [done|].
  destruct (contains _ _) eqn:Hc; [|done].
  destruct (c_ltb c_zero mx) eqn:Hf.
  - destruct (getPlaneBitMask mi "SUSPECT") as [bits|e] eqn:Hb; [|done].
    intros [= <-]. by exists sq, c1, mx, bits.
  - intros [= <-]. exists sq, c1, mx, 0%N. repeat split; try done. congruence.
Qed.

Lemma amp_step_None detector amp mi :
  amp_step detector amp mi = Normal None ->
  exists sq c1 mx,
    take 3 (Amp.getLinearityCoeffs amp) = [sq; c1; mx] /\
    c_eqb c1 c_zero = true /\ skips sq mx = true.
Proof.
  unfold amp_step, skips.
  destruct (unpack3 _) as [[[sq c1] mx]|e] eqn:Hu; [|done].
  apply unpack3_Normal in Hu.
  destruct (c_eqb c1 c_zero) eqn:Hc1; simpl; [|done].
  destruct (c_leb mx c_zero && c_eqb sq c_zero) eqn:Hs.
  - intros _. by exists sq, c1, mx.
  - destruct (subMaskedImage _ _); [|done].
    by destruct (if c_ltb c_zero mx then _ else _).
Qed.

Lemma amp_step_apply detector amp mi o :
  amp_step detector amp mi = Normal o -> amp_apply amp mi = default mi o.
Proof.
  destruct o as [mi'|]; intros Hs.
  - apply amp_step_Some in Hs as (sq & c1 & mx & bits & Ht & _ & Hk & _ & Hb & ->).
    unfold amp_apply. rewrite Ht, Hk. simpl.
    destruct (c_ltb c_zero mx) eqn:Hf.
    + unfold suspect_bits. by rewrite Hb.
    + by apply amp_effect_bits_unused.
  - apply amp_step_None in Hs as (sq & c1 & mx & Ht & _ & Hk).
    unfold amp_apply. by rewrite Ht, Hk.
Qed.

(** A loop that returns has applied every amplifier in order. *)
Lemma amps_fold_Normal detector l b mi b' mi' :
  amps_fold detector l b mi = (Normal b', mi') -> mi' = amps_apply l mi.
Proof.
  revert b mi. induction l as [|amp l IH]; intros b mi; simpl.
  - by intros [= _ <-].
  - destruct (amp_step detector amp mi) as [o|e] eqn:Hs; [|done].
    rewrite (amp_step_apply _ _ _ _ Hs). destruct o; apply IH.
Qed.

(** A loop that raises has applied the amplifiers before the one that
    raised, and nothing of that one or of the later ones. *)
Lemma amps_fold_Raised detector l b mi e mi' :
  amps_fold detector l b mi = (Raised e, mi') ->
  exists l1 amp l2, l = l1 ++ amp :: l2 /\ mi' = amps_apply l1 mi /\
    amp_step detector amp mi' = Raised e.
Proof.
  revert b mi. induction l as [|amp l IH]; intros b mi; simpl; [done|].
  destruct (amp_step detector amp mi) as [o|e'] eqn:Hs.
  - pose proof (amp_step_apply _ _ _ _ Hs) as Ha.
    destruct o as [mi1|]; simpl in Ha; intros Hf;
      apply IH in Hf as (l1 & a & l2 & -> & -> & Hr);
      exists (amp :: l1), a, l2; unfold amps_apply in *; simpl; by rewrite Ha.
  - intros [= <- <-]. by exists [], amp, l.
Qed.

(** ** Relations between the masked image before and after *)

(** A preorder that every write of an amplifier of [l] respects is respected
    by the loop over [l], whether it returns or raises. *)
Lemma amps_fold_rel (R : relation (MaskedImage P)) `{!PreOrder R} detector l :
  (forall (amp : Amp.t C) sq mx bits mi,
     amp ∈ l ->
     contains (getBBox mi) (Amp.getBBox amp) = true ->
     (c_ltb c_zero mx = true -> getPlaneBitMask mi "SUSPECT" = Normal bits) ->
     R mi (amp_effect (Amp.getBBox amp) sq mx bits mi)) ->
  forall b mi, R mi (amps_fold detector l b mi).2.
Proof.
  induction l as [|amp l IH]; intros Hstep b mi; simpl; [done|].
  assert (forall b mi, R mi (amps_fold detector l b mi).2) as IH'
    by (apply IH; intros; apply Hstep; [by right | done..]).
  destruct (amp_step detector amp mi) as [[mi'|]|e] eqn:Hs; simpl; [| apply IH' | done].
  apply amp_step_Some in Hs as (sq & c1 & mx & bits & _ & _ & _ & Hc & Hb & ->).
  etrans; [apply Hstep; [left | done..] | apply IH'].
Qed.

(** The same for [run]: on every outcome, the masked image of the final
    state is related to that of the start state. *)
Lemma run_rel (R : relation (MaskedImage P)) `{!PreOrder R} (s : State) :
  (forall detector (amp : Amp.t C) sq mx bits mi,
     Exposure.getDetector (exposure s) = Some detector ->
     amp ∈ Detector.amps detector ->
     contains (getBBox mi) (Amp.getBBox amp) = true ->
     (c_ltb c_zero mx = true -> getPlaneBitMask mi "SUSPECT" = Normal bits) ->
     R mi (amp_effect (Amp.getBBox amp) sq mx bits mi)) ->
  R (image_of s) (image_of (exec_state run s)).
Proof.
  intros Hstep. unfold exec_state.
  destruct (Exposure.getDetector (exposure s)) as [detector|] eqn:Hd;
    [| by rewrite run_no_detector].
  rewrite (run_unfold _ _ Hd).
  destruct (doCorrect detector) as [[]|e]; simpl; [|done|done].
  pose proof (amps_fold_rel R detector (Detector.amps detector)
                (fun amp sq mx bits mi => Hstep detector amp sq mx bits mi eq_refl)
                false (image_of s)) as HR.
  by destruct (amps_fold _ _ _ _) as [[[]|e] mi'].
Qed.

(** [run] reads nothing of the task and writes its log only: its outcome,
    the exposure it leaves and the records it appends to the log are those
    of a run with another log, other metadata, another name and other
    sub-tasks. *)
Lemma run_any_task (e : Exposure.t C P) :
  exists o e' l, forall t,
    run (mkState e t) = (o, mkState e' (set_log (getLog t ++ l) t)).
Proof.
  assert (forall t, set_log (getLog t ++ []) t = t) as Hnil
    by (intros []; unfold set_log; simpl; by rewrite app_nil_r).
  destruct (Exposure.getDetector e) as [detector|] eqn:Hd.
  2: { exists (Raised TypeError), e, []. intros t. by rewrite run_no_detector, Hnil. }
  pose proof (fun t => run_unfold (mkState e t) detector Hd) as Hrun.
  unfold image_of, set_image in Hrun. simpl in Hrun.
  destruct (doCorrect detector) as [[]|err].
  - destruct (amps_fold _ _ _ _) as [[[]|err] mi'].
    + exists (Normal tt), (Exposure.withMaskedImage mi' e), [mkLogRecord INFO (msg_applied detector)].
      intros t. by rewrite Hrun.
    + exists (Normal tt), (Exposure.withMaskedImage mi' e), []. intros t. by rewrite Hrun, Hnil.
    + exists (Raised err), (Exposure.withMaskedImage mi' e), []. intros t. by rewrite Hrun, Hnil.
  - exists (Normal tt), e, [mkLogRecord DEBUG (msg_not_wanted detector)].
    intros t. by rewrite Hrun.
  - exists (Raised err), e, []. intros t. by rewrite Hrun, Hnil.
Qed.

(** [run] writes nothing but the masked image and the log. *)
Lemma run_keeps_detector (s : State) :
  Exposure.getDetector (exposure (exec_state run s)) = Exposure.getDetector (exposure s).
Proof.
  unfold exec_state.
  destruct (Exposure.getDetector (exposure s)) as [detector|] eqn:Hd;
    [| by rewrite run_no_detector].
  rewrite (run_unfold _ _ Hd).
  destruct (doCorrect detector) as [[]|e]; simpl; [|done|done].
  by destruct (amps_fold _ _ _ _) as [[[]|e] mi'].
Qed.

End Task.

Arguments State : clear implicits.
Arguments mkState {C P} _ _.
Arguments exposure {C P} _.
Arguments task {C P} _.

#[export] Existing Instance State_HasTask.

End ProportionalLinearizeTask.
