(* ===== verification/LinearizeModel.v ===== *)
(** * LinearizeModel: the accuracy of the correction in any rounded arithmetic

    [RoundingModel] is what the accuracy of the correction needs of the
    arithmetic: a value for every coefficient and pixel, and the standard
    model of floating-point arithmetic for the conversion of a coefficient,
    the product and the sum, with a unit roundoff [unit_u] and an underflow
    unit [unit_eta]. For any arithmetic that provides it, the pixel
    [ProportionalLinearizeTask.linearize] computes is within [model_bound]
    of the polynomial on the values ([linearize_model_error]). Exact
    rationals provide it with both units zero; IEEE numbers provide it in
    LinearizeAccuracy.v. *)

From Stdlib Require Import ZArith QArith Qabs Lqa Psatz.
From stdpp Require Import base tactics.
From S2P Require Import Prelude Numerics Image PipeBase Camera Linearize.

Import ProportionalLinearizeTask.

Local Open Scope Q_scope.

(** The bound on the error of the correction of a pixel of value [V] with
    the square coefficient [C], in an arithmetic of unit roundoff [u] and
    underflow unit [eta]. *)
Definition model_bound (u eta C V : Q) : Q :=
  3 * u * Qabs V * (1 + 2 * Qabs (C * V)) + eta * (1 + 2 * Qabs V + 2 * (V * V)).

(** The standard model of a rounded arithmetic: results that are finite are
    the exact results up to a relative error [unit_u] and an absolute error
    [unit_eta], sums have the relative error only, and operations keep
    numbers well formed. For a coefficient that does not fit the pixel
    type the correction is computed in the arithmetic of the coefficients
    and converted once; that arithmetic is as accurate at least
    ([wide_model]). *)
Class RoundingModel (C P : Type) `{Numerics C P} : Type := {
  c_value : C -> Q;
  p_value : P -> Q;
  p_finite : P -> bool;
  p_wf : P -> Prop;
  unit_u : Q;
  unit_eta : Q;
  unit_u_small : 0 <= unit_u /\ unit_u <= 1 # 8;
  unit_eta_nonneg : 0 <= unit_eta;
  p_one_model : p_value p_one == 1 /\ p_wf p_one;
  to_pixel_model : forall c : C,
    p_finite (to_pixel c) = true ->
    Qabs (p_value (to_pixel c) - c_value c) <= unit_u * Qabs (c_value c) + unit_eta /\
    p_wf (to_pixel c);
  p_mul_model : forall x y : P,
    p_wf x -> p_wf y -> p_finite (p_mul x y) = true ->
    Qabs (p_value (p_mul x y) - p_value x * p_value y)
      <= unit_u * Qabs (p_value x * p_value y) + unit_eta /\
    p_wf (p_mul x y);
  p_add_model : forall x y : P,
    p_wf x -> p_wf y -> p_finite (p_add x y) = true ->
    Qabs (p_value (p_add x y) - (p_value x + p_value y))
      <= unit_u * Qabs (p_value x + p_value y) /\
    p_wf (p_add x y);
  p_mul_finite : forall x y : P,
    p_finite (p_mul x y) = true -> p_finite x = true /\ p_finite y = true;
  p_add_finite : forall x y : P,
    p_finite (p_add x y) = true -> p_finite x = true /\ p_finite y = true;
  wide_model : forall (c : C) (v : P),
    fits c = false -> p_wf v ->
    p_finite (to_pixel (c_mul (to_coeff v) (c_add c_one (c_mul c (to_coeff v))))) = true ->
    Qabs (p_value (to_pixel (c_mul (to_coeff v) (c_add c_one (c_mul c (to_coeff v)))))
          - p_value v * (1 + c_value c * p_value v))
      <= model_bound unit_u unit_eta (c_value c) (p_value v) /\
    p_wf (to_pixel (c_mul (to_coeff v) (c_add c_one (c_mul c (to_coeff v)))))
}.

(** ** Inequalities on the errors of the four steps *)

Lemma Qabs_square (x : Q) : Qabs x * Qabs x == x * x.
Proof. rewrite <- Qabs_Qmult. apply Qabs_pos. nra. Qed.

Lemma Qabs_split (a b c : Q) : a == b + c -> Qabs a <= Qabs b + Qabs c.
Proof. intros ->. apply Qabs_triangle. Qed.

(** The error [D] of the factor [1 + c * v]: [y] is the error that the
    narrowing of the coefficient leaves in the product, [E1] and [E2] are
    the errors of the inner product and of the sum. *)
Lemma inner_bound (u eta x y R E1 E2 : Q) :
  0 <= u -> u <= 1 # 8 -> 0 <= eta -> 0 <= x -> 0 <= y -> 0 <= R ->
  0 <= E1 -> 0 <= E2 ->
  y <= u * x + R ->
  E1 <= u * (x + y) + eta ->
  E2 <= u * (1 + (x + y) + E1) ->
  E2 + E1 + y <= u + (7 # 2) * (u * x) + (3 # 2) * R + (3 # 2) * eta.
Proof.
  intros Hu Hu8 He Hx Hy HR H1 H2 By B1 B2.
  assert (0 <= u * x) by nra.
  assert (u * y <= (1 # 8) * y) by nra.
  assert (u * E1 <= (1 # 8) * E1) by nra.
  lra.
Qed.

(** The error of the outer product, of a factor [A] with the error [D]. *)
Lemma outer_bound (u eta w x D A E3 : Q) :
  0 <= u -> u <= 1 # 8 -> 0 <= eta -> 0 <= w -> 0 <= x -> 0 <= D ->
  D <= u + (7 # 2) * (u * x) + (3 # 2) * (eta * w) + (3 # 2) * eta ->
  A <= 1 + x + D ->
  E3 <= u * (w * A) + eta ->
  E3 + w * D <= 3 * u * w * (1 + 2 * x) + eta * (1 + 2 * w + 2 * (w * w)).
Proof.
  intros Hu Hu8 He Hw Hx HD BD BA B3.
  assert (0 <= u * w) as Huw by nra.
  assert (w * A <= w * (1 + x + D)) as BwA by nra.
  assert (u * (w * A) <= u * (w * (1 + x + D))) as BuwA by nra.
  assert (w * D <= w * (u + (7 # 2) * (u * x) + (3 # 2) * (eta * w) + (3 # 2) * eta))
    as BwD by nra.
  assert (0 <= w * D) as HwD by nra.
  assert (u * (w * D) <= (1 # 8) * (w * D)) as BuwD by nra.
  assert (0 <= u * w * x) by nra.
  assert (0 <= eta * w) by nra.
  assert (0 <= eta * w * w) by nra.
  lra.
Qed.

(** Four steps that follow the standard model compute the polynomial within
    the bound: [c'] is the narrowed coefficient, [p] the inner product, [a]
    the sum and [r] the outer product. *)
Lemma steps_error (u eta C V c' p a r : Q) :
  0 <= u -> u <= 1 # 8 -> 0 <= eta ->
  Qabs (c' - C) <= u * Qabs C + eta ->
  Qabs (p - c' * V) <= u * Qabs (c' * V) + eta ->
  Qabs (a - (1 + p)) <= u * Qabs (1 + p) ->
  Qabs (r - V * a) <= u * Qabs (V * a) + eta ->
  Qabs (r - V * (1 + C * V)) <=
    3 * u * Qabs V * (1 + 2 * Qabs (C * V)) + eta * (1 + 2 * Qabs V + 2 * (Qabs V * Qabs V)).
Proof.
  intros Hu Hu8 He B0 B1 B2 B3.
  pose proof (Qabs_nonneg V) as Hw. pose proof (Qabs_nonneg (C * V)) as Hx.
  pose proof (Qabs_nonneg ((c' - C) * V)) as Hy.
  pose proof (Qabs_nonneg (a - (1 + C * V))) as HD.
  assert (Qabs ((c' - C) * V) <= u * Qabs (C * V) + eta * Qabs V) as By.
  { rewrite !Qabs_Qmult. pose proof (Qabs_nonneg C). pose proof (Qabs_nonneg (c' - C)). nra. }
  assert (Qabs (c' * V) <= Qabs (C * V) + Qabs ((c' - C) * V)) as BT
    by (apply Qabs_split; ring).
  assert (Qabs (1 + p) <= 1 + Qabs (c' * V) + Qabs (p - c' * V)) as BS.
  { eapply Qle_trans; [apply (Qabs_split _ (1 + c' * V) (p - c' * V)); ring|].
    pose proof (Qabs_triangle 1 (c' * V)). change (Qabs 1) with 1 in *. lra. }
  assert (Qabs (a - (1 + C * V)) <=
          Qabs (a - (1 + p)) + Qabs (p - c' * V) + Qabs ((c' - C) * V)) as BD.
  { eapply Qle_trans; [apply (Qabs_split _ (a - (1 + p)) ((p - c' * V) + (c' - C) * V)); ring|].
    pose proof (Qabs_triangle (p - c' * V) ((c' - C) * V)). lra. }
  assert (Qabs a <= 1 + Qabs (C * V) + Qabs (a - (1 + C * V))) as BA.
  { eapply Qle_trans; [apply (Qabs_split _ (1 + C * V) (a - (1 + C * V))); ring|].
    pose proof (Qabs_triangle 1 (C * V)). change (Qabs 1) with 1 in *. lra. }
  assert (Qabs (r - V * (1 + C * V)) <= Qabs (r - V * a) + Qabs V * Qabs (a - (1 + C * V)))
    as BR by (rewrite <- Qabs_Qmult; apply Qabs_split; ring).
  rewrite Qabs_Qmult in B3.
  pose proof (Qabs_nonneg (p - c' * V)). pose proof (Qabs_nonneg (a - (1 + p))).
  assert (u * Qabs (c' * V) <= u * (Qabs (C * V) + Qabs ((c' - C) * V))) by nra.
  assert (u * Qabs (1 + p) <=
          u * (1 + (Qabs (C * V) + Qabs ((c' - C) * V)) + Qabs (p - c' * V))) by nra.
  assert (0 <= eta * Qabs V) by nra.
  eapply Qle_trans; [exact BR|]. eapply (outer_bound u eta _ _ _ (Qabs a)); try done.
  - eapply Qle_trans; [exact BD|]. apply inner_bound; try done; lra.
Qed.

(** A result [r] within the bound of a finer arithmetic, of units [uc] and
    [etac], converted to [r'] in the arithmetic of units [u] and [eta], is
    within the bound of that arithmetic, for a pixel that is not below its
    smallest number. *)
Lemma converted_error (u eta uc etac C V r r' : Q) :
  0 <= u -> u <= 1 # 8 -> 0 <= eta -> 0 <= uc -> 4 * uc <= u -> 0 <= etac ->
  (9 # 4) * etac <= u -> (9 # 8) * etac <= eta -> (9 # 8) * etac <= 2 * eta * Qabs V ->
  Qabs (r - V * (1 + C * V)) <= model_bound uc etac C V ->
  Qabs (r' - r) <= u * Qabs r + eta ->
  Qabs (r' - V * (1 + C * V)) <= model_bound u eta C V.
Proof.
  intros Hu Hu8 He Huc Hucu Hec Hecu Hece Hecw BE Br. unfold model_bound in *.
  pose proof (Qabs_nonneg V) as Hw. pose proof (Qabs_nonneg (C * V)) as Hx.
  pose proof (Qabs_nonneg (r - V * (1 + C * V))) as HE.
  assert (0 <= V * V) as HVV by nra.
  assert (Qabs (V * (1 + C * V)) <= Qabs V * (1 + Qabs (C * V))) as BX.
  { rewrite Qabs_Qmult. pose proof (Qabs_triangle 1 (C * V)) as Ht.
    change (Qabs 1) with 1 in Ht. pose proof (Qabs_nonneg (1 + C * V)). nra. }
  assert (Qabs r <= Qabs (V * (1 + C * V)) + Qabs (r - V * (1 + C * V))) as Bn
    by (apply Qabs_split; ring).
  assert (Qabs (r' - V * (1 + C * V)) <= Qabs (r' - r) + Qabs (r - V * (1 + C * V))) as BT
    by (apply Qabs_split; ring).
  assert (0 <= u * Qabs V) as Ha by nra.
  assert (0 <= u * Qabs V * Qabs (C * V)) as Hb by nra.
  assert (uc * Qabs V <= (1 # 4) * (u * Qabs V)) as Hca by nra.
  assert (0 <= uc * Qabs V) as Hca0 by nra.
  assert (uc * Qabs V * Qabs (C * V) <= (1 # 4) * (u * Qabs V * Qabs (C * V))) as Hcb by nra.
  assert ((9 # 4) * etac * Qabs V <= u * Qabs V) as Hew by nra.
  assert ((9 # 8) * etac * (V * V) <= eta * (V * V)) as Hev by nra.
  assert (u * Qabs r <= u * (Qabs V * (1 + Qabs (C * V)))
                        + (1 # 8) * Qabs (r - V * (1 + C * V))) as Bur by nra.
  lra.
Qed.

Lemma model_bound_nonneg (u eta C V : Q) : 0 <= u -> 0 <= eta -> 0 <= model_bound u eta C V.
Proof.
  intros Hu He. unfold model_bound.
  pose proof (Qabs_nonneg V). pose proof (Qabs_nonneg (C * V)).
  assert (0 <= u * Qabs V) by nra. assert (0 <= u * Qabs V * Qabs (C * V)) by nra.
  assert (0 <= V * V) by nra. assert (0 <= eta * Qabs V) by nra.
  assert (0 <= eta * (V * V)) by nra. lra.
Qed.

(** ** The correction in a rounded arithmetic *)

Section Model.
Context {C P : Type} `{RoundingModel C P}.

(** The pixel the correction computes, when it is finite, is the polynomial
    on the values of the pixel and of the coefficient within [model_bound],
    and it is well formed. *)
Lemma linearize_model_error (c : C) (v : P) :
  p_wf v -> p_finite (linearize c v) = true ->
  Qabs (p_value (linearize c v) - p_value v * (1 + c_value c * p_value v)) <=
    model_bound unit_u unit_eta (c_value c) (p_value v) /\
  p_wf (linearize c v).
Proof.
  intros Hv Hr. unfold linearize in *.
  destruct (fits c) eqn:Hfits; [|by apply wide_model].
  destruct unit_u_small as [Hu Hu8]. pose proof unit_eta_nonneg as He.
  destruct p_one_model as [H1 Hone].
  pose proof (p_mul_finite _ _ Hr) as [_ Ha]. pose proof (p_add_finite _ _ Ha) as [_ Hp].
  pose proof (p_mul_finite _ _ Hp) as [Hc _].
  destruct (to_pixel_model c Hc) as [B0 Vc].
  destruct (p_mul_model _ _ Vc Hv Hp) as [B1 Vp].
  destruct (p_add_model _ _ Hone Vp Ha) as [B2 Va].
  destruct (p_mul_model _ _ Hv Va Hr) as [B3 Vr].
  split; [|done]. rewrite H1 in B2. unfold model_bound.
  rewrite <- (Qabs_square (p_value v)).
  exact (steps_error unit_u unit_eta (c_value c) (p_value v) _ _ _ _ Hu Hu8 He B0 B1 B2 B3).
Qed.

End Model.

(** ** Exact rationals *)

Lemma Qabs_exact (x : Q) (B : Q) : 0 <= B -> Qabs (x - x) <= B.
Proof. intros HB. by setoid_replace (x - x) with 0 using relation Qeq by ring. Qed.

(** Exact arithmetic follows the model with both units zero. *)
#[export, refine] Instance Q_rounding_model : RoundingModel Q Q := {|
  c_value := fun c => c;
  p_value := fun v => v;
  p_finite := fun _ => true;
  p_wf := fun _ => True;
  unit_u := 0;
  unit_eta := 0
|}.
Proof.
  all: try done; intros; (split; [|done]); apply Qabs_exact; lra.
Defined.

(** A sequence of steps that follow the standard model without narrowing
    the coefficient computes the polynomial within the bound. *)
Lemma exact_coefficient_error (u eta C V p a r : Q) :
  0 <= u -> u <= 1 # 8 -> 0 <= eta ->
  Qabs (p - C * V) <= u * Qabs (C * V) + eta ->
  Qabs (a - (1 + p)) <= u * Qabs (1 + p) ->
  Qabs (r - V * a) <= u * Qabs (V * a) + eta ->
  Qabs (r - V * (1 + C * V)) <= model_bound u eta C V.
Proof.
  intros Hu Hu8 He B1 B2 B3. unfold model_bound. rewrite <- (Qabs_square V).
  apply (steps_error u eta C V C p a r); try done.
  setoid_replace (C - C) with 0 using relation Qeq by ring.
  pose proof (Qabs_nonneg C). change (Qabs 0) with 0. nra.
Qed.
