(* ===== verification/Fixtures.v ===== *)
(** * Fixtures: small concrete inputs on which the theorems are exercised

    A detector of four amplifiers over an image of four columns and two
    rows, at exact rationals. The amplifiers exercise every branch of the
    loop body: [A0] scales and has a threshold no pixel reaches, [A1] is
    skipped, [A2] scales without a threshold, [A3] flags without scaling and
    leaves the pixel at column 3 of row 1 outside every box. *)

From Stdlib Require Import ZArith NArith QArith.
From stdpp Require Import base tactics option list strings gmap.
From S2P Require Import Prelude Numerics Image PipeBase Camera Linearize.

Import ProportionalLinearizeTask.

Module Demo.

Definition amp (name : string) (x y w h : Z) (ty : string) (coeffs : list Q) : Amp.t Q :=
  Amp.mk name (mkBox2I x y w h) ty coeffs.

Definition A0 : Amp.t Q := amp "A0" 0 0 2 1 "PROPORTIONAL" [1 # 10; 0; 5]%Q.
Definition A1 : Amp.t Q := amp "A1" 2 0 2 1 "PROPORTIONAL" [0; 0; 0]%Q.
Definition A2 : Amp.t Q := amp "A2" 0 1 2 1 "PROPORTIONAL" [1 # 2; 0; 0; 9]%Q.
Definition A3 : Amp.t Q := amp "A3" 2 1 1 1 "PROPORTIONAL" [0; 0; 3]%Q.

Definition detector_of (amps : list (Amp.t Q)) : Detector.t Q :=
  Detector.mk 7 (mkBox2I 0 0 4 2) amps.

Definition detector : Detector.t Q := detector_of [A0; A1; A2; A3].

Definition image : MaskedImage Q :=
  mkMaskedImage (0%Z, 0%Z)
    [[1; 2; 3; 4]; [5; 6; 7; 8]]%Q
    [[0; 0; 1; 0]; [0; 0; 4; 2]]%N
    [[1; 2; 3; 4]; [5; 6; 7; 8]]%Q
    defaultMaskPlaneDict.

Definition state_of (d : Detector.t Q) : State Q Q :=
  mkState (Exposure.mk image (Some d)) init.

Definition state : State Q Q := state_of detector.

(** The same detector with every amplifier of linearity type NONE. *)
Definition detector_none : Detector.t Q :=
  detector_of (Amp.setLinearityType "NONE" <$> [A0; A1; A2; A3]).

(** [A2] with a second coefficient that is not zero. *)
Definition A2_bad : Amp.t Q := Amp.setLinearityCoeffs [1 # 2; 1; 0]%Q A2.

Definition detector_bad_coeff1 : Detector.t Q := detector_of [A0; A1; A2_bad; A3].

Definition state_bad_coeff1 : State Q Q := state_of detector_bad_coeff1.

(** [A2] with two coefficients only. *)
Definition A2_short : Amp.t Q := Amp.setLinearityCoeffs [1 # 2; 0]%Q A2.

Definition detector_short : Detector.t Q := detector_of [A0; A1; A2_short; A3].

(** [A2] moved so that it sticks out of the image. *)
Definition A2_out : Amp.t Q := Amp.setBBox (mkBox2I 3 1 2 1) A2.

Definition detector_out : Detector.t Q := detector_of [A0; A1; A2_out; A3].

(** [A2] moved onto [A0]: the two boxes overlap. *)
Definition A2_over : Amp.t Q := Amp.setBBox (mkBox2I 1 0 2 1) A2.

Definition detector_overlap : Detector.t Q := detector_of [A0; A1; A2_over; A3].

(** Every amplifier with a zero square coefficient and a zero threshold. *)
Definition detector_noop : Detector.t Q :=
  detector_of (Amp.setLinearityCoeffs [0; 0; 0]%Q <$> [A0; A1; A2; A3]).

Definition state_none : State Q Q := state_of detector_none.
Definition state_short : State Q Q := state_of detector_short.
Definition state_out : State Q Q := state_of detector_out.
Definition state_noop : State Q Q := state_of detector_noop.

(** A detector of the two overlapping amplifiers alone. *)
Definition detector_two : Detector.t Q := detector_of [A0; A2_over].
Definition state_two : State Q Q := state_of detector_two.

(** A detector whose first amplifier has an unsupported linearity type, and
    one whose first amplifier has too few coefficients. *)
Definition detector_poly : Detector.t Q :=
  detector_of [Amp.setLinearityType "POLYNOMIAL" A0; A1].
Definition detector_first_short : Detector.t Q :=
  detector_of [Amp.setLinearityCoeffs [1 # 10; 0]%Q A0; A1].

End Demo.
