(* ===== verification/LinearizeSpec.v ===== *)
(** * LinearizeSpec: what [ProportionalLinearizeTask.run] guarantees

    The specification of the task pixel by pixel ([new_image], [new_mask]),
    the relations between the masked image before and after a run that hold
    on every outcome ([same_layout], [mask_adds], [same_outside]), the
    condition under which a run returns ([amp_ok]), and the theorems that
    [run] meets them, with and without its decorator
    ([timed_run_same_correction]). *)

From Stdlib Require Import ZArith NArith QArith Lia.
From stdpp Require Import base tactics option list strings gmap.
From S2P Require Import Prelude Numerics Image PipeBase Camera Linearize Fixtures.

Import ProportionalLinearizeTask.

Section Spec.
Context {C P : Type} `{Numerics C P} `{Detection C P}.
Implicit Types (mi : MaskedImage P) (amp : Amp.t C) (s : State C P).

(** ** The specification of a pixel *)

(** The image value the task leaves in a pixel of an amplifier whose first
    coefficient is [sq], when the pixel held [v]: the pixel itself when
    [sq] is zero, else [v * (1 + sq * v)] in the arithmetic of the array
    when [sq] fits it and in the arithmetic of the coefficient, converted
    once, when it does not. *)
Definition new_image (sq : C) (v : P) : P :=
  if c_eqb sq c_zero then v
  else if fits sq then p_mul v (p_add p_one (p_mul (to_pixel sq) v))
  else to_pixel (c_mul (to_coeff v) (c_add c_one (c_mul sq (to_coeff v)))).

(** The mask value the task leaves in a pixel of an amplifier with
    coefficients [sq] and [mx], when the pixel held the image value [v] and
    the mask value [m]; [bits] is the SUSPECT plane. *)
Definition new_mask (sq mx : C) (bits : N) (v : P) (m : N) : N :=
  if negb (skips sq mx) && c_ltb c_zero mx && detects mx v then N.lor m bits else m.

(** The image and mask values at one position. *)
Definition pixel_at mi (i j : nat) : option P * option N :=
  (array2_get (getImage mi) i j, array2_get (getMask mi) i j).

(** [new_image] and [new_mask] on the values at one position, present or
    not. *)
Definition new_pixel (sq mx : C) (bits : N) (p : option P * option N)
  : option P * option N :=
  (new_image sq <$> p.1,
   (fun m => match p.1 with Some v => new_mask sq mx bits v m | None => m end) <$> p.2).

(** ** Relations that hold between the masked image before and after *)

(** Origin, mask-plane dictionary, variance plane and the shapes of the
    image and mask planes are the same. *)
Definition same_layout mi mi' : Prop :=
  getXY0 mi' = getXY0 mi /\ getMaskPlaneDict mi' = getMaskPlaneDict mi /\
  getVariance mi' = getVariance mi /\
  shape (getImage mi') = shape (getImage mi) /\
  shape (getMask mi') = shape (getMask mi).

(** Every mask pixel is what it was, or what it was with the SUSPECT bits
    set. *)
Definition mask_adds mi mi' : Prop :=
  getMaskPlaneDict mi' = getMaskPlaneDict mi /\
  forall i j m', array2_get (getMask mi') i j = Some m' ->
    exists m, array2_get (getMask mi) i j = Some m /\
              (m' = m \/ m' = N.lor m (suspect_bits mi)).

(** The image and mask pixels outside all of [boxes] are what they were. *)
Definition same_outside (boxes : list Box2I) mi mi' : Prop :=
  getXY0 mi' = getXY0 mi /\
  forall i j, (forall box, box ∈ boxes -> in_view mi box i j = false) ->
    pixel_at mi' i j = pixel_at mi i j.

(** ** When a run returns *)

(** The amplifier passes every check of the loop body on the masked image
    [mi]: three coefficients, a zero second coefficient and, unless it is
    skipped, a box inside the image and a SUSPECT plane when it flags. *)
Definition amp_ok mi amp : bool :=
  match take 3 (Amp.getLinearityCoeffs amp) with
  | [sq; c1; mx] =>
      c_eqb c1 c_zero &&
      (skips sq mx ||
       (contains (getBBox mi) (Amp.getBBox amp) &&
        (negb (c_ltb c_zero mx) || bool_decide (is_Some (getMaskPlaneDict mi !! "SUSPECT")))))
  | _ => false
  end.

(** The exception the loop body raises on an amplifier that fails a check:
    the checks are made in this order. *)
Definition amp_error (detector : Detector.t C) mi amp : exn :=
  match take 3 (Amp.getLinearityCoeffs amp) with
  | [sq; c1; mx] =>
      if negb (c_eqb c1 c_zero) then RuntimeError (msg_coeff1 detector amp)
      else if negb (contains (getBBox mi) (Amp.getBBox amp)) then LengthError
      else InvalidParameterError "SUSPECT"
  | l => ValueError (msg_unpack (length l))
  end.

(** Some amplifier of [l] is not skipped: the final value of [didCorrect]
    in a run that returns. *)
Definition any_corrected (l : list (Amp.t C)) : bool :=
  existsb (fun amp =>
             match take 3 (Amp.getLinearityCoeffs amp) with
             | [sq; _; mx] => negb (skips sq mx)
             | _ => false
             end) l.

(** ** The writes of one amplifier, position by position *)

Lemma amp_effect_fields view sq mx bits mi :
  getXY0 (amp_effect view sq mx bits mi) = getXY0 mi /\
  getMaskPlaneDict (amp_effect view sq mx bits mi) = getMaskPlaneDict mi /\
  getVariance (amp_effect view sq mx bits mi) = getVariance mi.
Proof. unfold amp_effect. by destruct (c_ltb c_zero mx), (c_eqb sq c_zero). Qed.

Lemma amp_effect_image view sq mx bits mi i j :
  array2_get (getImage (amp_effect view sq mx bits mi)) i j =
  (fun v => if in_view mi view i j && negb (c_eqb sq c_zero) then linearize sq v else v)
    <$> array2_get (getImage mi) i j.
Proof.
  unfold amp_effect.
  destruct (c_ltb c_zero mx), (c_eqb sq c_zero); cbn [negb];
    rewrite ?get_image_map_view, ?in_view_or_mask, ?getImage_or_mask,
      ?andb_true_r, ?andb_false_r;
    by destruct (array2_get (getImage mi) i j).
Qed.

Lemma amp_effect_mask view sq mx bits mi i j :
  array2_get (getMask (amp_effect view sq mx bits mi)) i j =
  (fun m => match array2_get (getImage mi) i j with
            | Some v => if in_view mi view i j && c_ltb c_zero mx && detects mx v
                        then N.lor m bits else m
            | None => m
            end) <$> array2_get (getMask mi) i j.
Proof.
  unfold amp_effect.
  destruct (c_ltb c_zero mx), (c_eqb sq c_zero); cbn [negb];
    rewrite ?getMask_map_image, ?get_mask_or_view, ?andb_true_r, ?andb_false_r;
    by destruct (array2_get (getMask mi) i j), (array2_get (getImage mi) i j).
Qed.

Lemma amp_effect_shapes view sq mx bits mi :
  shape (getImage (amp_effect view sq mx bits mi)) = shape (getImage mi) /\
  shape (getMask (amp_effect view sq mx bits mi)) = shape (getMask mi).
Proof.
  unfold amp_effect.
  destruct (c_ltb c_zero mx), (c_eqb sq c_zero); simpl; by rewrite ?shape_imap.
Qed.

(** Outside its view an amplifier writes nothing. *)
Lemma amp_effect_outside view sq mx bits mi i j :
  in_view mi view i j = false ->
  pixel_at (amp_effect view sq mx bits mi) i j = pixel_at mi i j.
Proof.
  intros Hv. unfold pixel_at. rewrite amp_effect_image, amp_effect_mask, Hv. simpl.
  f_equal.
  - by destruct (array2_get (getImage mi) i j).
  - by destruct (array2_get (getMask mi) i j), (array2_get (getImage mi) i j).
Qed.

(** Inside its view an amplifier that is not skipped writes [new_pixel]. *)
Lemma amp_effect_inside view sq mx bits mi i j :
  in_view mi view i j = true -> skips sq mx = false ->
  pixel_at (amp_effect view sq mx bits mi) i j = new_pixel sq mx bits (pixel_at mi i j).
Proof.
  intros Hv Hk. unfold pixel_at, new_pixel, new_image, new_mask. simpl.
  rewrite amp_effect_image, amp_effect_mask, Hv, Hk. simpl. f_equal.
  destruct (array2_get (getImage mi) i j); simpl; [|done].
  by destruct (c_eqb sq c_zero).
Qed.

(** ** The relations are preorders, and every write respects them *)

Lemma same_layout_preorder : PreOrder same_layout.
Proof.
  split; [by intros mi|].
  intros a b c (?&?&?&?&?) (?&?&?&?&?). unfold same_layout. split_and!; congruence.
Qed.

Lemma suspect_bits_dict mi mi' :
  getMaskPlaneDict mi' = getMaskPlaneDict mi -> suspect_bits mi' = suspect_bits mi.
Proof. intros Hd. unfold suspect_bits, getPlaneBitMask. by rewrite Hd. Qed.

Lemma mask_adds_preorder : PreOrder mask_adds.
Proof.
  split.
  - intros mi. split; [done|]. intros i j m' Hm. eauto.
  - intros a b c [Hd1 H1] [Hd2 H2]. split; [congruence|].
    intros i j m'' Hc. destruct (H2 i j m'' Hc) as (m' & Hb & Hm'').
    destruct (H1 i j m' Hb) as (m & Ha & Hm'). exists m. split; [done|].
    rewrite (suspect_bits_dict _ _ Hd1) in Hm''.
    destruct Hm' as [->| ->], Hm'' as [->| ->]; auto.
    right. by rewrite <- N.lor_assoc, N.lor_diag.
Qed.

Lemma in_view_xy0 mi mi' view i j :
  getXY0 mi' = getXY0 mi -> in_view mi' view i j = in_view mi view i j.
Proof. intros Hx. unfold in_view. by rewrite Hx. Qed.

Lemma same_outside_preorder boxes : PreOrder (same_outside boxes).
Proof.
  split.
  - intros mi. by split.
  - intros a b c [Hx1 H1] [Hx2 H2]. split; [congruence|].
    intros i j Hout. rewrite H2, H1; [done..|].
    intros box Hb. rewrite (in_view_xy0 _ _ _ _ _ Hx1). by apply Hout.
Qed.

#[local] Existing Instance same_layout_preorder.
#[local] Existing Instance mask_adds_preorder.
#[local] Existing Instance same_outside_preorder.

Lemma amp_effect_same_layout view sq mx bits mi :
  same_layout mi (amp_effect view sq mx bits mi).
Proof.
  destruct (amp_effect_fields view sq mx bits mi) as (?&?&?).
  destruct (amp_effect_shapes view sq mx bits mi) as (?&?).
  by unfold same_layout.
Qed.

Lemma amp_effect_mask_adds view sq mx bits mi :
  (c_ltb c_zero mx = true -> getPlaneBitMask mi "SUSPECT" = Normal bits) ->
  mask_adds mi (amp_effect view sq mx bits mi).
Proof.
  intros Hb. split; [apply amp_effect_fields|].
  intros i j m'. rewrite amp_effect_mask.
  destruct (array2_get (getMask mi) i j) as [m|]; simpl; [|done].
  intros [= <-]. exists m. split; [done|].
  destruct (array2_get (getImage mi) i j) as [v|]; [|by left].
  destruct (c_ltb c_zero mx) eqn:Hf; [|left; by rewrite andb_false_r].
  destruct (in_view mi view i j && true && detects mx v); [right|by left].
  unfold suspect_bits. by rewrite Hb.
Qed.

Lemma amp_effect_same_outside boxes view sq mx bits mi :
  view ∈ boxes -> same_outside boxes mi (amp_effect view sq mx bits mi).
Proof.
  intros Hin. split; [apply amp_effect_fields|].
  intros i j Hout. apply amp_effect_outside. by apply Hout.
Qed.

(** ** Shapes *)

Lemma array2_width_shape {A} (a : array2 A) : array2_width a = hd 0%nat (shape a).
Proof. by destruct a. Qed.

Lemma array2_height_shape {A} (a : array2 A) : array2_height a = length (shape a).
Proof. unfold array2_height, shape. by rewrite length_fmap. Qed.

Lemma rows_shape {A} (a : array2 A) (w : nat) :
  Forall (fun row => length row = w) a <-> Forall (fun n => n = w) (shape a).
Proof. unfold shape. by rewrite Forall_fmap. Qed.

Lemma wf_same_layout mi mi' : same_layout mi mi' -> wf_MaskedImage mi -> wf_MaskedImage mi'.
Proof.
  intros (_ & _ & Hv & Hi & Hm) (Wm & Wv & Wr). unfold wf_MaskedImage.
  rewrite rows_shape, array2_width_shape in *. rewrite Hv, Hi, Hm. done.
Qed.

(** ** What a run that returns has written *)

Lemma amp_apply_fields amp mi :
  getXY0 (amp_apply amp mi) = getXY0 mi /\
  getMaskPlaneDict (amp_apply amp mi) = getMaskPlaneDict mi.
Proof.
  unfold amp_apply.
  destruct (take 3 _) as [|sq [|c1 [|mx [|]]]]; try done.
  destruct (skips sq mx); [done|].
  by destruct (amp_effect_fields (Amp.getBBox amp) sq mx (suspect_bits mi) mi) as (?&?&?).
Qed.

Lemma amp_apply_outside amp mi i j :
  in_view mi (Amp.getBBox amp) i j = false ->
  pixel_at (amp_apply amp mi) i j = pixel_at mi i j.
Proof.
  intros Hv. unfold amp_apply.
  destruct (take 3 _) as [|sq [|c1 [|mx [|]]]]; try done.
  destruct (skips sq mx); [done|]. by apply amp_effect_outside.
Qed.

(** A skipped amplifier satisfies [new_pixel] by leaving the pixel alone. *)
Lemma new_pixel_skips sq mx bits p : skips sq mx = true -> new_pixel sq mx bits p = p.
Proof.
  intros Hk. destruct p as [[v|] [m|]]; unfold new_pixel, new_image, new_mask; simpl;
    rewrite ?Hk; simpl; try done;
    apply andb_prop in Hk as [_ ->]; done.
Qed.

Lemma amp_apply_inside amp sq c1 mx mi i j :
  take 3 (Amp.getLinearityCoeffs amp) = [sq; c1; mx] ->
  in_view mi (Amp.getBBox amp) i j = true ->
  pixel_at (amp_apply amp mi) i j = new_pixel sq mx (suspect_bits mi) (pixel_at mi i j).
Proof.
  intros Ht Hv. unfold amp_apply. rewrite Ht.
  destruct (skips sq mx) eqn:Hk; [by rewrite new_pixel_skips | by apply amp_effect_inside].
Qed.

(** With boxes that do not overlap, a position in the box of one amplifier
    is written by that amplifier alone. *)
Lemma amps_apply_pixel (l : list (Amp.t C)) k amp sq c1 mx mi i j :
  amps_disjoint l -> l !! k = Some amp ->
  take 3 (Amp.getLinearityCoeffs amp) = [sq; c1; mx] ->
  in_view mi (Amp.getBBox amp) i j = true ->
  pixel_at (amps_apply l mi) i j = new_pixel sq mx (suspect_bits mi) (pixel_at mi i j).
Proof.
  intros Hdis Hk Ht Hv.
  destruct (elem_of_middle _ _ _ Hk) as (l1 & l2 & -> & Hlen).
  set (I := fun b : MaskedImage P =>
              getXY0 b = getXY0 mi /\ getMaskPlaneDict b = getMaskPlaneDict mi).
  apply (foldl_unique_step I (fun b => pixel_at b i j) (fun b a => amp_apply a b)
           (new_pixel sq mx (suspect_bits mi))).
  - done.
  - intros b a [Hx Hd]. destruct (amp_apply_fields a b) as [? ?]. split; congruence.
  - intros b a Ha [Hx Hd]. apply amp_apply_outside.
    rewrite (in_view_xy0 _ _ _ _ _ Hx).
    apply (overlaps_false_point (Amp.getBBox amp)); [|done].
    apply list_elem_of_lookup in Ha as [n Hn].
    destruct (decide (n < length l1)) as [Hlt|Hge].
    + apply (Hdis (length l1) n amp a); [by rewrite list_lookup_middle | | lia].
      by rewrite lookup_app_l in Hn |- *.
    + apply (Hdis (length l1) (S n) amp a); [by rewrite list_lookup_middle | | lia].
      rewrite lookup_app_r in Hn |- * by lia.
      by replace (S n - length l1) with (S (n - length l1)) by lia.
  - intros b [Hx Hd]. rewrite <- (suspect_bits_dict _ _ Hd).
    apply (amp_apply_inside _ _ c1); [done|]. by rewrite (in_view_xy0 _ _ _ _ _ Hx).
Qed.

(** ** When the loop returns *)

Lemma getBBox_same_layout mi mi' : same_layout mi mi' -> getBBox mi' = getBBox mi.
Proof.
  intros (Hx & _ & _ & Hi & _). unfold getBBox.
  by rewrite Hx, !array2_width_shape, !array2_height_shape, Hi.
Qed.

Lemma amp_ok_same_layout mi mi' amp : same_layout mi mi' -> amp_ok mi' amp = amp_ok mi amp.
Proof.
  intros Hl. unfold amp_ok. rewrite (getBBox_same_layout _ _ Hl).
  destruct Hl as (_ & -> & _). done.
Qed.

Lemma amp_apply_same_layout amp mi : same_layout mi (amp_apply amp mi).
Proof.
  unfold amp_apply. destruct (take 3 _) as [|sq [|c1 [|mx [|]]]]; try done.
  destruct (skips sq mx); [done | apply amp_effect_same_layout].
Qed.

(** An amplifier that passes the checks makes the step return: [None] when
    it is skipped, the masked image [amp_apply] gives otherwise. *)
Lemma amp_step_ok detector amp mi :
  amp_ok mi amp = true ->
  exists sq c1 mx, take 3 (Amp.getLinearityCoeffs amp) = [sq; c1; mx] /\
    amp_step detector amp mi =
      Normal (if skips sq mx then None else Some (amp_apply amp mi)).
Proof.
  unfold amp_ok, amp_step, amp_apply, subMaskedImage, suspect_bits, getPlaneBitMask, skips.
  destruct (take 3 _) as [|sq [|c1 [|mx [|]]]] eqn:Ht; try done.
  rewrite (proj2 (unpack3_Normal _ _ _ _) Ht).
  intros [-> Hrest]%andb_prop. exists sq, c1, mx. split; [done|]. simpl.
  destruct (c_leb mx c_zero && c_eqb sq c_zero); [done|]. simpl in Hrest.
  apply andb_prop in Hrest as [-> Hplane].
  destruct (c_ltb c_zero mx) eqn:Hf.
  - simpl in Hplane. apply bool_decide_eq_true in Hplane as [bit ->]. done.
  - do 2 f_equal. by apply amp_effect_bits_unused.
Qed.

(** An amplifier that fails a check makes the step raise [amp_error]. *)
Lemma amp_step_not_ok detector amp mi :
  amp_ok mi amp = false -> amp_step detector amp mi = Raised (amp_error detector mi amp).
Proof.
  unfold amp_ok, amp_step, amp_error, unpack3, subMaskedImage, getPlaneBitMask, skips.
  destruct (take 3 _) as [|sq [|c1 [|mx [|]]]]; try done.
  destruct (c_eqb c1 c_zero); simpl; [|done].
  destruct (c_leb mx c_zero && c_eqb sq c_zero); simpl; [done|].
  destruct (contains _ _); simpl; [|done].
  destruct (c_ltb c_zero mx); simpl; [|done].
  by destruct (getMaskPlaneDict mi !! "SUSPECT").
Qed.

Lemma amp_error_same_layout detector mi mi' amp :
  same_layout mi mi' -> amp_error detector mi' amp = amp_error detector mi amp.
Proof. intros Hl. unfold amp_error. by rewrite (getBBox_same_layout _ _ Hl). Qed.

Lemma amps_apply_same_layout l mi : same_layout mi (amps_apply l mi).
Proof.
  unfold amps_apply. apply (foldl_invariant (same_layout mi)); [done|].
  intros b a _ Hb. etrans; [done | apply amp_apply_same_layout].
Qed.

(** ** Amplifiers that cover the image *)

(** When the boxes of the amplifiers lie apart and every pixel of the image
    lies in one of them, and the amplifiers have the same coefficients, every
    position holds what [new_pixel] says. *)
Lemma amps_apply_cover_pixel (l : list (Amp.t C)) sq c1 mx mi i j :
  wf_MaskedImage mi -> amps_disjoint l ->
  Forall (fun amp => take 3 (Amp.getLinearityCoeffs amp) = [sq; c1; mx]) l ->
  (is_Some (array2_get (getImage mi) i j) ->
   exists amp, amp ∈ l /\ in_view mi (Amp.getBBox amp) i j = true) ->
  pixel_at (amps_apply l mi) i j = new_pixel sq mx (suspect_bits mi) (pixel_at mi i j).
Proof.
  intros (Wm & _) Hdis Hall Hcov.
  destruct (array2_get (getImage mi) i j) as [v|] eqn:Hv.
  - destruct Hcov as (amp & [k Hk]%list_elem_of_lookup & Hview); [done|].
    eapply amps_apply_pixel; [done.. | | done].
    by apply (Forall_lookup_1 _ _ _ _ Hall Hk).
  - destruct (amps_apply_same_layout l mi) as (_ & _ & _ & Hi & Hm).
    assert (array2_get (getMask mi) i j = None) as Hn
      by (by apply (array2_get_None_shape (getImage mi))).
    unfold pixel_at, new_pixel. rewrite Hv, Hn. simpl. f_equal.
    + by apply (array2_get_None_shape (getImage mi)).
    + by apply (array2_get_None_shape (getMask mi)).
Qed.

(** The same, for the three planes as a whole. *)
Lemma amps_apply_cover (l : list (Amp.t C)) sq c1 mx mi :
  wf_MaskedImage mi -> amps_disjoint l ->
  Forall (fun amp => take 3 (Amp.getLinearityCoeffs amp) = [sq; c1; mx]) l ->
  (forall i j, is_Some (array2_get (getImage mi) i j) ->
     exists amp, amp ∈ l /\ in_view mi (Amp.getBBox amp) i j = true) ->
  getArrays (amps_apply l mi) =
  (map (map (new_image sq)) (getImage mi),
   array2_imap (fun i j m =>
     match array2_get (getImage mi) i j with
     | Some v => new_mask sq mx (suspect_bits mi) v m
     | None => m
     end) (getMask mi),
   getVariance mi).
Proof.
  intros Hwf Hdis Hall Hcov.
  destruct (amps_apply_same_layout l mi) as (_ & _ & Hv & Hi & Hm).
  assert (forall i j, pixel_at (amps_apply l mi) i j =
            new_pixel sq mx (suspect_bits mi) (pixel_at mi i j)) as Hp
    by (intros i j; apply (amps_apply_cover_pixel l sq c1); auto).
  unfold getArrays. f_equal; [f_equal|done].
  - apply array2_eq; [by rewrite shape_map|]. intros i j.
    rewrite array2_get_map. apply (f_equal fst (Hp i j)).
  - apply array2_eq; [by rewrite shape_imap|]. intros i j.
    rewrite array2_get_imap. apply (f_equal snd (Hp i j)).
Qed.

Lemma amp_apply_skips amp sq c1 mx mi :
  take 3 (Amp.getLinearityCoeffs amp) = [sq; c1; mx] -> skips sq mx = true ->
  amp_apply amp mi = mi.
Proof. intros Ht Hk. unfold amp_apply. by rewrite Ht, Hk. Qed.

Lemma amps_fold_ok detector l b mi :
  forallb (amp_ok mi) l = true ->
  amps_fold detector l b mi = (Normal (b || any_corrected l), amps_apply l mi).
Proof.
  revert b mi. induction l as [|amp l IH]; intros b mi Hall; simpl.
  - by rewrite orb_false_r.
  - apply andb_prop in Hall as [Hok Hall].
    destruct (amp_step_ok detector amp mi Hok) as (sq & c1 & mx & Ht & ->).
    rewrite Ht. unfold amps_apply. simpl.
    destruct (skips sq mx) eqn:Hk; simpl.
    + rewrite (amp_apply_skips _ _ _ _ _ Ht Hk). by apply IH.
    + rewrite orb_true_r. apply (IH true).
      rewrite (forallb_pointwise _ (amp_ok mi)); [done|]. intros a.
      apply amp_ok_same_layout, amp_apply_same_layout.
Qed.

(** The loop stops at the first amplifier that fails a check, after the
    writes of the amplifiers before it. *)
Lemma amps_fold_stops detector l1 amp l2 b mi :
  forallb (amp_ok mi) l1 = true -> amp_ok mi amp = false ->
  amps_fold detector (l1 ++ amp :: l2) b mi =
    (Raised (amp_error detector mi amp), amps_apply l1 mi).
Proof.
  revert b mi. induction l1 as [|a l1 IH]; intros b mi Hall Hko; simpl.
  - by rewrite (amp_step_not_ok _ _ _ Hko).
  - apply andb_prop in Hall as [Hok Hall].
    destruct (amp_step_ok detector a mi Hok) as (sq & c1 & mx & Ht & ->).
    assert (same_layout mi (amp_apply a mi)) as Hl by apply amp_apply_same_layout.
    assert (forall b', amps_fold detector (l1 ++ amp :: l2) b' (amp_apply a mi) =
              (Raised (amp_error detector mi amp), amps_apply (a :: l1) mi)) as IH'.
    { intros b'. rewrite <- (amp_error_same_layout _ _ _ _ Hl). apply IH.
      - rewrite (forallb_pointwise _ (amp_ok mi)); [done|]. intros x.
        by apply amp_ok_same_layout.
      - by rewrite (amp_ok_same_layout _ _ _ Hl). }
    destruct (skips sq mx) eqn:Hk; [|apply IH'].
    pose proof (IH' b) as Hb. by rewrite (amp_apply_skips _ _ _ _ _ Ht Hk) in Hb.
Qed.

(** ** Skipped amplifiers and repeated runs *)

Lemma amp_step_skips detector amp sq c1 mx mi :
  take 3 (Amp.getLinearityCoeffs amp) = [sq; c1; mx] ->
  c_eqb c1 c_zero = true -> skips sq mx = true ->
  amp_step detector amp mi = Normal None.
Proof.
  intros Ht Hc1 Hk. unfold amp_step. unfold skips in Hk.
  by rewrite (proj2 (unpack3_Normal _ _ _ _) Ht), Hc1, Hk.
Qed.

Lemma amps_fold_all_skipped detector (l : list (Amp.t C)) b mi :
  (forall amp, amp ∈ l -> exists sq c1 mx,
     take 3 (Amp.getLinearityCoeffs amp) = [sq; c1; mx] /\
     c_eqb c1 c_zero = true /\ skips sq mx = true) ->
  amps_fold detector l b mi = (Normal b, mi).
Proof.
  induction l as [|amp l IH]; intros Hall; simpl; [done|].
  destruct (Hall amp) as (sq & c1 & mx & Ht & Hc1 & Hk); [left|].
  rewrite (amp_step_skips _ _ _ _ _ _ Ht Hc1 Hk). apply IH.
  intros a Ha. apply Hall. by right.
Qed.

(** ** Theorems that hold on every outcome of [run] *)

(** Whether [run] returns or raises, it leaves the origin, the
    mask-plane dictionary, the variance plane and the shapes of the image and
    mask planes of the exposure's masked image as they were. *)
Theorem run_same_layout s :
  same_layout (image_of s) (image_of (exec_state run s)).
Proof. apply (run_rel same_layout). intros. apply amp_effect_same_layout. Qed.

(** C33: On every outcome of [run], a mask pixel keeps the bits it had,
    gains no bit outside the SUSPECT plane, and stays within the 16 bits of
    a mask pixel when it was and the SUSPECT plane is one of the 16. *)
Theorem run_mask_bits s i j m m' n :
  array2_get (getMask (image_of s)) i j = Some m ->
  array2_get (getMask (image_of (exec_state run s))) i j = Some m' ->
  (N.testbit m n = true -> N.testbit m' n = true) /\
  (N.testbit (suspect_bits (image_of s)) n = false -> N.testbit m' n = N.testbit m n) /\
  ((suspect_bits (image_of s) < 2 ^ mask_bits)%N -> (m < 2 ^ mask_bits)%N ->
   (m' < 2 ^ mask_bits)%N).
Proof.
  intros Hm Hm'.
  assert (mask_adds (image_of s) (image_of (exec_state run s))) as [_ Hadd]
    by (apply (run_rel mask_adds); intros; by apply amp_effect_mask_adds).
  destruct (Hadd i j m' Hm') as (m0 & Hm0 & Hor). simplify_eq.
  destruct Hor as [->| ->]; [done|]. rewrite N.lor_spec.
  split; [by intros ->|]. split; [by intros ->; rewrite orb_false_r|].
  intros. by apply N_lor_lt_pow2.
Qed.

(** C31: On every outcome of [run], the image and mask pixels that lie in no
    amplifier's box are what they were. *)
Theorem run_frame s detector i j :
  Exposure.getDetector (exposure s) = Some detector ->
  (forall amp, amp ∈ Detector.amps detector -> in_view (image_of s) (Amp.getBBox amp) i j = false) ->
  pixel_at (image_of (exec_state run s)) i j = pixel_at (image_of s) i j.
Proof.
  intros Hd Hout.
  assert (same_outside (Amp.getBBox <$> Detector.amps detector)
            (image_of s) (image_of (exec_state run s))) as [_ Hsame].
  { apply (run_rel (same_outside _)). intros d amp sq mx bits mi Hd' Hin _ _.
    apply amp_effect_same_outside. simplify_eq. by apply list_elem_of_fmap_2. }
  apply Hsame. intros box (amp & -> & Hin)%list_elem_of_fmap. by apply Hout.
Qed.

(** ** Theorems on the result of [run] *)

(** C3: When the correction is wanted and every amplifier passes the checks
    of the loop body, [run] returns; the masked image is the one the
    amplifiers leave when applied in order, the detector is untouched, and
    the log gains one INFO record exactly when some amplifier was not
    skipped. *)
Theorem run_returns s detector :
  Exposure.getDetector (exposure s) = Some detector ->
  doCorrect detector = Normal true ->
  forallb (amp_ok (image_of s)) (Detector.amps detector) = true ->
  run s =
    (Normal tt,
     mkState (Exposure.withMaskedImage
                (amps_apply (Detector.amps detector) (image_of s)) (exposure s))
       (if any_corrected (Detector.amps detector)
        then exec_state (log INFO (msg_applied detector)) (task s)
        else task s)).
Proof.
  intros Hd Hdo Hok. rewrite (run_unfold _ _ Hd), Hdo, (amps_fold_ok _ _ _ _ Hok).
  simpl. by destruct (any_corrected _).
Qed.

(** C30: When the correction is wanted, [run] returns if and only if every
    amplifier passes the checks of the loop body. *)
Theorem run_returns_iff s detector :
  Exposure.getDetector (exposure s) = Some detector ->
  doCorrect detector = Normal true ->
  is_Normal (exec_result run s) = true <->
  forallb (amp_ok (image_of s)) (Detector.amps detector) = true.
Proof.
  intros Hd Hdo. unfold exec_result. rewrite (run_unfold _ _ Hd), Hdo. split.
  - destruct (forallb _ _) eqn:Hall; [done|].
    apply forallb_false_split in Hall as (l1 & amp & l2 & -> & H1 & Hko).
    by rewrite (amps_fold_stops _ _ _ _ _ _ H1 Hko).
  - intros Hok. rewrite (amps_fold_ok _ _ _ _ Hok). simpl.
    by destruct (any_corrected _).
Qed.

(** The masked image of a run that returns is the one the amplifiers leave
    when applied in order. *)
Lemma run_returns_image s s' detector :
  Exposure.getDetector (exposure s) = Some detector ->
  doCorrect detector = Normal true ->
  run s = (Normal tt, s') ->
  image_of s' = amps_apply (Detector.amps detector) (image_of s).
Proof.
  intros Hd Hdo Hrun. rewrite (run_unfold _ _ Hd), Hdo in Hrun.
  destruct (amps_fold _ _ _ _) as [[b|e] mi'] eqn:Hf; [|done].
  apply amps_fold_Normal in Hf as ->. destruct b; by simplify_eq.
Qed.

(** C1: In a run that returns over amplifiers whose boxes do not overlap,
    each pixel in the box of an amplifier with coefficients [sq], [c1], [mx]
    holds [new_image sq v] where it held the image value [v], and its mask
    holds the SUSPECT bits in addition exactly when the amplifier is not
    skipped, [mx] is positive and the threshold detects [v], the value
    before the correction. *)
Theorem run_pixel s s' detector k amp sq c1 mx i j :
  Exposure.getDetector (exposure s) = Some detector ->
  doCorrect detector = Normal true ->
  run s = (Normal tt, s') ->
  amps_disjoint (Detector.amps detector) ->
  Detector.amps detector !! k = Some amp ->
  take 3 (Amp.getLinearityCoeffs amp) = [sq; c1; mx] ->
  in_view (image_of s) (Amp.getBBox amp) i j = true ->
  pixel_at (image_of s') i j =
    new_pixel sq mx (suspect_bits (image_of s)) (pixel_at (image_of s) i j).
Proof.
  intros Hd Hdo Hrun Hdis Hk Ht Hv.
  rewrite (run_returns_image _ _ _ Hd Hdo Hrun). by eapply amps_apply_pixel.
Qed.

(** C6: When the correction is wanted, the amplifiers before [amp] pass the
    checks and [amp] fails one, [run] raises the exception of the first
    check [amp] fails, and the exposure keeps the writes of the amplifiers
    before [amp]: nothing is rolled back and nothing is logged. *)
Theorem run_raises_at s detector l1 amp l2 :
  Exposure.getDetector (exposure s) = Some detector ->
  doCorrect detector = Normal true ->
  Detector.amps detector = l1 ++ amp :: l2 ->
  forallb (amp_ok (image_of s)) l1 = true ->
  amp_ok (image_of s) amp = false ->
  run s = (Raised (amp_error detector (image_of s) amp),
           set_image (amps_apply l1 (image_of s)) s).
Proof.
  intros Hd Hdo Hl H1 Hko.
  by rewrite (run_unfold _ _ Hd), Hdo, Hl, (amps_fold_stops _ _ _ _ _ _ H1 Hko).
Qed.

(** When the correction is wanted and some amplifier has a second
    coefficient that is not zero, [run] does not return. *)
Theorem run_coeff1_never_returns s detector amp sq c1 mx :
  Exposure.getDetector (exposure s) = Some detector ->
  doCorrect detector = Normal true ->
  amp ∈ Detector.amps detector ->
  take 3 (Amp.getLinearityCoeffs amp) = [sq; c1; mx] ->
  c_eqb c1 c_zero = false ->
  is_Raised (exec_result run s) = true.
Proof.
  intros Hd Hdo Hin Ht Hc1. unfold exec_result, is_Raised.
  rewrite (run_unfold _ _ Hd), Hdo.
  destruct (forallb (amp_ok (image_of s)) (Detector.amps detector)) eqn:Hall.
  - apply (forallb_elem_of _ _ Hall) in Hin. unfold amp_ok in Hin.
    by rewrite Ht, Hc1 in Hin.
  - apply forallb_false_split in Hall as (l1 & a & l2 & -> & H1 & Hko).
    by rewrite (amps_fold_stops _ _ _ _ _ _ H1 Hko).
Qed.

(** ** [doCorrect] *)

(** C13: [doCorrect] returns false exactly when the first amplifier has
    linearity type NONE, and true exactly when it has type PROPORTIONAL and
    at least three coefficients; the other amplifiers are not looked at. *)
Theorem doCorrect_returns (detector : Detector.t C) :
  (doCorrect detector = Normal false <->
     exists amp rest, Detector.amps detector = amp :: rest /\
       Amp.getLinearityType amp = "NONE") /\
  (doCorrect detector = Normal true <->
     exists amp rest, Detector.amps detector = amp :: rest /\
       Amp.getLinearityType amp = "PROPORTIONAL" /\
       (3 <= length (Amp.getLinearityCoeffs amp))%nat).
Proof.
  unfold doCorrect. rewrite getitem_0.
  destruct (Detector.amps detector) as [|amp rest].
  { split; split; try done; by intros (?&?&?&?). }
  destruct (String.eqb_spec (Amp.getLinearityType amp) "NONE") as [Hn|Hn].
  { split; split; try done; [by eauto|]. intros (a & r & [= <- <-] & ? & _). congruence. }
  destruct (String.eqb_spec (Amp.getLinearityType amp) "PROPORTIONAL") as [Hp|Hp].
  2: { split; split; try done; [intros (a & r & [= <- <-] & ?)
                                | intros (a & r & [= <- <-] & ? & ?)]; done. }
  destruct (Nat.ltb_spec (length (Amp.getLinearityCoeffs amp)) 3) as [Hlt|Hge];
    (split; split; try done; [by intros (a & r & [= <- <-] & ?)|]).
  - intros (a & r & [= <- <-] & ? & ?). lia.
  - by eauto.
Qed.

(** C18: [doCorrect] raises [IndexError] on a detector without amplifiers,
    [RuntimeError] on a PROPORTIONAL first amplifier with fewer than three
    coefficients, and [RuntimeError] on a first amplifier of any type other
    than NONE and PROPORTIONAL. *)
Theorem doCorrect_raises (detector : Detector.t C) :
  match Detector.amps detector with
  | [] => doCorrect detector = Raised IndexError
  | amp :: _ =>
      (Amp.getLinearityType amp = "PROPORTIONAL" ->
       (length (Amp.getLinearityCoeffs amp) < 3)%nat ->
       doCorrect detector =
         Raised (RuntimeError (msg_need3 (length (Amp.getLinearityCoeffs amp))))) /\
      (Amp.getLinearityType amp <> "NONE" ->
       Amp.getLinearityType amp <> "PROPORTIONAL" ->
       doCorrect detector = Raised (RuntimeError (msg_unsupported detector amp)))
  end.
Proof.
  unfold doCorrect. rewrite getitem_0.
  destruct (Detector.amps detector) as [|amp rest]; [done|]. split.
  - intros -> Hlen. simpl. by destruct (Nat.ltb_spec (length (Amp.getLinearityCoeffs amp)) 3); [|lia].
  - intros Hn Hp.
    destruct (String.eqb_spec (Amp.getLinearityType amp) "NONE"); [done|].
    by destruct (String.eqb_spec (Amp.getLinearityType amp) "PROPORTIONAL").
Qed.

(** ** Runs that write nothing *)

(** C11: When the first amplifier has linearity type NONE, [run] returns and
    leaves the exposure as it was, image, mask and variance planes included,
    whatever the other amplifiers say; the log gains one DEBUG record. *)
Theorem run_not_wanted s detector amp rest :
  Exposure.getDetector (exposure s) = Some detector ->
  Detector.amps detector = amp :: rest ->
  Amp.getLinearityType amp = "NONE" ->
  run s =
    (Normal tt,
     mkState (exposure s)
       (set_log (getLog (task s) ++ [mkLogRecord DEBUG (msg_not_wanted detector)])
          (task s))).
Proof.
  intros Hd Ha Hn. rewrite (run_unfold _ _ Hd).
  unfold doCorrect. by rewrite getitem_0, Ha, Hn.
Qed.

(** C34: When the correction is wanted and every amplifier has a zero second
    coefficient and meets the test of [continue], [run] returns and leaves
    the whole state as it was, the log included. *)
Theorem run_all_skipped s detector :
  Exposure.getDetector (exposure s) = Some detector ->
  doCorrect detector = Normal true ->
  (forall amp, amp ∈ Detector.amps detector -> exists sq c1 mx,
     take 3 (Amp.getLinearityCoeffs amp) = [sq; c1; mx] /\
     c_eqb c1 c_zero = true /\ skips sq mx = true) ->
  run s = (Normal tt, s).
Proof.
  intros Hd Hdo Hall.
  rewrite (run_unfold _ _ Hd), Hdo, (amps_fold_all_skipped _ _ _ _ Hall).
  by rewrite set_image_same.
Qed.

(** ** Defects that the model exhibits *)

(** C35: An amplifier after the first that has fewer than three coefficients
    makes [run] raise [ValueError] from the unpacking, with the message of
    Python 2, after the writes of the amplifiers before it. *)
Theorem run_short_coeffs s detector l1 amp l2 :
  Exposure.getDetector (exposure s) = Some detector ->
  doCorrect detector = Normal true ->
  Detector.amps detector = l1 ++ amp :: l2 ->
  forallb (amp_ok (image_of s)) l1 = true ->
  (length (Amp.getLinearityCoeffs amp) < 3)%nat ->
  run s =
    (Raised (ValueError (msg_unpack (length (Amp.getLinearityCoeffs amp)))),
     set_image (amps_apply l1 (image_of s)) s).
Proof.
  intros Hd Hdo Hl H1 Hlen.
  assert (take 3 (Amp.getLinearityCoeffs amp) = Amp.getLinearityCoeffs amp) as Ht
    by (apply take_ge; lia).
  assert (amp_ok (image_of s) amp = false) as Hko.
  { unfold amp_ok. rewrite Ht. by destruct (Amp.getLinearityCoeffs amp) as [|? [|? [|? ?]]];
      simpl in *; try lia. }
  rewrite (run_unfold _ _ Hd), Hdo, Hl, (amps_fold_stops _ _ _ _ _ _ H1 Hko).
  unfold amp_error. rewrite Ht.
  by destruct (Amp.getLinearityCoeffs amp) as [|? [|? [|? ?]]]; simpl in *; try lia.
Qed.

(** C38: A pixel that lies in the boxes of two amplifiers is corrected
    twice: in a run over the amplifiers [a] then [b] that returns, it holds
    the correction of [b] applied to the correction of [a]. *)
Theorem run_overlap_twice s s' detector a b sqa c1a mxa sqb c1b mxb i j :
  Exposure.getDetector (exposure s) = Some detector ->
  doCorrect detector = Normal true ->
  Detector.amps detector = [a; b] ->
  run s = (Normal tt, s') ->
  take 3 (Amp.getLinearityCoeffs a) = [sqa; c1a; mxa] ->
  take 3 (Amp.getLinearityCoeffs b) = [sqb; c1b; mxb] ->
  in_view (image_of s) (Amp.getBBox a) i j = true ->
  in_view (image_of s) (Amp.getBBox b) i j = true ->
  pixel_at (image_of s') i j =
    new_pixel sqb mxb (suspect_bits (image_of s))
      (new_pixel sqa mxa (suspect_bits (image_of s)) (pixel_at (image_of s) i j)).
Proof.
  intros Hd Hdo Hl Hrun Hta Htb Hva Hvb.
  rewrite (run_unfold _ _ Hd), Hdo, Hl in Hrun.
  destruct (amps_fold _ _ _ _) as [[d|e] mi'] eqn:Hf; [|done].
  apply amps_fold_Normal in Hf as ->.
  assert (image_of s' = amps_apply [a; b] (image_of s)) as ->
    by (destruct d; by simplify_eq).
  unfold amps_apply. simpl.
  destruct (amp_apply_fields a (image_of s)) as [Hx Hdict].
  rewrite (amp_apply_inside b _ c1b _ _ _ _ Htb) by (by rewrite (in_view_xy0 _ _ _ _ _ Hx)).
  by rewrite (suspect_bits_dict _ _ Hdict), (amp_apply_inside a _ c1a _ _ _ _ Hta).
Qed.

(** ** Building the task *)

(** [ProportionalLinearizeTask(name=name)] returns whatever the object held:
    the task has the name given, or "correctNonLinearity" when none is, an
    empty log, empty metadata and no sub-task. *)
Lemma linearize_task_constructed name t :
  __init__ name t = (Normal tt, newTask (default _DefaultName name)).
Proof. by destruct name. Qed.

(** The configuration class of the task has no field: it can have no
    sub-task. *)
Lemma linearize_task_no_subtask name t :
  makeSubtask ConfigClass name t = (Raised (KeyError name), t).
Proof. apply makeSubtask_Config. Qed.

(** [run] writes to the log only: the task keeps its name, its sub-tasks
    and its metadata. *)
Lemma run_keeps_task s :
  same_identity (task s) (task (exec_state run s)) /\
  getMetadata (task (exec_state run s)) = getMetadata (task s).
Proof.
  destruct s as [e t]. destruct (run_any_task e) as (o & e' & l & Hrun).
  unfold exec_state. by rewrite Hrun.
Qed.

(** ** The decorated method *)

(** C26: [run] under [@pipeBase.timeMethod] corrects as [run] does: for every
    timer, the decorated method returns or raises what [run] returns or
    raises, leaves the exposure [run] leaves, and the records of level INFO
    in the log are those [run] leaves. The timing records are written on
    every outcome, before and after, and the task keeps its name and its
    sub-tasks. *)
Theorem timed_run_same_correction `{Timer} s :
  exec_result timed_run s = exec_result run s /\
  exposure (exec_state timed_run s) = exposure (exec_state run s) /\
  records_at INFO (getLog (task (exec_state timed_run s))) =
    records_at INFO (getLog (task (exec_state run s))) /\
  same_identity (task s) (task (exec_state timed_run s)).
Proof.
  destruct s as [e t]. destruct (run_any_task e) as (o & e' & l & Hrun).
  unfold timed_run, timeMethod, exec_result, exec_state, bind, finally_, on_task, zoom, modify.
  simpl. rewrite !Hrun. simpl. split; [done|]. split; [done|]. split.
  - rewrite logInfo_INFO. simpl. by rewrite !records_at_app, logInfo_INFO.
  - etrans; [apply (logInfo_keeps_identity ("run" +:+ "Start") t)|].
    etrans; [|apply (logInfo_keeps_identity ("run" +:+ "End"))]. done.
Qed.

End Spec.

(** ** The theorems above at the fixtures *)

Lemma run_mask_bits_witness :
  (N.testbit 4 2 = true -> N.testbit 132 2 = true) /\
  (N.testbit (suspect_bits (image_of Demo.state)) 2 = false ->
   N.testbit 132 2 = N.testbit 4 2) /\
  ((suspect_bits (image_of Demo.state) < 2 ^ mask_bits)%N -> (4 < 2 ^ mask_bits)%N ->
   (132 < 2 ^ mask_bits)%N).
Proof. apply (run_mask_bits Demo.state 2 1 4%N 132%N 2%N); by vm_compute. Defined.

Lemma run_frame_witness :
  pixel_at (image_of (exec_state run Demo.state)) 3 1 = pixel_at (image_of Demo.state) 3 1.
Proof.
  apply (run_frame Demo.state Demo.detector 3 1); [done|]. intros amp Hin.
  apply (forallb_elem_of (fun amp => negb (in_view (image_of Demo.state) (Amp.getBBox amp) 3 1)))
    with (x := amp) in Hin; [by apply negb_true_iff | by vm_compute].
Defined.

Lemma run_returns_witness :
  getArrays (image_of (exec_state run Demo.state)) =
    ([[11 # 10; 24 # 10; 3; 4];
      [35 # 2; 48 # 2; 7; 8]]%Q,
     [[0; 0; 1; 0]; [0; 0; 132; 2]]%N,
     [[1; 2; 3; 4]; [5; 6; 7; 8]]%Q) /\
  getLog (task (exec_state run Demo.state)) = [mkLogRecord INFO (msg_applied Demo.detector)].
Proof.
  unfold exec_state. rewrite (run_returns Demo.state Demo.detector); by vm_compute.
Defined.

Lemma run_returns_iff_witness : is_Normal (exec_result run Demo.state) = true.
Proof. apply (run_returns_iff Demo.state Demo.detector); by vm_compute. Defined.

Lemma run_pixel_witness :
  pixel_at (image_of (exec_state run Demo.state)) 1 1 =
    (Some (48 # 2)%Q, Some 0%N) /\
  pixel_at (image_of (exec_state run Demo.state)) 2 1 = (Some 7%Q, Some 132%N).
Proof.
  split.
  - rewrite (run_pixel Demo.state (exec_state run Demo.state) Demo.detector 2 Demo.A2
               (1 # 2)%Q 0%Q 0%Q 1 1); try by vm_compute.
    by apply amps_disjointb_spec.
  - rewrite (run_pixel Demo.state (exec_state run Demo.state) Demo.detector 3 Demo.A3
               0%Q 0%Q 3%Q 2 1); try by vm_compute.
    by apply amps_disjointb_spec.
Defined.

Lemma run_raises_at_witness :
  exec_result run Demo.state_bad_coeff1 =
    Raised (RuntimeError (msg_coeff1 Demo.detector_bad_coeff1 Demo.A2_bad)) /\
  getImage (image_of (exec_state run Demo.state_bad_coeff1)) =
    [[11 # 10; 24 # 10; 3; 4]; [5; 6; 7; 8]]%Q.
Proof.
  unfold exec_result, exec_state.
  rewrite (run_raises_at Demo.state_bad_coeff1 Demo.detector_bad_coeff1
             [Demo.A0; Demo.A1] Demo.A2_bad [Demo.A3]); by vm_compute.
Defined.

Lemma run_coeff1_never_returns_witness :
  is_Raised (exec_result run Demo.state_bad_coeff1) = true.
Proof.
  apply (run_coeff1_never_returns Demo.state_bad_coeff1 Demo.detector_bad_coeff1
           Demo.A2_bad (1 # 2)%Q 1%Q 0%Q); try by vm_compute.
  apply list_elem_of_In. simpl. auto.
Defined.

Lemma doCorrect_raises_witness :
  doCorrect Demo.detector_first_short = Raised (RuntimeError (msg_need3 2)) /\
  doCorrect Demo.detector_poly =
    Raised (RuntimeError (msg_unsupported Demo.detector_poly
                            (Amp.setLinearityType "POLYNOMIAL" Demo.A0))).
Proof.
  split.
  - apply (proj1 (doCorrect_raises Demo.detector_first_short)); [done | simpl; lia].
  - by apply (proj2 (doCorrect_raises Demo.detector_poly)).
Defined.

Lemma run_not_wanted_witness :
  exposure (exec_state run Demo.state_none) = exposure Demo.state_none /\
  getLog (task (exec_state run Demo.state_none)) =
    [mkLogRecord DEBUG (msg_not_wanted Demo.detector_none)].
Proof.
  unfold exec_state.
  by rewrite (run_not_wanted Demo.state_none Demo.detector_none
                (Amp.setLinearityType "NONE" Demo.A0)
                (Amp.setLinearityType "NONE" <$> [Demo.A1; Demo.A2; Demo.A3])).
Defined.

Lemma run_all_skipped_witness : run Demo.state_noop = (Normal tt, Demo.state_noop).
Proof.
  apply (run_all_skipped Demo.state_noop Demo.detector_noop); [done..|].
  intros amp Hin. exists 0%Q, 0%Q, 0%Q.
  apply list_elem_of_In in Hin. simpl in Hin.
  by destruct Hin as [<-|[<-|[<-|[<-|[]]]]].
Defined.

Lemma run_short_coeffs_witness :
  exec_result run Demo.state_short =
    Raised (ValueError (Msg "need more than %d value%s to unpack" [ArgInt 2; ArgStr "s"])).
Proof.
  unfold exec_result.
  rewrite (run_short_coeffs Demo.state_short Demo.detector_short
             [Demo.A0; Demo.A1] Demo.A2_short [Demo.A3]); try done.
  simpl. lia.
Defined.

Lemma run_overlap_twice_witness :
  pixel_at (image_of (exec_state run Demo.state_two)) 1 0 =
    (Some (1056 # 200)%Q, Some 0%N).
Proof.
  by rewrite (run_overlap_twice Demo.state_two (exec_state run Demo.state_two)
                Demo.detector_two Demo.A0 Demo.A2_over
                (1 # 10)%Q 0%Q 5%Q (1 # 2)%Q 0%Q 0%Q 1 0).
Defined.
