(* ===== verification/LinearizeSteps.v ===== *)
(** * LinearizeSteps: the loop over the amplifiers, one amplifier at a time

    [run] of proportionalLinearize.py loops over the amplifiers of the
    detector (lines 74 to 97) and logs after the loop (lines 99 and 100).
    Here the loop is the transition system of Loop.v with the body
    [run_amp]: a configuration holds the amplifiers still to visit, the flag
    [didCorrect] and the exposure as the amplifiers visited so far left it.

    This gives names to the states between two amplifiers, which the result
    of [run] does not show. The theorems: what holds in every configuration
    the loop passes through ([amp_loop_invariant]), and that every amplifier
    is reached, in the state the earlier amplifiers leave, unless an earlier
    amplifier failed a check ([every_amp_is_reached]). *)

From Stdlib Require Import ZArith NArith QArith Lia.
From stdpp Require Import base tactics option list strings gmap relations.
From S2P Require Import Prelude Loop Numerics Image ImageView.
From S2P Require Import PipeBase Camera Linearize Fixtures LinearizeSpec.

Import ProportionalLinearizeTask.

Section Steps.
Context {C P : Type} `{Numerics C P} `{Detection C P}.
Implicit Types (mi : MaskedImage P) (amp : Amp.t C) (s : State C P).

#[local] Abbreviation Config := (config (State C P) (Amp.t C) bool).

(** [for amp in detector: ...]: one amplifier per step. *)
Definition amp_loop (detector : Detector.t C) : relation Config :=
  loop_step (run_amp detector).

(** The same step, computed. *)
Definition amp_loop_next (detector : Detector.t C) : Config -> option Config :=
  loop_next (run_amp detector).

(** The loop as [run] enters it: every amplifier to visit, [didCorrect]
    false. *)
Definition loop_start (detector : Detector.t C) s : Config :=
  Iter (Detector.amps detector) false s.

Definition state_of_config (c : Config) : State C P :=
  match c with Iter _ _ s | Exit _ s => s end.

(** [didCorrect] is false in the configuration: in a loop in progress or
    in one that ended by exhaustion. *)
Definition unflagged (c : Config) : Prop :=
  match c with
  | Iter _ b _ | Exit (Normal b) _ => b = false
  | Exit (Raised _) _ => False
  end.

(** What holds of a configuration of a loop entered in the state [s]. *)
Definition loop_inv s (c : Config) : Prop :=
  same_layout (image_of s) (image_of (state_of_config c)) /\
  task (state_of_config c) = task s /\
  Exposure.getDetector (exposure (state_of_config c)) = Exposure.getDetector (exposure s) /\
  (unflagged c -> state_of_config c = s).

(** ** One step *)

#[local] Existing Instance same_layout_preorder.

(** The relation and the function that computes it agree. *)
Lemma amp_loop_next_spec detector (c c' : Config) :
  amp_loop detector c c' <-> amp_loop_next detector c = Some c'.
Proof. apply loop_step_next. Qed.

Lemma run_amp_ok detector amp b s :
  amp_ok (image_of s) amp = true ->
  exists sq c1 mx, take 3 (Amp.getLinearityCoeffs amp) = [sq; c1; mx] /\
    run_amp detector amp b s =
      if skips sq mx then (Normal b, s)
      else (Normal true, set_image (amp_apply amp (image_of s)) s).
Proof.
  intros Hok. destruct (amp_step_ok detector amp _ Hok) as (sq & c1 & mx & Ht & Hs).
  exists sq, c1, mx. split; [done|]. rewrite run_amp_step, Hs. by destruct (skips sq mx).
Qed.

Lemma run_amp_not_ok detector amp b s :
  amp_ok (image_of s) amp = false ->
  run_amp detector amp b s = (Raised (amp_error detector (image_of s) amp), s).
Proof. intros Hko. by rewrite run_amp_step, (amp_step_not_ok _ _ _ Hko). Qed.

(** An iteration writes the masked image only, keeps its layout, and
    returns the flag it was given exactly when it wrote nothing. *)
Lemma run_amp_cases detector amp b s :
  exists o mi', run_amp detector amp b s = (o, set_image mi' s) /\
    same_layout (image_of s) mi' /\
    (o = Normal false -> b = false /\ mi' = image_of s).
Proof.
  rewrite run_amp_step.
  destruct (amp_step detector amp (image_of s)) as [[mi'|]|e] eqn:Hs.
  - exists (Normal true), mi'. split; [done|]. split; [|done].
    apply amp_step_apply in Hs. simpl in Hs. subst mi'. apply amp_apply_same_layout.
  - exists (Normal b), (image_of s). rewrite set_image_same.
    split; [done|]. split; [done|]. by intros [= ->].
  - exists (Raised e), (image_of s). rewrite set_image_same. by repeat split.
Qed.

Lemma loop_inv_start detector s : loop_inv s (loop_start detector s).
Proof. by repeat split. Qed.

Lemma loop_inv_step detector s c c' :
  loop_inv s c -> amp_loop detector c c' -> loop_inv s c'.
Proof.
  intros (Hl & Ht & Hd & Hu) Hstep.
  destruct Hstep as [amp l b s0 b' s' Hb|amp l b s0 e s' Hb|b s0]; simpl in *; [| |done].
  - destruct (run_amp_cases detector amp b s0) as (o & mi' & Hr & Hl' & Hf).
    rewrite Hb in Hr. injection Hr as <- ->.
    split; [by etrans; [apply Hl|apply Hl'] | split; [done | split; [done|]]].
    intros ->. destruct (Hf eq_refl) as [-> ->]. rewrite set_image_same. by apply Hu.
  - destruct (run_amp_cases detector amp b s0) as (o & mi' & Hr & Hl' & Hf).
    rewrite Hb in Hr. injection Hr as <- ->.
    split; [by etrans; [apply Hl|apply Hl'] | by split].
Qed.

(** ** Iterations that pass the checks, and the first that does not *)

Lemma for_fold_ok detector l b s :
  forallb (amp_ok (image_of s)) l = true ->
  for_fold (run_amp detector) l b s =
    (Normal (b || any_corrected l), set_image (amps_apply l (image_of s)) s).
Proof. intros Hok. by rewrite run_loop_fold, (amps_fold_ok _ _ _ _ Hok). Qed.

Lemma amp_loop_passes detector l1 l2 b s :
  forallb (amp_ok (image_of s)) l1 = true ->
  nsteps (amp_loop detector) (length l1) (Iter (l1 ++ l2) b s)
    (Iter l2 (b || any_corrected l1) (set_image (amps_apply l1 (image_of s)) s)).
Proof. intros Hok. by apply loop_prefix, for_fold_ok. Qed.

Lemma amp_loop_stops detector l1 amp l2 b s :
  forallb (amp_ok (image_of s)) l1 = true ->
  amp_ok (image_of s) amp = false ->
  nsteps (amp_loop detector) (S (length l1)) (Iter (l1 ++ amp :: l2) b s)
    (Exit (Raised (amp_error detector (image_of s) amp))
          (set_image (amps_apply l1 (image_of s)) s)).
Proof.
  intros Hok Hko. eapply nsteps_r; [by apply amp_loop_passes|].
  apply step_raise. pose proof (amps_apply_same_layout l1 (image_of s)) as Hl.
  rewrite run_amp_not_ok; rewrite image_of_set_image.
  - by rewrite (amp_error_same_layout _ _ _ _ Hl).
  - by rewrite (amp_ok_same_layout _ _ _ Hl).
Qed.

(** ** What one iteration leaves in the array of the amplifier's view *)

Lemma amp_effect_view_array view sq mx bits mi :
  contains (getBBox mi) view = true ->
  view_array (amp_effect view sq mx bits mi) view =
  map (map (new_image sq)) (view_array mi view).
Proof.
  intros Hc. unfold amp_effect, new_image.
  set (mi1 := if c_ltb c_zero mx then _ else mi).
  assert (view_array mi1 view = view_array mi view) as Hv by (by destruct (c_ltb c_zero mx)).
  assert (getBBox mi1 = getBBox mi) as Hb by (by destruct (c_ltb c_zero mx)).
  destruct (c_eqb sq c_zero); simpl.
  - rewrite Hv. symmetry. etrans; [apply (list_fmap_ext _ id) | apply list_fmap_id].
    intros _ row _. apply list_fmap_id.
  - rewrite <- update_view_array_map by (by rewrite Hb).
    unfold update_view_array. rewrite view_array_set by (by rewrite shape_map).
    by rewrite Hv.
Qed.

(** ** Theorems *)

(** C19: every configuration the loop of [run] passes through, whatever the
    amplifiers do, has the layout of the masked image, the log and metadata
    of the task and the detector as they were when the loop was entered;
    and as long as [didCorrect] is false nothing at all has been written. *)
Theorem amp_loop_invariant (detector : Detector.t C) s (c : Config) :
  rtc (amp_loop detector) (loop_start detector s) c -> loop_inv s c.
Proof.
  revert c. apply rtc_ind_r; [apply loop_inv_start|].
  intros c c' _ Hstep IH. by eapply loop_inv_step.
Qed.

(** C25: an iteration of the loop on an amplifier that passes the checks and
    is not skipped returns [True] for [didCorrect] and leaves, in the array
    of the amplifier's view ([ampImage.getImage().getArray()]), the value
    [new_image squareCoeff v] where the array held [v]: the in-place product
    computed from the values read. *)
Theorem run_amp_view_array (detector : Detector.t C) amp sq c1 mx (b : bool) s :
  take 3 (Amp.getLinearityCoeffs amp) = [sq; c1; mx] ->
  amp_ok (image_of s) amp = true ->
  skips sq mx = false ->
  exec_result (run_amp detector amp b) s = Normal true /\
  view_array (image_of (exec_state (run_amp detector amp b) s)) (Amp.getBBox amp) =
    map (map (new_image sq)) (view_array (image_of s) (Amp.getBBox amp)).
Proof.
  intros Ht Hok Hk. unfold exec_result, exec_state.
  destruct (run_amp_ok detector amp b s Hok) as (sq' & c1' & mx' & Ht' & ->).
  rewrite Ht in Ht'. injection Ht' as <- <- <-. rewrite Hk. simpl. split; [done|].
  unfold amp_apply. rewrite Ht, Hk. apply amp_effect_view_array.
  unfold amp_ok in Hok. rewrite Ht, Hk in Hok. simpl in Hok.
  by apply andb_prop in Hok as [_ [Hc _]%andb_prop].
Qed.

(** C9: every amplifier is reached unless an earlier one fails a check. For
    each position [k], either the amplifiers before [k] pass the checks of
    the loop body and after [k] steps the loop is about to visit the
    amplifier at [k], with the masked image as those amplifiers leave it and
    [didCorrect] true exactly when one of them was not skipped; or some
    amplifier before [k] fails a check and the loop has ended at it, with
    the exception of that check and the writes of the amplifiers before
    it. *)
Theorem every_amp_is_reached (detector : Detector.t C) s (k : nat) :
  k <= length (Detector.amps detector) ->
  let amps := Detector.amps detector in
  let mi := image_of s in
  (forallb (amp_ok mi) (take k amps) = true /\
   nsteps (amp_loop detector) k (loop_start detector s)
     (Iter (drop k amps) (any_corrected (take k amps))
        (set_image (amps_apply (take k amps) mi) s))) \/
  (exists j amp, j < k /\ amps !! j = Some amp /\
     forallb (amp_ok mi) (take j amps) = true /\ amp_ok mi amp = false /\
     nsteps (amp_loop detector) (S j) (loop_start detector s)
       (Exit (Raised (amp_error detector mi amp))
          (set_image (amps_apply (take j amps) mi) s))).
Proof.
  intros Hk amps mi. unfold loop_start. fold amps.
  destruct (forallb (amp_ok mi) (take k amps)) eqn:Hall.
  - left. split; [done|].
    pose proof (amp_loop_passes detector (take k amps) (drop k amps) false s Hall) as Hs.
    by rewrite take_drop, length_take_le in Hs.
  - right. apply forallb_false_split in Hall as (l1 & amp & l2 & Heq & H1 & Hko).
    assert (amps = l1 ++ amp :: (l2 ++ drop k amps)) as Hamps.
    { by rewrite <- (take_drop k amps) at 1; rewrite Heq, <- app_assoc. }
    assert (take (length l1) amps = l1) as Htake by (by rewrite Hamps, take_app_length).
    exists (length l1), amp. rewrite Htake. repeat split; try done.
    + apply (f_equal length) in Heq. rewrite length_take, length_app in Heq. simpl in Heq. lia.
    + rewrite Hamps. by apply list_lookup_middle.
    + rewrite Hamps. by apply amp_loop_stops.
Qed.

End Steps.

(** ** The theorems at the fixtures *)

Lemma amp_loop_invariant_witness :
  loop_inv Demo.state
    (Iter [Demo.A3] true
       (set_image (amps_apply [Demo.A0; Demo.A1; Demo.A2] Demo.image) Demo.state)).
Proof.
  apply (amp_loop_invariant Demo.detector). apply (rtc_nsteps_2 3).
  exact (amp_loop_passes Demo.detector [Demo.A0; Demo.A1; Demo.A2] [Demo.A3] false
           Demo.state eq_refl).
Defined.

Lemma every_amp_is_reached_witness :
  exists j amp, j < 4 /\
    Detector.amps Demo.detector_bad_coeff1 !! j = Some amp /\
    amp_ok Demo.image amp = false /\
    nsteps (amp_loop Demo.detector_bad_coeff1) (S j)
      (loop_start Demo.detector_bad_coeff1 Demo.state_bad_coeff1)
      (Exit (Raised (amp_error Demo.detector_bad_coeff1 Demo.image amp))
         (set_image (amps_apply (take j (Detector.amps Demo.detector_bad_coeff1)) Demo.image)
            Demo.state_bad_coeff1)).
Proof.
  destruct (every_amp_is_reached Demo.detector_bad_coeff1 Demo.state_bad_coeff1 4
              ltac:(simpl; lia)) as [[Hall _]|(j & amp & Hj & Hamp & _ & Hko & Hsteps)].
  - by vm_compute in Hall.
  - by exists j, amp.
Defined.

Lemma run_amp_view_array_witness :
  view_array (image_of (exec_state (run_amp Demo.detector Demo.A0 false) Demo.state))
    (Amp.getBBox Demo.A0) = [[11 # 10; 24 # 10]]%Q.
Proof.
  rewrite (proj2 (run_amp_view_array Demo.detector Demo.A0 (1 # 10)%Q 0%Q 5%Q false
                    Demo.state eq_refl ltac:(by vm_compute) eq_refl)).
  by vm_compute.
Defined.
