(* ===== verification/LinearizeTest.v ===== *)
(** * LinearizeTest: the unit test of the linearity task

    src/tests/testProportionalLinearityTask.py builds a detector of four
    amplifiers arranged 2 by 2 that cover the image ([makeSimpleDetector]), a
    blank exposure over it ([setUp]), and checks two runs:
    [testBasicCorrection] fills the image with a ramp, gives every amplifier
    the type PROPORTIONAL with coefficients [(squareCoeff, 0, suspectValue)]
    and compares the planes after [run] with arrays computed by NumPy;
    [testNoCorrection] gives every amplifier the type NONE and compares with
    a copy of the planes.

    Here the fixture is built the same way, for any amplifier dimensions and
    any values in the image, and the theorems say that the comparison holds
    exactly: the test passes on every input of that form, not only on the
    ramp over 1000 by 600 pixels. The arrays the test expects are computed
    by NumPy ([desImArr], [desMaskArr] with [array_gt]), the planes by the
    task and [Threshold]: [testBasicCorrection_passes] assumes that the two
    comparisons agree on the values of the image, which holds of the
    test's threshold, and [testBasicCorrection_fails] is a threshold for
    which they do not. The amplifiers that [DetectorWrapper] creates are
    outside src/ and are a parameter. *)

From Stdlib Require Import ZArith NArith QArith Lia SpecFloat.
From stdpp Require Import base tactics option list strings gmap.
From S2P Require Import Prelude Numerics Image PipeBase Camera Linearize Fixtures LinearizeSpec.

Import ProportionalLinearizeTask.

(** ** The constants of the test *)

(** [np.linspace(start, stop, num)] at exact rationals. *)
Definition linspace (start stop : Q) (num : nat) : list Q :=
  (fun k => start + inject_Z (Z.of_nat k) * ((stop - start) / inject_Z (Z.of_nat (num - 1))))%Q
    <$> seq 0 num.

(** Four amplifiers as a wrapper might create them. *)
Definition wrapped_amps {C} : list (Amp.t C) :=
  (fun name => Amp.mk name (mkBox2I 0 0 0 0) "NONE" []) <$> ["amp 1"; "amp 2"; "amp 3"; "amp 4"].

(** The test's constants: [suspectValue = 50000], [squareCoeff = 1e-5], at
    exact rationals and as binary64 numbers. *)
Definition suspectValue_Q : Q := 50000.

Definition squareCoeff_Q : Q := 1 # 100000.

Definition suspectValue_b64 : binary64 := b64_of_Z 50000.

Definition squareCoeff_b64 : binary64 :=
  SFdiv prec64 emax64 (b64_of_Z 1) (b64_of_Z 100000).

(** The ramp of the test over a 2 by 2 image, as binary32 numbers. *)
Definition ramp_b32 : list binary32 := b32_of_Z <$> [0; 17000; 34000; 51000]%Z.

Section Test.
Context {C P : Type} `{Numerics C P} `{Detection C P}.

(** [DetectorWrapper(bbox=expBBox, numAmps=4).detector]: a detector over
    [bbox] with the amplifiers [amps0] the wrapper creates. *)
Definition DetectorWrapper (amps0 : list (Amp.t C)) (bbox : Box2I) : Detector.t C :=
  Detector.mk 1 bbox amps0.

(** The corner of amplifier [i] in [makeSimpleDetector]. *)
Definition ampMin (ampDim : Z * Z) (i : nat) : Z * Z :=
  (if bool_decide (i = 1 \/ i = 3)%nat then ampDim.1 else 0%Z,
   if bool_decide (i = 2 \/ i = 3)%nat then ampDim.2 else 0%Z).

(** [makeSimpleDetector], for amplifiers of dimensions [ampDim]; the test
    has [ampDim = (500, 300)]. *)
Definition makeSimpleDetector (ampDim : Z * Z) (amps0 : list (Amp.t C)) : Detector.t C :=
  let expBBox := mkBox2I 0 0 (ampDim.1 * 2) (ampDim.2 * 2) in
  let detector := DetectorWrapper amps0 expBBox in
  Detector.mk (Detector.getId detector) (Detector.getBBox detector)
    (imap (fun i amp =>
             Amp.setBBox (mkBox2I (ampMin ampDim i).1 (ampMin ampDim i).2 ampDim.1 ampDim.2)
               amp)
       (Detector.amps detector)).

(** [setUp]: a blank exposure over the detector's box, holding the
    detector. *)
Definition setUp (zero : P) (detector : Detector.t C) : Exposure.t C P :=
  Exposure.setDetector detector
    (Exposure.mk (blankMaskedImage zero (Detector.getBBox detector)) None).

(** [for amp in detector: f(amp)] on the detector the exposure holds. *)
Definition for_each_amp (f : Amp.t C -> Amp.t C) (e : Exposure.t C P) : Exposure.t C P :=
  match Exposure.getDetector e with
  | Some d =>
      Exposure.setDetector
        (Detector.mk (Detector.getId d) (Detector.getBBox d) (f <$> Detector.amps d)) e
  | None => e
  end.

(** [a.flat[:] = values]: the values fill the rows in order. *)
Fixpoint set_flat {A} (values : list A) (a : array2 A) : array2 A :=
  match a with
  | [] => []
  | row :: rest =>
      take (length row) values :: set_flat (drop (length row) values) rest
  end.

(** The three assignments of [testBasicCorrection] to the planes: the image
    takes [values], the mask is cleared, the variance takes the image. *)
Definition fill (values : list P) (e : Exposure.t C P) : Exposure.t C P :=
  let mi := Exposure.getMaskedImage e in
  let imArr := set_flat values (getImage mi) in
  Exposure.withMaskedImage
    (mkMaskedImage (getXY0 mi) imArr (map (map (fun _ => 0%N)) (getMask mi)) imArr
       (getMaskPlaneDict mi)) e.

(** [desImArr = imArr*(1.0 + squareCoeff*imArr)], by the arithmetic of
    NumPy on a float32 array and a Python float. With a coefficient that
    does not fit float32 NumPy's array is float64; the array here is its
    conversion to float32, which the comparison of the test, made within a
    relative tolerance, does not tell from it. *)
Definition desImArr (squareCoeff : C) (imArr : array2 P) : array2 P :=
  map (map (fun v =>
    if fits squareCoeff then p_mul v (p_add p_one (p_mul (to_pixel squareCoeff) v))
    else to_pixel (c_mul (to_coeff v) (c_add c_one (c_mul squareCoeff (to_coeff v))))))
    imArr.

(** [desMaskArr = np.where(imArr > suspectValue, suspectMaskValue, 0)], the
    comparison being NumPy's of a float32 array with a Python number: the
    test's [suspectValue] is an integer, which NumPy converts to float32
    as it does a float that fits. *)
Definition desMaskArr (suspectValue : C) (suspectMaskValue : N) (imArr : array2 P)
  : array2 N :=
  map (map (fun v => if array_gt v suspectValue then suspectMaskValue else 0%N)) imArr.

(** The exposure [testBasicCorrection] runs the task on. *)
Definition basic_exposure (ampDim : Z * Z) (amps0 : list (Amp.t C)) (zero : P)
    (values : list P) (squareCoeff suspectValue : C) : Exposure.t C P :=
  for_each_amp
    (fun amp => Amp.setLinearityCoeffs [squareCoeff; c_zero; suspectValue]
                  (Amp.setLinearityType "PROPORTIONAL" amp))
    (fill values (setUp zero (makeSimpleDetector ampDim amps0))).

(** The exposure [testNoCorrection] runs the task on, for any content of
    the planes. *)
Definition none_exposure (ampDim : Z * Z) (amps0 : list (Amp.t C)) (zero : P)
    (mi : MaskedImage P) : Exposure.t C P :=
  for_each_amp (Amp.setLinearityType "NONE")
    (Exposure.withMaskedImage mi (setUp zero (makeSimpleDetector ampDim amps0))).

(** The detector [testBasicCorrection] leaves in the exposure. *)
Definition basic_detector (ampDim : Z * Z) (amps0 : list (Amp.t C))
    (squareCoeff suspectValue : C) : Detector.t C :=
  let d := makeSimpleDetector ampDim amps0 in
  Detector.mk (Detector.getId d) (Detector.getBBox d)
    ((fun amp => Amp.setLinearityCoeffs [squareCoeff; c_zero; suspectValue]
                   (Amp.setLinearityType "PROPORTIONAL" amp)) <$> Detector.amps d).

(** ** The fixture *)

Lemma set_flat_shape {A} (values : list A) (a : array2 A) :
  sum_list (shape a) <= length values -> shape (set_flat values a) = shape a.
Proof.
  revert values. induction a as [|row rest IH]; intros values Hlen; simpl in *; [done|].
  rewrite length_take. rewrite IH; [f_equal; lia|]. rewrite length_drop. lia.
Qed.

(** Every element of the filled array is one of the values. *)
Lemma set_flat_elem {A} (values : list A) (a : array2 A) (i j : nat) (v : A) :
  array2_get (set_flat values a) i j = Some v -> v ∈ values.
Proof.
  unfold array2_get. revert values j.
  induction a as [|row rest IH]; intros values [|j]; simpl; try done.
  - intros [Hv _]%lookup_take_Some. by eapply list_elem_of_lookup_2.
  - intros Hv%IH. by eapply subseteq_drop.
Qed.

Lemma shape_const {A} (w h : nat) (v : A) : shape (array2_const w h v) = replicate h w.
Proof.
  unfold shape, array2_const. rewrite fmap_replicate. by rewrite length_replicate.
Qed.

Lemma sum_list_replicate (h w : nat) : sum_list (replicate h w) = h * w.
Proof. induction h as [|h IH]; simpl; lia. Qed.

Lemma array2_get_replicate_shape {A} (a : array2 A) (w h i j : nat) :
  shape a = replicate h w ->
  is_Some (array2_get a i j) <-> (i < w /\ j < h)%nat.
Proof.
  intros Hs. unfold array2_get.
  assert (length <$> a !! j = replicate h w !! j) as Hj
    by (rewrite <- Hs; unfold shape; by rewrite list_lookup_fmap).
  destruct (a !! j) as [row|]; simpl in *.
  - symmetry in Hj. apply lookup_replicate in Hj as [Hw Hh].
    rewrite lookup_lt_is_Some, Hw. tauto.
  - symmetry in Hj. apply lookup_replicate_None in Hj.
    split; [by intros [] | lia].
Qed.

Lemma wf_of_shape (mi : MaskedImage P) (w h : nat) :
  shape (getImage mi) = replicate h w -> shape (getMask mi) = replicate h w ->
  shape (getVariance mi) = replicate h w -> wf_MaskedImage mi.
Proof.
  intros Hi Hm Hv. unfold wf_MaskedImage. rewrite rows_shape, array2_width_shape, Hi, Hm, Hv.
  repeat split. destruct h; simpl; [done|]. constructor; [done|].
  apply Forall_forall. by intros n [-> _]%elem_of_replicate.
Qed.

Lemma getBBox_of_shape (mi : MaskedImage P) (w h : nat) :
  shape (getImage mi) = replicate h w -> (0 < h)%nat ->
  getBBox mi = mkBox2I (getXY0 mi).1 (getXY0 mi).2 (Z.of_nat w) (Z.of_nat h).
Proof.
  intros Hi Hh. unfold getBBox. rewrite array2_width_shape, array2_height_shape, Hi.
  rewrite length_replicate. by destruct h; [lia|].
Qed.

(** *** [testBasicCorrection] *)

Section Basic.
Context (w h : nat) (amps0 : list (Amp.t C)) (zero : P) (values : list P) (sq t : C).
Context (Hw : (0 < w)%nat) (Hh : (0 < h)%nat) (Hamps : length amps0 = 4%nat).
Context (Hvalues : length values = (2 * w * (2 * h))%nat).
Context (Hzero : c_eqb c_zero c_zero = true) (Hsq : c_eqb sq c_zero = false).
Context (Ht : c_ltb c_zero t = true).
Context (Hgt : Forall (fun v => array_gt v t = detects t v) values).

#[local] Abbreviation e := (basic_exposure (Z.of_nat w, Z.of_nat h) amps0 zero values sq t).
#[local] Abbreviation mi := (Exposure.getMaskedImage e).
#[local] Abbreviation imArr := (getImage mi).

Lemma basic_shapes :
  shape imArr = replicate (2 * h) (2 * w) /\
  shape (getMask mi) = replicate (2 * h) (2 * w) /\
  getVariance mi = imArr /\ getXY0 mi = (0, 0)%Z /\
  getMaskPlaneDict mi = defaultMaskPlaneDict.
Proof.
  unfold basic_exposure, for_each_amp, fill, setUp, blankMaskedImage. simpl.
  replace (Z.to_nat (Z.of_nat w * 2)) with (2 * w)%nat by lia.
  replace (Z.to_nat (Z.of_nat h * 2)) with (2 * h)%nat by lia.
  rewrite shape_map, set_flat_shape, !shape_const; [done|].
  rewrite shape_const, sum_list_replicate. lia.
Qed.

Lemma basic_wf : wf_MaskedImage mi.
Proof.
  destruct basic_shapes as (Hi & Hm & Hv & _).
  apply (wf_of_shape _ (2 * w) (2 * h)); [done | done | by rewrite Hv].
Qed.

Lemma basic_mask i j :
  array2_get (getMask mi) i j = (fun _ => 0%N) <$> array2_get imArr i j.
Proof.
  destruct basic_shapes as (Hi & Hm & _).
  destruct (array2_get imArr i j) as [v|] eqn:Hv,
    (array2_get (getMask mi) i j) as [m|] eqn:Hm'; try done.
  - revert Hm'. unfold basic_exposure, for_each_amp, fill. simpl. rewrite array2_get_map.
    destruct (array2_get (array2_const _ _ _) i j); simpl; [by intros [= <-] | done].
  - apply (array2_get_None_shape _ imArr) in Hm'; congruence.
  - apply (array2_get_None_shape _ (getMask mi)) in Hv; congruence.
Qed.

#[local] Abbreviation detector := (basic_detector (Z.of_nat w, Z.of_nat h) amps0 sq t).

Lemma basic_getDetector : Exposure.getDetector e = Some detector.
Proof. done. Qed.

Lemma basic_coeffs :
  Forall (fun amp => take 3 (Amp.getLinearityCoeffs amp) = [sq; c_zero; t])
    (Detector.amps detector).
Proof. unfold basic_detector. simpl. rewrite Forall_fmap. by apply Forall_true. Qed.

(** The four boxes lie apart. *)
Lemma basic_disjoint : amps_disjoint (Detector.amps detector).
Proof.
  destruct amps0 as [|a0 [|a1 [|a2 [|a3 [|]]]]]; try done.
  apply amps_disjointb_spec. simpl. rewrite !andb_true_r, !andb_true_iff, !negb_true_iff.
  repeat split; apply not_true_is_false; intros Hov; box_unfold; simpl in *; lia.
Qed.

(** Every pixel of the image lies in one of the four boxes. *)
Lemma basic_cover i j :
  is_Some (array2_get imArr i j) ->
  exists amp, amp ∈ Detector.amps detector /\ in_view mi (Amp.getBBox amp) i j = true.
Proof.
  destruct basic_shapes as (Hi & _ & _ & Hxy & _).
  intros [Hlt_i Hlt_j]%(array2_get_replicate_shape _ _ _ _ _ Hi).
  unfold in_view. rewrite Hxy. simpl.
  destruct amps0 as [|a0 [|a1 [|a2 [|a3 [|]]]]]; try done. simpl.
  destruct (decide (i < w)%nat), (decide (j < h)%nat);
    eexists; (split; [| apply containsPoint_spec; unfold getMaxX, getMaxY]);
    [ left | | right; right; left | | right; left | | right; right; right; left | ];
    simpl; lia.
Qed.

Lemma basic_amp_ok : forallb (amp_ok mi) (Detector.amps detector) = true.
Proof.
  destruct basic_shapes as (Hi & _ & _ & Hxy & Hd).
  apply forallb_forall. intros amp Hin%list_elem_of_In.
  pose proof (proj1 (Forall_forall _ _) basic_coeffs amp Hin) as Hc.
  unfold amp_ok, skips. rewrite Hc, Hzero, Hsq, Ht, andb_false_r, Hd.
  assert (bool_decide (is_Some (defaultMaskPlaneDict !! "SUSPECT")) = true) as ->
    by (by vm_compute).
  cbn [andb orb negb]. rewrite andb_true_r.
  rewrite (getBBox_of_shape _ _ _ Hi), Hxy by lia.
  destruct amps0 as [|a0 [|a1 [|a2 [|a3 [|]]]]]; try done.
  simpl in Hin. unfold contains, isEmpty, getMaxX, getMaxY.
  apply orb_true_iff. right. rewrite !andb_true_iff, !Z.leb_le.
  decompose_list_elem_of; subst amp; simpl; lia.
Qed.

Lemma basic_doCorrect : doCorrect detector = Normal true.
Proof. by destruct amps0 as [|a0 [|a1 [|a2 [|a3 [|]]]]]. Qed.

(** What [run] leaves: it returns, with the planes the amplifiers leave. *)
Lemma basic_run :
  let s := mkState e init in
  exec_result run s = Normal tt /\
  image_of (exec_state run s) = amps_apply (Detector.amps detector) mi.
Proof.
  intros s. unfold exec_result, exec_state.
  rewrite (run_unfold s detector basic_getDetector), basic_doCorrect.
  rewrite (amps_fold_ok _ _ _ _ basic_amp_ok).
  by destruct (false || any_corrected _).
Qed.

Lemma basic_new_image : map (map (new_image sq)) imArr = desImArr sq imArr.
Proof.
  unfold desImArr. apply map_ext. intros row. apply map_ext. intros v.
  unfold new_image. by rewrite Hsq.
Qed.

(** On the values of the image NumPy's comparison is the detection. *)
Lemma basic_gt i j v : array2_get imArr i j = Some v -> array_gt v t = detects t v.
Proof.
  unfold basic_exposure, for_each_amp, fill. simpl. intros Hv%set_flat_elem.
  by apply (proj1 (Forall_forall _ _) Hgt).
Qed.

Lemma basic_new_mask :
  array2_imap (fun i j m =>
    match array2_get imArr i j with
    | Some v => new_mask sq t (suspect_bits mi) v m
    | None => m
    end) (getMask mi) = desMaskArr t 128 imArr.
Proof.
  destruct basic_shapes as (Hi & Hm & _ & _ & Hd).
  assert (suspect_bits mi = 128%N) as -> by (unfold suspect_bits, getPlaneBitMask; by rewrite Hd).
  unfold desMaskArr. apply array2_eq; [by rewrite shape_imap, shape_map, Hi, Hm|].
  intros i j. rewrite array2_get_imap, array2_get_map, basic_mask.
  destruct (array2_get imArr i j) as [v|] eqn:Hv; [simpl|done].
  unfold new_mask, skips. rewrite Hsq, Ht, andb_false_r. simpl.
  rewrite (basic_gt i j v Hv). by destruct (detects t v).
Qed.

(** C17: [testBasicCorrection] passes for every size of the amplifiers and
    every content of the image. On the exposure the test builds, with four
    amplifiers of [w] by [h] pixels arranged 2 by 2, an image filled with
    any [4*w*h] values, a cleared mask, a variance equal to the image, and
    every amplifier PROPORTIONAL with coefficients [(sq, 0, t)] where [sq] is
    not zero and [t] is positive, [run] returns and the planes are exactly
    the arrays the test computes with NumPy: [imArr*(1 + sq*imArr)], the
    SUSPECT bit (128) where [imArr > t] and 0 elsewhere, and the variance
    as it was, provided that on the values of the image NumPy's comparison
    with [t] agrees with the one [Threshold] makes. It does at exact
    numbers, and at IEEE numbers when [t] is a binary32 number as the
    test's 50000 is; for other thresholds it can fail
    ([testBasicCorrection_fails]). *)
Theorem testBasicCorrection_passes :
  let s := mkState e init in
  exec_result run s = Normal tt /\
  getArrays (image_of (exec_state run s)) =
    (desImArr sq imArr, desMaskArr t 128 imArr, imArr).
Proof.
  intros s. destruct basic_run as [Hr Hi]. split; [done|]. fold s in Hi. rewrite Hi.
  rewrite (amps_apply_cover _ sq c_zero t mi basic_wf basic_disjoint basic_coeffs basic_cover).
  destruct basic_shapes as (_ & _ & Hv & _).
  by rewrite basic_new_image, basic_new_mask, Hv.
Qed.

End Basic.

(** C36: [testNoCorrection] passes for every size of the amplifiers and
    every content of the planes: on the exposure the test builds, with the
    four amplifiers the wrapper creates set to the type NONE, whatever
    their coefficients, [run] returns and the masked image is the one it
    was given, so the comparison with the deep copy holds with zero
    tolerance. *)
Theorem testNoCorrection_passes (ampDim : Z * Z) (amps0 : list (Amp.t C)) (zero : P)
    (mi : MaskedImage P) :
  length amps0 = 4%nat ->
  let s := mkState (none_exposure ampDim amps0 zero mi) init in
  exec_result run s = Normal tt /\ image_of (exec_state run s) = mi.
Proof.
  intros Hamps s. by destruct amps0 as [|a0 [|a1 [|a2 [|a3 [|]]]]].
Qed.

End Test.

(** ** The tests at exact rationals *)

Lemma testBasicCorrection_passes_witness :
  let s := mkState (basic_exposure (1, 1)%Z wrapped_amps 0%Q
                      (linspace 0 (suspectValue_Q + 1000) 4) squareCoeff_Q suspectValue_Q)
             init in
  let s32 := mkState (basic_exposure (1, 1)%Z wrapped_amps (S754_zero false)
                        ramp_b32 squareCoeff_b64 suspectValue_b64) init in
  (exec_result run s = Normal tt /\
   getMask (image_of (exec_state run s)) = [[0; 0]; [0; 128]]%N) /\
  getArrays (image_of (exec_state run s32)) =
    ([[S754_zero false; S754_finite false 10183680 (-9)];
      [S754_finite false 11663360 (-8); S754_finite false 9857280 (-7)]],
     [[0; 0]; [0; 128]]%N,
     [[b32_of_Z 0; b32_of_Z 17000]; [b32_of_Z 34000; b32_of_Z 51000]]).
Proof.
  intros s s32.
  pose proof (testBasicCorrection_passes 1 1 wrapped_amps 0%Q
                (linspace 0 (suspectValue_Q + 1000) 4) squareCoeff_Q suspectValue_Q
                ltac:(lia) ltac:(lia) eq_refl eq_refl eq_refl eq_refl eq_refl
                ltac:(by apply Forall_true)) as [Hr Ha].
  pose proof (testBasicCorrection_passes (C := binary64) (P := binary32) 1 1 wrapped_amps
                (S754_zero false) ramp_b32 squareCoeff_b64 suspectValue_b64
                ltac:(lia) ltac:(lia) eq_refl eq_refl eq_refl eq_refl eq_refl
                ltac:(by repeat constructor)) as [_ Hb].
  split; [split; [exact Hr|] | etrans; [exact Hb | by vm_compute]].
  apply (f_equal (fun a => a.1.2)) in Ha. simpl in Ha.
  etrans; [exact Ha | by vm_compute].
Defined.

(** With a threshold that is not a binary32 number the comparison of the
    test can fail: with the threshold [0.1] and a pixel holding the
    binary32 number nearest to [0.1], which is above it, the task sets the
    SUSPECT bit and the array the test computes has none, because NumPy
    rounds the threshold to binary32 before it compares. *)
Lemma testBasicCorrection_fails :
  let t := SFdiv prec64 emax64 (b64_of_Z 1) (b64_of_Z 10) in
  let values := [b64_to_b32 t; S754_zero false; S754_zero false; S754_zero false] in
  let e := basic_exposure (1, 1)%Z wrapped_amps (S754_zero false) values squareCoeff_b64 t in
  let s := mkState e init in
  exec_result run s = Normal tt /\
  getMask (image_of (exec_state run s)) = [[128; 0]; [0; 0]]%N /\
  desMaskArr t 128 (getImage (Exposure.getMaskedImage e)) = [[0; 0]; [0; 0]]%N.
Proof. by vm_compute. Qed.

Lemma testNoCorrection_passes_witness :
  let s := mkState (none_exposure (500, 300)%Z wrapped_amps 0%Q Fixtures.Demo.image) init in
  exec_result run s = Normal tt /\ image_of (exec_state run s) = Fixtures.Demo.image.
Proof.
  by apply (testNoCorrection_passes (500, 300)%Z wrapped_amps 0%Q Fixtures.Demo.image).
Defined.
