(* ===== verification/LinearizeNumerics.v ===== *)
(** * LinearizeNumerics: the correction at exact rationals and at IEEE numbers

    The theorems of LinearizeSpec hold for every interpretation of the
    arithmetic. This file reads them at the two instances of Numerics: at
    exact rationals the value the task leaves is the polynomial of the
    task's documentation; at IEEE 754 numbers a NaN among the coefficients
    passes the checks of the loop body, which compare with [!=], [<=] and
    [>], and the task then writes NaN over the amplifier or reports a
    correction it did not make. *)

From Stdlib Require Import ZArith NArith QArith Lia SpecFloat.
From stdpp Require Import base tactics option list strings gmap.
From S2P Require Import Prelude Numerics Ieee Image PipeBase.
From S2P Require Import Camera Linearize Fixtures LinearizeSpec.

Import ProportionalLinearizeTask.

(** ** Inputs at IEEE numbers *)

Module IeeeDemo.

Definition image : MaskedImage binary32 :=
  mkMaskedImage (0%Z, 0%Z)
    [[b32_of_Z 1; b32_of_Z 2]; [b32_of_Z 3; b32_of_Z 4]]
    [[0; 0]; [0; 0]]%N
    [[b32_of_Z 1; b32_of_Z 2]; [b32_of_Z 3; b32_of_Z 4]]
    defaultMaskPlaneDict.

(** A detector of one amplifier over the whole image. *)
Definition detector (coeffs : list binary64) : Detector.t binary64 :=
  Detector.mk 1 (mkBox2I 0 0 2 2) [Amp.mk "A" (mkBox2I 0 0 2 2) "PROPORTIONAL" coeffs].

Definition state (coeffs : list binary64) : State binary64 binary32 :=
  mkState (Exposure.mk image (Some (detector coeffs))) init.

Definition zero : binary64 := S754_zero false.

(** A NaN square coefficient, and a NaN threshold. *)
Definition nan_square : State binary64 binary32 := state [S754_nan; zero; zero].

Definition nan_threshold : State binary64 binary32 := state [zero; zero; S754_nan].

End IeeeDemo.

(** ** An amplifier that is not skipped and writes nothing *)

Section NoEffect.
Context {C P : Type} `{Numerics C P} `{Detection C P}.

Lemma amp_effect_none view (sq mx : C) bits (mi : MaskedImage P) :
  c_ltb c_zero mx = false -> c_eqb sq c_zero = true ->
  amp_effect view sq mx bits mi = mi.
Proof. intros Hf Hs. unfold amp_effect. by rewrite Hf, Hs. Qed.

Lemma amp_apply_none (amp : Amp.t C) sq c1 mx (mi : MaskedImage P) :
  take 3 (Amp.getLinearityCoeffs amp) = [sq; c1; mx] ->
  c_ltb c_zero mx = false -> c_eqb sq c_zero = true ->
  amp_apply amp mi = mi.
Proof.
  intros Ht Hf Hs. unfold amp_apply. rewrite Ht.
  destruct (skips sq mx); [done | by apply amp_effect_none].
Qed.

End NoEffect.

(** ** Under a total order *)

Section Total.
Context {C P : Type} `{TotalOrder C P} `{!Detection C P}.

(** An amplifier that is not skipped flags or multiplies. *)
Lemma not_skipped_acts (sq mx : C) :
  skips sq mx = false -> c_ltb c_zero mx = true \/ c_eqb sq c_zero = false.
Proof.
  unfold skips. rewrite c_leb_ltb. intros [Hm|Hs]%andb_false_iff; [left|by right].
  by apply negb_false_iff.
Qed.

(** Under a total order the log is honest. When the comparisons on
    coefficients form a total order, as they do on numbers that are not NaN,
    and the flag [didCorrect] ends set, some amplifier has a positive
    threshold or a non-zero square coefficient: the record "Applied
    linearity corrections" is logged only after an amplifier was flagged or
    multiplied. *)
Theorem total_order_honest_log (l : list (Amp.t C)) :
  any_corrected l = true ->
  exists amp sq c1 mx,
    amp ∈ l /\ take 3 (Amp.getLinearityCoeffs amp) = [sq; c1; mx] /\
    (c_ltb c_zero mx = true \/ c_eqb sq c_zero = false).
Proof.
  unfold any_corrected. intros (amp & Hin%list_elem_of_In & Ha)%existsb_exists.
  destruct (take 3 _) as [|sq [|c1 [|mx [|]]]] eqn:Ht; try done.
  exists amp, sq, c1, mx. split; [done|]. split; [done|].
  by apply not_skipped_acts, negb_true_iff.
Qed.

End Total.

(** ** Exact rationals *)

(** C22: at exact rationals the task computes the polynomial of its
    documentation: in a run that returns over amplifiers whose boxes do not
    overlap, a pixel that held [v] in the box of an amplifier with square
    coefficient [sq] holds a value equal to [v + sq * v^2]. *)
Theorem run_pixel_polynomial (s s' : State Q Q) detector k amp (sq c1 mx : Q) i j (v : Q) :
  Exposure.getDetector (exposure s) = Some detector ->
  doCorrect detector = Normal true ->
  run s = (Normal tt, s') ->
  amps_disjoint (Detector.amps detector) ->
  Detector.amps detector !! k = Some amp ->
  take 3 (Amp.getLinearityCoeffs amp) = [sq; c1; mx] ->
  in_view (image_of s) (Amp.getBBox amp) i j = true ->
  array2_get (getImage (image_of s)) i j = Some v ->
  exists v', array2_get (getImage (image_of s')) i j = Some v' /\
             (v' == v + sq * v ^ 2)%Q.
Proof.
  intros Hd Hdo Hrun Hdis Hk Ht Hv Hget.
  pose proof (amps_apply_pixel _ _ _ _ _ _ (image_of s) _ _ Hdis Hk Ht Hv) as Hp.
  rewrite <- (run_returns_image _ _ _ Hd Hdo Hrun) in Hp.
  apply (f_equal fst) in Hp. unfold pixel_at, new_pixel in Hp. simpl in Hp.
  rewrite Hget in Hp. eexists. split; [exact Hp|].
  unfold new_image. simpl. destruct (Qeq_bool sq 0) eqn:Hs; [|ring].
  apply Qeq_bool_eq in Hs. rewrite Hs. ring.
Qed.

(** ** IEEE 754 numbers *)

(** An amplifier with a NaN square coefficient is not skipped, and the
    check of lines 81 to 83 would not refuse it if it were reached. *)
Lemma ieee_nan_square_not_refused (mx : binary64) :
  skips (S754_nan : binary64) mx = false /\
  not_finite (S754_nan : binary64) mx = false.
Proof. split; [unfold skips; simpl; by rewrite andb_false_r | done]. Qed.

(** C23: a NaN square coefficient is not refused. At IEEE numbers, in a run
    that returns, every pixel in the box of an amplifier whose square
    coefficient is NaN holds NaN afterwards, whatever it held: the check
    [squareCoeff != 0.0] is true of NaN, and no check rejects it: the
    check of the coefficients for NaN stands behind the [raise] for the
    second coefficient and compares a tuple with itself
    ([ieee_nan_square_not_refused]). *)
Theorem ieee_nan_square_poisons (s s' : State binary64 binary32) detector k amp
    (c1 mx : binary64) i j (v : binary32) :
  Exposure.getDetector (exposure s) = Some detector ->
  doCorrect detector = Normal true ->
  run s = (Normal tt, s') ->
  amps_disjoint (Detector.amps detector) ->
  Detector.amps detector !! k = Some amp ->
  take 3 (Amp.getLinearityCoeffs amp) = [S754_nan : binary64; c1; mx] ->
  in_view (image_of s) (Amp.getBBox amp) i j = true ->
  array2_get (getImage (image_of s)) i j = Some v ->
  array2_get (getImage (image_of s')) i j = Some (S754_nan : binary32).
Proof.
  intros Hd Hdo Hrun Hdis Hk Ht Hv Hget.
  pose proof (amps_apply_pixel _ _ _ _ _ _ (image_of s) _ _ Hdis Hk Ht Hv) as Hp.
  rewrite <- (run_returns_image _ _ _ Hd Hdo Hrun) in Hp.
  apply (f_equal fst) in Hp. unfold pixel_at, new_pixel in Hp. simpl in Hp.
  rewrite Hp, Hget. simpl. f_equal. unfold new_image. simpl.
  by rewrite SFmul_nan_r.
Qed.

(** C37: a NaN threshold makes the task report a correction it did not make.
    At IEEE numbers, when every amplifier has a zero square coefficient, a
    zero second coefficient and a NaN threshold, and its box lies in the
    image, [run] returns, leaves the exposure as it was, and logs "Applied
    linearity corrections": [maxUncorr <= 0] is false of NaN, so no
    amplifier is skipped, and [maxUncorr > 0] is false too, so none flags. *)
Theorem ieee_nan_threshold_logs (s : State binary64 binary32) detector :
  Exposure.getDetector (exposure s) = Some detector ->
  doCorrect detector = Normal true ->
  Forall (fun amp => exists sq c1 : binary64,
            take 3 (Amp.getLinearityCoeffs amp) = [sq; c1; S754_nan : binary64] /\
            c_eqb sq c_zero = true /\ c_eqb c1 c_zero = true /\
            contains (getBBox (image_of s)) (Amp.getBBox amp) = true)
    (Detector.amps detector) ->
  run s =
    (Normal tt,
     mkState (exposure s) (exec_state (log INFO (msg_applied detector)) (task s))).
Proof.
  intros Hd Hdo Hall.
  assert (Detector.amps detector <> []) as Hne
    by (intros He; unfold doCorrect in Hdo; by rewrite getitem_0, He in Hdo).
  assert (forallb (amp_ok (image_of s)) (Detector.amps detector) = true) as Hok.
  { apply forallb_forall. intros amp Hin%list_elem_of_In.
    destruct (proj1 (Forall_forall _ _) Hall amp Hin) as (sq & c1 & Ht & Hs & Hc & Hb).
    unfold amp_ok. by rewrite Ht, Hc, Hb, orb_true_r. }
  assert (any_corrected (Detector.amps detector) = true) as Hany.
  { destruct (Detector.amps detector) as [|amp l]; [done|].
    apply Forall_cons in Hall as [(sq & c1 & Ht & _) _]. simpl. by rewrite Ht. }
  assert (amps_apply (Detector.amps detector) (image_of s) = image_of s) as Hid.
  { apply (foldl_unchanged (fun b => b)). intros b amp Hin.
    destruct (proj1 (Forall_forall _ _) Hall amp Hin) as (sq & c1 & Ht & Hs & _).
    by apply (amp_apply_none amp sq c1 S754_nan). }
  rewrite (run_unfold _ _ Hd), Hdo, (amps_fold_ok _ _ _ _ Hok), Hany, Hid. simpl.
  by destruct s as [[mi d] t].
Qed.

(** ** The theorems at concrete inputs *)

Lemma total_order_honest_log_witness :
  exists amp sq c1 mx,
    amp ∈ Detector.amps Fixtures.Demo.detector /\
    take 3 (Amp.getLinearityCoeffs amp) = [sq; c1; mx] /\
    (c_ltb c_zero mx = true \/ c_eqb sq c_zero = false).
Proof. by apply (total_order_honest_log (Detector.amps Fixtures.Demo.detector)). Defined.

Lemma run_pixel_polynomial_witness :
  exists v', array2_get (getImage (image_of (exec_state run Fixtures.Demo.state))) 1 1
             = Some v' /\ (v' == 6 + (1 # 2) * 6 ^ 2)%Q.
Proof.
  apply (run_pixel_polynomial Fixtures.Demo.state (exec_state run Fixtures.Demo.state)
           Fixtures.Demo.detector 2 Fixtures.Demo.A2 (1 # 2)%Q 0%Q 0%Q 1 1 6%Q);
    try done.
  by apply amps_disjointb_spec.
Defined.

Lemma ieee_nan_square_poisons_witness :
  getImage (image_of (exec_state run IeeeDemo.nan_square)) =
  [[S754_nan; S754_nan]; [S754_nan; S754_nan]].
Proof.
  apply array2_eq; [done|]. intros i j.
  destruct (array2_get (getImage (image_of IeeeDemo.nan_square)) i j) as [v|] eqn:Hv.
  - rewrite (ieee_nan_square_poisons IeeeDemo.nan_square (exec_state run IeeeDemo.nan_square)
               (IeeeDemo.detector [S754_nan; IeeeDemo.zero; IeeeDemo.zero]) 0
               (Amp.mk "A" (mkBox2I 0 0 2 2) "PROPORTIONAL" [S754_nan; IeeeDemo.zero; IeeeDemo.zero])
               IeeeDemo.zero IeeeDemo.zero i j v); try done.
    + destruct i as [|[|i]], j as [|[|j]]; try done.
    + by apply amps_disjointb_spec.
    + destruct i as [|[|i]], j as [|[|j]]; try done;
        by destruct j, i.
  - destruct i as [|[|i]], j as [|[|j]]; try done; by destruct j, i.
Defined.

Lemma ieee_nan_threshold_logs_witness :
  image_of (exec_state run IeeeDemo.nan_threshold) = IeeeDemo.image /\
  getLog (task (exec_state run IeeeDemo.nan_threshold)) =
    [mkLogRecord INFO (msg_applied (IeeeDemo.detector [IeeeDemo.zero; IeeeDemo.zero; S754_nan]))].
Proof.
  unfold exec_state.
  rewrite (ieee_nan_threshold_logs IeeeDemo.nan_threshold
             (IeeeDemo.detector [IeeeDemo.zero; IeeeDemo.zero; S754_nan]));
    [done | done | done |].
  repeat constructor. by exists IeeeDemo.zero, IeeeDemo.zero.
Defined.
