(* ===== verification/LinearizeAccuracy.v ===== *)
(** * LinearizeAccuracy: the machine reading against the exact one

    At IEEE numbers the task computes [v * (1 + c * v)] as NumPy does on a
    float32 array and a Python float. When the coefficient fits float32
    it is converted to binary32, and the two products and the sum are
    binary32 operations: four rounded steps. When it is a finite number
    beyond float32 the pixel is widened, the three operations are those of
    binary64 and the result is converted to binary32 ([wide_correction]).
    Both ways provide the interface [RoundingModel] of LinearizeModel.v
    ([ieee_rounding_model], by the lemmas of IeeeValue.v and [wide_error]),
    and this file relates what a run leaves in a pixel to the exact
    numbers, with IeeeRange.v and IeeeCompare.v:

    - whenever the corrected pixel is a finite number, its distance to the
      polynomial [V + C * V^2] of the task's documentation, on the exact
      values [V] and [C] of the pixel and of the coefficient, is at most
      [3 * u * |V| * (1 + 2 * |C * V|) + eta * (1 + 2 * |V| + 2 * V^2)] with
      [u = 2^-24] and [eta = 2^-150] ([linearize_error]);
    - with a pixel and a coefficient up to [2 ^ 40] in magnitude the
      coefficient fits float32 ([fits_in_range]) and no step overflows
      ([linearize_in_range]), and beyond the range a step can
      ([linearize_overflows]);
    - a coefficient that is not a finite number gives the same pixel both
      ways ([nonfinite_either_way]);
    - the mask gains the SUSPECT bits exactly when the exact value of the
      pixel is above a positive threshold ([new_mask_exact]);
    - the comparison by which the unit test computes the mask it expects
      is the detection when the threshold is a binary32 number
      ([ieee_gt_representable]).

    [ieee_run_pixel_accuracy] and [ieee_run_mask_exact] state this of the
    pixels of a run. *)

From Stdlib Require Import ZArith NArith QArith Qabs Lia Lqa Psatz SpecFloat.
From stdpp Require Import base tactics option list strings gmap.
From S2P Require Import Prelude Numerics Ieee IeeeRound IeeeValue IeeeCompare IeeeRange.
From S2P Require Import Image PipeBase.
From S2P Require Import Camera Linearize LinearizeModel Fixtures LinearizeSpec LinearizeTest.
From S2P Require Import LinearizeNumerics.

Import ProportionalLinearizeTask.

Local Open Scope Q_scope.

(** The unit roundoff and the underflow unit of the pixel format. *)
Definition u32 : Q := unit_roundoff prec32.
Definition eta32 : Q := underflow_unit prec32 emax32.

(** The units of the coefficient format. *)
Definition u64 : Q := unit_roundoff prec64.
Definition eta64 : Q := underflow_unit prec64 emax64.

(** The correction computed in the operations of binary64 on the widened
    pixel: what [linearize] converts to binary32 when the coefficient is
    beyond float32. *)
Definition wide_correction (c : binary64) (v : binary32) : binary64 :=
  SFmul prec64 emax64 (b32_to_b64 v)
    (SFadd prec64 emax64 (SFone prec64 emax64) (SFmul prec64 emax64 c (b32_to_b64 v))).

(** The bound on the error of the correction of a pixel of value [V] with
    the square coefficient [C]. *)
Definition linearize_bound (C V : Q) : Q := model_bound u32 eta32 C V.

(** Pixels and coefficients up to [range_limit] in magnitude, [2 ^ 40], are
    shown not to overflow. *)
Definition range_limit : Q := pow2 40.

(** An amplifier with the square coefficient of the task's test, [1e-5] as
    a Python float, over the image of [IeeeDemo]. *)
Module AccuracyDemo.

Definition coeffs : list binary64 := [squareCoeff_b64; IeeeDemo.zero; IeeeDemo.zero].

Definition state : State binary64 binary32 := IeeeDemo.state coeffs.

(** The same amplifier with the threshold 2. *)
Definition flagging_coeffs : list binary64 := [squareCoeff_b64; IeeeDemo.zero; b64_of_Z 2].

Definition flagging : State binary64 binary32 := IeeeDemo.state flagging_coeffs.

(** The binary32 number [2 ^ 100]. *)
Definition large : binary32 := S754_finite false 8388608 77.

End AccuracyDemo.

(** ** The four steps at binary32 *)

Lemma u32_small : 0 <= u32 /\ u32 <= 1 # 8 /\ 0 <= eta32.
Proof. by vm_compute. Qed.

(** The coefficient narrowed to binary32 is the coefficient rounded. *)
Lemma to_pixel_error (c : binary64) :
  is_finite (b64_to_b32 c) = true ->
  rounded_from prec32 emax32 (SF2Q (b64_to_b32 c)) (SF2Q c) /\
  valid_binary prec32 emax32 (b64_to_b32 c) = true.
Proof.
  destruct c as [s|s| |s m e]; try done; simpl b64_to_b32.
  intros Hfin. split; [by apply binary_round_rounded|].
  by apply (binary_round_error prec32 emax32).
Qed.

Lemma p_one_value :
  SF2Q (SFone prec32 emax32) == 1 /\ valid_binary prec32 emax32 (SFone prec32 emax32) = true.
Proof. by vm_compute. Qed.

(** The correction with a coefficient that fits float32, in the
    operations of binary32. *)
Lemma linearize_ieee (c : binary64) (v : binary32) :
  fits_float32 c = true ->
  linearize c v =
  SFmul prec32 emax32 v
    (SFadd prec32 emax32 (SFone prec32 emax32) (SFmul prec32 emax32 (b64_to_b32 c) v)).
Proof. intros Hf. unfold linearize. change (fits c) with (fits_float32 c). by rewrite Hf. Qed.

(** The correction with a coefficient beyond float32, computed at binary64
    and converted. *)
Lemma linearize_wide (c : binary64) (v : binary32) :
  fits_float32 c = false -> linearize c v = b64_to_b32 (wide_correction c v).
Proof. intros Hf. unfold linearize. change (fits c) with (fits_float32 c). by rewrite Hf. Qed.

(** A number narrowed to binary32 is a well-formed binary32 number, be it
    an infinity or NaN. *)
Lemma narrow_valid (x : binary64) : valid_binary prec32 emax32 (b64_to_b32 x) = true.
Proof.
  destruct (is_finite (b64_to_b32 x)) eqn:Hf; [by apply to_pixel_error|].
  by apply not_finite_valid.
Qed.

(** ** The three steps at binary64, for a coefficient beyond float32 *)

Lemma u64_small :
  0 <= u64 /\ u64 <= 1 # 8 /\ 0 <= eta64 /\ 4 * u64 <= u32 /\ (9 # 4) * eta64 <= u32 /\
  (9 # 8) * eta64 <= eta32 /\ (9 # 8) * eta64 <= 2 * eta32 * pow2 (-149).
Proof. by vm_compute. Qed.

Lemma one64_value :
  SF2Q (SFone prec64 emax64) == 1 /\ valid_binary prec64 emax64 (SFone prec64 emax64) = true.
Proof. by vm_compute. Qed.

(** A coefficient is beyond float32 only when it is a finite number. *)
Lemma beyond_float32_finite (c : binary64) :
  fits_float32 c = false -> is_finite c = true /\ valid_binary prec64 emax64 c = true.
Proof.
  unfold fits_float32, beyond_float32. rewrite Bool.negb_false_iff.
  by intros [[? ?]%andb_prop _]%andb_prop.
Qed.

Lemma narrow_finite (x : binary64) : is_finite (b64_to_b32 x) = true -> is_finite x = true.
Proof. by destruct x. Qed.

(** A binary32 number that is not zero is at least [2 ^ -149] in
    magnitude. *)
Lemma valid32_magnitude (s : bool) (m : positive) (e : Z) :
  valid_binary prec32 emax32 (S754_finite s m e) = true ->
  pow2 (-149) <= Qabs (SF2Q (S754_finite s m e)).
Proof.
  intros (_ & He & _)%bounded32_inv. simpl SF2Q. rewrite F2Q_Qabs by done.
  assert (pow2 (-149) <= pow2 e) by (apply pow2_Qle; lia).
  assert (inject_Z 1 <= inject_Z (Zpos m)) as Hm by (rewrite <- Zle_Qle; lia).
  change (inject_Z 1) with 1 in Hm.
  pose proof (pow2_Qpos (-149)). nra.
Qed.

(** The correction of a widened pixel in the operations of binary64 is the
    polynomial within the bound of binary64. *)
Lemma wide_steps_error (c : binary64) (v : binary32) :
  valid_binary prec64 emax64 c = true -> valid_binary prec32 emax32 v = true ->
  is_finite (wide_correction c v) = true ->
  Qabs (SF2Q (wide_correction c v) - SF2Q v * (1 + SF2Q c * SF2Q v)) <=
    model_bound u64 eta64 (SF2Q c) (SF2Q v) /\
  valid_binary prec64 emax64 (wide_correction c v) = true.
Proof.
  intros Hc Hv Hr. unfold wide_correction in *.
  destruct u64_small as (Hu & Hu8 & He & _). destruct one64_value as [H1 Hone].
  pose proof (widen_valid v Hv) as Hw. pose proof (widen_value v Hv) as Ew.
  pose proof (SFmul_finite _ _ _ _ Hr) as [_ Fa].
  pose proof (SFadd_finite _ _ _ _ Fa) as [_ Fp].
  destruct (SFmul_error prec64 emax64 eq_refl _ _ eq_refl Hc Hw Fp) as [B1 Vp].
  destruct (SFadd_error prec64 emax64 eq_refl _ _ Hone Vp Fa) as [B2 Va].
  destruct (SFmul_error prec64 emax64 eq_refl _ _ eq_refl Hw Va Hr) as [B3 Vr].
  split; [|done]. unfold rounded_from in B1, B3. fold u64 eta64 in B1, B2, B3.
  rewrite H1 in B2. rewrite Ew in B1, B3.
  exact (exact_coefficient_error u64 eta64 _ _ _ _ _ Hu Hu8 He B1 B2 B3).
Qed.

(** The correction of a zero pixel at binary64 is zero. *)
Lemma wide_zero (c : binary64) (s : bool) :
  is_finite c = true -> exists s', b64_to_b32 (wide_correction c (S754_zero s)) = S754_zero s'.
Proof. destruct c as [sc|sc| |sc mc ec]; try done; intros _; eexists; by vm_compute. Qed.

(** The correction with a coefficient beyond float32, computed at binary64
    and converted to binary32, is within the bound of binary32. *)
Lemma wide_error (c : binary64) (v : binary32) :
  fits_float32 c = false -> valid_binary prec32 emax32 v = true ->
  is_finite (b64_to_b32 (wide_correction c v)) = true ->
  Qabs (SF2Q (b64_to_b32 (wide_correction c v)) - SF2Q v * (1 + SF2Q c * SF2Q v)) <=
    model_bound u32 eta32 (SF2Q c) (SF2Q v) /\
  valid_binary prec32 emax32 (b64_to_b32 (wide_correction c v)) = true.
Proof.
  intros [Fc Hc]%beyond_float32_finite Hv Hr.
  destruct (to_pixel_error _ Hr) as [B4 Vr]. split; [|done].
  destruct u32_small as (Hu & Hu8 & He).
  destruct u64_small as (Hu' & _ & He' & H4 & Heu & Hee & Hew).
  pose proof (narrow_finite _ Hr) as Fr. pose proof (SFmul_finite _ _ _ _ Fr) as [Fv _].
  rewrite widen_is_finite in Fv by done.
  destruct v as [s|s| |s m e]; try done.
  - destruct (wide_zero c s Fc) as [s' ->]. simpl SF2Q.
    setoid_replace (0 - 0 * (1 + SF2Q c * 0)) with 0 using relation Qeq by ring.
    by apply model_bound_nonneg.
  - destruct (wide_steps_error c _ Hc Hv Fr) as [B _].
    pose proof (valid32_magnitude s m e Hv) as Hm.
    apply (converted_error u32 eta32 u64 eta64 _ _ (SF2Q (wide_correction c (S754_finite s m e))));
      try done.
    eapply Qle_trans; [exact Hew|]. nra.
Qed.

(** A coefficient of [1e39] corrects a pixel of [2 ^ -126] to a finite
    number; narrowed to binary32 it would be an infinity, and so would the
    pixel. *)
Lemma wide_coefficient_finite :
  fits_float32 (b64_of_Z (10 ^ 39)) = false /\
  is_finite (linearize (b64_of_Z (10 ^ 39)) (S754_finite false 8388608 (-149))) = true /\
  is_finite (b64_to_b32 (b64_of_Z (10 ^ 39))) = false.
Proof. by vm_compute. Qed.

(** For a coefficient that is not a finite number the operations of both
    formats leave the same pixel: whether NumPy converts such a
    coefficient or widens the array makes no difference. *)
Lemma nonfinite_either_way (c : binary64) (v : binary32) :
  is_finite c = false -> valid_binary prec32 emax32 v = true ->
  b64_to_b32 (wide_correction c v) =
  SFmul prec32 emax32 v
    (SFadd prec32 emax32 (SFone prec32 emax32) (SFmul prec32 emax32 (b64_to_b32 c) v)).
Proof.
  intros Hc Hv. unfold wide_correction.
  destruct v as [s|s| |s m e];
    [| | |destruct (widen_finite s m e Hv) as (d & _ & ->)];
    by destruct c as [sc|sc| |sc mc ec].
Qed.

(** The operations of binary32, with the conversion of a binary64
    coefficient that fits and the operations of binary64 for one that does
    not, follow the standard model of rounded arithmetic. *)
#[export] Instance ieee_rounding_model : RoundingModel binary64 binary32 := {|
  c_value := SF2Q;
  p_value := SF2Q;
  p_finite := is_finite;
  p_wf := fun x => valid_binary prec32 emax32 x = true;
  unit_u := u32;
  unit_eta := eta32;
  unit_u_small := conj (proj1 u32_small) (proj1 (proj2 u32_small));
  unit_eta_nonneg := proj2 (proj2 u32_small);
  p_one_model := p_one_value;
  to_pixel_model := to_pixel_error;
  p_mul_model := fun x y Hx Hy => SFmul_error prec32 emax32 eq_refl x y eq_refl Hx Hy;
  p_add_model := SFadd_error prec32 emax32 eq_refl;
  p_mul_finite := SFmul_finite prec32 emax32;
  p_add_finite := SFadd_finite prec32 emax32;
  wide_model := wide_error
|}.

(** The pixel the correction computes, when it is a finite number, is the
    polynomial on the values of the pixel and of the coefficient, within
    [linearize_bound], and it is a well-formed binary32 number. *)
Lemma linearize_error (c : binary64) (v : binary32) :
  valid_binary prec32 emax32 v = true ->
  is_finite (linearize c v) = true ->
  Qabs (SF2Q (linearize c v) - SF2Q v * (1 + SF2Q c * SF2Q v)) <=
    linearize_bound (SF2Q c) (SF2Q v) /\
  valid_binary prec32 emax32 (linearize c v) = true.
Proof. exact (linearize_model_error c v). Qed.

Lemma linearize_bound_nonneg (C V : Q) : 0 <= linearize_bound C V.
Proof. destruct u32_small as (Hu & _ & He). by apply model_bound_nonneg. Qed.

(** A coefficient that compares equal to zero has the value zero. *)
Lemma c_eqb_zero_value (c : binary64) : c_eqb c c_zero = true -> SF2Q c == 0.
Proof. by destruct c as [?|[]| |[] ? ?]. Qed.

(** The value [new_image] leaves is within the bound of the polynomial. *)
Lemma new_image_error (sq : binary64) (v : binary32) :
  valid_binary prec32 emax32 v = true ->
  is_finite (new_image sq v) = true ->
  Qabs (SF2Q (new_image sq v) - (SF2Q v + SF2Q sq * SF2Q v ^ 2)) <=
    linearize_bound (SF2Q sq) (SF2Q v) /\
  valid_binary prec32 emax32 (new_image sq v) = true.
Proof.
  intros Hv. unfold new_image. destruct (c_eqb sq c_zero) eqn:Hs.
  - intros _. split; [|done]. pose proof (c_eqb_zero_value sq Hs) as H0.
    setoid_replace (SF2Q v - (SF2Q v + SF2Q sq * SF2Q v ^ 2)) with 0 using relation Qeq
      by (rewrite H0; ring).
    apply linearize_bound_nonneg.
  - intros Hr. destruct (linearize_error sq v Hv Hr) as [Hb Hval]. split; [|done].
    by setoid_replace (SF2Q v + SF2Q sq * SF2Q v ^ 2)
      with (SF2Q v * (1 + SF2Q sq * SF2Q v)) using relation Qeq by ring.
Qed.

(** ** The comparison of the test *)

(** With a threshold that is a binary32 number, NumPy's comparison of a
    pixel with it is the detection: the threshold converted to binary32
    is the threshold. The test's threshold 50000 is such a number. *)
Lemma ieee_gt_representable (t v : binary32) :
  valid_binary prec32 emax32 t = true -> valid_binary prec32 emax32 v = true ->
  is_finite t = true -> is_finite v = true ->
  array_gt v (b32_to_b64 t) = detects (b32_to_b64 t) v.
Proof.
  intros Ht Hv Ft Fv. simpl. destruct (fits_float32 _); [|done].
  rewrite (widen_narrow t Ht), (SFltb_exact prec32 emax32 eq_refl) by done.
  rewrite (SFltb_exact prec64 emax64 eq_refl)
    by (by rewrite ?widen_is_finite; try apply widen_valid).
  apply Bool.eq_iff_eq_true. rewrite !Qltb_lt. by rewrite !widen_value.
Qed.

Lemma suspectValue_representable : suspectValue_b64 = b32_to_b64 (b32_of_Z 50000).
Proof. by vm_compute. Qed.

(** ** Inputs that do not overflow *)

Lemma Qabs_mul_le (a b A B : Q) :
  Qabs a <= A -> Qabs b <= B -> Qabs (a * b) <= A * B.
Proof.
  intros Ha Hb. rewrite Qabs_Qmult.
  pose proof (Qabs_nonneg a). pose proof (Qabs_nonneg b). nra.
Qed.

(** A rounded number is little larger than the exact one. *)
Lemma rounded_magnitude (x' x B : Q) :
  rounded_from prec32 emax32 x' x -> Qabs x <= B -> Qabs x' <= (9 # 8) * B + 1.
Proof.
  unfold rounded_from. fold u32 eta32. intros Hr Hx.
  destruct u32_small as (Hu & Hu8 & _). assert (eta32 <= 1) as He by by vm_compute.
  pose proof (Qabs_split x' x (x' - x) ltac:(ring)). pose proof (Qabs_nonneg x).
  assert (u32 * Qabs x <= (1 # 8) * Qabs x) by nra. lra.
Qed.

(** The narrowed coefficient is finite when the coefficient is below the
    range of binary32. *)
Lemma to_pixel_in_range (c : binary64) :
  is_finite c = true -> Qabs (SF2Q c) < pow2 (emax32 - 1) ->
  is_finite (b64_to_b32 c) = true.
Proof.
  destruct c as [s|s| |s m e]; try done. intros _ Hlt.
  by apply (binary_round_in_range prec32 emax32).
Qed.

(** A finite coefficient up to [range_limit] in magnitude fits float32. *)
Lemma fits_in_range (c : binary64) :
  is_finite c = true -> Qabs (SF2Q c) <= range_limit -> fits_float32 c = true.
Proof.
  intros Fc [Hlo Hhi]%Qabs_Qle_condition. unfold fits_float32, beyond_float32.
  destruct (valid_binary prec64 emax64 c) eqn:Hc; [|by rewrite Bool.andb_false_r].
  rewrite Fc. simpl andb. rewrite Bool.negb_involutive.
  rewrite !(SFltb_exact prec64 emax64 eq_refl) by done.
  assert (SF2Q (SFopp float32_limit) < - range_limit /\ range_limit < SF2Q float32_limit)
    as [Hl Hh] by by vm_compute.
  apply andb_true_intro. split; apply Qltb_lt;
    [eapply Qlt_le_trans; [exact Hl|exact Hlo] | eapply Qle_lt_trans; [exact Hhi|exact Hh]].
Qed.

(** With a pixel and a coefficient up to [range_limit] in magnitude no step
    of the correction overflows. *)
Lemma linearize_in_range (c : binary64) (v : binary32) :
  valid_binary prec32 emax32 v = true -> is_finite v = true -> is_finite c = true ->
  Qabs (SF2Q c) <= range_limit -> Qabs (SF2Q v) <= range_limit ->
  is_finite (linearize c v) = true.
Proof.
  intros Hv Fv Fc Bc Bv. rewrite linearize_ieee by by apply fits_in_range.
  destruct p_one_value as [H1 Hone].
  assert (is_finite (b64_to_b32 c) = true) as Fc'
    by (apply to_pixel_in_range; [done|]; eapply Qle_lt_trans; [exact Bc|by vm_compute]).
  destruct (to_pixel_error c Fc') as [R0 Vc].
  pose proof (rounded_magnitude _ _ _ R0 Bc) as Bc'.
  pose proof (Qabs_mul_le _ _ _ _ Bc' Bv) as Bcv.
  assert (is_finite (SFmul prec32 emax32 (b64_to_b32 c) v) = true) as Fp
    by (apply SFmul_in_range; try done; eapply Qle_lt_trans; [exact Bcv|by vm_compute]).
  destruct (SFmul_error prec32 emax32 eq_refl _ _ eq_refl Vc Hv Fp) as [R1 Vp].
  pose proof (rounded_magnitude _ _ _ R1 Bcv) as Bp.
  assert (Qabs (SF2Q (SFone prec32 emax32) + SF2Q (SFmul prec32 emax32 (b64_to_b32 c) v))
          <= 1 + ((9 # 8) * (((9 # 8) * range_limit + 1) * range_limit) + 1)) as Bs.
  { eapply Qle_trans; [apply Qabs_triangle|]. rewrite H1. change (Qabs 1) with 1. lra. }
  set (p := SFmul prec32 emax32 (b64_to_b32 c) v) in *.
  assert (is_finite (SFadd prec32 emax32 (SFone prec32 emax32) p) = true) as Fa
    by (apply SFadd_in_range; try done; eapply Qle_lt_trans; [exact Bs|by vm_compute]).
  destruct (SFadd_error prec32 emax32 eq_refl _ _ Hone Vp Fa) as [R2 Va].
  assert (rounded_from prec32 emax32 (SF2Q (SFadd prec32 emax32 (SFone prec32 emax32) p))
            (SF2Q (SFone prec32 emax32) + SF2Q p)) as R2'
    by (unfold rounded_from; pose proof (proj2 (proj2 u32_small)); fold eta32; lra).
  pose proof (rounded_magnitude _ _ _ R2' Bs) as Ba.
  pose proof (Qabs_mul_le _ _ _ _ Bv Ba) as Bva.
  apply SFmul_in_range; try done. eapply Qle_lt_trans; [exact Bva|by vm_compute].
Qed.

(** ** The mask *)

(** At well-formed finite numbers the mask value the task leaves is decided
    on the values: the SUSPECT bits are added exactly when the threshold is
    positive and the pixel is above it. *)
Lemma new_mask_exact (sq mx : binary64) (bits : N) (v : binary32) (m : N) :
  valid_binary prec64 emax64 sq = true -> valid_binary prec64 emax64 mx = true ->
  valid_binary prec32 emax32 v = true ->
  is_finite sq = true -> is_finite mx = true -> is_finite v = true ->
  new_mask sq mx bits v m =
  if Qltb 0 (SF2Q mx) && Qltb (SF2Q mx) (SF2Q v) then N.lor m bits else m.
Proof.
  intros Hs Hm Hv Fs Fm Fv. unfold new_mask, skips.
  rewrite (detects_exact mx v) by done. simpl.
  rewrite !(SFleb_exact prec64 emax64 eq_refl), !(SFeqb_exact prec64 emax64 eq_refl),
    !(SFltb_exact prec64 emax64 eq_refl) by done.
  change (SF2Q (S754_zero false)) with 0. unfold Qltb.
  by destruct (Qle_bool (SF2Q mx) 0), (Qeq_bool (SF2Q sq) 0).
Qed.

Lemma new_image_in_range (sq : binary64) (v : binary32) :
  valid_binary prec32 emax32 v = true -> is_finite v = true -> is_finite sq = true ->
  Qabs (SF2Q sq) <= range_limit -> Qabs (SF2Q v) <= range_limit ->
  is_finite (new_image sq v) = true.
Proof.
  intros Hv Fv Fc Bc Bv. unfold new_image. destruct (c_eqb sq c_zero); [done|].
  by apply linearize_in_range.
Qed.

(** Beyond the range the correction overflows: with the coefficient 1 the
    well-formed pixel [2 ^ 100] becomes an infinity, and nothing in the task
    tests for it. *)
Lemma linearize_overflows :
  valid_binary prec32 emax32 AccuracyDemo.large = true /\
  linearize (b64_of_Z 1) AccuracyDemo.large = S754_infinity false.
Proof. by vm_compute. Qed.

(** ** The pixels of a run *)

(** C7: the pixels a run leaves are the documented polynomial within the
    rounding bound, and pixels in range do not overflow. At IEEE numbers, in
    a run that returns over amplifiers whose boxes do not overlap, a pixel
    that held the well-formed binary32 number [v] in the box of an amplifier
    with the square coefficient [sq] holds a number [v'] such that: when
    [v'] is not an infinity or NaN, it is a well-formed binary32 number and
    its value differs from [V + C * V^2], computed exactly on the values [V]
    of [v] and [C] of [sq], by at most
    [3 * u * |V| * (1 + 2 * |C * V|) + eta * (1 + 2 * |V| + 2 * V^2)] with
    [u = 2^-24] and [eta = 2^-150]; and [v'] is not an infinity or NaN when
    [v] and [sq] are finite and at most [2 ^ 40] in magnitude. *)
Theorem ieee_run_pixel_accuracy (s s' : State binary64 binary32) detector k amp
    (sq c1 mx : binary64) i j (v : binary32) :
  Exposure.getDetector (exposure s) = Some detector ->
  doCorrect detector = Normal true ->
  run s = (Normal tt, s') ->
  amps_disjoint (Detector.amps detector) ->
  Detector.amps detector !! k = Some amp ->
  take 3 (Amp.getLinearityCoeffs amp) = [sq; c1; mx] ->
  in_view (image_of s) (Amp.getBBox amp) i j = true ->
  array2_get (getImage (image_of s)) i j = Some v ->
  valid_binary prec32 emax32 v = true ->
  exists v' : binary32,
    array2_get (getImage (image_of s')) i j = Some v' /\
    (is_finite v' = true ->
     valid_binary prec32 emax32 v' = true /\
     Qabs (SF2Q v' - (SF2Q v + SF2Q sq * SF2Q v ^ 2)) <= linearize_bound (SF2Q sq) (SF2Q v)) /\
    (is_finite v = true -> is_finite sq = true ->
     Qabs (SF2Q sq) <= range_limit -> Qabs (SF2Q v) <= range_limit ->
     is_finite v' = true).
Proof.
  intros Hd Hdo Hrun Hdis Hk Ht Hv Hget Hval.
  pose proof (amps_apply_pixel _ _ _ _ _ _ (image_of s) _ _ Hdis Hk Ht Hv) as Hp.
  rewrite <- (run_returns_image _ _ _ Hd Hdo Hrun) in Hp.
  apply (f_equal fst) in Hp. unfold pixel_at, new_pixel in Hp. simpl in Hp.
  rewrite Hget in Hp. eexists. split; [exact Hp|]. split.
  - intros Hfin. by destruct (new_image_error sq v Hval Hfin).
  - intros. by apply new_image_in_range.
Qed.

(** The SUSPECT flag is decided on the exact values. At IEEE numbers,
    in a run that returns over amplifiers whose boxes do not overlap, with
    well-formed finite coefficients and pixel, a mask pixel in the box of an
    amplifier with the threshold [mx] gains the bits of the SUSPECT plane
    exactly when the value of [mx] is positive and the value of the pixel
    before the correction is above it; otherwise it is unchanged. *)
Theorem ieee_run_mask_exact (s s' : State binary64 binary32) detector k amp
    (sq c1 mx : binary64) i j (v : binary32) (m : N) :
  Exposure.getDetector (exposure s) = Some detector ->
  doCorrect detector = Normal true ->
  run s = (Normal tt, s') ->
  amps_disjoint (Detector.amps detector) ->
  Detector.amps detector !! k = Some amp ->
  take 3 (Amp.getLinearityCoeffs amp) = [sq; c1; mx] ->
  in_view (image_of s) (Amp.getBBox amp) i j = true ->
  array2_get (getImage (image_of s)) i j = Some v ->
  array2_get (getMask (image_of s)) i j = Some m ->
  valid_binary prec64 emax64 sq = true -> valid_binary prec64 emax64 mx = true ->
  valid_binary prec32 emax32 v = true ->
  is_finite sq = true -> is_finite mx = true -> is_finite v = true ->
  array2_get (getMask (image_of s')) i j =
    Some (if Qltb 0 (SF2Q mx) && Qltb (SF2Q mx) (SF2Q v)
          then N.lor m (suspect_bits (image_of s)) else m).
Proof.
  intros Hd Hdo Hrun Hdis Hk Ht Hv Hget Hmask Vs Vm Vv Fs Fm Fv.
  pose proof (amps_apply_pixel _ _ _ _ _ _ (image_of s) _ _ Hdis Hk Ht Hv) as Hp.
  rewrite <- (run_returns_image _ _ _ Hd Hdo Hrun) in Hp.
  apply (f_equal snd) in Hp. unfold pixel_at, new_pixel in Hp. simpl in Hp.
  rewrite Hp, Hget, Hmask. simpl. f_equal. by apply new_mask_exact.
Qed.

(** ** The theorems at concrete inputs *)

Lemma ieee_run_pixel_accuracy_witness :
  exists v' : binary32,
    array2_get (getImage (image_of (exec_state run AccuracyDemo.state))) 1 1 = Some v' /\
    (is_finite v' = true ->
     valid_binary prec32 emax32 v' = true /\
     Qabs (SF2Q v' - (SF2Q (b32_of_Z 4) + SF2Q squareCoeff_b64 * SF2Q (b32_of_Z 4) ^ 2))
       <= linearize_bound (SF2Q squareCoeff_b64) (SF2Q (b32_of_Z 4))) /\
    (is_finite (b32_of_Z 4) = true -> is_finite squareCoeff_b64 = true ->
     Qabs (SF2Q squareCoeff_b64) <= range_limit -> Qabs (SF2Q (b32_of_Z 4)) <= range_limit ->
     is_finite v' = true).
Proof.
  apply (ieee_run_pixel_accuracy AccuracyDemo.state (exec_state run AccuracyDemo.state)
           (IeeeDemo.detector AccuracyDemo.coeffs) 0
           (Amp.mk "A" (mkBox2I 0 0 2 2) "PROPORTIONAL" AccuracyDemo.coeffs)
           squareCoeff_b64 IeeeDemo.zero IeeeDemo.zero 1 1 (b32_of_Z 4));
    try done.
  by apply amps_disjointb_spec.
Defined.

Lemma ieee_run_mask_exact_witness :
  array2_get (getMask (image_of (exec_state run AccuracyDemo.flagging))) 1 1 =
    Some (if Qltb 0 (SF2Q (b64_of_Z 2)) && Qltb (SF2Q (b64_of_Z 2)) (SF2Q (b32_of_Z 4))
          then N.lor 0 (suspect_bits (image_of AccuracyDemo.flagging)) else 0%N).
Proof.
  apply (ieee_run_mask_exact AccuracyDemo.flagging (exec_state run AccuracyDemo.flagging)
           (IeeeDemo.detector AccuracyDemo.flagging_coeffs) 0
           (Amp.mk "A" (mkBox2I 0 0 2 2) "PROPORTIONAL" AccuracyDemo.flagging_coeffs)
           squareCoeff_b64 IeeeDemo.zero (b64_of_Z 2) 1 1 (b32_of_Z 4) 0%N);
    try done.
  by apply amps_disjointb_spec.
Defined.
