(* ===== verification/LinearizeExact.v ===== *)
(** * LinearizeExact: the run at IEEE numbers against the run at exact numbers

    [exact_state] reads a state of the task at IEEE numbers as a state at
    exact rationals: every coefficient and every pixel is replaced by its
    value. On well-formed finite numbers the task at IEEE numbers follows
    the task at exact numbers: the checks of the loop body decide alike, so
    the two runs return or raise the same exception and log the same
    records; with amplifier boxes that do not overlap they leave the same
    mask plane, and each finite pixel of the image plane is within
    [pixel_bound] of the pixel the exact run leaves ([ieee_run_refines_exact]).
    On every outcome the image plane keeps holding well-formed binary32
    numbers ([ieee_run_pixels_valid]). *)

From Stdlib Require Import ZArith NArith QArith Qabs Lia Lqa SpecFloat.
From stdpp Require Import base tactics option list strings gmap.
From S2P Require Import Prelude Numerics Ieee IeeeRound IeeeValue IeeeCompare IeeeRange.
From S2P Require Import Image PipeBase Camera Linearize Fixtures LinearizeSpec LinearizeTest.
From S2P Require Import LinearizeNumerics LinearizeAccuracy.

Import ProportionalLinearizeTask.

Local Open Scope Q_scope.

(** ** The exact reading of a state *)

Definition exact_amp (amp : Amp.t binary64) : Amp.t Q :=
  Amp.mk (Amp.getName amp) (Amp.getBBox amp) (Amp.getLinearityType amp)
    (SF2Q <$> Amp.getLinearityCoeffs amp).

Definition exact_detector (detector : Detector.t binary64) : Detector.t Q :=
  Detector.mk (Detector.getId detector) (Detector.getBBox detector)
    (exact_amp <$> Detector.amps detector).

Definition exact_image (mi : MaskedImage binary32) : MaskedImage Q :=
  mkMaskedImage (getXY0 mi) (map (map SF2Q) (getImage mi)) (getMask mi)
    (map (map SF2Q) (getVariance mi)) (getMaskPlaneDict mi).

Definition exact_state (s : State binary64 binary32) : State Q Q :=
  mkState (Exposure.mk (exact_image (image_of s))
             (exact_detector <$> Exposure.getDetector (exposure s)))
    (task s).

(** Well-formed finite numbers of the two formats. *)
Definition finite64 (c : binary64) : bool := valid_binary prec64 emax64 c && is_finite c.

Definition finite32 (v : binary32) : bool := valid_binary prec32 emax32 v && is_finite v.

(** The coefficients the task reads of each amplifier are well-formed
    finite numbers. *)
Definition coeffs_finite (l : list (Amp.t binary64)) : bool :=
  forallb (fun amp => forallb finite64 (take 3 (Amp.getLinearityCoeffs amp))) l.

(** The pixels of the image plane are well-formed finite numbers. *)
Definition pixels_finite (mi : MaskedImage binary32) : bool :=
  forallb (forallb finite32) (getImage mi).

(** The rounding bound at one position: that of the first amplifier whose
    box holds the position, zero outside every box. *)
Definition pixel_bound (l : list (Amp.t binary64)) (mi : MaskedImage binary32) (i j : nat) : Q :=
  match find (fun amp => in_view mi (Amp.getBBox amp) i j) l, array2_get (getImage mi) i j with
  | Some amp, Some v =>
      match take 3 (Amp.getLinearityCoeffs amp) with
      | [sq; _; _] => linearize_bound (SF2Q sq) (SF2Q v)
      | _ => 0
      end
  | _, _ => 0
  end.

(** The pixel [o] at IEEE numbers, when it is finite, is within [B] of the
    exact pixel [oq], and both are there or both are not. *)
Definition close (B : Q) (o : option binary32) (oq : option Q) : Prop :=
  match o, oq with
  | Some v, Some q => is_finite v = true -> Qabs (SF2Q v - q) <= B
  | None, None => True
  | _, _ => False
  end.

(** The masked image [mi] at IEEE numbers follows the masked image [miq] at
    exact numbers: the same mask plane, the values of the variance plane,
    and every pixel of the image plane within the bound [B] of its
    position. *)
Definition follows (B : nat -> nat -> Q) (mi : MaskedImage binary32) (miq : MaskedImage Q)
  : Prop :=
  getMask mi = getMask miq /\
  getVariance miq = map (map SF2Q) (getVariance mi) /\
  forall i j, close (B i j) (array2_get (getImage mi) i j) (array2_get (getImage miq) i j).

(** ** The loop, for any numbers *)

Lemma find_app_l {A} (f : A -> bool) (l1 l2 : list A) (x : A) :
  find f l1 = Some x -> find f (l1 ++ l2) = Some x.
Proof. induction l1 as [|y l1 IH]; simpl; [done|]. by destruct (f y). Qed.

Section Cases.
Context {C P : Type} `{Numerics C P} `{Detection C P}.

(** The loop applies every amplifier, or the amplifiers before the first
    that fails a check. *)
Lemma amps_fold_cases (detector : Detector.t C) l b (mi : MaskedImage P) :
  forallb (amp_ok mi) l = true /\
    amps_fold detector l b mi = (Normal (b || any_corrected l), amps_apply l mi) \/
  exists l1 amp l2, l = l1 ++ amp :: l2 /\ forallb (amp_ok mi) l1 = true /\
    amp_ok mi amp = false /\
    amps_fold detector l b mi = (Raised (amp_error detector mi amp), amps_apply l1 mi).
Proof.
  destruct (forallb (amp_ok mi) l) eqn:Hall.
  - left. split; [done|]. by apply amps_fold_ok.
  - right. destruct (forallb_false_split _ _ Hall) as (l1 & amp & l2 & -> & H1 & Hko).
    exists l1, amp, l2. repeat split; try done. by apply amps_fold_stops.
Qed.

(** A position in no amplifier's box is not written. *)
Lemma amps_apply_outside (l : list (Amp.t C)) (mi : MaskedImage P) i j :
  (forall amp, amp ∈ l -> in_view mi (Amp.getBBox amp) i j = false) ->
  pixel_at (amps_apply l mi) i j = pixel_at mi i j.
Proof.
  intros Hout. unfold amps_apply.
  apply (foldl_invariant
           (fun b => getXY0 b = getXY0 mi /\ pixel_at b i j = pixel_at mi i j)); [done|].
  intros b amp Hin [Hx Hp]. destruct (amp_apply_fields amp b) as [Hx' _].
  split; [congruence|]. rewrite amp_apply_outside; [done|].
  rewrite (in_view_xy0 _ _ _ _ _ Hx). by apply Hout.
Qed.

Lemma amp_ok_three (mi : MaskedImage P) (amp : Amp.t C) :
  amp_ok mi amp = true -> exists sq c1 mx, take 3 (Amp.getLinearityCoeffs amp) = [sq; c1; mx].
Proof.
  unfold amp_ok. destruct (take 3 _) as [|sq [|c1 [|mx [|]]]]; try done. eauto.
Qed.

(** A property of pixels that the correction keeps holds of every pixel
    after the amplifiers of [l], when it held before. *)
Lemma amps_apply_pixels (Pp : P -> Prop) (l : list (Amp.t C)) (mi : MaskedImage P) :
  (forall sq v, Pp v -> Pp (linearize sq v)) ->
  (forall i j v, array2_get (getImage mi) i j = Some v -> Pp v) ->
  forall i j v, array2_get (getImage (amps_apply l mi)) i j = Some v -> Pp v.
Proof.
  intros Hlin Hmi. unfold amps_apply. apply (foldl_invariant
    (fun b => forall i j v, array2_get (getImage b) i j = Some v -> Pp v)); [done|].
  intros b amp _ Hb i j v. unfold amp_apply.
  destruct (take 3 _) as [|sq [|c1 [|mx [|]]]]; try apply Hb.
  destruct (skips sq mx); [apply Hb|]. rewrite amp_effect_image.
  destruct (array2_get (getImage b) i j) as [v0|] eqn:Hv0; [|done].
  intros [= <-]. specialize (Hb i j v0 Hv0). destruct (_ && _); auto.
Qed.

(** The same, of the image a run leaves, returned or raised. *)
Lemma run_pixels (Pp : P -> Prop) (s : State C P) :
  (forall sq v, Pp v -> Pp (linearize sq v)) ->
  (forall i j v, array2_get (getImage (image_of s)) i j = Some v -> Pp v) ->
  forall i j v, array2_get (getImage (image_of (exec_state run s))) i j = Some v -> Pp v.
Proof.
  intros Hlin Hs. unfold exec_state.
  destruct (Exposure.getDetector (exposure s)) as [detector|] eqn:Hd;
    [|by rewrite run_no_detector].
  rewrite (run_unfold s detector Hd). destruct (doCorrect detector) as [[]|e]; try done.
  destruct (amps_fold_cases detector (Detector.amps detector) false (image_of s))
    as [[_ ->]|(l1 & amp & l2 & _ & _ & _ & ->)];
    [destruct (any_corrected _)|]; by apply amps_apply_pixels.
Qed.

End Cases.

(** ** Pixels stay binary32 numbers *)

(** The correction of a well-formed binary32 number is one, be it an
    infinity or NaN. *)
Lemma linearize_valid (c : binary64) (v : binary32) :
  valid_binary prec32 emax32 v = true -> valid_binary prec32 emax32 (linearize c v) = true.
Proof.
  intros Hv. destruct (fits_float32 c) eqn:Hf;
    [rewrite linearize_ieee by done | rewrite linearize_wide by done; apply narrow_valid].
  apply (SFmul_valid prec32 emax32 eq_refl _ _ eq_refl Hv).
  apply (SFadd_valid prec32 emax32 eq_refl); [apply p_one_value|].
  apply (SFmul_valid prec32 emax32 eq_refl _ _ eq_refl); [apply narrow_valid|done].
Qed.

(** On every outcome of a run the image plane holds well-formed binary32
    numbers, when it did before. *)
Lemma ieee_run_pixels_valid (s : State binary64 binary32) :
  (forall i j v, array2_get (getImage (image_of s)) i j = Some v ->
                 valid_binary prec32 emax32 v = true) ->
  forall i j v, array2_get (getImage (image_of (exec_state run s))) i j = Some v ->
                valid_binary prec32 emax32 v = true.
Proof. apply (run_pixels (fun v => valid_binary prec32 emax32 v = true)), linearize_valid. Qed.

(** ** The checks decide alike *)

Lemma finite64_zero : finite64 c_zero = true.
Proof. done. Qed.

(** On well-formed finite coefficients the comparisons with zero are those
    of the values. *)
Lemma compare_zero_exact (c : binary64) :
  finite64 c = true ->
  c_eqb c c_zero = c_eqb (SF2Q c) c_zero /\
  c_leb c c_zero = c_leb (SF2Q c) c_zero /\
  c_ltb c_zero c = c_ltb c_zero (SF2Q c).
Proof.
  intros [Hv Hf]%andb_prop. simpl.
  by rewrite (SFeqb_exact prec64 emax64 eq_refl), (SFleb_exact prec64 emax64 eq_refl),
    (SFltb_exact prec64 emax64 eq_refl).
Qed.

Lemma take3_exact (amp : Amp.t binary64) :
  take 3 (Amp.getLinearityCoeffs (exact_amp amp)) = SF2Q <$> take 3 (Amp.getLinearityCoeffs amp).
Proof. simpl. by rewrite fmap_take. Qed.

Lemma skips_exact (sq mx : binary64) :
  finite64 sq = true -> finite64 mx = true -> skips sq mx = skips (SF2Q sq) (SF2Q mx).
Proof.
  intros (Hs & _ & _)%compare_zero_exact (_ & Hm & _)%compare_zero_exact.
  unfold skips. by rewrite Hs, Hm.
Qed.

Lemma getBBox_exact (mi : MaskedImage binary32) : getBBox (exact_image mi) = getBBox mi.
Proof.
  unfold getBBox. simpl. f_equal; f_equal.
  - by destruct (getImage mi); simpl; rewrite ?length_map.
  - unfold array2_height. by rewrite length_map.
Qed.

Lemma amp_ok_exact (mi : MaskedImage binary32) (amp : Amp.t binary64) :
  forallb finite64 (take 3 (Amp.getLinearityCoeffs amp)) = true ->
  amp_ok (exact_image mi) (exact_amp amp) = amp_ok mi amp.
Proof.
  intros Hf. unfold amp_ok. rewrite take3_exact, getBBox_exact.
  destruct (take 3 _) as [|sq [|c1 [|mx [|]]]]; try done. simpl in Hf.
  apply andb_prop in Hf as [Hs [H1 [Hm _]%andb_prop]%andb_prop]. cbn [fmap list_fmap].
  rewrite <- (skips_exact sq mx Hs Hm).
  destruct (compare_zero_exact c1 H1) as (<- & _ & _).
  by destruct (compare_zero_exact mx Hm) as (_ & _ & <-).
Qed.

Lemma amp_error_exact detector (mi : MaskedImage binary32) (amp : Amp.t binary64) :
  forallb finite64 (take 3 (Amp.getLinearityCoeffs amp)) = true ->
  amp_error (exact_detector detector) (exact_image mi) (exact_amp amp) =
  amp_error detector mi amp.
Proof.
  intros Hf. unfold amp_error. rewrite take3_exact, getBBox_exact.
  destruct (take 3 _) as [|sq [|c1 [|mx [|]]]]; try done;
    [|by cbn [fmap list_fmap length]; rewrite length_fmap].
  simpl in Hf.
  apply andb_prop in Hf as [_ [H1 _]%andb_prop]. cbn [fmap list_fmap].
  by destruct (compare_zero_exact c1 H1) as (<- & _ & _).
Qed.

Lemma any_corrected_exact (l : list (Amp.t binary64)) :
  coeffs_finite l = true -> any_corrected (exact_amp <$> l) = any_corrected l.
Proof.
  unfold coeffs_finite, any_corrected. induction l as [|amp l IH]; [done|].
  intros [Hf Hl]%andb_prop. cbn [fmap list_fmap existsb]. rewrite (IH Hl). f_equal.
  rewrite take3_exact. destruct (take 3 _) as [|sq [|c1 [|mx [|]]]]; try done.
  simpl in Hf. apply andb_prop in Hf as [Hs [_ [Hm _]%andb_prop]%andb_prop].
  cbn [fmap list_fmap]. by rewrite <- (skips_exact sq mx Hs Hm).
Qed.

Lemma doCorrect_exact (detector : Detector.t binary64) :
  doCorrect (exact_detector detector) = doCorrect detector.
Proof.
  unfold doCorrect. rewrite !getitem_0. simpl.
  destruct (Detector.amps detector) as [|amp l]; [done|]. simpl.
  by rewrite length_fmap.
Qed.

(** ** One pixel *)

Lemma pixel_at_exact (mi : MaskedImage binary32) i j :
  pixel_at (exact_image mi) i j = (SF2Q <$> (pixel_at mi i j).1, (pixel_at mi i j).2).
Proof. unfold pixel_at. simpl. by rewrite array2_get_map. Qed.

Lemma suspect_bits_exact (mi : MaskedImage binary32) :
  suspect_bits (exact_image mi) = suspect_bits mi.
Proof. done. Qed.

Lemma amps_disjoint_exact (l : list (Amp.t binary64)) :
  amps_disjoint l -> amps_disjoint (exact_amp <$> l).
Proof.
  intros Hdis i j a b Ha Hb Hij. rewrite list_lookup_fmap in Ha, Hb.
  destruct (l !! i) as [a'|] eqn:Hi, (l !! j) as [b'|] eqn:Hj; simplify_eq/=.
  by apply (Hdis i j).
Qed.

(** At exact numbers the mask gains the SUSPECT bits when the pixel is above
    a positive threshold. *)
Lemma new_mask_Q (sq mx : Q) (bits : N) (v : Q) (m : N) :
  new_mask sq mx bits v m = if Qltb 0 mx && Qltb mx v then N.lor m bits else m.
Proof.
  unfold new_mask, skips. simpl. unfold Qltb.
  by destruct (Qle_bool mx 0), (Qeq_bool sq 0).
Qed.

(** At exact numbers the corrected pixel is the polynomial. *)
Lemma new_image_Q (sq v : Q) : new_image sq v == v + sq * v ^ 2.
Proof.
  unfold new_image. simpl. destruct (Qeq_bool sq 0) eqn:Hs; [|ring].
  apply Qeq_bool_eq in Hs. rewrite Hs. ring.
Qed.

Lemma linearize_bound_nonneg_close (C V : Q) (v : binary32) :
  SF2Q v == V -> close (linearize_bound C V) (Some v) (Some V).
Proof.
  intros Hv _. setoid_replace (SF2Q v - V) with 0 using relation Qeq by (rewrite Hv; ring).
  apply linearize_bound_nonneg.
Qed.

Lemma pixel_bound_nonneg l mi i j : 0 <= pixel_bound l mi i j.
Proof.
  unfold pixel_bound. destruct (find _ l) as [amp|]; [|done].
  destruct (array2_get _ i j) as [v|]; [|done].
  destruct (take 3 _) as [|sq [|c1 [|mx [|]]]]; try done; apply linearize_bound_nonneg.
Qed.

(** What [new_pixel] leaves at IEEE numbers against what it leaves at exact
    numbers: the same mask value, and a pixel within the bound. *)
Lemma new_pixel_exact (sq mx : binary64) (bits : N) (p : option binary32 * option N) :
  finite64 sq = true -> finite64 mx = true ->
  (forall v, p.1 = Some v -> finite32 v = true) ->
  let r := new_pixel sq mx bits p in
  let rq := new_pixel (SF2Q sq) (SF2Q mx) bits (SF2Q <$> p.1, p.2) in
  r.2 = rq.2 /\
  close (match p.1 with Some v => linearize_bound (SF2Q sq) (SF2Q v) | None => 0 end) r.1 rq.1.
Proof.
  intros [Vs Fs]%andb_prop [Vm Fm]%andb_prop Hp.
  destruct p as [[v|] [m|]]; cbn [new_pixel fst snd fmap option_fmap option_map close];
    try done; destruct (andb_prop _ _ (Hp v eq_refl)) as [Vv Fv];
    (split; [by rewrite ?new_mask_exact, ?new_mask_Q|]);
    intros Hfin; destruct (new_image_error sq v Vv Hfin) as [Hb _];
    by rewrite new_image_Q.
Qed.

(** ** The amplifiers applied in order *)

(** With boxes that do not overlap, every position holds after the
    amplifiers of [l] the same mask value at IEEE numbers as at exact
    numbers, and a pixel within the bound. *)
Lemma amps_apply_exact_pixel (l : list (Amp.t binary64)) (mi : MaskedImage binary32) i j :
  amps_disjoint l -> coeffs_finite l = true -> pixels_finite mi = true ->
  forallb (amp_ok mi) l = true ->
  let p := pixel_at (amps_apply l mi) i j in
  let q := pixel_at (amps_apply (exact_amp <$> l) (exact_image mi)) i j in
  p.2 = q.2 /\ close (pixel_bound l mi i j) p.1 q.1.
Proof.
  intros Hdis Hc Hp Hok p q. unfold p, q, pixel_bound.
  destruct (find _ l) as [amp|] eqn:Hfind.
  - apply find_some in Hfind as [Hin%list_elem_of_In Hv].
    destruct (list_elem_of_lookup_1 _ _ Hin) as [k Hk].
    destruct (amp_ok_three mi amp (forallb_elem_of _ _ Hok _ Hin)) as (sq & c1 & mx & Ht).
    pose proof (forallb_elem_of _ _ Hc _ Hin) as Hf. simpl in Hf. rewrite Ht in Hf.
    simpl in Hf. apply andb_prop in Hf as [Hs [_ [Hm _]%andb_prop]%andb_prop].
    rewrite (amps_apply_pixel l k amp sq c1 mx mi i j Hdis Hk Ht Hv).
    rewrite (amps_apply_pixel (exact_amp <$> l) k (exact_amp amp) (SF2Q sq) (SF2Q c1) (SF2Q mx)
               (exact_image mi) i j (amps_disjoint_exact l Hdis));
      [|by rewrite list_lookup_fmap, Hk | by rewrite take3_exact, Ht | done].
    rewrite pixel_at_exact, suspect_bits_exact, Ht.
    apply (new_pixel_exact sq mx (suspect_bits mi) (pixel_at mi i j) Hs Hm).
    intros v Hget. by apply (array2_forallb finite32 (getImage mi) Hp i j).
  - rewrite (amps_apply_outside l mi i j), (amps_apply_outside (exact_amp <$> l) (exact_image mi) i j).
    + rewrite pixel_at_exact. split; [done|]. unfold pixel_at. cbn [fst snd].
      destruct (array2_get (getImage mi) i j) as [v|]; [|done].
      intros _. setoid_replace (SF2Q v - SF2Q v) with 0 using relation Qeq by ring. done.
    + intros a [amp [-> Hin]]%list_elem_of_fmap.
      apply list_elem_of_In in Hin. apply (find_none _ _ Hfind amp Hin).
    + intros amp Hin%list_elem_of_In. apply (find_none _ _ Hfind amp Hin).
Qed.

(** The same, for the planes as a whole. *)
Lemma amps_apply_follows (l : list (Amp.t binary64)) (mi : MaskedImage binary32) :
  amps_disjoint l -> coeffs_finite l = true -> pixels_finite mi = true ->
  forallb (amp_ok mi) l = true ->
  follows (pixel_bound l mi) (amps_apply l mi) (amps_apply (exact_amp <$> l) (exact_image mi)).
Proof.
  intros Hdis Hc Hp Hok.
  destruct (amps_apply_same_layout l mi) as (_ & _ & Hv & _ & Hm).
  destruct (amps_apply_same_layout (exact_amp <$> l) (exact_image mi)) as (_ & _ & Hvq & _ & Hmq).
  pose proof (amps_apply_exact_pixel l mi) as Hpix.
  split; [|split].
  - apply array2_eq; [by rewrite Hm, Hmq|]. intros i j.
    by destruct (Hpix i j Hdis Hc Hp Hok) as [? _].
  - by rewrite Hv, Hvq.
  - intros i j. by destruct (Hpix i j Hdis Hc Hp Hok) as [_ ?].
Qed.

Lemma follows_weaken (B B' : nat -> nat -> Q) mi miq :
  (forall i j, B i j <= B' i j) -> follows B mi miq -> follows B' mi miq.
Proof.
  intros HB (Hm & Hv & Hp). repeat split; try done. intros i j. specialize (Hp i j).
  unfold close in *.
  destruct (array2_get (getImage mi) i j), (array2_get (getImage miq) i j); try done.
  intros Hfin. eapply Qle_trans; [exact (Hp Hfin) | apply HB].
Qed.

(** A masked image follows its exact reading. *)
Lemma follows_exact_image (B : nat -> nat -> Q) (mi : MaskedImage binary32) :
  (forall i j, 0 <= B i j) -> follows B mi (exact_image mi).
Proof.
  intros HB. repeat split; try done. intros i j. simpl. rewrite array2_get_map.
  unfold binary32 in *.
  destruct (array2_get (getImage mi) i j) as [v|];
    cbn [fmap option_fmap option_map close]; [|done]. intros Hfin.
  setoid_replace (SF2Q v - SF2Q v) with 0 using relation Qeq by ring. apply HB.
Qed.

(** The bound of the amplifiers applied before a failure is within the
    bound of all amplifiers. *)
Lemma pixel_bound_prefix (l1 l2 : list (Amp.t binary64)) mi i j :
  pixel_bound l1 mi i j <= pixel_bound (l1 ++ l2) mi i j.
Proof.
  unfold pixel_bound at 1. destruct (find _ l1) as [amp|] eqn:Hfind.
  - unfold pixel_bound. rewrite (find_app_l _ l1 l2 amp Hfind). apply Qle_refl.
  - apply pixel_bound_nonneg.
Qed.

Lemma amps_disjoint_prefix {C} (l1 l2 : list (Amp.t C)) :
  amps_disjoint (l1 ++ l2) -> amps_disjoint l1.
Proof.
  intros Hdis i j a b Ha Hb Hij.
  apply (Hdis i j); [by apply lookup_app_l_Some.. | done].
Qed.

Lemma amps_ok_exact (l : list (Amp.t binary64)) (mi : MaskedImage binary32) :
  coeffs_finite l = true ->
  forallb (amp_ok (exact_image mi)) (exact_amp <$> l) = forallb (amp_ok mi) l.
Proof.
  unfold coeffs_finite. induction l as [|amp l IH]; [done|].
  intros [Hf Hl]%andb_prop. cbn [fmap list_fmap forallb]. by rewrite amp_ok_exact, IH.
Qed.

(** ** The run *)

(** C8: the run at IEEE numbers follows the run at exact numbers. For a
    state whose coefficients and pixels are well-formed finite numbers and
    whose amplifier boxes do not overlap, [run] on the state and [run] on
    its exact reading return alike or raise the same exception, leave the
    same log, the same mask plane and the same variance plane, and every
    pixel of the image plane that is not an infinity or NaN is within the
    rounding bound of its amplifier of the pixel the exact run leaves. *)
Theorem ieee_run_refines_exact (s : State binary64 binary32) detector :
  Exposure.getDetector (exposure s) = Some detector ->
  coeffs_finite (Detector.amps detector) = true ->
  pixels_finite (image_of s) = true ->
  amps_disjoint (Detector.amps detector) ->
  exec_result run s = exec_result run (exact_state s) /\
  task (exec_state run s) = task (exec_state run (exact_state s)) /\
  follows (pixel_bound (Detector.amps detector) (image_of s))
    (image_of (exec_state run s)) (image_of (exec_state run (exact_state s))).
Proof.
  intros Hd Hc Hp Hdis. set (l := Detector.amps detector) in *.
  pose proof (pixel_bound_nonneg l (image_of s)) as H0.
  unfold exec_result, exec_state.
  rewrite (run_unfold s detector Hd), (run_unfold (exact_state s) (exact_detector detector))
    by (simpl; by rewrite Hd).
  rewrite doCorrect_exact. destruct (doCorrect detector) as [[]|e];
    [|by repeat split; try apply follows_exact_image..].
  change (image_of (exact_state s)) with (exact_image (image_of s)).
  change (Detector.amps (exact_detector detector)) with (exact_amp <$> l). fold l.
  destruct (amps_fold_cases detector l false (image_of s))
    as [[Hok ->]|(l1 & amp & l2 & Hl & Hok & Hko & ->)].
  - rewrite amps_fold_ok by (by rewrite amps_ok_exact). rewrite any_corrected_exact by done.
    pose proof (amps_apply_follows l (image_of s) Hdis Hc Hp Hok).
    by destruct (any_corrected l).
  - rewrite Hl in Hc, Hdis |- *. rewrite fmap_app, fmap_cons.
    unfold coeffs_finite in Hc. rewrite forallb_app in Hc. simpl in Hc.
    apply andb_prop in Hc as [Hc1 [Hca _]%andb_prop].
    rewrite amps_fold_stops by (by rewrite ?amps_ok_exact, ?amp_ok_exact).
    rewrite amp_error_exact by done. split; [done|]. split; [done|]. simpl.
    apply (follows_weaken (pixel_bound l1 (image_of s))); [intros; apply pixel_bound_prefix|].
    apply amps_apply_follows; try done. by eapply amps_disjoint_prefix.
Qed.

(** ** The theorem at concrete inputs *)

Lemma ieee_run_refines_exact_witness :
  exec_result run AccuracyDemo.flagging = exec_result run (exact_state AccuracyDemo.flagging) /\
  task (exec_state run AccuracyDemo.flagging) =
    task (exec_state run (exact_state AccuracyDemo.flagging)) /\
  follows (pixel_bound (Detector.amps (IeeeDemo.detector AccuracyDemo.flagging_coeffs))
             (image_of AccuracyDemo.flagging))
    (image_of (exec_state run AccuracyDemo.flagging))
    (image_of (exec_state run (exact_state AccuracyDemo.flagging))).
Proof.
  apply (ieee_run_refines_exact AccuracyDemo.flagging
           (IeeeDemo.detector AccuracyDemo.flagging_coeffs)); try done.
  by apply amps_disjointb_spec.
Defined.
