(* ===== verification/IsrConfig.v ===== *)
(** * IsrConfig: [IsrTaskConfig]

    The configuration class of src/python/lsst/ip/isr/isrTask.py, lines 32
    to 107: one record field per [pexConfig] field, with the default of the
    source, and the validation that a [ChoiceField] performs (its value is
    one of the allowed strings). Choice fields stay strings, as in the
    source, because the task hands them to its collaborators as strings.
    [assembleCcd] is a [ConfigurableField]: it names the class of the
    sub-task, which [makeSubtask] reads; the configuration of the sub-task
    itself is outside src/ and is not a field of the record. Float fields are of a type [F] chosen by the user of
    the record; [defaults] takes the float 1.0 as an argument. *)

From Stdlib Require Import ZArith.
From stdpp Require Import base tactics option list strings gmap.
From S2P Require Import Prelude PipeBase.

Module IsrTaskConfig.

Record t (F : Type) : Type := mk {
  doWrite : bool;
  fwhm : F;
  saturatedMaskName : string;
  flatScalingType : string;
  flatUserScale : F;
  overscanFitType : string;
  overscanPolyOrder : Z;
  growSaturationFootprintSize : Z;
  growDefectFootprintSize : Z;
  setGainAssembledCcd : bool;
  keysToRemoveFromAssembledCcd : list string;
  reNormAssembledCcd : bool
}.

Arguments mk {F} _ _ _ _ _ _ _ _ _ _ _ _.
Arguments doWrite {F} _.
Arguments fwhm {F} _.
Arguments saturatedMaskName {F} _.
Arguments flatScalingType {F} _.
Arguments flatUserScale {F} _.
Arguments overscanFitType {F} _.
Arguments overscanPolyOrder {F} _.
Arguments growSaturationFootprintSize {F} _.
Arguments growDefectFootprintSize {F} _.
Arguments setGainAssembledCcd {F} _.
Arguments keysToRemoveFromAssembledCcd {F} _.
Arguments reNormAssembledCcd {F} _.

(** The field that names the class of the sub-task [assembleCcd]. *)
Definition assembleCcd : ConfigurableField :=
  mkConfigurableField "AssembleCcdTask" "Assemble CCD".

(** The configurable fields of the class, by name. *)
Definition configurable_fields : gmap string ConfigurableField :=
  {["assembleCcd" := assembleCcd]}.

(** The values a [ChoiceField] allows. *)
Definition flatScalingType_allowed : list string := ["USER"; "MEAN"; "MEDIAN"].

Definition overscanFitType_allowed : list string := ["POLY"; "MEAN"; "MEDIAN"].

(** The defaults of the source; [one] is the float 1.0. *)
Definition defaults {F} (one : F) : t F := {|
  doWrite := true;
  fwhm := one;
  saturatedMaskName := "SAT";
  flatScalingType := "USER";
  flatUserScale := one;
  overscanFitType := "MEDIAN";
  overscanPolyOrder := 1;
  growSaturationFootprintSize := 1;
  growDefectFootprintSize := 1;
  setGainAssembledCcd := true;
  keysToRemoveFromAssembledCcd := [];
  reNormAssembledCcd := true
|}.

(** The check of one [ChoiceField]. *)
Definition check_choice (field : string) (allowed : list string) (value : string)
  : outcome unit :=
  if bool_decide (value ∈ allowed) then Normal tt
  else Raised (FieldValidationError field).

(** [config.validate()]: every choice field holds an allowed value. *)
Definition validate {F} (c : t F) : outcome unit :=
  match check_choice "flatScalingType" flatScalingType_allowed (flatScalingType c) with
  | Raised e => Raised e
  | Normal _ => check_choice "overscanFitType" overscanFitType_allowed (overscanFitType c)
  end.

(** [config.flatScalingType = value]: the assignment is refused when the
    value is not allowed. *)
Definition set_flatScalingType {F} (value : string) (c : t F) : outcome (t F) :=
  match check_choice "flatScalingType" flatScalingType_allowed value with
  | Raised e => Raised e
  | Normal _ =>
      Normal (mk (doWrite c) (fwhm c) (saturatedMaskName c) value (flatUserScale c)
                (overscanFitType c) (overscanPolyOrder c) (growSaturationFootprintSize c)
                (growDefectFootprintSize c) (setGainAssembledCcd c)
                (keysToRemoveFromAssembledCcd c) (reNormAssembledCcd c))
  end.

(** [config.overscanFitType = value] *)
Definition set_overscanFitType {F} (value : string) (c : t F) : outcome (t F) :=
  match check_choice "overscanFitType" overscanFitType_allowed value with
  | Raised e => Raised e
  | Normal _ =>
      Normal (mk (doWrite c) (fwhm c) (saturatedMaskName c) (flatScalingType c)
                (flatUserScale c) value (overscanPolyOrder c)
                (growSaturationFootprintSize c) (growDefectFootprintSize c)
                (setGainAssembledCcd c) (keysToRemoveFromAssembledCcd c)
                (reNormAssembledCcd c))
  end.

(** Two configurations agree on every field that [IsrTask] reads. *)
Definition same_read_fields {F} (c c' : t F) : Prop :=
  doWrite c = doWrite c' /\ fwhm c = fwhm c' /\
  saturatedMaskName c = saturatedMaskName c' /\
  flatScalingType c = flatScalingType c' /\ flatUserScale c = flatUserScale c' /\
  overscanFitType c = overscanFitType c' /\ overscanPolyOrder c = overscanPolyOrder c' /\
  growSaturationFootprintSize c = growSaturationFootprintSize c' /\
  growDefectFootprintSize c = growDefectFootprintSize c'.

End IsrTaskConfig.

Import IsrTaskConfig.

Lemma check_choice_Normal field allowed value :
  check_choice field allowed value = Normal tt <-> value ∈ allowed.
Proof.
  unfold check_choice. case_bool_decide; split; try done.
Qed.

Lemma validate_Normal {F} (c : t F) :
  validate c = Normal tt <->
  flatScalingType c ∈ flatScalingType_allowed /\ overscanFitType c ∈ overscanFitType_allowed.
Proof.
  unfold validate.
  destruct (check_choice "flatScalingType" _ _) as [[]|e] eqn:H1.
  - apply check_choice_Normal in H1. rewrite check_choice_Normal. tauto.
  - split; [done|]. intros [H _]. apply (check_choice_Normal "flatScalingType") in H.
    congruence.
Qed.

(** The choice fields stay valid. On a configuration that validates,
    assigning [flatScalingType] or [overscanFitType] either is refused with a
    [FieldValidationError] naming the field, exactly when the value is not
    one of the three allowed strings, or gives a configuration that holds
    the value and validates. *)
Theorem choice_assignment_validates {F} (c : t F) (value : string) :
  validate c = Normal tt ->
  match set_flatScalingType value c with
  | Normal c' =>
      value ∈ flatScalingType_allowed /\ flatScalingType c' = value /\
      validate c' = Normal tt
  | Raised e =>
      (value ∉ flatScalingType_allowed) /\ e = FieldValidationError "flatScalingType"
  end /\
  match set_overscanFitType value c with
  | Normal c' =>
      value ∈ overscanFitType_allowed /\ overscanFitType c' = value /\
      validate c' = Normal tt
  | Raised e =>
      (value ∉ overscanFitType_allowed) /\ e = FieldValidationError "overscanFitType"
  end.
Proof.
  intros [Hf Ho]%validate_Normal.
  unfold set_flatScalingType, set_overscanFitType, check_choice.
  split; case_bool_decide; try done; (split; [done|split; [done|]]);
    by apply validate_Normal.
Qed.

Lemma choice_assignment_validates_witness :
  match set_flatScalingType "MEAN" (defaults 1%Z) with
  | Normal c' => flatScalingType c' = "MEAN" /\ validate c' = Normal tt
  | Raised e => False
  end /\
  set_overscanFitType "mean" (defaults 1%Z) = Raised (FieldValidationError "overscanFitType").
Proof.
  pose proof (choice_assignment_validates (defaults 1%Z) "MEAN" eq_refl) as [H1 _].
  pose proof (choice_assignment_validates (defaults 1%Z) "mean" eq_refl) as [_ H2].
  split.
  - destruct (set_flatScalingType "MEAN" (defaults 1%Z)) as [c'|e]; [tauto|].
    destruct H1 as [H1 _]. apply H1. by repeat constructor.
  - destruct (set_overscanFitType "mean" (defaults 1%Z)) as [c'|e]; [|by destruct H2 as [_ ->]].
    destruct H2 as [H2 _]. apply (bool_decide_pack _) in H2. by vm_compute in H2.
Defined.
