(* ===== verification/IsrTask.v ===== *)
(** * IsrTask: the per-sensor sequence of corrections

    [IsrTask] of src/python/lsst/ip/isr/isrTask.py, lines 110 to 314. The
    task computes no pixel itself: each method reads the configuration and
    the camera geometry and calls a collaborator ([isr.*], the data
    reference, [UnmaskedNanCounterF], the [assembleCcd] sub-task), which
    works in place on a buffer the caller shares.

    The model keeps what the task decides. A buffer is named by the way it
    was obtained ([Buffer]), a sub-exposure being a view that holds pixels
    of its parent ([storage]); a call to a collaborator is an [Event] carrying
    the arguments the task passes, appended to the state's [events]; what a
    collaborator answers (whether it raises, the detector an exposure
    carries, exposure times, the count of NaN pixels) comes from the class
    [Collaborators], so every theorem holds for every behaviour of the code
    outside src/. A name that a method reads without binding it is looked up
    with [load] in the method's parameters, locals and the module's imports,
    and raises [NameError] when it is in none of them.

    The task is built by [__init__]: the constructor of [pipeBase.Task]
    under the default name [_DefaultName], [makeSubtask] for the field
    [assembleCcd] of [ConfigClass], and the attribute
    [transposeForInterpolation]; [init] is the task it leaves. [run] reads
    the sub-task as an attribute before it calls it. *)

From Stdlib Require Import ZArith.
From stdpp Require Import base tactics option list strings gmap.
From S2P Require Import Prelude Image PipeBase IsrConfig.

Import IsrTaskConfig.

(** ** Camera geometry, as the task reads it *)

Record ElectronicParams (F : Type) : Type := mkElectronicParams {
  getGain : F;
  getReadNoise : F;
  getSaturationLevel : F
}.

Arguments mkElectronicParams {F} _ _ _.
Arguments getGain {F} _.
Arguments getReadNoise {F} _.
Arguments getSaturationLevel {F} _.

Record AmpGeom (F : Type) : Type := mkAmpGeom {
  getDiskAllPixels : Box2I;
  getDiskBiasSec : Box2I;
  ampElectronicParams : ElectronicParams F;
  ampDefects : list Box2I
}.

Arguments mkAmpGeom {F} _ _ _ _.
Arguments getDiskAllPixels {F} _.
Arguments getDiskBiasSec {F} _.
Arguments ampElectronicParams {F} _.
Arguments ampDefects {F} _.

Record CcdGeom (F : Type) : Type := mkCcdGeom {
  ccdAmps : list (AmpGeom F);
  ccdElectronicParams : ElectronicParams F;
  ccdDefects : list Box2I
}.

Arguments mkCcdGeom {F} _ _ _.
Arguments ccdAmps {F} _.
Arguments ccdElectronicParams {F} _.
Arguments ccdDefects {F} _.

(** A value of Python type [cameraGeom.Detector], or [None]. *)
Inductive DetectorObj (F : Type) : Type :=
| IsCcd (c : CcdGeom F)
| IsAmp (a : AmpGeom F)
| IsNone.

Arguments IsCcd {F} c.
Arguments IsAmp {F} a.
Arguments IsNone {F}.

(** ** Buffers, defect lists and calls *)

(** A data reference, by its [dataId]. *)
Record DataRef : Type := mkDataRef { dataId : string }.

(** An exposure (and its masked image, which it shares), named by the way
    the task obtained it. A [View] shares its pixels with its parent. *)
Inductive Buffer : Type :=
| Dataset (ref : DataRef) (name : string)
| FloatImage (b : Buffer)
| View (b : Buffer) (bbox : Box2I)
| Assembled (b : Buffer)
| Transposed (b : Buffer).

Inductive Defects : Type :=
| DefectBoxes (l : list Box2I)
| DefectsFromMask (mi : Buffer) (maskName : string) (growFootprints : Z)
| TransposedDefects (d : Defects).

(** One call to code outside src/, with the arguments the task passes. *)
Inductive Event (F : Type) : Type :=
| ButlerGet (ref : DataRef) (name : string)
| ButlerGetItem (ref : DataRef) (name : string)
| ButlerPut (ref : DataRef) (b : Buffer) (name : string)
| FloatImageFromInt (b : Buffer)
| MakeView (b : Buffer) (bbox : Box2I)
| MakeThresholdMask (mi : Buffer) (saturation : F) (growFootprints : Z) (maskName : string)
| OverscanCorrection (mi overscan : Buffer) (fittype : string) (polyorder : Z)
| BiasCorrection (mi biasMI : Buffer)
| DarkCorrection (mi darkMI : Buffer) (expScale darkScale : F)
| UpdateVariance (mi : Buffer) (gain readNoise : F)
| FlatCorrection (mi flatMI : Buffer) (scalingType : string) (userScale : F)
| SaturationCorrection (mi : Buffer) (saturation fwhm : F) (growFootprints : Z)
    (maskName : string)
| InterpolateFromMask (mi : Buffer) (fwhm : F) (growFootprints : Z) (maskName : string)
| TransposeMaskedImage (mi : Buffer)
| SetMaskedImage (exposure mi : Buffer)
| MaskPixelsFromDefectList (mi : Buffer) (defectList : Defects) (maskName : string)
| GetDefectListFromMask (mi : Buffer) (maskName : string) (growFootprints : Z)
| TransposeDefectList (defectList : Defects)
| InterpolateDefectList (mi : Buffer) (defectList : Defects) (fwhm : F)
| AddMaskPlane (mi : Buffer) (name : string)
| CountUnmaskedNans (mi : Buffer)
| AssembleCcd (b : Buffer)
| Display (name : string) (b : Buffer).

Arguments ButlerGet {F} _ _.
Arguments ButlerGetItem {F} _ _.
Arguments ButlerPut {F} _ _ _.
Arguments FloatImageFromInt {F} _.
Arguments MakeView {F} _ _.
Arguments MakeThresholdMask {F} _ _ _ _.
Arguments OverscanCorrection {F} _ _ _ _.
Arguments BiasCorrection {F} _ _.
Arguments DarkCorrection {F} _ _ _ _.
Arguments UpdateVariance {F} _ _ _.
Arguments FlatCorrection {F} _ _ _ _.
Arguments SaturationCorrection {F} _ _ _ _ _.
Arguments InterpolateFromMask {F} _ _ _ _.
Arguments TransposeMaskedImage {F} _.
Arguments SetMaskedImage {F} _ _.
Arguments MaskPixelsFromDefectList {F} _ _ _.
Arguments GetDefectListFromMask {F} _ _ _.
Arguments TransposeDefectList {F} _.
Arguments InterpolateDefectList {F} _ _ _.
Arguments AddMaskPlane {F} _ _.
Arguments CountUnmaskedNans {F} _.
Arguments AssembleCcd {F} _.
Arguments Display {F} _ _.

#[export] Instance DataRef_eq_dec : EqDecision DataRef.
Proof. solve_decision. Defined.

#[export] Instance Buffer_eq_dec : EqDecision Buffer.
Proof. solve_decision. Defined.

(** The exposure whose pixels a buffer holds: a view holds pixels of its
    parent, every other buffer its own. *)
Fixpoint storage (b : Buffer) : Buffer :=
  match b with
  | View b _ => storage b
  | _ => b
  end.

(** The buffer a call writes in place, for the calls that write one: the
    first argument of the corrections, of the masking and of the
    interpolations, and the exposure given a new masked image. *)
Definition written {F} (ev : Event F) : option Buffer :=
  match ev with
  | MakeThresholdMask mi _ _ _ | OverscanCorrection mi _ _ _ | BiasCorrection mi _
  | DarkCorrection mi _ _ _ | UpdateVariance mi _ _ | FlatCorrection mi _ _ _
  | SaturationCorrection mi _ _ _ _ | InterpolateFromMask mi _ _ _
  | SetMaskedImage mi _ | MaskPixelsFromDefectList mi _ _
  | InterpolateDefectList mi _ _ | AddMaskPlane mi _ | CountUnmaskedNans mi => Some mi
  | _ => None
  end.

(** What the code outside src/ answers. [fails h ev] is the exception the
    call [ev] raises after the calls [h], if it raises; [getNpix h] is the
    count [UnmaskedNanCounterF] reports after the calls [h]. *)
Class Collaborators (F : Type) : Type := {
  fails : list (Event F) -> Event F -> option exn;
  getDetector : Buffer -> DetectorObj F;
  getExptime : Buffer -> F;
  getNpix : list (Event F) -> Z
}.

(** A Python value bound to a name of a method. *)
Inductive value (F : Type) : Type :=
| VSelf
| VModule
| VExposure (b : Buffer)
| VDataRef (r : DataRef)
| VDetector (d : DetectorObj F)
| VDefects (d : Defects)
| VFloat (x : F)
| VInt (z : Z)
| VObject.

Arguments VSelf {F}.
Arguments VModule {F}.
Arguments VExposure {F} b.
Arguments VDataRef {F} r.
Arguments VDetector {F} d.
Arguments VDefects {F} d.
Arguments VFloat {F} x.
Arguments VInt {F} z.
Arguments VObject {F}.

(** The names the module binds: its imports (lines 23 to 30) and its two
    classes. *)
Definition module_names : list string :=
  ["afwImage"; "measAlg"; "cameraGeom"; "pexConfig"; "pipeBase"; "isr";
   "UnmaskedNanCounterF"; "AssembleCcdTask"; "IsrTaskConfig"; "IsrTask"].

Fixpoint assoc {A} (name : string) (l : list (string * A)) : option A :=
  match l with
  | [] => None
  | (n, v) :: l => if String.eqb n name then Some v else assoc name l
  end.

Module IsrTask.

Section Task.
Context {F : Type} {W : Collaborators F} (config : IsrTaskConfig.t F).

(** The task: the calls made so far, what [pipeBase.Task] holds, and the
    attribute [transposeForInterpolation]. *)
Record State : Type := mkState {
  events : list (Event F);
  task : Task;
  transposeForInterpolation : bool
}.

#[export] Instance State_HasTask : HasTask State := {|
  the_task := task;
  set_task := fun t s => mkState (events s) t (transposeForInterpolation s)
|}.

(** [ConfigClass = IsrTaskConfig]: of the configuration class, what
    [pipeBase.Task] reads, its configurable fields. *)
Definition ConfigClass : gmap string ConfigurableField := configurable_fields.

(** The name of a task built without one. *)
Definition _DefaultName : string := "isr".

(** The object before [__init__] has run: it has no attribute yet, and no
    method reads one before [__init__] has returned. *)
Definition blank : State := mkState [] (newTask "") false.

(** [__init__(self, name=name)]: the constructor of [pipeBase.Task], the
    sub-task and the attribute [transposeForInterpolation]. *)
Definition __init__ (name : option string) : Exec State unit :=
  on_task (Task_init name (Some _DefaultName)) >>
  on_task (makeSubtask ConfigClass "assembleCcd") >>
  modify (fun s => mkState (events s) (task s) false).

(** [IsrTask(config=config)]: the task as [__init__] leaves it. *)
Definition init : State := exec_state (__init__ None) blank.

(** The state after the calls [l]. *)
Definition record (l : list (Event F)) (s : State) : State :=
  mkState (events s ++ l) (task s) (transposeForInterpolation s).

(** A call to a collaborator: recorded, then it returns or raises. *)
Definition call (ev : Event F) : Exec State unit := fun s =>
  match fails (events s) ev with
  | Some e => (Raised e, record [ev] s)
  | None => (Normal tt, record [ev] s)
  end.

(** Reading the name [name] in a method whose parameters and locals are
    [locals]. *)
Definition load (locals : list (string * value F)) (name : string) : Exec State (value F) :=
  match assoc name locals with
  | Some v => ret v
  | None =>
      if bool_decide (name ∈ module_names) then ret VModule else raise (NameError name)
  end.

(** [v.getMaskedImage()] *)
Definition getMaskedImage (v : value F) : Exec State Buffer :=
  match v with
  | VExposure b => ret b
  | _ => raise (AttributeError "getMaskedImage")
  end.

(** [sensorRef.get(name)] *)
Definition butler_get (ref : DataRef) (name : string) : Exec State Buffer :=
  call (ButlerGet ref name) >> ret (Dataset ref name).

(** [v.get(name)] *)
Definition value_get (v : value F) (name : string) : Exec State Buffer :=
  match v with
  | VDataRef r => butler_get r name
  | _ => raise (AttributeError "get")
  end.

(** [dataRef[name]] *)
Definition butler_getitem (ref : DataRef) (name : string) : Exec State Buffer :=
  call (ButlerGetItem ref name) >> ret (Dataset ref name).

(** [cameraGeom.cast_Ccd] *)
Definition cast_Ccd (d : DetectorObj F) : DetectorObj F :=
  match d with IsCcd c => IsCcd c | _ => IsNone end.

(** [cameraGeom.cast_Amp] *)
Definition cast_Amp (d : DetectorObj F) : DetectorObj F :=
  match d with IsAmp a => IsAmp a | _ => IsNone end.

(** [for amp in ccd]: the amplifiers of a CCD; nothing else iterates. *)
Definition iterate (d : DetectorObj F) : outcome (list (AmpGeom F)) :=
  match d with
  | IsCcd c => Normal (ccdAmps c)
  | _ => Raised TypeError
  end.

(** [detector.getElectronicParams()] *)
Definition getElectronicParams (d : DetectorObj F) : outcome (ElectronicParams F) :=
  match d with
  | IsCcd c => Normal (ccdElectronicParams c)
  | IsAmp a => Normal (ampElectronicParams a)
  | IsNone => Raised (AttributeError "getElectronicParams")
  end.

(** [detector.getDefects()] *)
Definition getDefects (d : DetectorObj F) : outcome (list Box2I) :=
  match d with
  | IsCcd c => Normal (ccdDefects c)
  | IsAmp a => Normal (ampDefects a)
  | IsNone => Raised (AttributeError "getDefects")
  end.

(** [detector.getDiskBiasSec()] *)
Definition getBiasSec (d : DetectorObj F) : outcome Box2I :=
  match d with
  | IsAmp a => Normal (getDiskBiasSec a)
  | _ => Raised (AttributeError "getDiskBiasSec")
  end.

Definition msg_amp_only : message := Msg "This method must be executed on an amp." [].

Definition msg_nans (nnans : Z) : message :=
  Msg "There were %i unmasked NaNs" [ArgInt nnans].

Definition msg_performing (ref : DataRef) : message :=
  Msg "Performing ISR on sensor %s" [ArgStr (dataId ref)].

(** [checkIsAmp] *)
Definition checkIsAmp (detector : DetectorObj F) : bool :=
  match detector with IsAmp _ => true | _ => false end.

(** [biasCorrection]: reads [sensorRef] and [ccdExp], which are names of
    [run], not of this method. *)
Definition biasCorrection (exposure : Buffer) (dataRef : DataRef) : Exec State unit :=
  let locals := [("self", VSelf); ("exposure", VExposure exposure);
                 ("dataRef", VDataRef dataRef)] in
  let* sensorRef := load locals "sensorRef" in
  let* biasMI := value_get sensorRef "bias" in
  let* ccdExp := load (("biasMI", VExposure biasMI) :: locals) "ccdExp" in
  let* mi := getMaskedImage ccdExp in
  call (BiasCorrection mi biasMI).

(** [darkCorrection] *)
Definition darkCorrection (exposure : Buffer) (dataRef : DataRef) : Exec State unit :=
  let* darkexposure := butler_getitem dataRef "dark" in
  let darkScale := getExptime darkexposure in
  let expScale := getExptime exposure in
  call (DarkCorrection exposure darkexposure expScale darkScale).

(** [updateVariance]: reads [ccdExp], a name of [run]. *)
Definition updateVariance (exposure : Buffer) (ccd : DetectorObj F) : Exec State unit :=
  let locals := [("self", VSelf); ("exposure", VExposure exposure);
                 ("ccd", VDetector ccd)] in
  let* ccdExp := load locals "ccdExp" in
  let* mi := getMaskedImage ccdExp in
  let* ep := lift_outcome (getElectronicParams ccd) in
  call (UpdateVariance mi (getGain ep) (getReadNoise ep)).

(** [flatCorrection] *)
Definition flatCorrection (exposure : Buffer) (dataRef : DataRef) : Exec State unit :=
  let* flatfield := butler_getitem dataRef "flat" in
  call (FlatCorrection exposure flatfield (flatScalingType config) (flatUserScale config)).

(** [saturationCorrection] *)
Definition saturationCorrection (exposure : Buffer) (detector : DetectorObj F)
  : Exec State Buffer :=
  if negb (checkIsAmp detector) then raise (RuntimeError msg_amp_only)
  else
    let* ep := lift_outcome (getElectronicParams detector) in
    call (SaturationCorrection exposure (getSaturationLevel ep) (fwhm config)
            (growSaturationFootprintSize config) (saturatedMaskName config)) >>
    ret exposure.

(** [saturationDetection] *)
Definition saturationDetection (exposure : Buffer) (detector : DetectorObj F)
  : Exec State Buffer :=
  if negb (checkIsAmp detector) then raise (RuntimeError msg_amp_only)
  else
    let* ep := lift_outcome (getElectronicParams detector) in
    call (MakeThresholdMask exposure (getSaturationLevel ep) 0 (saturatedMaskName config)) >>
    ret exposure.

(** [saturationInterpolation] *)
Definition saturationInterpolation (exposure : Buffer) : Exec State unit :=
  let maskName := saturatedMaskName config in
  let grow := growSaturationFootprintSize config in
  let* transpose := gets transposeForInterpolation in
  if transpose then
    call (TransposeMaskedImage exposure) >>
    let mi := Transposed exposure in
    call (InterpolateFromMask mi (fwhm config) grow maskName) >>
    call (TransposeMaskedImage mi) >>
    call (SetMaskedImage exposure (Transposed mi))
  else call (InterpolateFromMask exposure (fwhm config) grow maskName).

(** The interpolation over a defect list that ends [maskAndInterpDefect]. *)
Definition interpolate_defects (exposure : Buffer) (defectList : Defects) : Exec State unit :=
  let* transpose := gets transposeForInterpolation in
  if transpose then
    call (TransposeMaskedImage exposure) >>
    let mi := Transposed exposure in
    call (TransposeDefectList defectList) >>
    call (InterpolateDefectList mi (TransposedDefects defectList) (fwhm config)) >>
    call (TransposeMaskedImage mi) >>
    call (SetMaskedImage exposure (Transposed mi))
  else call (InterpolateDefectList exposure defectList (fwhm config)).

(** [maskAndInterpDefect] *)
Definition maskAndInterpDefect (exposure : Buffer) (detector : DetectorObj F)
  : Exec State unit :=
  let grow := growDefectFootprintSize config in
  let* defectBaseList := lift_outcome (getDefects detector) in
  let defectList := DefectBoxes defectBaseList in
  call (MaskPixelsFromDefectList exposure defectList "BAD") >>
  call (GetDefectListFromMask exposure "BAD" grow) >>
  interpolate_defects exposure (DefectsFromMask exposure "BAD" grow).

(** [v] used as a defect list. *)
Definition as_defects (v : value F) : Exec State Defects :=
  match v with
  | VDefects d => ret d
  | _ => raise TypeError
  end.

(** The branch [if nnans > 0] of [maskAndInterpNan]: it binds [undefects]
    and reads [uudefects]. *)
Definition interpolate_nans (exposure : Buffer) (nnans : Z) : Exec State unit :=
  let grow := growDefectFootprintSize config in
  call (GetDefectListFromMask exposure "UNMASKEDNAN" grow) >>
  let locals := [("self", VSelf); ("exposure", VExposure exposure);
                 ("fwhm", VFloat (fwhm config)); ("grow", VInt grow);
                 ("unc", VObject); ("nnans", VInt nnans);
                 ("undefects", VDefects (DefectsFromMask exposure "UNMASKEDNAN" grow))] in
  let* transpose := gets transposeForInterpolation in
  if transpose then
    call (TransposeMaskedImage exposure) >>
    let mi := Transposed exposure in
    let* uudefects := load (("mi", VExposure mi) :: locals) "uudefects" in
    let* d := as_defects uudefects in
    call (TransposeDefectList d) >>
    call (InterpolateDefectList mi (TransposedDefects d) (fwhm config)) >>
    call (TransposeMaskedImage mi) >>
    call (SetMaskedImage exposure (Transposed mi))
  else
    let* uudefects := load locals "uudefects" in
    let* d := as_defects uudefects in
    call (InterpolateDefectList exposure d (fwhm config)).

(** [maskAndInterpNan] *)
Definition maskAndInterpNan (exposure : Buffer) : Exec State unit :=
  call (AddMaskPlane exposure "UNMASKEDNAN") >>
  call (CountUnmaskedNans exposure) >>
  let* nnans := gets (fun s => getNpix (events s)) in
  on_task (metadata_set "NUMNANS" nnans) >>
  when_ (negb (nnans =? 0)%Z) (raise (RuntimeError (msg_nans nnans))) >>
  when_ (0 <? nnans)%Z (interpolate_nans exposure nnans).

(** [overscanCorrection] *)
Definition overscanCorrection (exposure : Buffer) (detector : DetectorObj F)
  : Exec State unit :=
  if negb (checkIsAmp detector) then raise (RuntimeError msg_amp_only)
  else
    let* biasSec := lift_outcome (getBiasSec detector) in
    call (MakeView exposure biasSec) >>
    let overscan := View exposure biasSec in
    call (OverscanCorrection exposure overscan (overscanFitType config)
            (overscanPolyOrder config)).

(** The body of the loop over the amplifiers in [run]. *)
Definition run_amp (ccdExp : Buffer) (amp : AmpGeom F) : Exec State unit :=
  let ampExp := View ccdExp (getDiskAllPixels amp) in
  call (MakeView ccdExp (getDiskAllPixels amp)) >>
  let amp := cast_Amp (getDetector ampExp) in
  saturationDetection ampExp amp >>
  overscanCorrection ampExp amp.

(** What [run] does after the loop over the amplifiers. *)
Definition run_ccd (ccdExp : Buffer) (ccd : DetectorObj F) (sensorRef : DataRef)
  : Exec State Buffer :=
  biasCorrection ccdExp sensorRef >>
  darkCorrection ccdExp sensorRef >>
  updateVariance ccdExp ccd >>
  flatCorrection ccdExp sensorRef >>
  on_task (getattr_subtask "assembleCcd") >>
  call (AssembleCcd ccdExp) >>
  let ccdExp := Assembled ccdExp in
  let ccd := cast_Ccd (getDetector ccdExp) in
  maskAndInterpDefect ccdExp ccd >>
  saturationInterpolation ccdExp >>
  maskAndInterpNan ccdExp >>
  when_ (doWrite config) (call (ButlerPut sensorRef ccdExp "visitCCD")) >>
  call (Display "visitCCD" ccdExp) >>
  ret ccdExp.

(** [run] *)
Definition run (sensorRef : DataRef) : Exec State Buffer :=
  on_task (log INFO (msg_performing sensorRef)) >>
  let* ccdExp := butler_get sensorRef "raw" in
  let ccd := cast_Ccd (getDetector ccdExp) in
  call (FloatImageFromInt ccdExp) >>
  let ccdExp := FloatImage ccdExp in
  let* amps := lift_outcome (iterate ccd) in
  for_each (run_amp ccdExp) amps >>
  run_ccd ccdExp ccd sensorRef.

(** [run] as the class exposes it, under [@pipeBase.timeMethod]. *)
Definition timed_run `{Timer} (sensorRef : DataRef) : Exec State Buffer :=
  timeMethod "run" (run sensorRef).

(** ** Laws of the primitive steps *)

Lemma record_nil s : record [] s = s.
Proof. destruct s. unfold record. simpl. by rewrite app_nil_r. Qed.

Lemma record_app l1 l2 s : record l2 (record l1 s) = record (l1 ++ l2) s.
Proof. unfold record. simpl. by rewrite app_assoc. Qed.

Lemma call_state ev s : exec_state (call ev) s = record [ev] s.
Proof. unfold exec_state, call. by destruct (fails _ _). Qed.

Lemma call_returns ev s :
  fails (events s) ev = None -> call ev s = (Normal tt, record [ev] s).
Proof. unfold call. by intros ->. Qed.

Lemma call_raises ev s e :
  fails (events s) ev = Some e -> call ev s = (Raised e, record [ev] s).
Proof. unfold call. by intros ->. Qed.

Lemma load_bound locals name v s :
  assoc name locals = Some v -> load locals name s = (Normal v, s).
Proof. unfold load. by intros ->. Qed.

Lemma load_unbound locals name s :
  assoc name locals = None -> name ∉ module_names ->
  load locals name s = (Raised (NameError name), s).
Proof. unfold load. intros -> Hn. by rewrite bool_decide_eq_false_2. Qed.

Lemma on_task_state {A} (c : Exec Task A) s :
  exec_state (on_task c) s =
  mkState (events s) (exec_state c (task s)) (transposeForInterpolation s).
Proof. unfold exec_state, on_task, zoom. simpl. by destruct (c (task s)). Qed.

(** [self.<name>] of a sub-task that is bound returns it and changes
    nothing; of one that is not, raises [AttributeError]. *)
Lemma getattr_bound name st s :
  getSubtasks (task s) !! name = Some st ->
  on_task (getattr_subtask name) s = (Normal st, s).
Proof.
  destruct s. unfold on_task, zoom, getattr_subtask, bind, get. simpl. by intros ->.
Qed.

Lemma getattr_unbound name s :
  getSubtasks (task s) !! name = None ->
  on_task (getattr_subtask name) s = (Raised (AttributeError name), s).
Proof.
  destruct s. unfold on_task, zoom, getattr_subtask, bind, get. simpl. by intros ->.
Qed.

(** [biasCorrection] raises at the first name it reads, before any call. *)
Lemma biasCorrection_raises exposure dataRef s :
  biasCorrection exposure dataRef s = (Raised (NameError "sensorRef"), s).
Proof. done. Qed.

End Task.

End IsrTask.

Arguments IsrTask.State : clear implicits.
Arguments IsrTask.mkState {F} _ _ _.
Arguments IsrTask.events {F} _.
Arguments IsrTask.task {F} _.
Arguments IsrTask.transposeForInterpolation {F} _.
Arguments IsrTask.init {F}.
Arguments IsrTask.record {F} _ _.

#[export] Existing Instance IsrTask.State_HasTask.
