(* ===== verification/IsrFixtures.v ===== *)
(** * IsrFixtures: a small camera and three behaviours of the collaborators

    A CCD of two amplifiers with float values in [Q], and three instances of
    [Collaborators]: [benign], in which no call raises and the sub-exposure
    of an amplifier carries that amplifier; [parent_detector], in which a
    sub-exposure carries the detector of its parent; [nan_found], in which
    the counter reports three NaN pixels. The witnesses of IsrTaskSpec run
    on them. *)

From Stdlib Require Import ZArith QArith.
From stdpp Require Import base tactics option list strings gmap.
From S2P Require Import Prelude Image PipeBase IsrConfig IsrTask.

Module IsrDemo.

Definition amp0 : AmpGeom Q :=
  mkAmpGeom (mkBox2I 0 0 4 2) (mkBox2I 3 0 1 2) (mkElectronicParams 2%Q 5%Q 60000%Q) [].

Definition amp1 : AmpGeom Q :=
  mkAmpGeom (mkBox2I 4 0 4 2) (mkBox2I 4 0 1 2) (mkElectronicParams 3%Q 7%Q 50000%Q) [].

Definition ccd : CcdGeom Q :=
  mkCcdGeom [amp0; amp1] (mkElectronicParams 2%Q 6%Q 55000%Q) [mkBox2I 1 1 1 1].

Definition sensorRef : DataRef := mkDataRef "visit=1 ccd=2".

Definition raw : Buffer := Dataset sensorRef "raw".

Definition config : IsrTaskConfig.t Q := IsrTaskConfig.defaults 1%Q.

(** The detector an exposure carries when a view on an amplifier's pixels
    carries that amplifier. *)
Definition detector_by_view (b : Buffer) : DetectorObj Q :=
  match b with
  | View _ bbox =>
      if bool_decide (bbox = getDiskAllPixels amp0) then IsAmp amp0
      else if bool_decide (bbox = getDiskAllPixels amp1) then IsAmp amp1
      else IsNone
  | _ => IsCcd ccd
  end.

Definition benign : Collaborators Q := {|
  fails := fun _ _ => None;
  getDetector := detector_by_view;
  getExptime := fun b => match b with Dataset _ "dark" => 10%Q | _ => 30%Q end;
  getNpix := fun _ => 0%Z
|}.

Definition parent_detector : Collaborators Q := {|
  fails := fun _ _ => None;
  getDetector := fun _ => IsCcd ccd;
  getExptime := fun _ => 30%Q;
  getNpix := fun _ => 0%Z
|}.

Definition nan_found : Collaborators Q := {|
  fails := fun _ _ => None;
  getDetector := detector_by_view;
  getExptime := fun _ => 30%Q;
  getNpix := fun _ => 3%Z
|}.

(** A data reference that has no "raw" dataset. *)
Definition no_raw : Collaborators Q := {|
  fails := fun _ ev =>
    match ev with ButlerGet _ "raw" => Some (ExternalError "get") | _ => None end;
  getDetector := detector_by_view;
  getExptime := fun _ => 30%Q;
  getNpix := fun _ => 0%Z
|}.

(** The overscan correction raises the second time it is called. *)
Definition second_overscan_raises : Collaborators Q := {|
  fails := fun h ev =>
    match ev with
    | OverscanCorrection _ _ _ _ =>
        if existsb (fun ev' => match ev' with OverscanCorrection _ _ _ _ => true | _ => false end) h
        then Some (ExternalError "overscanCorrection") else None
    | _ => None
    end;
  getDetector := detector_by_view;
  getExptime := fun _ => 30%Q;
  getNpix := fun _ => 0%Z
|}.

(** A timer whose clock stands still. *)
Definition timer : Timer := clock_timer (fun _ => 0%Z).

(** The task after [__init__], and the same task with the transposed
    interpolation switched on. *)
Definition fresh : IsrTask.State Q := IsrTask.init.

Definition transposing : IsrTask.State Q :=
  IsrTask.mkState [] (IsrTask.task fresh) true.

End IsrDemo.
