(* ===== verification/IsrTaskSpec.v ===== *)
(** * IsrTaskSpec: what [IsrTask] does, for every behaviour of its
    collaborators

    The theorems on the model of IsrTask.v: what [__init__] leaves, what
    [run] can and cannot reach, the calls each method makes and their
    arguments, the guards of the methods that work on one amplifier, the
    fail-fast contract of [maskAndInterpNan], the attributes
    [transposeForInterpolation] and [assembleCcd], and the configuration
    fields the task reads.

    The specification side is defined first: [emits P], the relation between
    a state and a later state whose new calls all satisfy [P]; [same_task],
    between states whose tasks have one name and the same sub-tasks; the methods
    of the task as the transitions of a system ([Method], [invoke],
    [reachable]); [maskAndInterpNan_fail_fast], the method without its dead
    branch; and [run_intended], the sequence that the documentation of [run]
    describes, in which [biasCorrection] and [updateVariance] read their own
    parameters. [stops_early] relates [run] to it.

    The lemmas on the calls of single methods ([saturation_methods_call],
    [calibration_calls] and the like) are the cases of the contract that
    IsrTaskContract.v states for all methods at once. *)

From Stdlib Require Import ZArith QArith Lia.
From stdpp Require Import base tactics option list strings gmap.
From S2P Require Import Prelude Image PipeBase IsrConfig IsrTask IsrFixtures.

Import IsrTaskConfig.

Section Spec.
Context {F : Type} {W : Collaborators F} {T : Timer} (config : IsrTaskConfig.t F).

#[local] Abbreviation State := (IsrTask.State F).

(** [emits P s s']: [s'] is [s] after calls that all satisfy [P], with the
    same attribute [transposeForInterpolation]. *)
Definition emits (P : Event F -> bool) (s s' : State) : Prop :=
  IsrTask.transposeForInterpolation s' = IsrTask.transposeForInterpolation s /\
  exists l, IsrTask.events s' = IsrTask.events s ++ l /\ forallb P l = true.

(** The same, for a task whose attribute is [False], as [__init__] sets it. *)
Definition emits_untransposed (P : Event F -> bool) (s s' : State) : Prop :=
  IsrTask.transposeForInterpolation s = false -> emits P s s'.

(** [same_task s s']: the task of [s'] has the name and the sub-tasks of the
    task of [s]. *)
Definition same_task (s s' : State) : Prop :=
  same_identity (IsrTask.task s) (IsrTask.task s').

(** The calls of [run] up to the end of the loop over the amplifiers. *)
Definition per_amp_stage (ev : Event F) : bool :=
  match ev with
  | ButlerGet _ _ | FloatImageFromInt _ | MakeView _ _
  | MakeThresholdMask _ _ _ _ | OverscanCorrection _ _ _ _ => true
  | _ => false
  end.

(** A call of the amplifier stage that, if it writes, writes pixels of the
    exposure [target]. *)
Definition amp_stage_on (target : Buffer) (ev : Event F) : bool :=
  per_amp_stage ev &&
  match written ev with
  | Some b => bool_decide (storage b = target)
  | None => true
  end.

(** The calls that only the transposed interpolation makes. *)
Definition is_transposition (ev : Event F) : bool :=
  match ev with
  | TransposeMaskedImage _ | TransposeDefectList _ | SetMaskedImage _ _ => true
  | _ => false
  end.

Definition no_transposition (ev : Event F) : bool := negb (is_transposition ev).

(** No collaborator raises. *)
Definition all_return : Prop := forall h ev, fails (F := F) h ev = None.

(** The calls of one iteration of the loop of [run], for a sub-exposure that
    carries the amplifier [amp']. *)
Definition amp_events (ccdExp : Buffer) (allPixels : Box2I) (amp' : AmpGeom F)
  : list (Event F) :=
  let ampExp := View ccdExp allPixels in
  [MakeView ccdExp allPixels;
   MakeThresholdMask ampExp (getSaturationLevel (ampElectronicParams amp')) 0
     (saturatedMaskName config);
   MakeView ampExp (getDiskBiasSec amp');
   OverscanCorrection ampExp (View ampExp (getDiskBiasSec amp'))
     (overscanFitType config) (overscanPolyOrder config)].

(** The calls of the loop of [run]. *)
Definition loop_events (ccdExp : Buffer) (amps : list (AmpGeom F)) : list (Event F) :=
  flat_map (fun amp =>
    match getDetector (View ccdExp (getDiskAllPixels amp)) with
    | IsAmp amp' => amp_events ccdExp (getDiskAllPixels amp) amp'
    | _ => []
    end) amps.

(** [maskAndInterpNan] without the branch that follows the [raise]. *)
Definition maskAndInterpNan_fail_fast (exposure : Buffer) : Exec State unit :=
  IsrTask.call (AddMaskPlane exposure "UNMASKEDNAN") >>
  IsrTask.call (CountUnmaskedNans exposure) >>
  let* nnans := gets (fun s => getNpix (IsrTask.events s)) in
  on_task (metadata_set "NUMNANS" nnans) >>
  if (nnans =? 0)%Z then ret tt else raise (RuntimeError (IsrTask.msg_nans nnans)).

(** The methods a client of the task can call, with their arguments; [run]
    is the decorated method. *)
Inductive Method : Type :=
| m_run (sensorRef : DataRef)
| m_biasCorrection (exposure : Buffer) (dataRef : DataRef)
| m_darkCorrection (exposure : Buffer) (dataRef : DataRef)
| m_updateVariance (exposure : Buffer) (ccd : DetectorObj F)
| m_flatCorrection (exposure : Buffer) (dataRef : DataRef)
| m_saturationCorrection (exposure : Buffer) (detector : DetectorObj F)
| m_saturationDetection (exposure : Buffer) (detector : DetectorObj F)
| m_saturationInterpolation (exposure : Buffer)
| m_maskAndInterpDefect (exposure : Buffer) (detector : DetectorObj F)
| m_maskAndInterpNan (exposure : Buffer)
| m_overscanCorrection (exposure : Buffer) (detector : DetectorObj F).

(** Calling a method and dropping what it returns. *)
Definition invoke (m : Method) : Exec State unit :=
  match m with
  | m_run r => IsrTask.timed_run config r >> ret tt
  | m_biasCorrection e r => IsrTask.biasCorrection e r
  | m_darkCorrection e r => IsrTask.darkCorrection e r
  | m_updateVariance e d => IsrTask.updateVariance e d
  | m_flatCorrection e r => IsrTask.flatCorrection config e r
  | m_saturationCorrection e d => IsrTask.saturationCorrection config e d >> ret tt
  | m_saturationDetection e d => IsrTask.saturationDetection config e d >> ret tt
  | m_saturationInterpolation e => IsrTask.saturationInterpolation config e
  | m_maskAndInterpDefect e d => IsrTask.maskAndInterpDefect config e d
  | m_maskAndInterpNan e => IsrTask.maskAndInterpNan config e
  | m_overscanCorrection e d => IsrTask.overscanCorrection config e d
  end.

(** The states of a task that was built by [__init__] and on which methods
    were called since, whether they returned or raised. *)
Inductive reachable : State -> Prop :=
| reachable_init : reachable IsrTask.init
| reachable_invoke s m : reachable s -> reachable (exec_state (invoke m) s).

(** ** The sequence the task is meant to run

    [biasCorrection] and [updateVariance] as their parameters say they were
    meant: on the exposure and the data reference they are given. *)

Definition biasCorrection_intended (exposure : Buffer) (dataRef : DataRef)
  : Exec State unit :=
  let* biasMI := IsrTask.butler_get dataRef "bias" in
  IsrTask.call (BiasCorrection exposure biasMI).

Definition updateVariance_intended (exposure : Buffer) (ccd : DetectorObj F)
  : Exec State unit :=
  let* ep := lift_outcome (IsrTask.getElectronicParams ccd) in
  IsrTask.call (UpdateVariance exposure (getGain ep) (getReadNoise ep)).

(** [run] after the loop, with the two methods as meant. *)
Definition run_ccd_intended (ccdExp : Buffer) (ccd : DetectorObj F) (sensorRef : DataRef)
  : Exec State Buffer :=
  biasCorrection_intended ccdExp sensorRef >>
  IsrTask.darkCorrection ccdExp sensorRef >>
  updateVariance_intended ccdExp ccd >>
  IsrTask.flatCorrection config ccdExp sensorRef >>
  on_task (getattr_subtask "assembleCcd") >>
  IsrTask.call (AssembleCcd ccdExp) >>
  let ccdExp := Assembled ccdExp in
  let ccd := IsrTask.cast_Ccd (getDetector ccdExp) in
  IsrTask.maskAndInterpDefect config ccdExp ccd >>
  IsrTask.saturationInterpolation config ccdExp >>
  IsrTask.maskAndInterpNan config ccdExp >>
  when_ (doWrite config) (IsrTask.call (ButlerPut sensorRef ccdExp "visitCCD")) >>
  IsrTask.call (Display "visitCCD" ccdExp) >>
  ret ccdExp.

(** [run], with the two methods as meant. *)
Definition run_intended (sensorRef : DataRef) : Exec State Buffer :=
  on_task (log INFO (IsrTask.msg_performing sensorRef)) >>
  let* ccdExp := IsrTask.butler_get sensorRef "raw" in
  let ccd := IsrTask.cast_Ccd (getDetector ccdExp) in
  IsrTask.call (FloatImageFromInt ccdExp) >>
  let ccdExp := FloatImage ccdExp in
  let* amps := lift_outcome (IsrTask.iterate ccd) in
  for_each (IsrTask.run_amp config ccdExp) amps >>
  run_ccd_intended ccdExp ccd sensorRef.

(** The calls of the CCD stage in the order the task's documentation gives
    them: bias, dark, variance, flat, assembly, defects, saturation, NaN
    count, the optional write and the display. *)
Definition ccd_events (ccdExp : Buffer) (ep : ElectronicParams F) (defects : list Box2I)
    (sensorRef : DataRef) : list (Event F) :=
  let bias := Dataset sensorRef "bias" in
  let dark := Dataset sensorRef "dark" in
  let flat := Dataset sensorRef "flat" in
  let out := Assembled ccdExp in
  let grow := growDefectFootprintSize config in
  [ButlerGet sensorRef "bias"; BiasCorrection ccdExp bias;
   ButlerGetItem sensorRef "dark";
   DarkCorrection ccdExp dark (getExptime ccdExp) (getExptime dark);
   UpdateVariance ccdExp (getGain ep) (getReadNoise ep);
   ButlerGetItem sensorRef "flat";
   FlatCorrection ccdExp flat (flatScalingType config) (flatUserScale config);
   AssembleCcd ccdExp;
   MaskPixelsFromDefectList out (DefectBoxes defects) "BAD";
   GetDefectListFromMask out "BAD" grow;
   InterpolateDefectList out (DefectsFromMask out "BAD" grow) (fwhm config);
   InterpolateFromMask out (fwhm config) (growSaturationFootprintSize config)
     (saturatedMaskName config);
   AddMaskPlane out "UNMASKEDNAN"; CountUnmaskedNans out] ++
  (if doWrite config then [ButlerPut sensorRef out "visitCCD"] else []) ++
  [Display "visitCCD" out].

(** [stops_early c d]: on every state [c] either does what [d] does, or
    raises after calls that are the first calls of [d]. *)
Definition stops_early {A} (c d : Exec State A) : Prop :=
  forall s, c s = d s \/
            (is_Raised (exec_result c s) = true /\
             IsrTask.events (exec_state c s) `prefix_of` IsrTask.events (exec_state d s)).

(** ** The relation [emits] *)

#[export] Instance emits_preorder P : PreOrder (emits P).
Proof.
  split.
  - intros s. split; [done|]. exists []. by rewrite app_nil_r.
  - intros s1 s2 s3 (Ht1 & l1 & He1 & Hl1) (Ht2 & l2 & He2 & Hl2). split; [congruence|].
    exists (l1 ++ l2). rewrite He2, He1, app_assoc, forallb_app, Hl1, Hl2. done.
Qed.

#[export] Instance emits_untransposed_preorder P : PreOrder (emits_untransposed P).
Proof.
  split.
  - intros s _. reflexivity.
  - intros s1 s2 s3 H1 H2 Ht. specialize (H1 Ht).
    etrans; [done|]. apply H2. destruct H1 as [-> _]. done.
Qed.

#[export] Instance same_task_preorder : PreOrder same_task.
Proof.
  split; [by intros s|]. intros s1 s2 s3. unfold same_task. apply transitivity.
Qed.

Lemma same_task_call ev : relates same_task (IsrTask.call ev).
Proof. intros s. by rewrite IsrTask.call_state. Qed.

Lemma same_task_on_task {A} (c : Exec Task A) :
  keeps_identity c -> relates same_task (on_task c).
Proof. intros Hc s. rewrite IsrTask.on_task_state. apply Hc. Qed.

Lemma emits_record P l s : forallb P l = true -> emits P s (IsrTask.record l s).
Proof. intros Hl. split; [done|]. by exists l. Qed.

Lemma emits_call P ev : P ev = true -> relates (emits P) (IsrTask.call ev).
Proof.
  intros Hev s. rewrite IsrTask.call_state. apply emits_record. simpl. by rewrite Hev.
Qed.

Lemma emits_on_task P {A} (c : Exec Task A) : relates (emits P) (on_task c).
Proof.
  intros s. rewrite IsrTask.on_task_state. split; [done|]. exists []. simpl.
  by rewrite app_nil_r.
Qed.

Lemma emits_to_untransposed P {A} (c : Exec State A) :
  relates (emits P) c -> relates (emits_untransposed P) c.
Proof. intros Hc s _. apply Hc. Qed.

Lemma untransposed_call P ev :
  P ev = true -> relates (emits_untransposed P) (IsrTask.call ev).
Proof. intros Hev. by apply emits_to_untransposed, emits_call. Qed.

(** A task whose attribute is [False] takes the branch [else]. *)
Lemma untransposed_branch P {B} (k : bool -> Exec State B) :
  relates (emits_untransposed P) (k false) ->
  relates (emits_untransposed P) (bind (gets IsrTask.transposeForInterpolation) k).
Proof. intros Hk. apply relates_gets_bind. intros s Ht. rewrite Ht. by apply Hk. Qed.

Lemma relates_load (R : State -> State -> Prop) `{!PreOrder R} locals name :
  relates R (IsrTask.load locals name).
Proof.
  unfold IsrTask.load. destruct (assoc _ _); [by apply relates_ret|].
  destruct (bool_decide _); by (apply relates_ret || apply relates_raise).
Qed.

Lemma relates_as_defects (R : State -> State -> Prop) `{!PreOrder R} v :
  relates R (IsrTask.as_defects v).
Proof. destruct v; by (apply relates_raise || apply relates_ret). Qed.

End Spec.

#[export] Hint Resolve emits_call emits_on_task : exec.

(** Splits a sequence of steps into its steps, for a relation on states. *)
Ltac relates_step :=
  match goal with
  | |- PreOrder _ => apply _
  | |- forall _, _ => intros
  | |- relates (emits_untransposed _) (bind (gets IsrTask.transposeForInterpolation) _) =>
      apply untransposed_branch
  | |- relates _ (bind (bind _ (fun _ => ret _)) _) => apply relates_bind_const
  | |- relates _ (bind _ _) => apply relates_bind
  | |- relates _ (when_ true _) => unfold when_
  | |- relates _ (when_ false _) => unfold when_
  | |- relates _ (when_ _ _) => apply relates_when
  | |- relates _ (finally_ _ _) => apply relates_finally
  | |- relates _ (if _ then _ else _) => apply relates_if
  | |- relates _ (ret _) => apply relates_ret
  | |- relates _ (raise _) => apply relates_raise
  | |- relates _ (lift_outcome _) => apply relates_lift
  | |- relates _ (gets _) => apply relates_gets
  | |- relates same_task (on_task _) => apply same_task_on_task; by auto with exec
  | |- relates same_task (IsrTask.call _) => apply same_task_call
  | |- relates (emits _) (on_task _) => apply emits_on_task
  | |- relates (emits (amp_stage_on _)) (IsrTask.call _) =>
      apply emits_call; unfold amp_stage_on; simpl; by (done || apply bool_decide_eq_true_2)
  | |- relates (emits _) (IsrTask.call _) => apply emits_call; done
  | |- relates (emits_untransposed _) (on_task _) =>
      apply emits_to_untransposed, emits_on_task
  | |- relates (emits_untransposed _) (IsrTask.call _) => apply untransposed_call; done
  | |- relates _ (for_each _ _) => apply relates_for_each
  | |- relates _ (IsrTask.load _ _) => apply relates_load
  | |- relates _ (IsrTask.getMaskedImage ?v) => destruct v; simpl
  | |- relates _ (IsrTask.value_get ?v _) => destruct v; simpl; unfold IsrTask.butler_get
  | |- relates _ (IsrTask.as_defects _) => apply relates_as_defects
  end.

Ltac relates_steps := repeat relates_step.

(** Unfolds the methods of the task down to their primitive steps. *)
Ltac unfold_methods :=
  unfold IsrTask.timed_run, timeMethod, IsrTask.run, IsrTask.run_amp, IsrTask.run_ccd,
    IsrTask.biasCorrection, IsrTask.darkCorrection, IsrTask.updateVariance,
    IsrTask.flatCorrection, IsrTask.saturationCorrection, IsrTask.saturationDetection,
    IsrTask.saturationInterpolation, IsrTask.maskAndInterpDefect,
    IsrTask.interpolate_defects, IsrTask.maskAndInterpNan, IsrTask.interpolate_nans,
    IsrTask.overscanCorrection, IsrTask.butler_get, IsrTask.butler_getitem.

Section Claims.
Context {F : Type} {W : Collaborators F} {T : Timer} (config : IsrTaskConfig.t F).

#[local] Abbreviation State := (IsrTask.State F).

Lemma biasCorrection_never exposure dataRef :
  never_returns (IsrTask.biasCorrection (F := F) exposure dataRef).
Proof. by intros s. Qed.

Lemma run_ccd_never ccdExp ccd sensorRef :
  never_returns (IsrTask.run_ccd config ccdExp ccd sensorRef).
Proof. apply never_bind_l, biasCorrection_never. Qed.

Lemma run_ccd_emits P ccdExp ccd sensorRef :
  relates (emits P) (IsrTask.run_ccd config ccdExp ccd sensorRef).
Proof.
  apply relates_bind_never; [|apply biasCorrection_never].
  intros s. unfold exec_state. rewrite IsrTask.biasCorrection_raises. reflexivity.
Qed.

Lemma saturationDetection_emits exposure detector :
  relates (emits (amp_stage_on (storage exposure)))
    (IsrTask.saturationDetection config exposure detector).
Proof. unfold IsrTask.saturationDetection. relates_steps. Qed.

Lemma overscanCorrection_emits exposure detector :
  relates (emits (amp_stage_on (storage exposure)))
    (IsrTask.overscanCorrection config exposure detector).
Proof. unfold IsrTask.overscanCorrection. relates_steps. Qed.

(** An iteration of the loop of [run] writes through the sub-exposure,
    which is a view: into the pixels of the exposure of the CCD. *)
Lemma run_amp_emits ccdExp amp :
  relates (emits (amp_stage_on (storage ccdExp))) (IsrTask.run_amp config ccdExp amp).
Proof.
  unfold IsrTask.run_amp. relates_steps;
    [apply (saturationDetection_emits (View ccdExp _))
    | apply (overscanCorrection_emits (View ccdExp _))].
Qed.

(** In a world where no collaborator raises, a call returns. *)
Lemma call_all_return ev (s : State) :
  all_return -> IsrTask.call ev s = (Normal tt, IsrTask.record [ev] s).
Proof. intros Hall. apply IsrTask.call_returns, Hall. Qed.

(** Runs the calls of a sequence of steps in a world where they return. *)
Ltac run_calls Hall :=
  unfold IsrTask.butler_get, IsrTask.butler_getitem, bind, lift_outcome, ret, gets, when_;
  repeat (rewrite (call_all_return _ _ Hall) || simpl);
  rewrite ?IsrTask.record_app; simpl.

Lemma run_amp_returns ccdExp amp amp' (s : State) :
  all_return ->
  getDetector (View ccdExp (getDiskAllPixels amp)) = IsAmp amp' ->
  IsrTask.run_amp config ccdExp amp s =
  (Normal tt, IsrTask.record (amp_events config ccdExp (getDiskAllPixels amp) amp') s).
Proof.
  intros Hall Hd. unfold IsrTask.run_amp, IsrTask.saturationDetection,
    IsrTask.overscanCorrection. rewrite Hd. by run_calls Hall.
Qed.

Lemma run_amp_not_amp ccdExp amp (s : State) :
  all_return ->
  IsrTask.checkIsAmp (getDetector (View ccdExp (getDiskAllPixels amp))) = false ->
  IsrTask.run_amp config ccdExp amp s =
  (Raised (RuntimeError IsrTask.msg_amp_only),
   IsrTask.record [MakeView ccdExp (getDiskAllPixels amp)] s).
Proof.
  intros Hall Hd. unfold IsrTask.run_amp, IsrTask.saturationDetection.
  erewrite bind_normal; [|by apply call_all_return].
  by destruct (getDetector _).
Qed.

Lemma loop_returns ccdExp amps (s : State) :
  all_return ->
  Forall (fun amp =>
    IsrTask.checkIsAmp (getDetector (View ccdExp (getDiskAllPixels amp))) = true) amps ->
  for_each (IsrTask.run_amp config ccdExp) amps s =
  (Normal tt, IsrTask.record (loop_events config ccdExp amps) s).
Proof.
  intros Hall Hamps. revert s. induction Hamps as [|amp amps Hamp _ IH]; intros s; simpl.
  - by rewrite IsrTask.record_nil.
  - destruct (getDetector _) as [|amp'|] eqn:Hd; try done.
    erewrite bind_normal; [|by apply run_amp_returns].
    by rewrite IH, IsrTask.record_app.
Qed.

(** C2: [IsrTask.run] never returns: whatever the data reference, the
    configuration, the state of the task and the behaviour of every
    collaborator, it ends by raising an exception, because [biasCorrection],
    which it always reaches unless an earlier step raises, reads the name
    [sensorRef] that it does not bind. *)
Theorem isr_run_never_returns (sensorRef : DataRef) (s : State) :
  is_Normal (exec_result (IsrTask.run config sensorRef) s) = false.
Proof.
  revert s. change (never_returns (IsrTask.run config sensorRef)).
  unfold IsrTask.run. do 5 (apply never_bind_r; intros). apply run_ccd_never.
Qed.

(** C14: the calls [IsrTask.run] makes are those of the amplifier stage only:
    reading the raw exposure, the conversion to float, and per amplifier the
    sub-exposure, [makeThresholdMask] and [overscanCorrection]. No bias,
    dark, flat or variance correction, no assembly, no interpolation and no
    [put] is ever called, whatever [doWrite] says; and what the calls
    write, they write through views into the float copy of the raw
    exposure: the raw exposure itself is left as it was read. *)
Theorem isr_run_stops_before_bias (sensorRef : DataRef) (s : State) :
  exists l, IsrTask.events (exec_state (IsrTask.run config sensorRef) s)
            = IsrTask.events s ++ l /\
            forallb (amp_stage_on (FloatImage (Dataset sensorRef "raw"))) l = true.
Proof.
  revert s.
  cut (relates (emits (amp_stage_on (FloatImage (Dataset sensorRef "raw"))))
         (IsrTask.run config sensorRef)).
  { intros Hr s. by destruct (Hr s) as (_ & l & He & Hl); exists l. }
  unfold IsrTask.run, IsrTask.butler_get. relates_steps.
  - apply (run_amp_emits (FloatImage _)).
  - apply run_ccd_emits.
Qed.

(** C5: when no collaborator raises, the raw exposure carries a CCD and
    the sub-exposure of each amplifier carries an amplifier, [IsrTask.run]
    logs its message, reads the raw exposure, converts it, makes for each
    amplifier in turn the four calls of [amp_events] with the saturation
    level and the bias section of the amplifier the sub-exposure carries,
    and then raises [NameError] for [sensorRef]. *)
Theorem isr_run_raises_NameError (sensorRef : DataRef) (c : CcdGeom F) (s : State) :
  let raw := Dataset sensorRef "raw" in
  all_return ->
  getDetector raw = IsCcd c ->
  Forall (fun amp =>
    IsrTask.checkIsAmp (getDetector (View (FloatImage raw) (getDiskAllPixels amp)))
    = true) (ccdAmps c) ->
  IsrTask.run config sensorRef s =
  (Raised (NameError "sensorRef"),
   IsrTask.record
     ([ButlerGet sensorRef "raw"; FloatImageFromInt raw] ++
      loop_events config (FloatImage raw) (ccdAmps c))
     (exec_state (on_task (log INFO (IsrTask.msg_performing sensorRef))) s)).
Proof.
  intros raw Hall Hraw Hamps. subst raw. unfold IsrTask.run.
  erewrite bind_normal; [|done]. erewrite bind_normal; [|by run_calls Hall].
  rewrite Hraw. simpl.
  repeat (erewrite bind_normal; [|by apply call_all_return || done]).
  erewrite bind_normal; [|by apply loop_returns].
  unfold IsrTask.run_ccd. erewrite bind_raised; [|apply IsrTask.biasCorrection_raises].
  by rewrite !IsrTask.record_app.
Qed.

(** C20: the three methods that work on one amplifier refuse anything else:
    when [checkIsAmp] is false for the detector they are given,
    [saturationCorrection], [saturationDetection] and [overscanCorrection]
    raise "This method must be executed on an amp." and call nothing. *)
Theorem amp_methods_refuse (exposure : Buffer) (detector : DetectorObj F) (s : State) :
  IsrTask.checkIsAmp detector = false ->
  IsrTask.saturationCorrection config exposure detector s
    = (Raised (RuntimeError IsrTask.msg_amp_only), s) /\
  IsrTask.saturationDetection config exposure detector s
    = (Raised (RuntimeError IsrTask.msg_amp_only), s) /\
  IsrTask.overscanCorrection config exposure detector s
    = (Raised (RuntimeError IsrTask.msg_amp_only), s).
Proof.
  intros Hd. unfold IsrTask.saturationCorrection, IsrTask.saturationDetection,
    IsrTask.overscanCorrection. by rewrite Hd.
Qed.

(** C10: [maskAndInterpNan] is its fail-fast part: the branch [if nnans > 0]
    that follows the [raise] is never entered, so the method behaves, on
    every state and for every collaborator, as the method without that
    branch. *)
Theorem maskAndInterpNan_is_fail_fast (exposure : Buffer) :
  IsrTask.maskAndInterpNan config exposure =e= maskAndInterpNan_fail_fast exposure.
Proof.
  unfold IsrTask.maskAndInterpNan, maskAndInterpNan_fail_fast.
  do 2 (apply bind_proper; [done|intros _]).
  apply bind_proper; [done|intros nnans]. apply bind_proper; [done|intros _].
  intros s. by destruct (Z.eqb_spec nnans 0) as [->|Hn].
Qed.

(** Whatever method is called on a task whose attribute is [False], the
    attribute stays [False] and no call of the transposed path is made. *)
Lemma invoke_untransposed m :
  relates (emits_untransposed no_transposition) (invoke config m).
Proof. destruct m; simpl; unfold_methods; relates_steps. Qed.

(** C12: the transposed interpolation is never used: in every state a task
    reaches from [__init__] by calls of its methods, in any order, with any
    arguments and whatever the collaborators do, the attribute
    [transposeForInterpolation] is [False] and no call to
    [transposeMaskedImage], [transposeDefectList] or [setMaskedImage] was
    made. *)
Theorem transposed_path_unreachable (s : State) :
  reachable config s ->
  IsrTask.transposeForInterpolation s = false /\
  forallb no_transposition (IsrTask.events s) = true.
Proof.
  induction 1 as [|s m _ [IHt IHe]]; [done|].
  destruct (invoke_untransposed m s IHt) as (Ht & l & He & Hl).
  split; [congruence|]. by rewrite He, forallb_app, IHe, Hl.
Qed.

(** C15: building the task. [IsrTask(name=name)] returns whatever the object
    held before: the task gets the name given, or "isr" when none is, an
    empty log and empty metadata; [makeSubtask] binds the one sub-task
    [assembleCcd], of the class the configuration field names, under the
    full name "<name>.assembleCcd"; the attribute
    [transposeForInterpolation] is [False], and no collaborator is called. *)
Theorem isr_task_constructed (name : option string) (s : State) :
  let n := default IsrTask._DefaultName name in
  IsrTask.__init__ name s =
  (Normal tt,
   IsrTask.mkState (IsrTask.events s)
     (set_subtasks
        {["assembleCcd" := mkSubtask "assembleCcd" (n +:+ ".assembleCcd") "AssembleCcdTask"]}
        (newTask n))
     false).
Proof. by destruct name. Qed.

(** No method rebinds the name or a sub-task of the task. *)
Lemma invoke_same_task m : relates same_task (invoke config m).
Proof. destruct m; simpl; unfold_methods; relates_steps. Qed.

(** C16: the sub-task is always there. In every state a task reaches from
    [__init__] by calls of its methods, in any order, with any arguments and
    whatever the collaborators do, the task is still named "isr" and the
    attribute [assembleCcd] is the sub-task that [__init__] made: reading
    [self.assembleCcd], as [run] does before it assembles, returns it,
    raises no [AttributeError] and changes nothing. *)
Theorem subtask_always_bound (s : State) :
  reachable config s ->
  getFullName (IsrTask.task s) = "isr" /\
  on_task (getattr_subtask "assembleCcd") s =
    (Normal (mkSubtask "assembleCcd" "isr.assembleCcd" "AssembleCcdTask"), s).
Proof.
  intros Hr.
  assert (same_task IsrTask.init s) as [Hn Hs].
  { induction Hr as [|s m _ IH]; [done|]. etrans; [done | apply invoke_same_task]. }
  split; [by rewrite <- Hn|]. apply IsrTask.getattr_bound. by rewrite <- Hs.
Qed.

(** C32: three configuration fields are never read: two configurations that
    agree on the other nine fields make every method of the task, [run]
    included, behave the same on every state. [setGainAssembledCcd],
    [keysToRemoveFromAssembledCcd] and [reNormAssembledCcd] have no effect
    on what the task does. *)
Theorem unread_config_fields (config' : IsrTaskConfig.t F) (m : Method) (s : State) :
  same_read_fields config config' ->
  invoke config m s = invoke config' m s.
Proof.
  destruct config, config'. unfold same_read_fields. simpl.
  intros (-> & -> & -> & -> & -> & -> & -> & -> & ->). by destruct m.
Qed.

(** C29: when its calls return, [maskAndInterpNan] adds the mask plane
    UNMASKEDNAN, counts the unmasked NaN pixels, records the count under
    NUMNANS in the metadata, and returns if the count is zero; for any other
    count, negative included, it raises "There were %i unmasked NaNs" with
    the count. No interpolation is called in either case. *)
Theorem maskAndInterpNan_outcome (exposure : Buffer) (s : State) :
  let calls := [AddMaskPlane exposure "UNMASKEDNAN"; CountUnmaskedNans exposure] in
  let nnans := getNpix (IsrTask.events s ++ calls) in
  all_return ->
  IsrTask.maskAndInterpNan config exposure s =
  (if (nnans =? 0)%Z then Normal tt else Raised (RuntimeError (IsrTask.msg_nans nnans)),
   IsrTask.mkState (IsrTask.events s ++ calls)
     (exec_state (metadata_set "NUMNANS" nnans) (IsrTask.task s))
     (IsrTask.transposeForInterpolation s)).
Proof.
  intros calls nnans Hall. unfold IsrTask.maskAndInterpNan. run_calls Hall.
  rewrite <- !app_assoc. simpl. fold calls nnans. by destruct (Z.eqb_spec nnans 0) as [->|Hn].
Qed.

(** When the sub-exposure of the first amplifier does not carry an
    amplifier (it carries the CCD of its parent, say), [IsrTask.run] raises
    the error "This method must be executed on an amp." after three calls:
    reading the raw exposure, the conversion, and that sub-exposure. *)
Theorem isr_run_raises_at_first_amp (sensorRef : DataRef) (c : CcdGeom F)
    (amp : AmpGeom F) (amps : list (AmpGeom F)) (s : State) :
  let raw := Dataset sensorRef "raw" in
  all_return ->
  getDetector raw = IsCcd c ->
  ccdAmps c = amp :: amps ->
  IsrTask.checkIsAmp (getDetector (View (FloatImage raw) (getDiskAllPixels amp))) = false ->
  IsrTask.run config sensorRef s =
  (Raised (RuntimeError IsrTask.msg_amp_only),
   IsrTask.record
     [ButlerGet sensorRef "raw"; FloatImageFromInt raw;
      MakeView (FloatImage raw) (getDiskAllPixels amp)]
     (exec_state (on_task (log INFO (IsrTask.msg_performing sensorRef))) s)).
Proof.
  intros raw Hall Hraw Hc Hamp. subst raw. unfold IsrTask.run.
  erewrite bind_normal; [|done]. erewrite bind_normal; [|by run_calls Hall].
  rewrite Hraw. simpl. rewrite Hc.
  repeat (erewrite bind_normal; [|by apply call_all_return || done]).
  simpl. erewrite bind_raised; [|erewrite bind_raised; [done|by apply run_amp_not_amp]].
  by rewrite !IsrTask.record_app.
Qed.

(** [updateVariance] makes no call: it raises [NameError] for
    [ccdExp], a name of [run] that the method, whose parameter is
    [exposure], does not bind; the state of the task is unchanged. *)
Theorem updateVariance_raises (exposure : Buffer) (ccd : DetectorObj F) (s : State) :
  IsrTask.updateVariance exposure ccd s = (Raised (NameError "ccdExp"), s).
Proof. unfold IsrTask.updateVariance. by rewrite (bind_raised _ _ s (NameError "ccdExp") s). Qed.

(** On an amplifier, [saturationDetection] makes one call,
    [makeThresholdMask] on the exposure with the saturation level of that
    amplifier, no growth of the footprints and the configured mask plane,
    and [saturationCorrection] makes one call with the configured FWHM and
    growth; each returns the exposure it was given exactly when its call
    returns. *)
Theorem saturation_methods_call (exposure : Buffer) (a : AmpGeom F) (s : State) :
  let sat := getSaturationLevel (ampElectronicParams a) in
  let detect := MakeThresholdMask exposure sat 0 (saturatedMaskName config) in
  let correct := SaturationCorrection exposure sat (fwhm config)
                   (growSaturationFootprintSize config) (saturatedMaskName config) in
  IsrTask.saturationDetection config exposure (IsAmp a) s =
    (match fails (IsrTask.events s) detect with
     | None => Normal exposure | Some e => Raised e end, IsrTask.record [detect] s) /\
  IsrTask.saturationCorrection config exposure (IsAmp a) s =
    (match fails (IsrTask.events s) correct with
     | None => Normal exposure | Some e => Raised e end, IsrTask.record [correct] s).
Proof.
  intros sat detect correct.
  unfold IsrTask.saturationDetection, IsrTask.saturationCorrection, bind, IsrTask.call.
  simpl. fold sat detect correct.
  by destruct (fails _ detect), (fails _ correct).
Qed.

(** When its calls return, [saturationInterpolation] interpolates over
    the configured mask plane with the configured FWHM and growth: in one
    call on the exposure when the attribute [transposeForInterpolation] is
    [False]; otherwise on the transposed image, which it transposes back and
    installs in the exposure. *)
Theorem saturationInterpolation_calls (exposure : Buffer) (s : State) :
  let interpolate mi := InterpolateFromMask mi (fwhm config)
                          (growSaturationFootprintSize config) (saturatedMaskName config) in
  all_return ->
  IsrTask.saturationInterpolation config exposure s =
  (Normal tt,
   IsrTask.record
     (if IsrTask.transposeForInterpolation s then
        [TransposeMaskedImage exposure; interpolate (Transposed exposure);
         TransposeMaskedImage (Transposed exposure);
         SetMaskedImage exposure (Transposed (Transposed exposure))]
      else [interpolate exposure]) s).
Proof.
  intros interpolate Hall. unfold IsrTask.saturationInterpolation.
  unfold bind at 1, gets. by destruct (IsrTask.transposeForInterpolation s) eqn:Ht; run_calls Hall.
Qed.

(** When its calls return and the task is as [__init__] leaves it,
    [maskAndInterpDefect] masks the boxes of the detector's defects in the
    plane BAD, asks for the defects of that plane grown by
    [growDefectFootprintSize], and interpolates over those with the
    configured FWHM: three calls, in that order, on the exposure itself. A
    detector that is [None] makes it raise before any call. *)
Theorem maskAndInterpDefect_calls (exposure : Buffer) (detector : DetectorObj F)
    (s : State) :
  let grow := growDefectFootprintSize config in
  all_return ->
  IsrTask.transposeForInterpolation s = false ->
  IsrTask.maskAndInterpDefect config exposure detector s =
  match IsrTask.getDefects detector with
  | Normal boxes =>
      (Normal tt,
       IsrTask.record
         [MaskPixelsFromDefectList exposure (DefectBoxes boxes) "BAD";
          GetDefectListFromMask exposure "BAD" grow;
          InterpolateDefectList exposure (DefectsFromMask exposure "BAD" grow) (fwhm config)]
         s)
  | Raised e => (Raised e, s)
  end.
Proof.
  intros grow Hall Ht. unfold IsrTask.maskAndInterpDefect, IsrTask.interpolate_defects.
  destruct (IsrTask.getDefects detector) as [boxes|e]; [|done].
  run_calls Hall. rewrite Ht. by run_calls Hall.
Qed.

(** When their calls return, [darkCorrection] reads the dark exposure
    and passes [isr.darkCorrection] the exposure time of the science
    exposure and then that of the dark, and [flatCorrection] reads the flat
    and passes [isr.flatCorrection] the configured scaling type and user
    scale. *)
Theorem calibration_calls (exposure : Buffer) (dataRef : DataRef) (s : State) :
  let dark := Dataset dataRef "dark" in
  let flat := Dataset dataRef "flat" in
  all_return ->
  IsrTask.darkCorrection exposure dataRef s =
    (Normal tt,
     IsrTask.record
       [ButlerGetItem dataRef "dark";
        DarkCorrection exposure dark (getExptime exposure) (getExptime dark)] s) /\
  IsrTask.flatCorrection config exposure dataRef s =
    (Normal tt,
     IsrTask.record
       [ButlerGetItem dataRef "flat";
        FlatCorrection exposure flat (flatScalingType config) (flatUserScale config)] s).
Proof.
  intros dark flat Hall. unfold IsrTask.darkCorrection, IsrTask.flatCorrection.
  split; by run_calls Hall.
Qed.

Lemma stops_early_bind {A B} (c : Exec State A) (k1 k2 : A -> Exec State B) :
  (forall a, stops_early (k1 a) (k2 a)) -> stops_early (bind c k1) (bind c k2).
Proof.
  intros Hk s. unfold exec_result, exec_state, bind.
  destruct (c s) as [[a|e] s']; [apply Hk | by left].
Qed.

Lemma stops_early_prefix {A} (c d : Exec State A) s :
  stops_early c d ->
  IsrTask.events (exec_state c s) `prefix_of` IsrTask.events (exec_state d s).
Proof. intros H. destruct (H s) as [Heq|[_ Hp]]; [|done]. unfold exec_state. by rewrite Heq. Qed.

Lemma run_ccd_intended_emits ccdExp ccd sensorRef :
  relates (emits (fun _ => true)) (run_ccd_intended config ccdExp ccd sensorRef).
Proof.
  unfold run_ccd_intended, biasCorrection_intended, updateVariance_intended,
    IsrTask.butler_get, IsrTask.darkCorrection, IsrTask.flatCorrection,
    IsrTask.butler_getitem, IsrTask.maskAndInterpDefect, IsrTask.interpolate_defects,
    IsrTask.saturationInterpolation, IsrTask.maskAndInterpNan, IsrTask.interpolate_nans.
  relates_steps.
Qed.

(** C21: the calls of [IsrTask.run] are a prefix of the calls of the
    sequence the task is meant to run: on every state and for every
    behaviour of the collaborators, [run] and [run_intended] make the same
    calls until [biasCorrection], where [run] stops. *)
Theorem isr_run_prefix_of_intended (sensorRef : DataRef) (s : State) :
  IsrTask.events (exec_state (IsrTask.run config sensorRef) s)
    `prefix_of` IsrTask.events (exec_state (run_intended config sensorRef) s).
Proof.
  apply stops_early_prefix. unfold IsrTask.run, run_intended.
  apply stops_early_bind; intros _. apply stops_early_bind; intros raw.
  do 3 (apply stops_early_bind; intros). intros s'. right.
  unfold exec_result, exec_state, IsrTask.run_ccd.
  erewrite bind_raised; [|apply IsrTask.biasCorrection_raises]. split; [done|].
  destruct (run_ccd_intended_emits (FloatImage raw) (IsrTask.cast_Ccd (getDetector raw))
              sensorRef s') as (_ & l & Hl & _).
  by exists l.
Qed.

(** C24: the sequence the task is meant to run completes. When no
    collaborator raises, the raw exposure and the assembled exposure carry a
    CCD, every sub-exposure carries an amplifier, no unmasked NaN is counted
    and the task is as [__init__] leaves it, [run_intended] returns the
    assembled exposure after the calls of the amplifier stage followed by
    those of [ccd_events]: bias, dark, variance, flat, assembly, defect
    masking and interpolation, saturation interpolation, the NaN count, the
    write when [doWrite] is set, and the display. *)
Theorem intended_run_completes (sensorRef : DataRef) (c c' : CcdGeom F) (s : State) :
  let raw := Dataset sensorRef "raw" in
  all_return ->
  getDetector raw = IsCcd c ->
  getDetector (Assembled (FloatImage raw)) = IsCcd c' ->
  Forall (fun amp =>
    IsrTask.checkIsAmp (getDetector (View (FloatImage raw) (getDiskAllPixels amp)))
    = true) (ccdAmps c) ->
  (forall h, getNpix h = 0%Z) ->
  is_Some (getSubtasks (IsrTask.task s) !! "assembleCcd") ->
  IsrTask.transposeForInterpolation s = false ->
  exec_result (run_intended config sensorRef) s = Normal (Assembled (FloatImage raw)) /\
  IsrTask.events (exec_state (run_intended config sensorRef) s) =
    IsrTask.events s ++
    [ButlerGet sensorRef "raw"; FloatImageFromInt raw] ++
    loop_events config (FloatImage raw) (ccdAmps c) ++
    ccd_events config (FloatImage raw) (ccdElectronicParams c) (ccdDefects c') sensorRef.
Proof.
  intros raw Hall Hraw Hasm Hamps Hnan [st Hst] Ht. subst raw.
  unfold exec_result, exec_state, run_intended.
  erewrite bind_normal; [|done]. erewrite bind_normal; [|by run_calls Hall].
  rewrite Hraw. simpl.
  repeat (erewrite bind_normal; [|by apply call_all_return || done]).
  erewrite bind_normal; [|by apply loop_returns].
  unfold run_ccd_intended, biasCorrection_intended, updateVariance_intended,
    IsrTask.darkCorrection, IsrTask.flatCorrection, IsrTask.maskAndInterpDefect,
    IsrTask.interpolate_defects, IsrTask.saturationInterpolation,
    IsrTask.maskAndInterpNan, ccd_events.
  rewrite Hasm. run_calls Hall. erewrite IsrTask.getattr_bound; [|exact Hst].
  run_calls Hall. rewrite Ht. run_calls Hall. rewrite !Hnan. simpl.
  destruct (doWrite config); run_calls Hall; (split; [done|]);
    by repeat (rewrite <- !app_assoc; simpl).
Qed.

End Claims.

(** ** The theorems at the camera of IsrFixtures *)

Lemma benign_all_return : all_return (W := IsrDemo.benign).
Proof. by intros h ev. Qed.

Lemma nan_found_all_return : all_return (W := IsrDemo.nan_found).
Proof. by intros h ev. Qed.

Lemma parent_detector_all_return : all_return (W := IsrDemo.parent_detector).
Proof. by intros h ev. Qed.

Lemma isr_run_raises_NameError_witness :
  IsrTask.run (W := IsrDemo.benign) IsrDemo.config IsrDemo.sensorRef IsrDemo.fresh =
  (Raised (NameError "sensorRef"),
   IsrTask.mkState
     (let raw := IsrDemo.raw in
      let exp0 := View (FloatImage raw) (mkBox2I 0 0 4 2) in
      let exp1 := View (FloatImage raw) (mkBox2I 4 0 4 2) in
      [ButlerGet IsrDemo.sensorRef "raw"; FloatImageFromInt raw;
       MakeView (FloatImage raw) (mkBox2I 0 0 4 2);
       MakeThresholdMask exp0 60000%Q 0 "SAT";
       MakeView exp0 (mkBox2I 3 0 1 2);
       OverscanCorrection exp0 (View exp0 (mkBox2I 3 0 1 2)) "MEDIAN" 1;
       MakeView (FloatImage raw) (mkBox2I 4 0 4 2);
       MakeThresholdMask exp1 50000%Q 0 "SAT";
       MakeView exp1 (mkBox2I 4 0 1 2);
       OverscanCorrection exp1 (View exp1 (mkBox2I 4 0 1 2)) "MEDIAN" 1])
     (set_log [mkLogRecord INFO (IsrTask.msg_performing IsrDemo.sensorRef)]
        (IsrTask.task IsrDemo.fresh))
     false).
Proof.
  rewrite (isr_run_raises_NameError (W := IsrDemo.benign) IsrDemo.config IsrDemo.sensorRef
             IsrDemo.ccd IsrDemo.fresh);
    [done | apply benign_all_return | done | by repeat constructor].
Defined.

Lemma amp_methods_refuse_witness :
  IsrTask.overscanCorrection (W := IsrDemo.benign) IsrDemo.config IsrDemo.raw
    (IsCcd IsrDemo.ccd) IsrDemo.fresh
  = (Raised (RuntimeError IsrTask.msg_amp_only), IsrDemo.fresh).
Proof.
  by apply (amp_methods_refuse (W := IsrDemo.benign) IsrDemo.config IsrDemo.raw
              (IsCcd IsrDemo.ccd) IsrDemo.fresh).
Defined.

Lemma transposed_path_unreachable_witness :
  let s := exec_state (invoke (W := IsrDemo.benign) (T := IsrDemo.timer) IsrDemo.config
                         (m_maskAndInterpDefect IsrDemo.raw (IsCcd IsrDemo.ccd)))
             (exec_state (invoke (W := IsrDemo.benign) (T := IsrDemo.timer) IsrDemo.config
                            (m_run IsrDemo.sensorRef)) IsrDemo.fresh) in
  IsrTask.transposeForInterpolation s = false /\
  forallb no_transposition (IsrTask.events s) = true.
Proof.
  apply (transposed_path_unreachable (W := IsrDemo.benign) (T := IsrDemo.timer) IsrDemo.config).
  apply reachable_invoke, reachable_invoke, reachable_init.
Defined.

Lemma subtask_always_bound_witness :
  let s := exec_state (invoke (W := IsrDemo.benign) (T := IsrDemo.timer) IsrDemo.config
                         (m_run IsrDemo.sensorRef)) IsrDemo.fresh in
  getFullName (IsrTask.task s) = "isr" /\
  on_task (getattr_subtask "assembleCcd") s =
    (Normal (mkSubtask "assembleCcd" "isr.assembleCcd" "AssembleCcdTask"), s).
Proof.
  apply (subtask_always_bound (W := IsrDemo.benign) (T := IsrDemo.timer) IsrDemo.config).
  apply reachable_invoke, reachable_init.
Defined.

Lemma unread_config_fields_witness :
  let config' := IsrTaskConfig.mk true 1%Q "SAT" "USER" 1%Q "MEDIAN" 1 1 1 false ["GAIN"] false in
  invoke (W := IsrDemo.benign) (T := IsrDemo.timer) IsrDemo.config (m_run IsrDemo.sensorRef) IsrDemo.fresh =
  invoke (W := IsrDemo.benign) (T := IsrDemo.timer) config' (m_run IsrDemo.sensorRef) IsrDemo.fresh.
Proof.
  apply (unread_config_fields (W := IsrDemo.benign) (T := IsrDemo.timer) IsrDemo.config). by repeat split.
Defined.

Lemma maskAndInterpNan_outcome_witness :
  exec_result (IsrTask.maskAndInterpNan (W := IsrDemo.nan_found) IsrDemo.config IsrDemo.raw)
    IsrDemo.fresh = Raised (RuntimeError (IsrTask.msg_nans 3)) /\
  getMetadata (IsrTask.task
    (exec_state (IsrTask.maskAndInterpNan (W := IsrDemo.nan_found) IsrDemo.config IsrDemo.raw)
       IsrDemo.fresh)) !! "NUMNANS" = Some 3%Z.
Proof.
  unfold exec_result, exec_state.
  rewrite (maskAndInterpNan_outcome (W := IsrDemo.nan_found) IsrDemo.config IsrDemo.raw
             IsrDemo.fresh nan_found_all_return).
  by vm_compute.
Defined.

Lemma intended_run_completes_witness :
  let out := Assembled (FloatImage IsrDemo.raw) in
  exec_result (run_intended (W := IsrDemo.benign) IsrDemo.config IsrDemo.sensorRef)
    IsrDemo.fresh = Normal out /\
  drop 24 (IsrTask.events
    (exec_state (run_intended (W := IsrDemo.benign) IsrDemo.config IsrDemo.sensorRef)
       IsrDemo.fresh)) =
  [ButlerPut IsrDemo.sensorRef out "visitCCD"; Display "visitCCD" out].
Proof.
  intros out.
  destruct (intended_run_completes (W := IsrDemo.benign) IsrDemo.config IsrDemo.sensorRef
              IsrDemo.ccd IsrDemo.ccd IsrDemo.fresh benign_all_return eq_refl eq_refl)
    as [Hr He]; [by repeat constructor | done | done | done |].
  split; [exact Hr|]. by rewrite He.
Defined.

Lemma isr_run_raises_at_first_amp_witness :
  IsrTask.run (W := IsrDemo.parent_detector) IsrDemo.config IsrDemo.sensorRef IsrDemo.fresh =
  (Raised (RuntimeError IsrTask.msg_amp_only),
   IsrTask.mkState
     [ButlerGet IsrDemo.sensorRef "raw"; FloatImageFromInt IsrDemo.raw;
      MakeView (FloatImage IsrDemo.raw) (mkBox2I 0 0 4 2)]
     (set_log [mkLogRecord INFO (IsrTask.msg_performing IsrDemo.sensorRef)]
        (IsrTask.task IsrDemo.fresh))
     false).
Proof.
  rewrite (isr_run_raises_at_first_amp (W := IsrDemo.parent_detector) IsrDemo.config
             IsrDemo.sensorRef IsrDemo.ccd IsrDemo.amp0 [IsrDemo.amp1] IsrDemo.fresh);
    [done | apply parent_detector_all_return | done | done | done].
Defined.

Lemma saturationInterpolation_calls_witness :
  IsrTask.events
    (exec_state (IsrTask.saturationInterpolation (W := IsrDemo.benign) IsrDemo.config
                   IsrDemo.raw) IsrDemo.transposing) =
  [TransposeMaskedImage IsrDemo.raw;
   InterpolateFromMask (Transposed IsrDemo.raw) 1%Q 1 "SAT";
   TransposeMaskedImage (Transposed IsrDemo.raw);
   SetMaskedImage IsrDemo.raw (Transposed (Transposed IsrDemo.raw))].
Proof.
  unfold exec_state.
  by rewrite (saturationInterpolation_calls (W := IsrDemo.benign) IsrDemo.config IsrDemo.raw
                IsrDemo.transposing benign_all_return).
Defined.

Lemma maskAndInterpDefect_calls_witness :
  IsrTask.maskAndInterpDefect (W := IsrDemo.benign) IsrDemo.config IsrDemo.raw
    (IsCcd IsrDemo.ccd) IsrDemo.fresh =
  (Normal tt,
   IsrTask.mkState
     [MaskPixelsFromDefectList IsrDemo.raw (DefectBoxes [mkBox2I 1 1 1 1]) "BAD";
      GetDefectListFromMask IsrDemo.raw "BAD" 1;
      InterpolateDefectList IsrDemo.raw (DefectsFromMask IsrDemo.raw "BAD" 1) 1%Q]
     (IsrTask.task IsrDemo.fresh) false).
Proof.
  by rewrite (maskAndInterpDefect_calls (W := IsrDemo.benign) IsrDemo.config IsrDemo.raw
                (IsCcd IsrDemo.ccd) IsrDemo.fresh benign_all_return).
Defined.

Lemma calibration_calls_witness :
  IsrTask.events
    (exec_state (IsrTask.darkCorrection (W := IsrDemo.benign) IsrDemo.raw IsrDemo.sensorRef)
       IsrDemo.fresh) =
  [ButlerGetItem IsrDemo.sensorRef "dark";
   DarkCorrection IsrDemo.raw (Dataset IsrDemo.sensorRef "dark") 30%Q 10%Q].
Proof.
  unfold exec_state.
  by rewrite (proj1 (calibration_calls (W := IsrDemo.benign) IsrDemo.config IsrDemo.raw
                       IsrDemo.sensorRef IsrDemo.fresh benign_all_return)).
Defined.
