(* ===== verification/IsrTaskWorlds.v ===== *)
(** * IsrTaskWorlds: collaborators that raise

    No method of [IsrTask] catches an exception. This file makes that
    precise by running a method against two behaviours of the code outside
    src/: the collaborators [W], of which any call may raise, and the same
    collaborators made quiet ([quiet W]): they give the same answers and
    never raise. [first_failure] finds, in a list of calls, the first one
    that raises in [W]; [replay] cuts an outcome and its calls there.

    [truncates c cq] says that [c] is [cq] cut at the first call that raises:
    it holds of every primitive step run in the two worlds and of every way
    the methods compose steps, hence of every method ([invoke_truncates]). *)

From Stdlib Require Import ZArith QArith Lia.
From stdpp Require Import base tactics option list strings gmap.
From S2P Require Import Prelude Image PipeBase IsrConfig IsrTask IsrFixtures IsrTaskSpec.

Import IsrTaskConfig.

Section Worlds.
Context {F : Type} (W : Collaborators F).

#[local] Abbreviation State := (IsrTask.State F).

(** The collaborators [W] when nothing goes wrong: the same answers, and no
    call raises. *)
Definition quiet : Collaborators F := {|
  fails := fun _ _ => None;
  getDetector := getDetector;
  getExptime := getExptime;
  getNpix := getNpix
|}.

(** The first call of [l], made after the calls [h], that raises: the calls
    up to it and the exception. *)
Fixpoint first_failure (h l : list (Event F)) : option (list (Event F) * exn) :=
  match l with
  | [] => None
  | ev :: l' =>
      match fails h ev with
      | Some e => Some ([ev], e)
      | None => prod_map (cons ev) id <$> first_failure (h ++ [ev]) l'
      end
  end.

(** An outcome and the calls that lead to it, cut at the first call that
    raises. *)
Definition replay {A} (h : list (Event F)) (r : outcome A * list (Event F))
  : outcome A * list (Event F) :=
  match first_failure h r.2 with
  | Some (l, e) => (Raised e, l)
  | None => r
  end.

(** [s'] is [s] after the calls [l]: the attribute is the same, the log and
    the metadata may differ. *)
Definition extends (l : list (Event F)) (s s' : State) : Prop :=
  IsrTask.events s' = IsrTask.events s ++ l /\
  IsrTask.transposeForInterpolation s' = IsrTask.transposeForInterpolation s.

(** [truncates c cq]: [cq] makes its calls and keeps the attribute; [c] does
    what [cq] does when none of these calls raises in [W], and otherwise
    raises the exception of the first that does, after the calls up to it. *)
Definition truncates {A} (c cq : Exec State A) : Prop :=
  forall s, exists l, extends l s (exec_state cq s) /\
    match first_failure (IsrTask.events s) l with
    | None => c s = cq s
    | Some (l', e) => exec_result c s = Raised e /\ extends l' s (exec_state c s)
    end.

(** ** The first failure *)

Lemma first_failure_app h l1 l2 :
  first_failure h (l1 ++ l2) =
    match first_failure h l1 with
    | Some x => Some x
    | None => prod_map (app l1) id <$> first_failure (h ++ l1) l2
    end.
Proof.
  revert h. induction l1 as [|ev l1 IH]; intros h; simpl.
  - rewrite app_nil_r. by destruct (first_failure h l2) as [[]|].
  - destruct (fails h ev); [done|]. rewrite IH, <- app_assoc. simpl.
    destruct (first_failure (h ++ [ev]) l1) as [[]|]; [done|].
    by destruct (first_failure _ l2) as [[]|].
Qed.

(** Every call before the first failure returns, the failure is the last
    call of the prefix, and the prefix is a prefix. *)
Lemma first_failure_Some h l l' e :
  first_failure h l = Some (l', e) ->
  exists p ev rest, l' = p ++ [ev] /\ l = l' ++ rest /\ fails (h ++ p) ev = Some e /\
                    first_failure h p = None.
Proof.
  revert h l'. induction l as [|ev l IH]; intros h l'; simpl; [done|].
  destruct (fails h ev) as [e'|] eqn:Hf.
  - intros [= <- <-]. exists [], ev, l. by rewrite app_nil_r.
  - destruct (first_failure (h ++ [ev]) l) as [[l1 e1]|] eqn:Hl; [|done].
    intros [= <- <-]. destruct (IH _ _ Hl) as (p & ev' & rest & -> & -> & Hfail & Hp).
    exists (ev :: p), ev', rest. rewrite <- app_assoc in Hfail. simpl. by rewrite Hf, Hp.
Qed.

Lemma first_failure_None h l :
  first_failure h l = None <->
  forall p ev rest, l = p ++ ev :: rest -> fails (h ++ p) ev = None.
Proof.
  revert h. induction l as [|ev l IH]; intros h; simpl.
  - split; [|done]. by intros _ [|] ? ?.
  - destruct (fails h ev) as [e|] eqn:Hf.
    + split; [done|]. intros Hall. specialize (Hall [] ev l eq_refl).
      rewrite app_nil_r in Hall. congruence.
    + destruct (first_failure (h ++ [ev]) l) as [[]|] eqn:Hl; simpl.
      * split; [done|]. intros Hall. rewrite (proj2 (IH (h ++ [ev]))) in Hl; [done|].
        intros p ev' rest ->. rewrite <- app_assoc. by apply (Hall (ev :: p) ev' rest).
      * split; [|done]. intros _ [|ev0 p] ev' rest [= <- Hl'].
        { by rewrite app_nil_r. }
        subst l. rewrite (app_assoc h [ev] p : h ++ ev :: p = (h ++ [ev]) ++ p).
        by eapply IH.
Qed.

(** Against collaborators that never raise, nothing is cut. *)
Lemma replay_all_return {A} h (r : outcome A * list (Event F)) :
  all_return (W := W) -> replay h r = r.
Proof.
  intros Hall. unfold replay.
  by rewrite (proj2 (first_failure_None h r.2)) by (intros; apply Hall).
Qed.

(** ** [extends] *)

Lemma extends_nil s : extends [] s s.
Proof. split; [by rewrite app_nil_r | done]. Qed.

Lemma extends_app l1 l2 s1 s2 s3 :
  extends l1 s1 s2 -> extends l2 s2 s3 -> extends (l1 ++ l2) s1 s3.
Proof. intros [He1 Ht1] [He2 Ht2]. split; [by rewrite He2, He1, app_assoc | congruence]. Qed.

(** ** The steps and the ways to compose them *)

(** A step that calls nothing is the same step in both worlds. *)
Lemma truncates_same {A} (c : Exec State A) :
  (forall s, extends [] s (exec_state c s)) -> truncates c c.
Proof. intros Hc s. exists []. by split; [apply Hc|]. Qed.

Lemma truncates_lift {A} (o : outcome A) : truncates (lift_outcome o) (lift_outcome o).
Proof. apply truncates_same. intros s. apply extends_nil. Qed.

Lemma truncates_gets {A} (f : State -> A) : truncates (gets f) (gets f).
Proof. apply truncates_same. intros s. apply extends_nil. Qed.

Lemma truncates_on_task {A} (c : Exec Task A) : truncates (on_task c) (on_task c).
Proof.
  apply truncates_same. intros s. rewrite IsrTask.on_task_state. split; simpl; [|done].
  by rewrite app_nil_r.
Qed.

Lemma truncates_load locals name :
  truncates (IsrTask.load locals name) (IsrTask.load locals name).
Proof.
  unfold IsrTask.load. destruct (assoc _ _); [apply (truncates_lift (Normal _))|].
  destruct (bool_decide _); [apply (truncates_lift (Normal _)) | apply (truncates_lift (Raised _))].
Qed.

(** A call raises in [W] or returns, and returns in [quiet]. *)
Lemma truncates_call ev :
  truncates (IsrTask.call (W := W) ev) (IsrTask.call (W := quiet) ev).
Proof.
  intros [h t b]. exists [ev]. split; [done|].
  unfold IsrTask.call, exec_result, exec_state. simpl.
  by destruct (fails h ev).
Qed.

Lemma truncates_bind {A B} (c cq : Exec State A) (k kq : A -> Exec State B) :
  truncates c cq -> (forall a, truncates (k a) (kq a)) -> truncates (bind c k) (bind cq kq).
Proof.
  intros Hc Hk s. destruct (Hc s) as (l1 & Hext & Hcut).
  unfold exec_result, exec_state, bind in *.
  destruct (cq s) as [[a|e] s1] eqn:Hq; simpl in *.
  - destruct (Hk a s1) as (l2 & Hext2 & Hcut2). exists (l1 ++ l2).
    split; [by eapply extends_app|]. rewrite first_failure_app.
    destruct (first_failure _ l1) as [[l' e]|].
    + destruct (c s) as [o s']. simpl in *. by destruct Hcut as [-> ?].
    + rewrite Hcut. rewrite <- (proj1 Hext).
      destruct (first_failure _ l2) as [[l' e]|]; simpl; [|done].
      destruct Hcut2 as [? Hext3]. split; [done | by eapply extends_app].
  - exists l1. split; [done|]. destruct (first_failure _ l1) as [[l' e']|].
    + destruct (c s) as [o s']. simpl in *. by destruct Hcut as [-> ?].
    + by rewrite Hcut.
Qed.

Lemma truncates_if {A} (b : bool) (c cq d dq : Exec State A) :
  truncates c cq -> truncates d dq ->
  truncates (if b then c else d) (if b then cq else dq).
Proof. by destruct b. Qed.

Lemma truncates_when (b : bool) (c cq : Exec State unit) :
  truncates c cq -> truncates (when_ b c) (when_ b cq).
Proof. destruct b; [done | intros _; apply (truncates_lift (Normal tt))]. Qed.

Lemma truncates_for_each {A} (body bodyq : A -> Exec State unit) (l : list A) :
  (forall x, truncates (body x) (bodyq x)) ->
  truncates (for_each body l) (for_each bodyq l).
Proof.
  intros Hb. induction l as [|x l IH]; simpl; [apply (truncates_lift (Normal tt))|].
  apply truncates_bind; [apply Hb | by intros _].
Qed.

(** A final block that writes to the log or the metadata. *)
Lemma truncates_finally {A} (c cq : Exec State A) (f : Task -> Task) :
  truncates c cq ->
  truncates (finally_ c (on_task (modify f))) (finally_ cq (on_task (modify f))).
Proof.
  intros Hc s. destruct (Hc s) as (l & Hext & Hcut). exists l.
  unfold exec_result, exec_state, finally_, on_task, zoom, modify in *.
  destruct (cq s) as [oq sq], (c s) as [o s']. simpl in *. split; [done|].
  destruct (first_failure _ l) as [[l' e]|]; [done|]. by simplify_eq.
Qed.

End Worlds.

Arguments quiet {F} W.

(** Splits a sequence of steps into its steps, for [truncates]. *)
Ltac truncates_step :=
  match goal with
  | |- forall _, _ => intros
  | |- truncates _ (bind _ _) _ => apply truncates_bind
  | |- truncates _ (when_ _ _) _ => apply truncates_when
  | |- truncates _ (finally_ _ _) _ => apply truncates_finally
  | |- truncates _ (if _ then _ else _) _ => apply truncates_if
  | |- truncates _ (for_each _ _) _ => apply truncates_for_each
  | |- truncates _ (ret _) _ => apply (truncates_lift _ (Normal _))
  | |- truncates _ (raise _) _ => apply (truncates_lift _ (Raised _))
  | |- truncates _ (lift_outcome _) _ => apply truncates_lift
  | |- truncates _ (gets _) _ => apply truncates_gets
  | |- truncates _ (on_task _) _ => apply truncates_on_task
  | |- truncates _ (IsrTask.call _) _ => apply truncates_call
  | |- truncates _ (IsrTask.load _ _) _ => apply truncates_load
  | |- truncates _ (IsrTask.getMaskedImage ?v) _ => destruct v; simpl
  | |- truncates _ (IsrTask.value_get ?v _) _ =>
      destruct v; simpl; unfold IsrTask.butler_get
  | |- truncates _ (IsrTask.as_defects ?v) _ => destruct v; simpl
  end.

Ltac truncates_steps := repeat truncates_step.

Section Methods.
Context {F : Type} (W : Collaborators F) {T : Timer} (config : IsrTaskConfig.t F).

(** Every method, run against [W], is the method run against [quiet W] cut
    at the first call that raises. *)
Lemma invoke_truncates (m : Method) :
  truncates W (invoke (W := W) config m) (invoke (W := quiet W) config m).
Proof. destruct m; simpl; unfold_methods; truncates_steps. Qed.

End Methods.
