(* ===== verification/IsrTaskContract.v ===== *)
(** * IsrTaskContract: the contract of [IsrTask] with its collaborators

    What a client and the collaborators of the task can rely on, method by
    method. [method_spec] gives, for each method and its arguments, the
    outcome and the list of calls in a world where the collaborators return;
    [invoke_refines_spec] proves that the methods of IsrTask.v implement it
    against any collaborators: a method makes the calls of the contract up
    to the first that raises and propagates its exception.
    Three properties of every sequence of method calls follow the same
    pattern, a relation on states that every primitive step respects:
    the calls carry the configured arguments ([calls_follow_config], with
    [event_ok]), and the log and the metadata are never read
    ([log_and_metadata_never_read], with [same_calls]). *)

From Stdlib Require Import ZArith QArith Lia.
From stdpp Require Import base tactics option list strings gmap.
From S2P Require Import Prelude Image PipeBase IsrConfig IsrTask IsrFixtures IsrTaskSpec.
From S2P Require Import IsrTaskWorlds.

Import IsrTaskConfig.

Section Contract.
Context {F : Type} {W : Collaborators F} {T : Timer} (config : IsrTaskConfig.t F).

#[local] Abbreviation State := (IsrTask.State F).

(** The arguments of a call are the configured ones: the mask planes, the
    footprint growths, the FWHM, the fit and scaling types come from the
    configuration; the overscan region is a view of the image it corrects;
    the datasets read and written are the documented ones, and nothing is
    written unless [doWrite] is set. *)
Definition event_ok (ev : Event F) : Prop :=
  match ev with
  | ButlerGet _ name => name = "raw" \/ name = "bias"
  | ButlerGetItem _ name => name = "dark" \/ name = "flat"
  | ButlerPut _ _ name => name = "visitCCD" /\ doWrite config = true
  | MakeThresholdMask _ _ grow name => grow = 0%Z /\ name = saturatedMaskName config
  | OverscanCorrection mi overscan fittype polyorder =>
      fittype = overscanFitType config /\ polyorder = overscanPolyOrder config /\
      exists bbox, overscan = View mi bbox
  | FlatCorrection _ _ scalingType userScale =>
      scalingType = flatScalingType config /\ userScale = flatUserScale config
  | SaturationCorrection _ _ w grow name | InterpolateFromMask _ w grow name =>
      w = fwhm config /\ grow = growSaturationFootprintSize config /\
      name = saturatedMaskName config
  | InterpolateDefectList _ _ w => w = fwhm config
  | MaskPixelsFromDefectList _ _ name => name = "BAD"
  | GetDefectListFromMask _ name grow =>
      (name = "BAD" \/ name = "UNMASKEDNAN") /\ grow = growDefectFootprintSize config
  | AddMaskPlane _ name => name = "UNMASKEDNAN"
  | Display name _ => name = "visitCCD"
  | _ => True
  end.

(** The fit type and the scaling type of a call are among the choices the
    configuration fields allow. *)
Definition choice_allowed (ev : Event F) : Prop :=
  match ev with
  | OverscanCorrection _ _ fittype _ => fittype ∈ overscanFitType_allowed
  | FlatCorrection _ _ scalingType _ => scalingType ∈ flatScalingType_allowed
  | _ => True
  end.

(** [calls_satisfy P s s']: [s'] is [s] after calls that all satisfy [P]. *)
Definition calls_satisfy (P : Event F -> Prop) (s s' : State) : Prop :=
  exists l, IsrTask.events s' = IsrTask.events s ++ l /\ Forall P l.

(** Two states of the task that differ in the log and the metadata only:
    the same calls were made, the attribute is the same, and the tasks have
    the same name and sub-tasks. *)
Definition same_calls (s1 s2 : State) : Prop :=
  IsrTask.events s1 = IsrTask.events s2 /\
  IsrTask.transposeForInterpolation s1 = IsrTask.transposeForInterpolation s2 /\
  same_identity (IsrTask.task s1) (IsrTask.task s2).

(** ** What each method does when the collaborators return *)

(** The loop of [run] over the amplifiers: it stops at the first
    sub-exposure that does not carry an amplifier. *)
Fixpoint loop_spec (ccdExp : Buffer) (amps : list (AmpGeom F))
  : outcome unit * list (Event F) :=
  match amps with
  | [] => (Normal tt, [])
  | amp :: amps' =>
      match getDetector (View ccdExp (getDiskAllPixels amp)) with
      | IsAmp amp' =>
          let (o, l) := loop_spec ccdExp amps' in
          (o, amp_events config ccdExp (getDiskAllPixels amp) amp' ++ l)
      | _ => (Raised (RuntimeError IsrTask.msg_amp_only),
              [MakeView ccdExp (getDiskAllPixels amp)])
      end
  end.

(** [run]: the raw exposure must carry a CCD; after the loop the method
    raises at [biasCorrection]. *)
Definition run_spec (sensorRef : DataRef) : outcome unit * list (Event F) :=
  let raw := Dataset sensorRef "raw" in
  match getDetector raw with
  | IsCcd c =>
      let (o, l) := loop_spec (FloatImage raw) (ccdAmps c) in
      (match o with Normal _ => Raised (NameError "sensorRef") | Raised e => Raised e end,
       [ButlerGet sensorRef "raw"; FloatImageFromInt raw] ++ l)
  | _ => (Raised TypeError, [ButlerGet sensorRef "raw"; FloatImageFromInt raw])
  end.

(** The interpolation that ends [maskAndInterpDefect], direct or on the
    transposed image. *)
Definition interpolation_calls (transpose : bool) (exposure : Buffer) (d : Defects)
  : list (Event F) :=
  if transpose then
    [TransposeMaskedImage exposure; TransposeDefectList d;
     InterpolateDefectList (Transposed exposure) (TransposedDefects d) (fwhm config);
     TransposeMaskedImage (Transposed exposure);
     SetMaskedImage exposure (Transposed (Transposed exposure))]
  else [InterpolateDefectList exposure d (fwhm config)].

(** The outcome of a method and the calls it makes, on a task in the state
    [s]. *)
Definition method_spec (m : Method) (s : State) : outcome unit * list (Event F) :=
  let amp_only := (Raised (RuntimeError IsrTask.msg_amp_only), []) in
  let transpose := IsrTask.transposeForInterpolation s in
  match m with
  | m_run r => run_spec r
  | m_biasCorrection _ _ => (Raised (NameError "sensorRef"), [])
  | m_darkCorrection e r =>
      let dark := Dataset r "dark" in
      (Normal tt, [ButlerGetItem r "dark";
                   DarkCorrection e dark (getExptime e) (getExptime dark)])
  | m_updateVariance _ _ => (Raised (NameError "ccdExp"), [])
  | m_flatCorrection e r =>
      (Normal tt, [ButlerGetItem r "flat";
                   FlatCorrection e (Dataset r "flat") (flatScalingType config)
                     (flatUserScale config)])
  | m_saturationCorrection e (IsAmp a) =>
      (Normal tt, [SaturationCorrection e (getSaturationLevel (ampElectronicParams a))
                     (fwhm config) (growSaturationFootprintSize config)
                     (saturatedMaskName config)])
  | m_saturationDetection e (IsAmp a) =>
      (Normal tt, [MakeThresholdMask e (getSaturationLevel (ampElectronicParams a)) 0
                     (saturatedMaskName config)])
  | m_overscanCorrection e (IsAmp a) =>
      (Normal tt, [MakeView e (getDiskBiasSec a);
                   OverscanCorrection e (View e (getDiskBiasSec a)) (overscanFitType config)
                     (overscanPolyOrder config)])
  | m_saturationCorrection _ _ | m_saturationDetection _ _ | m_overscanCorrection _ _ =>
      amp_only
  | m_saturationInterpolation e =>
      let interpolate mi := InterpolateFromMask mi (fwhm config)
                              (growSaturationFootprintSize config)
                              (saturatedMaskName config) in
      (Normal tt,
       if transpose then
         [TransposeMaskedImage e; interpolate (Transposed e);
          TransposeMaskedImage (Transposed e);
          SetMaskedImage e (Transposed (Transposed e))]
       else [interpolate e])
  | m_maskAndInterpDefect e d =>
      let grow := growDefectFootprintSize config in
      match IsrTask.getDefects d with
      | Normal boxes =>
          (Normal tt,
           [MaskPixelsFromDefectList e (DefectBoxes boxes) "BAD";
            GetDefectListFromMask e "BAD" grow] ++
           interpolation_calls transpose e (DefectsFromMask e "BAD" grow))
      | Raised err => (Raised err, [])
      end
  | m_maskAndInterpNan e =>
      let calls := [AddMaskPlane e "UNMASKEDNAN"; CountUnmaskedNans e] in
      let nnans := getNpix (IsrTask.events s ++ calls) in
      (if (nnans =? 0)%Z then Normal tt else Raised (RuntimeError (IsrTask.msg_nans nnans)),
       calls)
  end.

(** [implements c r s]: on the state [s], [c] has the outcome of [r] and adds
    the calls of [r], and leaves the attribute as it is. *)
Definition implements (c : Exec State unit) (r : outcome unit * list (Event F))
    (s : State) : Prop :=
  exec_result c s = r.1 /\
  IsrTask.events (exec_state c s) = IsrTask.events s ++ r.2 /\
  IsrTask.transposeForInterpolation (exec_state c s) = IsrTask.transposeForInterpolation s.

(** ** The relation [calls_satisfy] *)

#[export] Instance calls_satisfy_preorder P : PreOrder (calls_satisfy P).
Proof.
  split.
  - intros s. exists []. by rewrite app_nil_r.
  - intros s1 s2 s3 (l1 & He1 & Hl1) (l2 & He2 & Hl2).
    exists (l1 ++ l2). rewrite He2, He1, app_assoc. split; [done | by apply Forall_app].
Qed.

Lemma satisfy_call (P : Event F -> Prop) ev :
  P ev -> relates (calls_satisfy P) (IsrTask.call ev).
Proof. intros Hev s. rewrite IsrTask.call_state. exists [ev]. by repeat constructor. Qed.

Lemma satisfy_on_task P {A} (c : Exec Task A) : relates (calls_satisfy P) (on_task c).
Proof. intros s. rewrite IsrTask.on_task_state. exists []. simpl. by rewrite app_nil_r. Qed.

Lemma event_ok_allowed ev :
  validate config = Normal tt -> event_ok ev -> choice_allowed ev.
Proof.
  intros [Hf Ho]%validate_Normal. destruct ev; simpl; try done.
  - by intros (-> & _).
  - by intros (-> & _).
Qed.

(** ** The relation [same_calls] *)

#[export] Instance same_calls_equiv : Equivalence same_calls.
Proof.
  split.
  - by intros s.
  - by intros s1 s2 (He & Ht & Hi).
  - intros s1 s2 s3 (He1 & Ht1 & Hi1) (He2 & Ht2 & Hi2).
    split; [congruence|]. split; [congruence | by etrans].
Qed.

Lemma respects_call ev : respects same_calls (IsrTask.call ev).
Proof.
  intros [h1 t1 b1] [h2 t2 b2] (He & Ht & Hi). simpl in *. subst h2 b2.
  unfold exec_result, exec_state, IsrTask.call, same_calls. simpl.
  by destruct (fails _ _).
Qed.

Lemma on_task_result {A} (c : Exec Task A) (s : State) :
  exec_result (on_task c) s = exec_result c (IsrTask.task s).
Proof. unfold exec_result, on_task, zoom. simpl. by destruct (c (IsrTask.task s)). Qed.

(** A step on the log or the metadata whose outcome is fixed. *)
Lemma respects_on_task {A} (c : Exec Task A) o :
  (forall t, exec_result c t = o) -> keeps_identity c -> respects same_calls (on_task c).
Proof.
  intros Hc Hk s1 s2 (He & Ht & Hi).
  rewrite !on_task_result, !IsrTask.on_task_state, !Hc.
  split; [done|]. split; [done|]. split; [done|]. simpl.
  rewrite <- (Hk (IsrTask.task s2)). by rewrite <- (Hk (IsrTask.task s1)).
Qed.

(** Reading a sub-task: the same on two tasks with the same sub-tasks. *)
Lemma respects_getattr name : respects same_calls (on_task (getattr_subtask name)).
Proof.
  intros s1 s2 (He & Ht & Hi).
  rewrite !on_task_result, !IsrTask.on_task_state, !getattr_subtask_state.
  split; [by apply getattr_subtask_identity | done].
Qed.

Lemma respects_load locals name : respects same_calls (IsrTask.load locals name).
Proof.
  unfold IsrTask.load. destruct (assoc _ _); [apply respects_ret|].
  destruct (bool_decide _); [apply respects_ret | apply respects_raise].
Qed.

Lemma respects_as_defects v : respects same_calls (IsrTask.as_defects v).
Proof. destruct v; apply respects_raise || apply respects_ret. Qed.

Lemma respects_getMaskedImage v : respects same_calls (IsrTask.getMaskedImage v).
Proof. destruct v; apply respects_raise || apply respects_ret. Qed.

Lemma respects_value_get v name : respects same_calls (IsrTask.value_get v name).
Proof.
  destruct v; try apply respects_raise. unfold IsrTask.value_get, IsrTask.butler_get.
  apply respects_bind; [apply respects_call | intros; apply respects_ret].
Qed.

End Contract.

(** Splits a sequence of steps into its steps, for [calls_satisfy]. *)
Ltac satisfy_step :=
  match goal with
  | |- relates (calls_satisfy _) (on_task _) => apply satisfy_on_task
  | |- relates (calls_satisfy _) (IsrTask.call _) =>
      apply satisfy_call; simpl; repeat split; by eauto
  | _ => relates_step
  end.

Ltac satisfy_steps := repeat satisfy_step.

(** Runs the calls of a sequence of steps in a world where they return. *)
Ltac run_calls Hall :=
  unfold bind, lift_outcome, ret, gets, when_;
  repeat (rewrite (call_all_return _ _ Hall) || simpl);
  rewrite ?IsrTask.record_app; simpl.

(** The same for [respects same_calls]. *)
Ltac respects_step :=
  match goal with
  | |- forall _, _ => intros
  | |- respects _ (bind _ _) => apply respects_bind
  | |- respects _ (when_ _ _) => apply respects_when
  | |- respects _ (finally_ _ _) => apply respects_finally
  | |- respects _ (if _ then _ else _) => apply respects_if
  | |- respects _ (for_each _ _) => apply respects_for_each
  | |- respects _ (ret _) => apply respects_ret
  | |- respects _ (raise _) => apply respects_raise
  | |- respects _ (lift_outcome _) => apply respects_lift
  | |- respects _ (gets _) => apply respects_gets; by (intros ? ? (? & ? & ?); congruence)
  | |- respects _ (on_task (getattr_subtask _)) => apply respects_getattr
  | |- respects _ (on_task _) =>
      apply (respects_on_task _ (Normal tt)); [done | by auto with exec]
  | |- respects _ (IsrTask.call _) => apply respects_call
  | |- respects _ (IsrTask.load _ _) => apply respects_load
  | |- respects _ (IsrTask.as_defects _) => apply respects_as_defects
  | |- respects _ (IsrTask.getMaskedImage _) => apply respects_getMaskedImage
  | |- respects _ (IsrTask.value_get _ _) => apply respects_value_get
  end.

Ltac respects_steps := repeat respects_step.

Section Claims.
Context {F : Type} {W : Collaborators F} {T : Timer} (config : IsrTaskConfig.t F).

#[local] Abbreviation State := (IsrTask.State F).

(** ** The methods implement [method_spec] *)

Lemma implements_eq (c : Exec State unit) o l s :
  c s = (o, IsrTask.record l s) -> implements c (o, l) s.
Proof. intros Hc. unfold implements, exec_result, exec_state. by rewrite Hc. Qed.

Lemma loop_refines ccdExp amps (s : State) :
  all_return ->
  for_each (IsrTask.run_amp config ccdExp) amps s =
    ((loop_spec config ccdExp amps).1,
     IsrTask.record (loop_spec config ccdExp amps).2 s).
Proof.
  intros Hall. revert s. induction amps as [|amp amps IH]; intros s; simpl.
  { by rewrite IsrTask.record_nil. }
  destruct (getDetector (View ccdExp (getDiskAllPixels amp))) as [c|amp'|] eqn:Hd;
    [erewrite bind_raised; [done | by apply run_amp_not_amp; rewrite ?Hd] | |
     erewrite bind_raised; [done | by apply run_amp_not_amp; rewrite ?Hd]].
  erewrite bind_normal; [|by apply run_amp_returns]. rewrite IH.
  destruct (loop_spec config ccdExp amps) as [o l]. simpl. by rewrite IsrTask.record_app.
Qed.

(** [run] raises what [run_spec] says, after its log record and the calls
    of [run_spec]. *)
Lemma run_refines sensorRef (s : State) :
  all_return ->
  exists e, (run_spec config sensorRef).1 = Raised e /\
    IsrTask.run config sensorRef s =
      (Raised e,
       IsrTask.record (run_spec config sensorRef).2
         (exec_state (on_task (log INFO (IsrTask.msg_performing sensorRef))) s)).
Proof.
  intros Hall. unfold run_spec, IsrTask.run.
  erewrite bind_normal; [|done]. erewrite bind_normal; [|by unfold IsrTask.butler_get; run_calls Hall].
  erewrite bind_normal; [|by apply call_all_return].
  destruct (getDetector (Dataset sensorRef "raw")) as [c|a|] eqn:Hd; simpl;
    [| exists TypeError; by rewrite !IsrTask.record_app..].
  erewrite bind_normal; [|done].
  pose proof (loop_refines (FloatImage (Dataset sensorRef "raw")) (ccdAmps c)) as Hloop.
  destruct (loop_spec config _ (ccdAmps c)) as [[[]|e] l]; simpl in *.
  - exists (NameError "sensorRef"). split; [done|].
    erewrite bind_normal; [|by apply Hloop]. unfold IsrTask.run_ccd.
    erewrite bind_raised; [|apply IsrTask.biasCorrection_raises].
    by rewrite !IsrTask.record_app.
  - exists e. split; [done|]. erewrite bind_raised; [|by apply Hloop].
    by rewrite !IsrTask.record_app.
Qed.

Lemma timed_run_refines sensorRef (s : State) :
  all_return -> implements (invoke config (m_run sensorRef)) (run_spec config sensorRef) s.
Proof.
  intros Hall. unfold implements, exec_result, exec_state. simpl.
  unfold IsrTask.timed_run, timeMethod, bind, finally_, on_task, zoom, modify. simpl.
  destruct (run_refines sensorRef
              (IsrTask.mkState (IsrTask.events s) (logInfo ("run" +:+ "Start") (IsrTask.task s))
                 (IsrTask.transposeForInterpolation s)) Hall) as (e & -> & ->).
  done.
Qed.

(** When no collaborator raises, each method returns or raises what
    [method_spec] says and makes the calls [method_spec] lists. *)
Lemma invoke_implements (m : Method) (s : State) :
  all_return -> implements (invoke config m) (method_spec config m s) s.
Proof.
  intros Hall. destruct m as [r|e r|e r|e d|e r|e d|e d|e|e d|e|e d]; simpl.
  - by apply timed_run_refines.
  - apply implements_eq. by rewrite IsrTask.biasCorrection_raises, IsrTask.record_nil.
  - apply implements_eq. unfold_methods. by run_calls Hall.
  - apply implements_eq. unfold_methods. by rewrite IsrTask.record_nil.
  - apply implements_eq. unfold_methods. by run_calls Hall.
  - destruct d; apply implements_eq; unfold_methods; run_calls Hall;
      by rewrite ?IsrTask.record_nil.
  - destruct d; apply implements_eq; unfold_methods; run_calls Hall;
      by rewrite ?IsrTask.record_nil.
  - apply implements_eq. unfold_methods. unfold bind at 1, gets.
    by destruct (IsrTask.transposeForInterpolation s); run_calls Hall.
  - unfold_methods. destruct (IsrTask.getDefects d) as [boxes|err];
      [|apply implements_eq; by rewrite IsrTask.record_nil].
    apply implements_eq. run_calls Hall. unfold interpolation_calls.
    by destruct (IsrTask.transposeForInterpolation s); run_calls Hall.
  - unfold implements, exec_result, exec_state, IsrTask.maskAndInterpNan. run_calls Hall.
    rewrite <- !app_assoc. simpl. set (nnans := getNpix _).
    by destruct (Z.eqb_spec nnans 0) as [->|Hn].
  - destruct d; apply implements_eq; unfold_methods; run_calls Hall;
      by rewrite ?IsrTask.record_nil.
Qed.

(** C28: the log and the metadata are write-only: two tasks that differ in
    them only are not told apart by any method. Called with the same
    arguments, a method returns or raises the same on both, makes the same
    calls to the collaborators with the same arguments, and leaves the
    attribute [transposeForInterpolation], the name and the sub-tasks
    equal; what the timer and the methods record never flows back into what
    the task does. *)
Theorem log_and_metadata_never_read (m : Method) (s1 s2 : State) :
  same_calls s1 s2 ->
  exec_result (invoke config m) s1 = exec_result (invoke config m) s2 /\
  same_calls (exec_state (invoke config m) s1) (exec_state (invoke config m) s2).
Proof.
  revert s1 s2. change (respects same_calls (invoke config m)).
  destruct m; simpl; unfold_methods; respects_steps.
Qed.

Lemma invoke_event_ok m : relates (calls_satisfy (event_ok config)) (invoke config m).
Proof.
  destruct m; simpl; unfold_methods; destruct (doWrite config) eqn:Hw; satisfy_steps.
Qed.

(** C27: every call the task ever makes carries the configured arguments. In
    every state a task reaches from [__init__] by calls of its methods, each
    call made to a collaborator has the mask planes, growths, FWHM, fit type
    and scaling type of the configuration, corrects the overscan over a view
    of the image it is given, and reads and writes the documented datasets
    only; and when the configuration validates, the fit and scaling types
    passed on are among the allowed choices. *)
Theorem calls_follow_config (s : State) :
  reachable config s ->
  Forall (event_ok config) (IsrTask.events s) /\
  (validate config = Normal tt -> Forall choice_allowed (IsrTask.events s)).
Proof.
  intros Hr. assert (Forall (event_ok config) (IsrTask.events s)) as Hok.
  { induction Hr as [|s m _ IH]; [constructor|].
    destruct (invoke_event_ok m s) as (l & -> & Hl). by apply Forall_app. }
  split; [done|]. intros Hv. eapply Forall_impl; [done|]. intros ev. by apply event_ok_allowed.
Qed.

End Claims.

(** ** The contract when collaborators raise *)

Section AnyWorld.
Context {F : Type} (W : Collaborators F) {T : Timer} (config : IsrTaskConfig.t F).

Lemma quiet_all_return : all_return (W := quiet W).
Proof. done. Qed.

(** C4: the methods of the task implement [method_spec], whatever the
    collaborators do. Each method, called with any arguments on a task in
    any state, makes the calls [method_spec] lists, in that order and with
    those arguments, up to the first call that raises; it then raises the
    exception of that call and calls nothing more, and when no call raises
    it returns or raises what [method_spec] says. The attribute
    [transposeForInterpolation] is left as it is. This covers the guards of
    the amplifier-only methods, the two methods that raise [NameError], the
    direct and the transposed interpolation, the count of NaN pixels, and
    for [run] under its decorator the amplifier at which it stops. *)
Theorem invoke_refines_spec (m : Method) (s : IsrTask.State F) :
  let r := replay W (IsrTask.events s) (method_spec config m s) in
  exec_result (invoke config m) s = r.1 /\
  IsrTask.events (exec_state (invoke config m) s) = IsrTask.events s ++ r.2 /\
  IsrTask.transposeForInterpolation (exec_state (invoke config m) s) =
    IsrTask.transposeForInterpolation s.
Proof.
  destruct (invoke_truncates W config m s) as (l & [He Ht] & Hcut).
  destruct (invoke_implements (W := quiet W) config m s quiet_all_return) as (Ho & He' & _).
  change (method_spec (W := quiet W) config m s) with (method_spec config m s) in *.
  rewrite He' in He. apply app_inv_head in He. subst l. unfold replay. simpl.
  destruct (first_failure W _ _) as [[l' e]|]; simpl.
  - by destruct Hcut as (-> & -> & ->).
  - unfold exec_result, exec_state in *. by rewrite Hcut.
Qed.

End AnyWorld.

(** ** The theorems at the camera of IsrFixtures *)

Lemma log_and_metadata_never_read_witness :
  let logged :=
    IsrTask.mkState [] (set_log [mkLogRecord DEBUG (Msg "started" [])]
                          (IsrTask.task IsrDemo.fresh)) false in
  let m := m_run IsrDemo.sensorRef in
  exec_result (invoke (W := IsrDemo.benign) (T := IsrDemo.timer) IsrDemo.config m) logged =
    Raised (NameError "sensorRef") /\
  length (IsrTask.events
    (exec_state (invoke (W := IsrDemo.benign) (T := IsrDemo.timer) IsrDemo.config m) logged))
  = 10%nat.
Proof.
  intros logged m.
  destruct (log_and_metadata_never_read (W := IsrDemo.benign) (T := IsrDemo.timer)
              IsrDemo.config m logged IsrDemo.fresh) as [Ho [He _]]; [done|].
  by rewrite Ho, He.
Defined.

Lemma calls_follow_config_witness :
  let s := exec_state (invoke (W := IsrDemo.benign) (T := IsrDemo.timer) IsrDemo.config
                         (m_flatCorrection IsrDemo.raw IsrDemo.sensorRef))
             (exec_state (invoke (W := IsrDemo.benign) (T := IsrDemo.timer) IsrDemo.config
                            (m_run IsrDemo.sensorRef)) IsrDemo.fresh) in
  Forall (event_ok IsrDemo.config) (IsrTask.events s) /\
  Forall choice_allowed (IsrTask.events s).
Proof.
  intros s.
  destruct (calls_follow_config (W := IsrDemo.benign) (T := IsrDemo.timer) IsrDemo.config s)
    as [Hok Hallowed]; [apply reachable_invoke, reachable_invoke, reachable_init|].
  split; [exact Hok | by apply Hallowed].
Defined.

Lemma invoke_refines_spec_witness :
  let run W := invoke (W := W) (T := IsrDemo.timer) IsrDemo.config (m_run IsrDemo.sensorRef) in
  let view amp := View (FloatImage IsrDemo.raw) (getDiskAllPixels amp) in
  (exec_result (run IsrDemo.parent_detector) IsrDemo.fresh =
     Raised (RuntimeError IsrTask.msg_amp_only) /\
   IsrTask.events (exec_state (run IsrDemo.parent_detector) IsrDemo.fresh) =
     [ButlerGet IsrDemo.sensorRef "raw"; FloatImageFromInt IsrDemo.raw;
      MakeView (FloatImage IsrDemo.raw) (getDiskAllPixels IsrDemo.amp0)]) /\
  (exec_result (run IsrDemo.no_raw) IsrDemo.fresh = Raised (ExternalError "get") /\
   IsrTask.events (exec_state (run IsrDemo.no_raw) IsrDemo.fresh) =
     [ButlerGet IsrDemo.sensorRef "raw"]) /\
  (exec_result (run IsrDemo.second_overscan_raises) IsrDemo.fresh =
     Raised (ExternalError "overscanCorrection") /\
   last (IsrTask.events (exec_state (run IsrDemo.second_overscan_raises) IsrDemo.fresh)) =
     Some (OverscanCorrection (view IsrDemo.amp1)
             (View (view IsrDemo.amp1) (getDiskBiasSec IsrDemo.amp1)) "MEDIAN" 1)).
Proof.
  intros run view.
  destruct (invoke_refines_spec IsrDemo.parent_detector (T := IsrDemo.timer)
              IsrDemo.config (m_run IsrDemo.sensorRef) IsrDemo.fresh) as (Ho1 & He1 & _).
  destruct (invoke_refines_spec IsrDemo.no_raw (T := IsrDemo.timer)
              IsrDemo.config (m_run IsrDemo.sensorRef) IsrDemo.fresh) as (Ho2 & He2 & _).
  destruct (invoke_refines_spec IsrDemo.second_overscan_raises (T := IsrDemo.timer)
              IsrDemo.config (m_run IsrDemo.sensorRef) IsrDemo.fresh) as (Ho3 & He3 & _).
  split; [split; [exact Ho1 | exact He1]|].
  split; [split; [exact Ho2 | exact He2]|].
  split; [exact Ho3 | unfold run; by rewrite He3].
Defined.
